(** * Rucbase storage core: disk manager, LRU replacer, buffer pool,
      record file handle and record scan.

    A shallow embedding of
      src/storage/disk_manager.cpp, src/replacer/lru_replacer.cpp,
      src/storage/buffer_pool_manager.cpp, src/record/rm_file_handle.cpp and
      src/record/rm_scan.cpp.

    C++ objects become records, member functions become computations in a
    state-and-exception monad over the object they belong to.  A [Page*] is
    the index of the frame in [pages_]; page memory is a list of bytes (each a
    Z in 0..255) on which the page header is read and written as two
    little-endian 32-bit integers.  The kernel under the disk manager (files,
    descriptors, file offsets) is a small model of the POSIX calls the code
    makes, with a trace of the opens, reads and writes performed. *)

From stdpp Require Import gmap strings list fin_maps.
From Stdlib Require Import ZArith Lia.

Local Open Scope Z_scope.

(** ** Exceptions and the state monad *)

(** The exception classes the sources throw.  [Undefined] stands for
    behaviour the C++ standard leaves undefined (an access outside a buffer or
    outside [pages_], signed overflow, a failed [assert]). *)
Inductive exn : Type :=
  | InternalError
  | FileNotFoundError
  | FileExistsError
  | FileNotOpenError
  | UnixError
  | RuntimeError
  | Undefined.

Inductive outcome (A : Type) : Type :=
  | Ret (a : A)
  | Throw (e : exn).
Arguments Ret {A} a.
Arguments Throw {A} e.

(** A member function of an object of state [S] with result type [A]: it may
    return or throw, and in both cases leaves a state behind. *)
Definition M (S A : Type) : Type := S -> outcome A * S.

Definition ret {S A} (a : A) : M S A := fun s => (Ret a, s).

Definition bind {S A B} (m : M S A) (k : A -> M S B) : M S B :=
  fun s => match m s with
           | (Ret a, s') => k a s'
           | (Throw e, s') => (Throw e, s')
           end.

Definition throw {S A} (e : exn) : M S A := fun s => (Throw e, s).
Definition get {S} : M S S := fun s => (Ret s, s).
Definition put {S} (s : S) : M S unit := fun _ => (Ret tt, s).
Definition modify {S} (f : S -> S) : M S unit := fun s => (Ret tt, f s).

(** Running a member function of a sub-object (a field reached through a
    pointer the object owns). *)
Definition zoom {S T A} (proj : S -> T) (upd : T -> S -> S) (m : M T A) : M S A :=
  fun s => let '(r, t) := m (proj s) in (r, upd t s).

(** A read or write through a pointer that may be out of bounds. *)
Definition defined {S A} (o : option A) : M S A :=
  match o with Some a => ret a | None => throw Undefined end.

Declare Scope cpp_scope.
Delimit Scope cpp_scope with cpp.
Notation "'let*' x ':=' c 'in' k" := (bind c (fun x => k))
  (at level 10, x name, c at level 100, k at level 200) : cpp_scope.
Notation "c ';;' k" := (bind c (fun _ => k))
  (at level 100, k at level 200, right associativity) : cpp_scope.
Local Open Scope cpp_scope.

(** A caller that runs [f] on each element of [l] in turn and collects the
    results. *)
Fixpoint for_all {S A B} (f : A -> M S B) (l : list A) : M S (list B) :=
  match l with
  | [] => ret []
  | a :: l' =>
      let* b := f a in
      let* r := for_all f l' in
      ret (b :: r)
  end.

(** ** Machine integers *)

Definition INT_MAX : Z := 2147483647.
Definition INT_MIN : Z := -2147483648.

(** Signed [int] addition; overflow is undefined behaviour. *)
Definition int_add {S} (a b : Z) : M S Z :=
  if bool_decide (INT_MIN <= a + b <= INT_MAX) then ret (a + b) else throw Undefined.

(** The value of four bytes read as a little-endian two's complement int. *)
Definition wrap32 (x : Z) : Z := (x + 2147483648) mod 4294967296 - 2147483648.

Definition decode_i32 (bs : list Z) : Z :=
  match bs with
  | [b0; b1; b2; b3] => wrap32 (b0 + 256 * b1 + 65536 * b2 + 16777216 * b3)
  | _ => 0
  end.

Definition encode_i32 (v : Z) : list Z :=
  [v mod 256; (v / 256) mod 256; (v / 65536) mod 256; (v / 16777216) mod 256].

(** ** Raw memory: a buffer is a list of bytes *)

(** [len] bytes starting at [off], when they lie inside the buffer. *)
Definition mem_read (buf : list Z) (off len : Z) : option (list Z) :=
  if bool_decide (0 <= off /\ 0 <= len /\ off + len <= Z.of_nat (length buf))
  then Some (take (Z.to_nat len) (drop (Z.to_nat off) buf))
  else None.

(** memcpy of [bs] to offset [off], when the target lies inside the buffer. *)
Definition mem_write (buf : list Z) (off : Z) (bs : list Z) : option (list Z) :=
  if bool_decide (0 <= off /\ off + Z.of_nat (length bs) <= Z.of_nat (length buf))
  then Some (take (Z.to_nat off) buf ++ bs ++ drop (Z.to_nat off + length bs) buf)
  else None.

Definition zeros (n : Z) : list Z := replicate (Z.to_nat n) 0.

(** memset(buf + off, 0, n); a negative count is out of bounds. *)
Definition mem_zero (buf : list Z) (off n : Z) : option (list Z) :=
  if bool_decide (0 <= n) then mem_write buf off (zeros n) else None.

(** ** The kernel below the disk manager *)

Inductive event : Type :=
  | EvOpen (path : string) (fd : Z)
  | EvClose (fd : Z)
  | EvRead (fd off : Z) (bytes : list Z)
  | EvWrite (fd off : Z) (bytes : list Z).

(** Regular files by path, the descriptor table (path and file offset of each
    open descriptor) and the data-transfer events so far, oldest first. *)
Record Kernel : Type := mkKernel {
  files : gmap string (list Z);
  fdtab : gmap Z (string * Z);
  trace : list event
}.

Definition log_event (e : event) (k : Kernel) : Kernel :=
  mkKernel (files k) (fdtab k) (trace k ++ [e]).

(** stat(path).st_size, or None when stat fails. *)
Definition sys_stat (path : string) (k : Kernel) : option Z :=
  (fun c => Z.of_nat (length c)) <$> files k !! path.

(** fstat(fd).st_size, or None when fstat fails. *)
Definition sys_fstat (fd : Z) (k : Kernel) : option Z :=
  match fdtab k !! fd with
  | Some (p, _) => sys_stat p k
  | None => None
  end.

(** The lowest descriptor that is not open. *)
Definition lowest_free (tab : gmap Z (string * Z)) : Z :=
  default (Z.of_nat (size tab))
    (find (fun fd => bool_decide (tab !! fd = None)) (seqZ 0 (Z.of_nat (size tab)))).

(** open(path, O_RDWR): the new descriptor, or -1. *)
Definition sys_open (path : string) : M Kernel Z :=
  fun k =>
    match files k !! path with
    | None => (Ret (-1), k)
    | Some _ =>
        let fd := lowest_free (fdtab k) in
        (Ret fd, log_event (EvOpen path fd)
                   (mkKernel (files k) (<[fd := (path, 0)]> (fdtab k)) (trace k)))
    end.

(** close(fd): 0, or -1 when fd is not open. *)
Definition sys_close (fd : Z) : M Kernel Z :=
  fun k =>
    match fdtab k !! fd with
    | None => (Ret (-1), k)
    | Some _ =>
        (Ret 0, log_event (EvClose fd)
                  (mkKernel (files k) (delete fd (fdtab k)) (trace k)))
    end.

(** lseek(fd, off, SEEK_SET): the new offset, or -1. *)
Definition sys_lseek (fd off : Z) : M Kernel Z :=
  fun k =>
    match fdtab k !! fd with
    | Some (p, _) =>
        if bool_decide (0 <= off)
        then (Ret off, mkKernel (files k) (<[fd := (p, off)]> (fdtab k)) (trace k))
        else (Ret (-1), k)
    | None => (Ret (-1), k)
    end.

(** The content of a file after [bs] is written at offset [off]: a gap
    between the old end of the file and [off] reads as zeros. *)
Definition splice (content : list Z) (off : nat) (bs : list Z) : list Z :=
  take off (content ++ replicate (off - length content) 0)
    ++ bs ++ drop (off + length bs) content.

(** write(fd, bs, |bs|) at the file offset: the number of bytes written, or
    -1.  A regular file takes all the bytes; a write of no bytes changes
    nothing. *)
Definition sys_write (fd : Z) (bs : list Z) : M Kernel Z :=
  fun k =>
    match fdtab k !! fd with
    | Some (p, off) =>
        match files k !! p with
        | Some content =>
            let n := Z.of_nat (length bs) in
            let content' := if bool_decide (bs = []) then content
                            else splice content (Z.to_nat off) bs in
            (Ret n, log_event (EvWrite fd off bs)
                      (mkKernel (<[p := content']> (files k))
                                (<[fd := (p, off + n)]> (fdtab k)) (trace k)))
        | None => (Ret (-1), k)
        end
    | None => (Ret (-1), k)
    end.

(** read(fd, _, n) at the file offset: the bytes read (fewer than [n] at the
    end of the file), or None for -1. *)
Definition sys_read (fd n : Z) : M Kernel (option (list Z)) :=
  fun k =>
    match fdtab k !! fd with
    | Some (p, off) =>
        match files k !! p with
        | Some content =>
            let bs := take (Z.to_nat n) (drop (Z.to_nat off) content) in
            (Ret (Some bs), log_event (EvRead fd off bs)
                   (mkKernel (files k)
                             (<[fd := (p, off + Z.of_nat (length bs))]> (fdtab k))
                             (trace k)))
        | None => (Ret None, k)
        end
    | None => (Ret None, k)
    end.

(** ** DiskManager (src/storage/disk_manager.cpp) *)

Definition MAX_FD : Z := 1024.

(** [fd2pageno_] and [fd_occupied_] are arrays of MAX_FD entries: a map that
    reads 0 where it has no entry, and the set of indices that hold true.
    [path2fd_] and [fd2path_] are the two unordered maps. *)
Record DiskManager : Type := mkDiskManager {
  kernel : Kernel;
  fd2pageno_ : gmap Z Z;
  fd_occupied_ : gset Z;
  fd2path_ : gmap Z string;
  path2fd_ : gmap string Z
}.

(** DiskManager::DiskManager() over a given kernel state. *)
Definition DiskManager_new (k : Kernel) : DiskManager :=
  mkDiskManager k ∅ ∅ ∅ ∅.

Definition sys {A} (m : M Kernel A) : M DiskManager A :=
  zoom kernel
    (fun k dm => mkDiskManager k (fd2pageno_ dm) (fd_occupied_ dm) (fd2path_ dm) (path2fd_ dm))
    m.

(** PAGE_SIZE and INVALID_PAGE_ID come from common/config.h, which is not
    among the sources; the code is modelled for any values of the two. *)
Class Config : Type := mkConfig {
  PAGE_SIZE : Z;
  INVALID_PAGE_ID : Z
}.

Section Storage.

Context {cfg : Config}.

(** DiskManager::write_page.  [offset] is the memory at the pointer passed
    in; reading [num_bytes] from it must stay inside it. *)
Definition write_page (fd page_no : Z) (offset : list Z) (num_bytes : Z)
  : M DiskManager unit :=
  let page_offset := page_no * PAGE_SIZE in
  let* r := sys (sys_lseek fd page_offset) in
  if bool_decide (r = -1) then throw InternalError else
  let* bs := defined (mem_read offset 0 num_bytes) in
  let* bytes_written := sys (sys_write fd bs) in
  if bool_decide (bytes_written ≠ num_bytes) then throw InternalError else
  ret tt.

(** DiskManager::read_page, with the memory that the call leaves at the
    pointer in every case.  [offset] is the memory at the pointer passed in;
    the result is that memory after the call and the exception the call
    throws, if any.  read() stores the bytes it read before their number is
    compared with [num_bytes], so a short read changes the memory and then
    throws. *)
Definition read_page_mem (fd page_no : Z) (offset : list Z) (num_bytes : Z)
  : M DiskManager (list Z * option exn) :=
  let page_offset := page_no * PAGE_SIZE in
  let* dm := get in
  match sys_fstat fd (kernel dm) with
  | None => ret (offset, Some InternalError)
  | Some st_size =>
      if bool_decide (page_offset >= st_size)
      then let* d := defined (mem_zero offset 0 num_bytes) in ret (d, None)
      else
        let* r := sys (sys_lseek fd page_offset) in
        if bool_decide (r = -1) then ret (offset, Some InternalError) else
        let* got := sys (sys_read fd num_bytes) in
        match got with
        | None => ret (offset, Some InternalError)
        | Some bs =>
            let* d := defined (mem_write offset 0 bs) in
            if bool_decide (Z.of_nat (length bs) ≠ num_bytes)
            then ret (d, Some InternalError)
            else ret (d, None)
        end
  end.

(** DiskManager::read_page as a computation that throws.  [offset] is the
    memory at the pointer passed in; the result is that memory after the
    call. *)
Definition read_page (fd page_no : Z) (offset : list Z) (num_bytes : Z)
  : M DiskManager (list Z) :=
  let* r := read_page_mem fd page_no offset num_bytes in
  match r.2 with
  | Some e => throw e
  | None => ret r.1
  end.

(** The memory at [offset] after read_page, whether the call returned or
    threw. *)
Definition read_page_memory (fd page_no : Z) (offset : list Z) (num_bytes : Z)
    (dm : DiskManager) : list Z :=
  match read_page_mem fd page_no offset num_bytes dm with
  | (Ret r, _) => r.1
  | (Throw _, _) => offset
  end.

(** DiskManager::allocate_page: [fd2pageno_[fd]++] behind the assert. *)
Definition allocate_page (fd : Z) : M DiskManager Z :=
  if bool_decide (0 <= fd < MAX_FD) then
    let* dm := get in
    let n := default 0 (fd2pageno_ dm !! fd) in
    let* n' := int_add n 1 in
    put (mkDiskManager (kernel dm) (<[fd := n']> (fd2pageno_ dm))
           (fd_occupied_ dm) (fd2path_ dm) (path2fd_ dm));;
    ret n
  else throw Undefined.

(** DiskManager::is_file. *)
Definition is_file (path : string) (dm : DiskManager) : bool :=
  bool_decide (is_Some (sys_stat path (kernel dm))).

(** DiskManager::open_file. *)
Definition open_file (path : string) : M DiskManager Z :=
  let* dm := get in
  if negb (is_file path dm) then throw FileNotFoundError else
  let* fd := sys (sys_open path) in
  if bool_decide (fd = -1) then throw UnixError else
  if bool_decide (fd >= MAX_FD) then (sys (sys_close fd);; throw InternalError) else
  let* dm := get in
  if bool_decide (fd ∈ fd_occupied_ dm) then (sys (sys_close fd);; throw InternalError) else
  put (mkDiskManager (kernel dm) (fd2pageno_ dm) ({[fd]} ∪ fd_occupied_ dm)
         (<[fd := path]> (fd2path_ dm)) (path2fd_ dm));;
  ret fd.

(** DiskManager::close_file. *)
Definition close_file (fd : Z) : M DiskManager unit :=
  if bool_decide (fd < 0 \/ fd >= MAX_FD) then throw InternalError else
  let* dm := get in
  if bool_decide (fd ∉ fd_occupied_ dm) then throw InternalError else
  let* r := sys (sys_close fd) in
  if bool_decide (r = -1) then throw UnixError else
  let* dm := get in
  put (mkDiskManager (kernel dm) (fd2pageno_ dm) (fd_occupied_ dm ∖ {[fd]})
         (delete fd (fd2path_ dm)) (path2fd_ dm)).

(** DiskManager::get_file_fd. *)
Definition get_file_fd (file_name : string) : M DiskManager Z :=
  let* dm := get in
  match path2fd_ dm !! file_name with
  | None => open_file file_name
  | Some fd => ret fd
  end.

(** ** LRUReplacer (src/replacer/lru_replacer.cpp) *)

(** A frame id indexes [pages_]; the ids in use are array indices, kept as
    natural numbers.  [LRUlist_] is the std::list, front first.  [LRUhash_]
    maps a frame id to the list node that holds it: its key set is kept, and
    erasing through the stored iterator removes the node holding that id. *)
Record LRUReplacer : Type := mkLRU {
  LRUlist_ : list nat;
  LRUhash_ : gset nat;
  max_size_ : nat
}.

Definition LRUReplacer_new (num_pages : nat) : LRUReplacer := mkLRU [] ∅ num_pages.

(** std::list::erase at the node that holds [f]. *)
Fixpoint erase_node (f : nat) (l : list nat) : list nat :=
  match l with
  | [] => []
  | x :: r => if decide (x = f) then r else x :: erase_node f r
  end.

(** LRUReplacer::victim: None for false, Some frame for true with the frame
    stored through the pointer. *)
Definition victim : M LRUReplacer (option nat) :=
  let* r := get in
  match last (LRUlist_ r) with
  | None => ret None
  | Some frame_id =>
      put (mkLRU (removelast (LRUlist_ r)) (LRUhash_ r ∖ {[frame_id]}) (max_size_ r));;
      ret (Some frame_id)
  end.

(** LRUReplacer::pin. *)
Definition pin (frame_id : nat) : M LRUReplacer unit :=
  let* r := get in
  if bool_decide (frame_id ∈ LRUhash_ r)
  then put (mkLRU (erase_node frame_id (LRUlist_ r)) (LRUhash_ r ∖ {[frame_id]}) (max_size_ r))
  else ret tt.

(** LRUReplacer::unpin. *)
Definition unpin (frame_id : nat) : M LRUReplacer unit :=
  let* r := get in
  if bool_decide (frame_id ∈ LRUhash_ r) then ret tt
  else put (mkLRU (frame_id :: LRUlist_ r) ({[frame_id]} ∪ LRUhash_ r) (max_size_ r)).

(** LRUReplacer::Size. *)
Definition Size (r : LRUReplacer) : nat := length (LRUlist_ r).

(** ** BufferPoolManager (src/storage/buffer_pool_manager.cpp) *)

Record PageId : Type := mkPageId { fd : Z; page_no : Z }.

#[global] Instance PageId_eq_dec : EqDecision PageId.
Proof. solve_decision. Defined.

#[global] Instance PageId_countable : Countable PageId.
Proof.
  refine (inj_countable' (fun p => (fd p, page_no p)) (fun t => mkPageId t.1 t.2) _).
  intros []; reflexivity.
Defined.

Record Page : Type := mkPage {
  id_ : PageId;
  data_ : list Z;
  is_dirty_ : bool;
  pin_count_ : Z
}.

Record BufferPoolManager : Type := mkBPM {
  pool_size_ : nat;
  pages_ : list Page;
  page_table_ : gmap PageId nat;
  free_list_ : list nat;
  disk_manager_ : DiskManager;
  replacer_ : LRUReplacer
}.

Definition with_pages (ps : list Page) (b : BufferPoolManager) : BufferPoolManager :=
  mkBPM (pool_size_ b) ps (page_table_ b) (free_list_ b) (disk_manager_ b) (replacer_ b).
Definition with_page_table (t : gmap PageId nat) (b : BufferPoolManager) : BufferPoolManager :=
  mkBPM (pool_size_ b) (pages_ b) t (free_list_ b) (disk_manager_ b) (replacer_ b).
Definition with_free_list (l : list nat) (b : BufferPoolManager) : BufferPoolManager :=
  mkBPM (pool_size_ b) (pages_ b) (page_table_ b) l (disk_manager_ b) (replacer_ b).
Definition with_disk_manager (d : DiskManager) (b : BufferPoolManager) : BufferPoolManager :=
  mkBPM (pool_size_ b) (pages_ b) (page_table_ b) (free_list_ b) d (replacer_ b).
Definition with_replacer (r : LRUReplacer) (b : BufferPoolManager) : BufferPoolManager :=
  mkBPM (pool_size_ b) (pages_ b) (page_table_ b) (free_list_ b) (disk_manager_ b) r.

(** A page with its dirty flag cleared. *)
Definition clean (pg : Page) : Page :=
  mkPage (id_ pg) (data_ pg) false (pin_count_ pg).

(** Modelled from the spec: the constructor (buffer_pool_manager.h) is not
    among the sources.  An empty pool of [pool_size] frames: no page is
    cached, every frame is on the free list, no frame is evictable; a fresh
    frame holds zeroed memory, the invalid page id, no pin and no dirty
    flag. *)
Definition BufferPoolManager_new (pool_size : nat) (dm : DiskManager) : BufferPoolManager :=
  mkBPM pool_size
    (replicate pool_size
       (mkPage (mkPageId INVALID_PAGE_ID INVALID_PAGE_ID) (zeros PAGE_SIZE) false 0))
    ∅ (seq 0 pool_size) dm (LRUReplacer_new pool_size).

(** Calls through [disk_manager_] and [replacer_]. *)
Definition on_disk {A} (m : M DiskManager A) : M BufferPoolManager A :=
  zoom disk_manager_ with_disk_manager m.
Definition on_replacer {A} (m : M LRUReplacer A) : M BufferPoolManager A :=
  zoom replacer_ with_replacer m.

(** Reading [pages_[frame_id]] and writing it back. *)
Definition frame (frame_id : nat) : M BufferPoolManager Page :=
  let* b := get in defined (pages_ b !! frame_id).
Definition set_frame (frame_id : nat) (pg : Page) : M BufferPoolManager unit :=
  modify (fun b => with_pages (<[frame_id := pg]> (pages_ b)) b).

(** BufferPoolManager::find_victim_page: None for false, Some frame for true
    with the frame stored through the pointer. *)
Definition find_victim_page : M BufferPoolManager (option nat) :=
  let* b := get in
  match free_list_ b with
  | frame_id :: rest =>
      put (with_free_list rest b);;
      ret (Some frame_id)
  | [] =>
      let* v := on_replacer victim in
      match v with
      | Some frame_id =>
          let* victim_page := frame frame_id in
          (if is_dirty_ victim_page then
             on_disk (write_page (fd (id_ victim_page)) (page_no (id_ victim_page))
                        (data_ victim_page) PAGE_SIZE);;
             set_frame frame_id
               (mkPage (id_ victim_page) (data_ victim_page) false (pin_count_ victim_page))
           else ret tt);;
          modify (fun b => with_page_table (delete (id_ victim_page) (page_table_ b)) b);;
          ret (Some frame_id)
      | None => ret None
      end
  end.

(** BufferPoolManager::update_page. *)
Definition update_page (page : nat) (new_page_id : PageId) (new_frame_id : nat)
  : M BufferPoolManager unit :=
  let* pg := frame page in
  set_frame page (mkPage new_page_id (data_ pg) (is_dirty_ pg) (pin_count_ pg)).

(** BufferPoolManager::new_page.  The argument is the PageId behind the
    pointer; the result is nullptr (None) or the page together with the
    PageId now behind the pointer. *)
Definition new_page (page_id : PageId) : M BufferPoolManager (option (nat * PageId)) :=
  let* v := find_victim_page in
  match v with
  | None => ret None
  | Some frame_id =>
      let* n := on_disk (allocate_page (fd page_id)) in
      let page_id := mkPageId (fd page_id) n in
      let page := frame_id in
      update_page page page_id frame_id;;
      let* pg := frame page in
      set_frame page (mkPage (id_ pg) (data_ pg) false 1);;
      modify (fun b => with_page_table (<[page_id := frame_id]> (page_table_ b)) b);;
      on_replacer (pin frame_id);;
      ret (Some (page, page_id))
  end.

(** BufferPoolManager::fetch_page: nullptr (None) or the page.  read_page
    fills [page->data_] in place, so the frame holds what the call left
    there also when it throws. *)
Definition fetch_page (page_id : PageId) : M BufferPoolManager (option nat) :=
  let* b := get in
  match page_table_ b !! page_id with
  | Some frame_id =>
      let page := frame_id in
      let* pg := frame page in
      let* n := int_add (pin_count_ pg) 1 in
      set_frame page (mkPage (id_ pg) (data_ pg) (is_dirty_ pg) n);;
      on_replacer (pin frame_id);;
      ret (Some page)
  | None =>
      let* v := find_victim_page in
      match v with
      | None => ret None
      | Some frame_id =>
          let page := frame_id in
          update_page page page_id frame_id;;
          let* pg := frame page in
          let* r := on_disk (read_page_mem (fd page_id) (page_no page_id) (data_ pg) PAGE_SIZE) in
          set_frame page (mkPage (id_ pg) r.1 (is_dirty_ pg) (pin_count_ pg));;
          match r.2 with
          | Some e => throw e
          | None =>
              set_frame page (mkPage (id_ pg) r.1 false 1);;
              modify (fun b => with_page_table (<[page_id := frame_id]> (page_table_ b)) b);;
              on_replacer (pin frame_id);;
              ret (Some page)
          end
      end
  end.

(** BufferPoolManager::unpin_page. *)
Definition unpin_page (page_id : PageId) (is_dirty : bool) : M BufferPoolManager bool :=
  let* b := get in
  match page_table_ b !! page_id with
  | None => ret false
  | Some frame_id =>
      let* pg := frame frame_id in
      if bool_decide (pin_count_ pg <= 0) then ret false else
      let dirty := if is_dirty then true else is_dirty_ pg in
      let* n := int_add (pin_count_ pg) (-1) in
      set_frame frame_id (mkPage (id_ pg) (data_ pg) dirty n);;
      (if bool_decide (n = 0) then on_replacer (unpin frame_id) else ret tt);;
      ret true
  end.

(** BufferPoolManager::delete_page. *)
Definition delete_page (page_id : PageId) : M BufferPoolManager bool :=
  let* b := get in
  match page_table_ b !! page_id with
  | None => ret true
  | Some frame_id =>
      let* pg := frame frame_id in
      if bool_decide (pin_count_ pg > 0) then ret false else
      modify (fun b => with_page_table (delete page_id (page_table_ b)) b);;
      set_frame frame_id
        (mkPage (mkPageId INVALID_PAGE_ID INVALID_PAGE_ID) (data_ pg) false (pin_count_ pg));;
      modify (fun b => with_free_list (free_list_ b ++ [frame_id]) b);;
      on_replacer (pin frame_id);;
      ret true
  end.

(** BufferPoolManager::flush_page. *)
Definition flush_page (page_id : PageId) : M BufferPoolManager bool :=
  let* b := get in
  match page_table_ b !! page_id with
  | None => ret false
  | Some frame_id =>
      let* pg := frame frame_id in
      on_disk (write_page (fd page_id) (page_no page_id) (data_ pg) PAGE_SIZE);;
      set_frame frame_id (mkPage (id_ pg) (data_ pg) false (pin_count_ pg));;
      ret true
  end.

(** A loop [for (i = first; ...; i++)] over the indices in [l]. *)
Fixpoint for_each {S} (l : list nat) (body : nat -> M S unit) : M S unit :=
  match l with
  | [] => ret tt
  | i :: l' => body i;; for_each l' body
  end.

(** BufferPoolManager::flush_all_pages.  The argument is the descriptor. *)
Definition flush_all_pages (fd0 : Z) : M BufferPoolManager unit :=
  let* b := get in
  for_each (seq 0 (pool_size_ b)) (fun i =>
    let* pg := frame i in
    if bool_decide (fd (id_ pg) = fd0) then
      on_disk (write_page fd0 (page_no (id_ pg)) (data_ pg) PAGE_SIZE);;
      set_frame i (mkPage (id_ pg) (data_ pg) false (pin_count_ pg))
    else ret tt).

(** Memory of the page in a frame, reached through [Page::get_data()]. *)
Definition load (page : nat) (off len : Z) : M BufferPoolManager (list Z) :=
  let* pg := frame page in defined (mem_read (data_ pg) off len).

Definition store (page : nat) (off : Z) (bs : list Z) : M BufferPoolManager unit :=
  let* pg := frame page in
  let* d := defined (mem_write (data_ pg) off bs) in
  set_frame page (mkPage (id_ pg) d (is_dirty_ pg) (pin_count_ pg)).

Definition load_int (page : nat) (off : Z) : M BufferPoolManager Z :=
  let* bs := load page off 4 in ret (decode_i32 bs).

Definition store_int (page : nat) (off : Z) (v : Z) : M BufferPoolManager unit :=
  store page off (encode_i32 v).

(** ** Bitmap *)

(** Modelled from the spec: the Bitmap class (bitmap.h) is not among the
    sources.  One bit per slot, set iff the slot holds a live record; slot
    [pos] is bit [pos mod 8], counted from the highest bit, of byte [pos / 8].
    [first_bit] is the first-fit scan for the lowest position below [max_n]
    whose bit equals [bit]; when there is none it gives the value
    insert_record tests for, the largest int.  A bitmap is addressed by the
    frame and the offset of its first byte. *)
Definition BITMAP_WIDTH : Z := 8.
Definition get_bucket (pos : Z) : Z := pos / BITMAP_WIDTH.
Definition get_bit (pos : Z) : Z := Z.shiftr 128 (pos mod BITMAP_WIDTH).

Definition Bitmap_init (page : nat) (bm size : Z) : M BufferPoolManager unit :=
  if bool_decide (0 <= size) then store page bm (zeros size) else throw Undefined.

Definition Bitmap_is_set (page : nat) (bm pos : Z) : M BufferPoolManager bool :=
  if bool_decide (pos < 0) then throw Undefined else
  let* b := load page (bm + get_bucket pos) 1 in
  ret (bool_decide (Z.land (hd 0 b) (get_bit pos) ≠ 0)).

Definition Bitmap_set (page : nat) (bm pos : Z) : M BufferPoolManager unit :=
  if bool_decide (pos < 0) then throw Undefined else
  let* b := load page (bm + get_bucket pos) 1 in
  store page (bm + get_bucket pos) [Z.lor (hd 0 b) (get_bit pos)].

Definition Bitmap_reset (page : nat) (bm pos : Z) : M BufferPoolManager unit :=
  if bool_decide (pos < 0) then throw Undefined else
  let* b := load page (bm + get_bucket pos) 1 in
  store page (bm + get_bucket pos) [Z.ldiff (hd 0 b) (get_bit pos)].

Fixpoint scan_bits (n : nat) (bit : bool) (page : nat) (bm i : Z) : M BufferPoolManager Z :=
  match n with
  | O => ret INT_MAX
  | S n' =>
      let* b := Bitmap_is_set page bm i in
      if bool_decide (b = bit) then ret i else scan_bits n' bit page bm (i + 1)
  end.

Definition Bitmap_first_bit (bit : bool) (page : nat) (bm max_n : Z) : M BufferPoolManager Z :=
  scan_bits (Z.to_nat max_n) bit page bm 0.

(** ** RmFileHandle (src/record/rm_file_handle.cpp) *)

Definition RM_NO_FREE_PAGE : Z := -1.

Record RmFileHdr : Type := mkRmFileHdr {
  record_size : Z;
  num_pages : Z;
  num_records_per_page : Z;
  first_free_page_no : Z;
  bitmap_size : Z
}.

Definition with_num_pages (n : Z) (h : RmFileHdr) : RmFileHdr :=
  mkRmFileHdr (record_size h) n (num_records_per_page h) (first_free_page_no h) (bitmap_size h).
Definition with_first_free_page_no (n : Z) (h : RmFileHdr) : RmFileHdr :=
  mkRmFileHdr (record_size h) (num_pages h) (num_records_per_page h) n (bitmap_size h).

Record Rid : Type := mkRid { rid_page_no : Z; slot_no : Z }.

Record RmFileHandle : Type := mkRmFileHandle {
  buffer_pool_manager_ : BufferPoolManager;
  fd_ : Z;
  file_hdr_ : RmFileHdr
}.

Definition with_pool (b : BufferPoolManager) (fh : RmFileHandle) : RmFileHandle :=
  mkRmFileHandle b (fd_ fh) (file_hdr_ fh).
Definition with_file_hdr (h : RmFileHdr) (fh : RmFileHandle) : RmFileHandle :=
  mkRmFileHandle (buffer_pool_manager_ fh) (fd_ fh) h.

Definition on_pool {A} (m : M BufferPoolManager A) : M RmFileHandle A :=
  zoom buffer_pool_manager_ with_pool m.

(** Modelled from the spec: struct RmPageHdr and struct RmPageHandle
    (rm_defs.h) are not among the sources.  A data page is
    {next_free_page: int32, live_record_count: int32}, then [bitmap_size]
    bytes of bitmap, then the slots of [record_size] bytes each.  The handle
    holds the page and three pointers into its memory, kept as offsets;
    [file_hdr] points to the handle's [file_hdr_] and is read from there. *)
Definition sizeof_RmPageHdr : Z := 8.
Definition OFFSET_next_free_page_no : Z := 0.
Definition OFFSET_num_records : Z := 4.

Record RmPageHandle : Type := mkRmPageHandle {
  page : nat;
  page_hdr : Z;
  bitmap : Z;
  slots : Z
}.

Definition RmPageHandle_new (file_hdr : RmFileHdr) (page : nat) : RmPageHandle :=
  mkRmPageHandle page 0 sizeof_RmPageHdr (sizeof_RmPageHdr + bitmap_size file_hdr).

Definition get_slot (file_hdr : RmFileHdr) (h : RmPageHandle) (slot_no : Z) : Z :=
  slots h + slot_no * record_size file_hdr.

(** [page->get_page_id()]. *)
Definition get_page_id (page : nat) : M RmFileHandle PageId :=
  let* pg := on_pool (frame page) in ret (id_ pg).

(** RmFileHandle::fetch_page_handle. *)
Definition fetch_page_handle (page_no0 : Z) : M RmFileHandle RmPageHandle :=
  let* fh := get in
  let page_id := mkPageId (fd_ fh) page_no0 in
  let* r := on_pool (fetch_page page_id) in
  match r with
  | None => throw RuntimeError
  | Some page =>
      let page_handle := RmPageHandle_new (file_hdr_ fh) page in
      ret (mkRmPageHandle page 0 (0 + sizeof_RmPageHdr) (slots page_handle))
  end.

(** RmFileHandle::create_new_page_handle. *)
Definition create_new_page_handle : M RmFileHandle RmPageHandle :=
  let* fh := get in
  let page_id := mkPageId (fd_ fh) INVALID_PAGE_ID in
  let* r := on_pool (new_page page_id) in
  match r with
  | None => throw RuntimeError
  | Some (page, _) =>
      let page_handle := RmPageHandle_new (file_hdr_ fh) page in
      let page_hdr := 0 in
      on_pool (store_int page (page_hdr + OFFSET_next_free_page_no) RM_NO_FREE_PAGE);;
      on_pool (store_int page (page_hdr + OFFSET_num_records) 0);;
      let bitmap := 0 + sizeof_RmPageHdr in
      on_pool (Bitmap_init page bitmap (bitmap_size (file_hdr_ fh)));;
      let* n := int_add (num_pages (file_hdr_ fh)) 1 in
      modify (fun fh => with_file_hdr (with_num_pages n (file_hdr_ fh)) fh);;
      ret (mkRmPageHandle page page_hdr bitmap (slots page_handle))
  end.

(** RmFileHandle::create_page_handle. *)
Definition create_page_handle : M RmFileHandle RmPageHandle :=
  let* fh := get in
  if bool_decide (first_free_page_no (file_hdr_ fh) ≠ RM_NO_FREE_PAGE)
  then fetch_page_handle (first_free_page_no (file_hdr_ fh))
  else create_new_page_handle.

(** RmFileHandle::release_page_handle. *)
Definition release_page_handle (page_handle : RmPageHandle) : M RmFileHandle unit :=
  let* fh := get in
  on_pool (store_int (page page_handle) (page_hdr page_handle + OFFSET_next_free_page_no)
             (first_free_page_no (file_hdr_ fh)));;
  let* pid := get_page_id (page page_handle) in
  modify (fun fh => with_file_hdr (with_first_free_page_no (page_no pid) (file_hdr_ fh)) fh);;
  let* pid := get_page_id (page page_handle) in
  on_pool (unpin_page pid true);;
  ret tt.

(** RmFileHandle::get_record.  The result is the data of the RmRecord. *)
Definition get_record (rid : Rid) : M RmFileHandle (list Z) :=
  let* page_handle := fetch_page_handle (rid_page_no rid) in
  let* present := on_pool (Bitmap_is_set (page page_handle) (bitmap page_handle) (slot_no rid)) in
  if negb present then
    let* pid := get_page_id (page page_handle) in
    on_pool (unpin_page pid false);;
    throw RuntimeError
  else
  let* fh := get in
  let record_data := get_slot (file_hdr_ fh) page_handle (slot_no rid) in
  let* record := on_pool (load (page page_handle) record_data (record_size (file_hdr_ fh))) in
  let* pid := get_page_id (page page_handle) in
  on_pool (unpin_page pid false);;
  ret record.

(** RmFileHandle::insert_record, the overload without a position.  [buf] is
    the memory at the pointer passed in. *)
Definition insert_record (buf : list Z) : M RmFileHandle Rid :=
  let* page_handle := create_page_handle in
  let page := page page_handle in
  let* fh := get in
  let* slot_no := on_pool (Bitmap_first_bit false page (bitmap page_handle)
                             (num_records_per_page (file_hdr_ fh))) in
  if bool_decide (slot_no = INT_MAX) then
    let* pid := get_page_id page in
    on_pool (unpin_page pid false);;
    throw RuntimeError
  else
  on_pool (Bitmap_set page (bitmap page_handle) slot_no);;
  let slot := get_slot (file_hdr_ fh) page_handle slot_no in
  let* bytes := defined (mem_read buf 0 (record_size (file_hdr_ fh))) in
  on_pool (store page slot bytes);;
  let* n := on_pool (load_int page (page_hdr page_handle + OFFSET_num_records)) in
  let* n := int_add n 1 in
  on_pool (store_int page (page_hdr page_handle + OFFSET_num_records) n);;
  let* pid := get_page_id page in
  let new_rid := mkRid (page_no pid) slot_no in
  let* n := on_pool (load_int page (page_hdr page_handle + OFFSET_num_records)) in
  let* fh := get in
  (if bool_decide (n = num_records_per_page (file_hdr_ fh)) then
     if bool_decide (first_free_page_no (file_hdr_ fh) = page_no pid) then
       let* next := on_pool (load_int page (page_hdr page_handle + OFFSET_next_free_page_no)) in
       modify (fun fh => with_file_hdr (with_first_free_page_no next (file_hdr_ fh)) fh)
     else ret tt
   else ret tt);;
  on_pool (unpin_page pid true);;
  ret new_rid.

(** RmFileHandle::delete_record. *)
Definition delete_record (rid : Rid) : M RmFileHandle unit :=
  let* page_handle := fetch_page_handle (rid_page_no rid) in
  let page := page page_handle in
  let* present := on_pool (Bitmap_is_set page (bitmap page_handle) (slot_no rid)) in
  if negb present then
    let* pid := get_page_id page in
    on_pool (unpin_page pid false);;
    throw RuntimeError
  else
  on_pool (Bitmap_reset page (bitmap page_handle) (slot_no rid));;
  let* n := on_pool (load_int page (page_hdr page_handle + OFFSET_num_records)) in
  let* n := int_add n (-1) in
  on_pool (store_int page (page_hdr page_handle + OFFSET_num_records) n);;
  let* n := on_pool (load_int page (page_hdr page_handle + OFFSET_num_records)) in
  let* n1 := int_add n 1 in
  let* fh := get in
  let was_full := bool_decide (n1 = num_records_per_page (file_hdr_ fh)) in
  if was_full then release_page_handle page_handle
  else
    let* pid := get_page_id page in
    on_pool (unpin_page pid true);;
    ret tt.

(** RmFileHandle::update_record. *)
Definition update_record (rid : Rid) (buf : list Z) : M RmFileHandle unit :=
  let* page_handle := fetch_page_handle (rid_page_no rid) in
  let page := page page_handle in
  let* present := on_pool (Bitmap_is_set page (bitmap page_handle) (slot_no rid)) in
  if negb present then
    let* pid := get_page_id page in
    on_pool (unpin_page pid false);;
    throw RuntimeError
  else
  let* fh := get in
  let slot := get_slot (file_hdr_ fh) page_handle (slot_no rid) in
  let* bytes := defined (mem_read buf 0 (record_size (file_hdr_ fh))) in
  on_pool (store page slot bytes);;
  let* pid := get_page_id page in
  on_pool (unpin_page pid true);;
  ret tt.

(** ** RmScan (src/record/rm_scan.cpp) *)

Record RmScan : Type := mkRmScan {
  file_handle_ : RmFileHandle;
  rid_ : Rid
}.

Definition on_file {A} (m : M RmFileHandle A) : M RmScan A :=
  zoom file_handle_ (fun fh s => mkRmScan fh (rid_ s)) m.

Definition set_rid (r : Rid) : M RmScan unit :=
  modify (fun s => mkRmScan (file_handle_ s) r).

(** The inner loop of RmScan::next, [while (rid_.slot_no < records_per_page)].
    [slot_no] grows by one per turn, so [turns] counts the turns the
    condition still allows.  The result tells whether next() returned from
    inside the loop. *)
Fixpoint scan_slots (turns : nat) (page_handle : RmPageHandle) : M RmScan bool :=
  match turns with
  | O => ret false
  | S turns' =>
      let* s := get in
      let* b := on_file (on_pool (Bitmap_is_set (page page_handle) (bitmap page_handle)
                                    (slot_no (rid_ s)))) in
      if b then ret true
      else
        set_rid (mkRid (rid_page_no (rid_ s)) (slot_no (rid_ s) + 1));;
        scan_slots turns' page_handle
  end.

(** The outer loop, [while (rid_.page_no < num_pages)]; [page_no] grows by one
    per turn and [num_pages] does not change.  The result tells whether
    next() returned from inside the loop. *)
Fixpoint scan_pages (turns : nat) : M RmScan bool :=
  match turns with
  | O => ret false
  | S turns' =>
      let* s := get in
      let* page_handle := on_file (fetch_page_handle (rid_page_no (rid_ s))) in
      let records_per_page := num_records_per_page (file_hdr_ (file_handle_ s)) in
      let* found := scan_slots (Z.to_nat (records_per_page - slot_no (rid_ s))) page_handle in
      if found then ret true
      else
        let* s := get in
        set_rid (mkRid (rid_page_no (rid_ s) + 1) 0);;
        scan_pages turns'
  end.

(** RmScan::next. *)
Definition next : M RmScan unit :=
  let* s := get in
  if bool_decide (num_pages (file_hdr_ (file_handle_ s)) <= 1) then
    set_rid (mkRid (-1) (slot_no (rid_ s)))
  else
  (if bool_decide (rid_page_no (rid_ s) = 0 /\ slot_no (rid_ s) = -1)
   then set_rid (mkRid 1 (-1)) else ret tt);;
  let* s := get in
  let* n := int_add (slot_no (rid_ s)) 1 in
  set_rid (mkRid (rid_page_no (rid_ s)) n);;
  let* s := get in
  let* found := scan_pages (Z.to_nat (num_pages (file_hdr_ (file_handle_ s))
                                      - rid_page_no (rid_ s))) in
  if found then ret tt
  else set_rid (mkRid (-1) (-1)).

(** RmScan::RmScan: one computation on the file handle that gives the new
    scan object. *)
Definition RmScan_new : M RmFileHandle Rid :=
  fun fh =>
    match next (mkRmScan fh (mkRid 0 (-1))) with
    | (Ret _, s) => (Ret (rid_ s), file_handle_ s)
    | (Throw e, s) => (Throw e, file_handle_ s)
    end.

(** RmScan::is_end. *)
Definition is_end (s : RmScan) : bool := bool_decide (rid_page_no (rid_ s) = -1).

(** RmScan::rid. *)
Definition rid : M RmScan Rid :=
  let* s := get in
  if is_end s then throw RuntimeError else ret (rid_ s).

End Storage.

(** ** Invariants of the replacer and of the pool *)

(** The list holds no frame twice and the hash holds exactly its frames. *)
Definition lru_inv (r : LRUReplacer) : Prop :=
  NoDup (LRUlist_ r) /\ forall f, f ∈ LRUhash_ r <-> f ∈ LRUlist_ r.

(** The pin counts, frame by frame. *)
Definition pins (b : BufferPoolManager) : list Z := pin_count_ <$> pages_ b.

(** The replacer is coherent, the page table points into [pages_], a pin
    count is a non-negative int, and an evictable frame is a frame of
    [pages_] with pin count 0. *)
Definition pool_inv (b : BufferPoolManager) : Prop :=
  lru_inv (replacer_ b) /\
  (forall pid f, page_table_ b !! pid = Some f -> (f < length (pins b))%nat) /\
  (forall f n, pins b !! f = Some n -> 0 <= n <= INT_MAX) /\
  (forall f, f ∈ LRUlist_ (replacer_ b) -> pins b !! f = Some 0).

(** The pool after the pages of [done] were fetched, one after the other,
    into an empty pool of [n] frames and are still pinned. *)
Definition filled (n : nat) (done : list PageId) (b : BufferPoolManager) : Prop :=
  length (pages_ b) = n /\
  free_list_ b = seq (length done) (n - length done) /\
  LRUlist_ (replacer_ b) = [] /\
  LRUhash_ (replacer_ b) = ∅ /\
  (forall pid j, page_table_ b !! pid = Some j <-> done !! j = Some pid) /\
  (forall j p, done !! j = Some p ->
     exists pg, pages_ b !! j = Some pg /\ id_ pg = p /\ pin_count_ pg = 1).

(** The pool once full with the pages of [ps], every frame taken in order,
    after the first [k] of them were unpinned in order. *)
Definition drained (ps : list PageId) (k : nat) (b : BufferPoolManager) : Prop :=
  free_list_ b = [] /\
  LRUlist_ (replacer_ b) = reverse (seq 0 k) /\
  (forall x, x ∈ LRUhash_ (replacer_ b) <-> (x < k)%nat) /\
  (forall pid j, page_table_ b !! pid = Some j <-> ps !! j = Some pid) /\
  (forall j p, ps !! j = Some p ->
     exists pg, pages_ b !! j = Some pg /\ id_ pg = p /\
                pin_count_ pg = if decide (j < k)%nat then 0 else 1).

(** The free list holds no frame twice, a cached page's frame is not free,
    and the frame a page is cached in holds that page's id. *)
Definition table_inv (b : BufferPoolManager) : Prop :=
  NoDup (free_list_ b) /\
  (forall pid f, page_table_ b !! pid = Some f -> f ∉ free_list_ b) /\
  (forall pid f, page_table_ b !! pid = Some f -> (id_ <$> pages_ b) !! f = Some pid).

(** A page with other memory, and the pool with that memory in frame [f]. *)
Definition with_data (d : list Z) (pg : Page) : Page :=
  mkPage (id_ pg) d (is_dirty_ pg) (pin_count_ pg).

Definition put_data (f : nat) (d : list Z) (pg : Page) (b : BufferPoolManager)
  : BufferPoolManager :=
  with_pages (<[f := with_data d pg]> (pages_ b)) b.

(** The two fields of the page header, read from page memory. *)
Definition hdr_next_free_page_no (d : list Z) : option Z :=
  decode_i32 <$> mem_read d (0 + OFFSET_next_free_page_no) 4.
Definition hdr_num_records (d : list Z) : option Z :=
  decode_i32 <$> mem_read d (0 + OFFSET_num_records) 4.

(** The pool after a hit on frame [f]. *)
Definition pinned (f : nat) (pg : Page) (b : BufferPoolManager) : BufferPoolManager :=
  with_replacer (pin f (replacer_ b)).2
    (with_pages
       (<[f := mkPage (id_ pg) (data_ pg) (is_dirty_ pg) (pin_count_ pg + 1)]> (pages_ b)) b).

Section Views.
Context {cfg : Config}.

(** Page [p] of the file as fetch_page_handle finds it. *)
Definition page_of (fh : RmFileHandle) (p : Z) : option Page :=
  match fetch_page_handle p fh with
  | (Ret h, fh1) => pages_ (buffer_pool_manager_ fh1) !! page h
  | (Throw _, _) => None
  end.

(** The live-record count and the next-free link in the header of page [p]. *)
Definition num_records_of (fh : RmFileHandle) (p : Z) : option Z :=
  pg ← page_of fh p; hdr_num_records (data_ pg).
Definition next_free_of (fh : RmFileHandle) (p : Z) : option Z :=
  pg ← page_of fh p; hdr_next_free_page_no (data_ pg).

End Views.

(** A computation keeps [I], whether it returns or throws. *)
Definition preserves {S A} (I : S -> Prop) (m : M S A) : Prop :=
  forall s, I s -> I (m s).2.

Section Reachable.

Context {cfg : Config}.

(** The states a pool can be in: a new pool, then any calls of its public
    member functions, whether they return or throw; in between, the holders
    of pages write into page memory and the disk manager is used by others. *)
Inductive reachable : BufferPoolManager -> Prop :=
  | reach_new pool_size dm :
      reachable (BufferPoolManager_new pool_size dm)
  | reach_fetch_page b page_id :
      reachable b -> reachable (fetch_page page_id b).2
  | reach_new_page b page_id :
      reachable b -> reachable (new_page page_id b).2
  | reach_unpin_page b page_id is_dirty :
      reachable b -> reachable (unpin_page page_id is_dirty b).2
  | reach_delete_page b page_id :
      reachable b -> reachable (delete_page page_id b).2
  | reach_flush_page b page_id :
      reachable b -> reachable (flush_page page_id b).2
  | reach_flush_all_pages b fd0 :
      reachable b -> reachable (flush_all_pages fd0 b).2
  | reach_store b page0 off bs :
      reachable b -> reachable (store page0 off bs b).2
  | reach_disk b dm :
      reachable b -> reachable (with_disk_manager dm b).

End Reachable.

(** ** DiskManager: creating, deleting and naming files *)

(** Where files can be made.  The kernel keeps regular files by path: a path
    never names a directory here, and no function modelled here makes or
    removes a directory.  [creatable path] tells whether the directory that
    [path] lies in exists, so that open() with O_CREAT can make a file at
    [path]. *)
Class Directories : Type := mkDirectories {
  creatable : string -> bool
}.

(** open(path, O_RDWR | O_CREAT | O_EXCL, 0600): the empty file is created
    and the new descriptor returned; or -1, when the path names a file, is
    empty, or lies in a directory that does not exist. *)
Definition sys_open_excl {dirs : Directories} (path : string) : M Kernel Z :=
  fun k =>
    match files k !! path with
    | Some _ => (Ret (-1), k)
    | None =>
        if bool_decide (path = ""%string) || negb (creatable path) then (Ret (-1), k)
        else
          let fd := lowest_free (fdtab k) in
          (Ret fd, log_event (EvOpen path fd)
                     (mkKernel (<[path := []]> (files k)) (<[fd := (path, 0)]> (fdtab k))
                               (trace k)))
    end.

(** unlink(path): 0, or -1 when there is no such file.  Files are kept by
    path: a descriptor still open on the path does not keep the file alive
    here, which is the case destroy_file excludes for its own descriptors. *)
Definition sys_unlink (path : string) : M Kernel Z :=
  fun k =>
    match files k !! path with
    | None => (Ret (-1), k)
    | Some _ => (Ret 0, mkKernel (delete path (files k)) (fdtab k) (trace k))
    end.

(** DiskManager::create_file. *)
Definition create_file {dirs : Directories} (path : string) : M DiskManager unit :=
  let* dm := get in
  if is_file path dm then throw FileExistsError else
  let* fd := sys (sys_open_excl path) in
  if bool_decide (fd = -1) then throw UnixError else
  sys (sys_close fd);;
  ret tt.

(** [fd2path_[fd]]: operator[] of the unordered map, which adds an entry with
    the empty string when there is none. *)
Definition fd2path_at (fd : Z) : M DiskManager string :=
  let* dm := get in
  match fd2path_ dm !! fd with
  | Some p => ret p
  | None =>
      put (mkDiskManager (kernel dm) (fd2pageno_ dm) (fd_occupied_ dm)
             (<[fd := ""%string]> (fd2path_ dm)) (path2fd_ dm));;
      ret ""%string
  end.

(** DiskManager::destroy_file. *)
Definition destroy_file (path : string) : M DiskManager unit :=
  let* dm := get in
  if negb (is_file path dm) then throw FileNotFoundError else
  for_each (seq 0 (Z.to_nat MAX_FD)) (fun i =>
    let fd := Z.of_nat i in
    let* dm := get in
    if bool_decide (fd ∈ fd_occupied_ dm) then
      let* p := fd2path_at fd in
      if bool_decide (p = path) then throw InternalError else ret tt
    else ret tt);;
  let* r := sys (sys_unlink path) in
  if bool_decide (r = -1) then throw UnixError else ret tt.

(** One turn of the loop of destroy_file. *)
Definition destroy_check (path : string) (i : nat) : M DiskManager unit :=
  let fd0 := Z.of_nat i in
  let* dm := get in
  if bool_decide (fd0 ∈ fd_occupied_ dm) then
    let* p := fd2path_at fd0 in
    if bool_decide (p = path) then throw InternalError else ret tt
  else ret tt.

(** DiskManager::get_file_size.  The size is returned as an int; a size that
    does not fit is reduced modulo 2^32. *)
Definition get_file_size (file_name : string) (dm : DiskManager) : Z :=
  match sys_stat file_name (kernel dm) with
  | Some st_size => wrap32 st_size
  | None => -1
  end.

(** DiskManager::get_file_name. *)
Definition get_file_name (fd : Z) : M DiskManager string :=
  let* dm := get in
  match fd2path_ dm !! fd with
  | None => throw FileNotOpenError
  | Some _ => fd2path_at fd
  end.

(** The open-file tables agree with each other and with the kernel: the
    descriptors marked occupied are those with a recorded path, they are
    below MAX_FD, and each is open in the kernel on the recorded path. *)
Definition dm_inv (dm : DiskManager) : Prop :=
  forall fd,
    (fd ∈ fd_occupied_ dm <-> is_Some (fd2path_ dm !! fd)) /\
    (forall p, fd2path_ dm !! fd = Some p ->
       0 <= fd < MAX_FD /\ exists o, fdtab (kernel dm) !! fd = Some (p, o)).

(** ** DiskManager: the log file *)

(** LOG_FILE_NAME comes from a header that is not among the sources; the code
    is modelled for any name.  The member [log_fd_] is kept beside the rest
    of the disk manager. *)
Class LogConfig : Type := mkLogConfig {
  LOG_FILE_NAME : string
}.

Record DiskManagerLog : Type := mkDiskManagerLog {
  disk_manager : DiskManager;
  log_fd_ : Z
}.

Definition on_manager {A} (m : M DiskManager A) : M DiskManagerLog A :=
  zoom disk_manager (fun dm l => mkDiskManagerLog dm (log_fd_ l)) m.

(** lseek(fd, 0, SEEK_END): the size of the file, which becomes the file
    offset, or -1. *)
Definition sys_lseek_end (fd : Z) : M Kernel Z :=
  fun k =>
    match fdtab k !! fd with
    | Some (p, _) =>
        match files k !! p with
        | Some content =>
            let n := Z.of_nat (length content) in
            (Ret n, mkKernel (files k) (<[fd := (p, n)]> (fdtab k)) (trace k))
        | None => (Ret (-1), k)
        end
    | None => (Ret (-1), k)
    end.

Section Log.

Context {log : LogConfig}.

(** DiskManager::read_log.  [log_data] is the memory at the pointer passed
    in; the result is the value returned and that memory after the call.
    The results of the two lseek calls are not looked at.  A negative count
    reaches read() as a huge unsigned one, and a read that gives another
    count than asked for fails the assert: both are undefined here. *)
Definition read_log (log_data : list Z) (size offset : Z) : M DiskManagerLog (Z * list Z) :=
  let* l := get in
  (if bool_decide (log_fd_ l = -1) then
     let* fd := on_manager (open_file LOG_FILE_NAME) in
     modify (fun l => mkDiskManagerLog (disk_manager l) fd)
   else ret tt);;
  let* l := get in
  let file_size := get_file_size LOG_FILE_NAME (disk_manager l) in
  if bool_decide (offset > file_size) then ret (-1, log_data) else
  let* rest := int_add file_size (- offset) in
  let size := Z.min size rest in
  if bool_decide (size = 0) then ret (0, log_data) else
  on_manager (sys (sys_lseek (log_fd_ l) offset));;
  if bool_decide (size < 0) then throw Undefined else
  let* got := on_manager (sys (sys_read (log_fd_ l) size)) in
  match got with
  | None => throw Undefined
  | Some bs =>
      let* log_data' := defined (mem_write log_data 0 bs) in
      if bool_decide (Z.of_nat (length bs) ≠ size) then throw Undefined
      else ret (Z.of_nat (length bs), log_data')
  end.

(** DiskManager::write_log.  [log_data] is the memory at the pointer passed
    in; reading [size] bytes from it must stay inside it. *)
Definition write_log (log_data : list Z) (size : Z) : M DiskManagerLog unit :=
  let* l := get in
  (if bool_decide (log_fd_ l = -1) then
     let* fd := on_manager (open_file LOG_FILE_NAME) in
     modify (fun l => mkDiskManagerLog (disk_manager l) fd)
   else ret tt);;
  let* l := get in
  on_manager (sys (sys_lseek_end (log_fd_ l)));;
  let* bs := defined (mem_read log_data 0 size) in
  let* bytes_write := on_manager (sys (sys_write (log_fd_ l) bs)) in
  if bool_decide (bytes_write ≠ size) then throw UnixError else ret tt.

(** The log can be used: the log file exists, and either it is open on
    [log_fd_], or it was not opened yet ([log_fd_] is -1) and a descriptor
    below MAX_FD is free for it. *)
Definition log_ready (l : DiskManagerLog) : Prop :=
  is_Some (files (kernel (disk_manager l)) !! LOG_FILE_NAME) /\
  if bool_decide (log_fd_ l = -1)
  then dm_inv (disk_manager l) /\ lowest_free (fdtab (kernel (disk_manager l))) < MAX_FD
  else exists o, fdtab (kernel (disk_manager l)) !! log_fd_ l = Some (LOG_FILE_NAME, o).

End Log.

(** ** More invariants of the pool *)

(** [pages_] has [pool_size_] frames, a free frame is one of them, and no
    evictable frame is on the free list. *)
Definition frames_inv (b : BufferPoolManager) : Prop :=
  length (pages_ b) = pool_size_ b /\
  (forall f, f ∈ free_list_ b -> (f < length (pages_ b))%nat) /\
  (forall f, f ∈ LRUlist_ (replacer_ b) -> f ∉ free_list_ b).

(** The pin count of a page: that of the frame it is cached in, and 0 for a
    page that is not cached. *)
Definition pin_of (b : BufferPoolManager) (pid : PageId) : Z :=
  match page_table_ b !! pid with
  | Some f => default 0 (pin_count_ <$> pages_ b !! f)
  | None => 0
  end.

(** Every frame has a page of memory. *)
Definition sized {cfg : Config} (b : BufferPoolManager) : Prop :=
  forall (f : nat) pg, pages_ b !! f = Some pg -> length (data_ pg) = Z.to_nat PAGE_SIZE.

(** Every evictable frame is the frame of a cached page. *)
Definition evictable_inv (b : BufferPoolManager) : Prop :=
  forall f, f ∈ LRUlist_ (replacer_ b) -> exists pid, page_table_ b !! pid = Some f.

(** ** Specifications of computations *)

(** [triple P m Q E]: run in a state that satisfies [P], the computation [m]
    returns a value and a state related by [Q], or throws and leaves a state
    that satisfies [E].  Nothing is said of a run that ends in undefined
    behaviour. *)
Definition triple {S A} (P : S -> Prop) (m : M S A) (Q : A -> S -> Prop) (E : S -> Prop)
  : Prop :=
  forall s, P s ->
    match m s with
    | (Ret a, s') => Q a s'
    | (Throw Undefined, _) => True
    | (Throw _, s') => E s'
    end.

(** [total P m Q]: run in a state that satisfies [P], the computation [m]
    returns, with a value and a state related by [Q]. *)
Definition total {S A} (P : S -> Prop) (m : M S A) (Q : A -> S -> Prop) : Prop :=
  forall s, P s -> exists a s', m s = (Ret a, s') /\ Q a s'.

(** A computation that only reads the state, and one that changes nothing
    but the memory of the frames; both throw on undefined behaviour only. *)
Definition only_data (b b' : BufferPoolManager) : Prop :=
  b' = with_pages (pages_ b') b /\
  (fun pg => (id_ pg, is_dirty_ pg, pin_count_ pg)) <$> pages_ b'
  = (fun pg => (id_ pg, is_dirty_ pg, pin_count_ pg)) <$> pages_ b.

Definition data_step {A} (m : M BufferPoolManager A) : Prop :=
  forall b, only_data b (m b).2 /\ forall e, (m b).1 = Throw e -> e = Undefined.

(** The pin counts are those of [b0]; and the same with page [pid] held once
    more, in frame [f]. *)
Definition balanced (b0 b : BufferPoolManager) : Prop :=
  forall q, pin_of b q = pin_of b0 q.

Definition held (b0 : BufferPoolManager) (pid : PageId) (f : nat) (b : BufferPoolManager)
  : Prop :=
  table_inv b /\ pool_inv b /\
  page_table_ b !! pid = Some f /\
  forall q, pin_of b q = if decide (q = pid) then pin_of b0 pid + 1 else pin_of b0 q.

(** ** Views of page memory and of a held page *)

(** Whether slot [s] is marked live in page memory [d], and the bytes of the
    slot, when they lie inside the page. *)
Definition slot_live (d : list Z) (s : Z) : option bool :=
  (fun bs => bool_decide (Z.land (hd 0 bs) (get_bit s) ≠ 0))
    <$> mem_read d (sizeof_RmPageHdr + get_bucket s) 1.

Definition slot_bytes (hdr : RmFileHdr) (d : list Z) (s : Z) : option (list Z) :=
  mem_read d (sizeof_RmPageHdr + bitmap_size hdr + s * record_size hdr) (record_size hdr).

(** Page [pid] is cached in frame [f] and pinned, and the memory of the frame
    satisfies [phi]. *)
Definition holding (pid : PageId) (f : nat) (phi : list Z -> Prop) (b : BufferPoolManager)
  : Prop :=
  table_inv b /\ pool_inv b /\ page_table_ b !! pid = Some f /\
  exists pg, pages_ b !! f = Some pg /\ 0 < pin_count_ pg /\ phi (data_ pg).

(** Page [pid] is cached, its pin count can still grow, and the memory of its
    frame satisfies [phi]. *)
Definition cached_with (pid : PageId) (phi : list Z -> Prop) (b : BufferPoolManager) : Prop :=
  table_inv b /\ pool_inv b /\
  exists f pg, page_table_ b !! pid = Some f /\ pages_ b !! f = Some pg /\
               pin_count_ pg < INT_MAX /\ phi (data_ pg).

(** A file handle with descriptor [fd0] and header [hdr] whose pool satisfies
    [J]. *)
Definition at_file (J : BufferPoolManager -> Prop) (fd0 : Z) (hdr : RmFileHdr)
    (fh : RmFileHandle) : Prop :=
  J (buffer_pool_manager_ fh) /\ fd_ fh = fd0 /\ file_hdr_ fh = hdr.

(** Page memory [d] holds for every slot other than [s] what [d0] holds: the
    bit of a slot inside the bitmap, and the bytes of a slot. *)
Definition others_kept (hdr : RmFileHdr) (s : Z) (d0 d : list Z) : Prop :=
  (forall s', 0 <= s' < 8 * bitmap_size hdr -> s' <> s -> slot_live d s' = slot_live d0 s') /\
  (forall s', 0 <= s' -> s' <> s -> slot_bytes hdr d s' = slot_bytes hdr d0 s').

(** Page memory [d] after the record in slot [s] of [d0] was deleted: the
    slot is free, and the other slots are kept when [s] lies inside the
    bitmap. *)
Definition slot_freed (hdr : RmFileHdr) (s : Z) (d0 d : list Z) : Prop :=
  slot_live d s = Some false /\
  (s < 8 * bitmap_size hdr -> 0 <= record_size hdr -> others_kept hdr s d0 d).

(** Page memory [d] after a record with bytes [bytes] was inserted into page
    memory [d0] of a file with header [hdr]: slot [s] was the lowest free
    slot of [d0] and lies inside the page, it now holds [bytes], and the
    other slots are kept. *)
Definition slot_filled (hdr : RmFileHdr) (s : Z) (bytes d0 d : list Z) : Prop :=
  0 <= s < num_records_per_page hdr /\
  slot_live d0 s = Some false /\
  (forall s', 0 <= s' < s -> slot_live d0 s' = Some true) /\
  sizeof_RmPageHdr + bitmap_size hdr + s * record_size hdr + record_size hdr
    <= Z.of_nat (length d0) /\
  slot_live d s = Some true /\
  slot_bytes hdr d s = Some bytes /\
  others_kept hdr s d0 d.

(** ** A small database, used to run the model *)

(** Pages of 4096 bytes; -1 is the invalid page id. *)
Definition example_config : Config := mkConfig 4096 (-1).

(** Descriptors 0, 1 and 2 are open on the terminal, and the empty file t.db
    exists. *)
Definition example_kernel : Kernel :=
  mkKernel {[ "t.db"%string := [] ]}
    {[ 0 := ("/dev/tty"%string, 0); 1 := ("/dev/tty"%string, 0);
       2 := ("/dev/tty"%string, 0) ]}
    [].

(** The disk manager after open_file("t.db"), which gave descriptor 3, with
    page 0 of the file counted as allocated for the file header. *)
Definition example_disk : DiskManager :=
  let dm := (open_file "t.db" (DiskManager_new example_kernel)).2 in
  mkDiskManager (kernel dm) {[ 3 := 1 ]} (fd_occupied_ dm) (fd2path_ dm) (path2fd_ dm).

(** An empty pool of two frames. *)
Definition example_pool : BufferPoolManager :=
  BufferPoolManager_new (cfg := example_config) 2 example_disk.

(** A heap file of records of 1500 bytes, two to a page, with no data page
    yet, and one of records of 3000 bytes, one to a page. *)
Definition example_file : RmFileHandle :=
  mkRmFileHandle example_pool 3 (mkRmFileHdr 1500 1 2 (-1) 1).
Definition example_file1 : RmFileHandle :=
  mkRmFileHandle example_pool 3 (mkRmFileHdr 3000 1 1 (-1) 1).

Definition example_record : list Z := replicate 1500 7.
Definition example_record1 : list Z := replicate 3000 7.

(** An empty pool of three frames, and the heap file of records of 1500
    bytes over it. *)
Definition example_pool3 : BufferPoolManager :=
  BufferPoolManager_new (cfg := example_config) 3 example_disk.
Definition example_file3 : RmFileHandle :=
  mkRmFileHandle example_pool3 3 (mkRmFileHdr 1500 1 2 (-1) 1).

(** Three pages of t.db. *)
Definition example_page1 : PageId := mkPageId 3 1.
Definition example_page2 : PageId := mkPageId 3 2.
Definition example_page3 : PageId := mkPageId 3 3.

(** A pool of one frame, after page 1 was fetched and unpinned dirty. *)
Definition example_dirty_pool : BufferPoolManager :=
  (unpin_page example_page1 true
     (fetch_page (cfg := example_config) example_page1
        (BufferPoolManager_new (cfg := example_config) 1 example_disk)).2).2.

(** The file of one record to a page after an insert, which filled page 1,
    and after the delete of that record. *)
Definition example_full : RmFileHandle :=
  (insert_record (cfg := example_config) example_record1 example_file1).2.
Definition example_freed : RmFileHandle :=
  (delete_record (cfg := example_config) (mkRid 1 0) example_full).2.

(** A kernel whose file s.db holds 100 bytes, less than a page, open on
    descriptor 3, and an empty pool of one frame over it. *)
Definition example_short_kernel : Kernel :=
  mkKernel {[ "s.db"%string := replicate 100 1 ]} {[ 3 := ("s.db"%string, 0) ]} [].

Definition example_short_pool : BufferPoolManager :=
  BufferPoolManager_new (cfg := example_config) 1 (DiskManager_new example_short_kernel).

(** The example file after one insert; that file with page 1, which holds the
    record and has a free slot, named as the head of the free list; and the
    latter after a second insert, with records at (1, 0) and (1, 1). *)
Definition example_inserted : RmFileHandle :=
  (insert_record (cfg := example_config) example_record example_file).2.

Definition example_linked : RmFileHandle :=
  mkRmFileHandle (buffer_pool_manager_ example_inserted) 3 (mkRmFileHdr 1500 2 2 1 1).

Definition example_record2 : list Z := replicate 1500 9.

Definition example_two : RmFileHandle :=
  (insert_record (cfg := example_config) example_record2 example_linked).2.

(** The example file after two inserts into pages of their own: both frames
    of the pool hold a dirty page, and no frame is free. *)
Definition example_filled : RmFileHandle :=
  (for_all (insert_record (cfg := example_config)) [example_record; example_record2]
     example_file).2.



(** The log file db.log with three bytes, not yet opened by the disk
    manager. *)
Definition example_log_config : LogConfig := mkLogConfig "db.log".

Definition example_log : DiskManagerLog :=
  mkDiskManagerLog
    (DiskManager_new (mkKernel {[ "db.log"%string := [1; 2; 3] ]} ∅ [])) (-1).

(** * Properties *)

(** ** The monad *)

Lemma bind_Ret {S A B} (m : M S A) (k : A -> M S B) s b s' :
  bind m k s = (Ret b, s') ->
  exists a s1, m s = (Ret a, s1) /\ k a s1 = (Ret b, s').
Proof.
  unfold bind. destruct (m s) as [[a|e] s1]; [eauto | discriminate].
Qed.

Lemma bind_run {S A B} (m : M S A) (k : A -> M S B) s a s1 :
  m s = (Ret a, s1) -> bind m k s = k a s1.
Proof. unfold bind. intros ->. reflexivity. Qed.

Lemma bind_run_throw {S A B} (m : M S A) (k : A -> M S B) s e s1 :
  m s = (Throw e, s1) -> bind m k s = (Throw e, s1).
Proof. unfold bind. intros ->. reflexivity. Qed.

Lemma zoom_inv {S T A} (proj : S -> T) upd (m : M T A) s r s' :
  zoom proj upd m s = (r, s') ->
  exists t, m (proj s) = (r, t) /\ s' = upd t s.
Proof.
  unfold zoom. destruct (m (proj s)) as [r0 t]. intros [= <- <-]. eauto.
Qed.

Lemma zoom_run {S T A} (proj : S -> T) upd (m : M T A) s r t :
  m (proj s) = (r, t) -> zoom proj upd m s = (r, upd t s).
Proof. unfold zoom. intros ->. reflexivity. Qed.

Lemma defined_Ret {S A} (o : option A) (s : S) a s' :
  defined o s = (Ret a, s') -> o = Some a /\ s' = s.
Proof. destruct o; simpl; unfold ret, throw; intros [= <- <-] || intros [=]; auto. Qed.

(** ** Buffers and files *)

Lemma mem_read_Some buf off len bs :
  mem_read buf off len = Some bs ->
  0 <= off /\ 0 <= len /\ off + len <= Z.of_nat (length buf) /\
  bs = take (Z.to_nat len) (drop (Z.to_nat off) buf) /\
  length bs = Z.to_nat len.
Proof.
  unfold mem_read. case_bool_decide as Hb; [|discriminate].
  intros [= <-]. repeat split; try lia.
  rewrite length_take, length_drop. lia.
Qed.

Lemma mem_write_0 buf bs :
  Z.of_nat (length bs) <= Z.of_nat (length buf) ->
  mem_write buf 0 bs = Some (bs ++ drop (length bs) buf).
Proof.
  intros H. unfold mem_write. rewrite bool_decide_eq_true_2 by lia.
  reflexivity.
Qed.

Lemma splice_length content off bs :
  (off + length bs <= length (splice content off bs))%nat.
Proof.
  unfold splice. rewrite !length_app, length_take, length_app, length_replicate,
    length_drop. lia.
Qed.

Lemma splice_read content off bs :
  take (length bs) (drop off (splice content off bs)) = bs.
Proof.
  unfold splice. rewrite drop_app_length'.
  - apply take_app_length.
  - rewrite length_take, length_app, length_replicate. lia.
Qed.

Lemma sys_lseek_inv fd0 off k r k' :
  sys_lseek fd0 off k = (Ret r, k') ->
  (r = -1 /\ k' = k) \/
  (r = off /\ 0 <= off /\
   exists p o, fdtab k !! fd0 = Some (p, o) /\
     k' = mkKernel (files k) (<[fd0 := (p, off)]> (fdtab k)) (trace k)).
Proof.
  unfold sys_lseek.
  destruct (fdtab k !! fd0) as [[p o]|] eqn:Hfd; [|intros [= <- <-]; auto].
  case_bool_decide; intros [= <- <-]; [right | left]; eauto 8.
Qed.

Lemma sys_write_inv fd0 bs k r k' :
  sys_write fd0 bs k = (Ret r, k') ->
  (r = -1 /\ k' = k) \/
  (r = Z.of_nat (length bs) /\
   exists p off content, fdtab k !! fd0 = Some (p, off) /\ files k !! p = Some content /\
     k' = log_event (EvWrite fd0 off bs)
            (mkKernel
               (<[p := if bool_decide (bs = []) then content
                       else splice content (Z.to_nat off) bs]> (files k))
               (<[fd0 := (p, off + Z.of_nat (length bs))]> (fdtab k)) (trace k))).
Proof.
  unfold sys_write.
  destruct (fdtab k !! fd0) as [[p o]|] eqn:Hfd; [|intros [= <- <-]; auto].
  destruct (files k !! p) as [content|] eqn:Hp; intros [= <- <-]; [right | left]; [|done].
  split; [done|]. exists p, o, content. done.
Qed.

Section StorageProofs.

Context {cfg : Config}.

(** ** DiskManager *)

(** read_page, written without the memory of a throwing call. *)
Lemma read_page_eq fd0 page_no0 offset num_bytes dm :
  read_page fd0 page_no0 offset num_bytes dm =
  (let* dm := get in
   match sys_fstat fd0 (kernel dm) with
   | None => throw InternalError
   | Some st_size =>
       if bool_decide (page_no0 * PAGE_SIZE >= st_size)
       then defined (mem_zero offset 0 num_bytes)
       else
         let* r := sys (sys_lseek fd0 (page_no0 * PAGE_SIZE)) in
         if bool_decide (r = -1) then throw InternalError else
         let* got := sys (sys_read fd0 num_bytes) in
         match got with
         | None => throw InternalError
         | Some bs =>
             let* d := defined (mem_write offset 0 bs) in
             if bool_decide (Z.of_nat (length bs) ≠ num_bytes) then throw InternalError
             else ret d
         end
   end) dm.
Proof.
  unfold read_page, read_page_mem, bind, get.
  destruct (sys_fstat fd0 (kernel dm)) as [st_size|]; [|reflexivity].
  case_bool_decide.
  { by destruct (mem_zero offset 0 num_bytes). }
  destruct (sys (sys_lseek fd0 (page_no0 * PAGE_SIZE)) dm) as [[r|e] dm1]; [|reflexivity].
  case_bool_decide; [reflexivity|].
  destruct (sys (sys_read fd0 num_bytes) dm1) as [[[bs|]|e] dm2]; [|reflexivity..].
  destruct (mem_write offset 0 bs); simpl; [|reflexivity].
  by case_bool_decide.
Qed.

Lemma read_page_beyond dm fd0 page_no0 buf n st_size :
  sys_fstat fd0 (kernel dm) = Some st_size ->
  st_size <= page_no0 * PAGE_SIZE ->
  0 <= n <= Z.of_nat (length buf) ->
  read_page fd0 page_no0 buf n dm = (Ret (zeros n ++ drop (Z.to_nat n) buf), dm).
Proof.
  intros Hst Hoff Hn. rewrite read_page_eq. unfold bind, get. rewrite Hst.
  rewrite bool_decide_eq_true_2 by lia.
  unfold mem_zero. rewrite bool_decide_eq_true_2 by lia.
  rewrite mem_write_0; unfold zeros; rewrite length_replicate; [reflexivity | lia].
Qed.

(** What a successful write_page has done. *)
Lemma write_page_inv dm fd0 page_no0 data n dm' :
  write_page fd0 page_no0 data n dm = (Ret tt, dm') ->
  0 <= page_no0 * PAGE_SIZE /\ 0 <= n <= Z.of_nat (length data) /\
  exists p o content,
    fdtab (kernel dm) !! fd0 = Some (p, o) /\
    files (kernel dm) !! p = Some content /\
    dm' = mkDiskManager
            (mkKernel
               (<[p := if bool_decide (take (Z.to_nat n) data = []) then content
                       else splice content (Z.to_nat (page_no0 * PAGE_SIZE))
                              (take (Z.to_nat n) data)]> (files (kernel dm)))
               (<[fd0 := (p, page_no0 * PAGE_SIZE + n)]> (fdtab (kernel dm)))
               (trace (kernel dm)
                  ++ [EvWrite fd0 (page_no0 * PAGE_SIZE) (take (Z.to_nat n) data)]))
            (fd2pageno_ dm) (fd_occupied_ dm) (fd2path_ dm) (path2fd_ dm).
Proof.
  intros Hw. unfold write_page in Hw.
  apply bind_Ret in Hw as (r & dm1 & Hseek & Hw).
  apply zoom_inv in Hseek as (k1 & Hseek & ->).
  apply sys_lseek_inv in Hseek as [[-> ->] | (-> & Hoff & p & o & Hfd & ->)].
  { rewrite bool_decide_eq_true_2 in Hw by done. discriminate. }
  case_bool_decide as Hr; [discriminate|].
  apply bind_Ret in Hw as (bs & dm2 & Hbs & Hw).
  apply defined_Ret in Hbs as [Hbs ->].
  apply mem_read_Some in Hbs as (_ & Hn0 & Hlen & Hbs & Hbslen).
  rewrite drop_0 in Hbs.
  apply bind_Ret in Hw as (bw & dm3 & Hwr & Hw).
  apply zoom_inv in Hwr as (k2 & Hwr & ->).
  apply sys_write_inv in Hwr
    as [[-> ->] | (-> & p' & off' & content & Hfd' & Hp & ->)].
  { case_bool_decide; [discriminate | lia]. }
  simpl in Hfd', Hp. rewrite lookup_insert_eq in Hfd'. injection Hfd' as <- <-.
  case_bool_decide; [discriminate|]. injection Hw as <-.
  split; [done|]. split; [lia|].
  exists p, o, content. split; [done|]. split; [done|].
  unfold log_event; simpl. rewrite insert_insert_eq. subst bs.
  rewrite Hbslen. repeat f_equal. lia.
Qed.

Lemma write_then_read_page dm fd0 page_no0 data n dm' buf :
  write_page fd0 page_no0 data n dm = (Ret tt, dm') ->
  n <= Z.of_nat (length buf) ->
  exists dm'',
    read_page fd0 page_no0 buf n dm'
    = (Ret (take (Z.to_nat n) data ++ drop (Z.to_nat n) buf), dm'').
Proof.
  intros Hw Hn.
  apply write_page_inv in Hw as (Hoff & Hn0 & p & o & content & Hfd & Hp & ->).
  set (off := page_no0 * PAGE_SIZE) in *.
  set (bs := take (Z.to_nat n) data).
  assert (Hbslen : length bs = Z.to_nat n).
  { subst bs. rewrite length_take. lia. }
  set (content' := if bool_decide (bs = []) then content
                   else splice content (Z.to_nat off) bs).
  rewrite read_page_eq. unfold bind, get, sys_fstat, sys_stat; simpl.
  rewrite lookup_insert_eq, lookup_insert_eq; simpl. fold off.
  assert (Hres : mem_write buf 0 bs = Some (bs ++ drop (Z.to_nat n) buf)).
  { rewrite mem_write_0 by lia. rewrite Hbslen. reflexivity. }
  case_bool_decide as Hbeyond.
  - (* only possible when nothing was written *)
    assert (bs = []) as Hnil.
    { destruct (decide (bs = [])) as [|Hne]; [done|]. exfalso.
      subst content'. rewrite bool_decide_eq_false_2 in Hbeyond by done.
      pose proof (splice_length content (Z.to_nat off) bs).
      destruct bs; [done|]. simpl in *. lia. }
    assert (n = 0) as Hn00 by (rewrite Hnil in Hbslen; simpl in *; lia).
    unfold mem_zero. rewrite bool_decide_eq_true_2 by lia.
    rewrite Hnil in Hres. rewrite Hn00 in *. unfold zeros. simpl.
    simpl in Hres. rewrite Hres. simpl. rewrite Hnil. simpl. unfold ret. eauto.
  - unfold sys, zoom, sys_lseek; simpl. rewrite lookup_insert_eq.
    rewrite bool_decide_eq_true_2 by done. simpl.
    rewrite bool_decide_eq_false_2 by lia.
    unfold sys_read; simpl. rewrite lookup_insert_eq, lookup_insert_eq.
    assert (Hgot : take (Z.to_nat n) (drop (Z.to_nat off) content') = bs).
    { subst content'. case_bool_decide as Hnil.
      - rewrite Hnil in *. simpl in *.
        replace (Z.to_nat n) with 0%nat by lia. reflexivity.
      - rewrite <- Hbslen. apply splice_read. }
    rewrite Hgot. simpl. rewrite Hres. simpl.
    rewrite bool_decide_eq_false_2 by lia.
    unfold ret. eauto.
Qed.

End StorageProofs.
(** ** LRUReplacer *)

Lemma erase_node_elem f l x :
  NoDup l -> x ∈ erase_node f l <-> x ∈ l /\ x <> f.
Proof.
  induction l as [|y l IH]; simpl; intros Hnd.
  - set_solver.
  - apply NoDup_cons in Hnd as [Hy Hnd]. destruct (decide (y = f)) as [->|Hne].
    + set_solver.
    + rewrite elem_of_cons, IH by done. set_solver.
Qed.

Lemma erase_node_NoDup f l : NoDup l -> NoDup (erase_node f l).
Proof.
  induction l as [|y l IH]; simpl; intros Hnd; [done|].
  apply NoDup_cons in Hnd as [Hy Hnd]. destruct (decide (y = f)); [done|].
  apply NoDup_cons. split; [|auto]. rewrite erase_node_elem by done. tauto.
Qed.

Lemma erase_node_absent f l : f ∉ l -> erase_node f l = l.
Proof.
  induction l as [|y l IH]; simpl; [done|]. intros Hf.
  apply not_elem_of_cons in Hf as [Hne Hf].
  destruct (decide (y = f)); [congruence|]. by rewrite IH.
Qed.

Lemma lru_inv_new n : lru_inv (LRUReplacer_new n).
Proof. split; [constructor | set_solver]. Qed.

Lemma victim_inv r v r' :
  victim r = (v, r') -> lru_inv r ->
  lru_inv r' /\
  ((v = Ret None /\ r' = r /\ LRUlist_ r = []) \/
   (exists f, v = Ret (Some f) /\ LRUlist_ r = LRUlist_ r' ++ [f] /\ f ∉ LRUlist_ r')).
Proof.
  unfold victim, bind, get. intros Hv [Hnd Hh].
  destruct (last (LRUlist_ r)) as [f|] eqn:Hlast.
  - apply last_Some in Hlast as [l' Hl']. simpl in Hv. injection Hv as <- <-. simpl.
    rewrite Hl' in Hnd |- *. rewrite removelast_last.
    apply NoDup_app in Hnd as (Hnd' & Hdisj & _).
    split; [split; [done|]|].
    + intros x. simpl. rewrite elem_of_difference, Hh, Hl', elem_of_app.
      specialize (Hdisj x). set_solver.
    + right. exists f. split; [done|]. split; [done|].
      intros Hin. apply (Hdisj f Hin). set_solver.
  - apply last_None in Hlast. injection Hv as <- <-. split; [done|]. by left.
Qed.

Lemma pin_inv f r v r' :
  pin f r = (v, r') -> lru_inv r ->
  v = Ret tt /\ lru_inv r' /\ max_size_ r' = max_size_ r /\
  (forall x, x ∈ LRUlist_ r' <-> x ∈ LRUlist_ r /\ x <> f).
Proof.
  unfold pin, bind, get. intros Hp [Hnd Hh]. case_bool_decide as Hin.
  - injection Hp as <- <-. simpl. split; [done|]. split; [split|split; [done|]].
    + by apply erase_node_NoDup.
    + intros x. simpl. rewrite elem_of_difference, Hh, erase_node_elem by done. set_solver.
    + intros x. by apply erase_node_elem.
  - injection Hp as <- <-. split; [done|]. split; [done|]. split; [done|].
    intros x. split; [|tauto]. intros Hx. split; [done|].
    intros ->. by apply Hin, Hh.
Qed.

Lemma unpin_inv f r v r' :
  unpin f r = (v, r') -> lru_inv r ->
  v = Ret tt /\ lru_inv r' /\
  (forall x, x ∈ LRUlist_ r' <-> x = f \/ x ∈ LRUlist_ r).
Proof.
  unfold unpin, bind, get. intros Hp [Hnd Hh]. case_bool_decide as Hin.
  - injection Hp as <- <-. split; [done|]. split; [done|].
    intros x. rewrite Hh in Hin. set_solver.
  - injection Hp as <- <-. simpl. split; [done|]. split; [split|].
    + apply NoDup_cons. rewrite <- Hh. done.
    + intros x. simpl. rewrite elem_of_union, elem_of_cons, Hh. set_solver.
    + intros x. apply elem_of_cons.
Qed.

Lemma pin_eq f r : pin f r = (Ret tt, (pin f r).2).
Proof. unfold pin, bind, get. case_bool_decide; reflexivity. Qed.

Lemma unpin_eq f r : unpin f r = (Ret tt, (unpin f r).2).
Proof. unfold unpin, bind, get. case_bool_decide; reflexivity. Qed.

Lemma pin_state_inv f r :
  lru_inv r ->
  lru_inv (pin f r).2 /\
  (forall x, x ∈ LRUlist_ (pin f r).2 <-> x ∈ LRUlist_ r /\ x <> f).
Proof.
  intros Hr. destruct (pin f r) as [v r'] eqn:Hp.
  destruct (pin_inv _ _ _ _ Hp Hr) as (_ & ? & _ & ?); auto.
Qed.

Lemma unpin_state_inv f r :
  lru_inv r ->
  lru_inv (unpin f r).2 /\
  (forall x, x ∈ LRUlist_ (unpin f r).2 <-> x = f \/ x ∈ LRUlist_ r).
Proof.
  intros Hr. destruct (unpin f r) as [v r'] eqn:Hp.
  destruct (unpin_inv _ _ _ _ Hp Hr) as (_ & ? & ?); auto.
Qed.

(** ** BufferPoolManager: the member functions in state-passing form *)

Section PoolEquations.

Context {cfg : Config}.

Lemma find_victim_page_eq b :
  find_victim_page b =
  match free_list_ b with
  | f :: rest => (Ret (Some f), with_free_list rest b)
  | [] =>
      match last (LRUlist_ (replacer_ b)) with
      | None => (Ret None, b)
      | Some f =>
          let b1 := with_replacer (victim (replacer_ b)).2 b in
          match pages_ b !! f with
          | None => (Throw Undefined, b1)
          | Some pg =>
              if is_dirty_ pg then
                match write_page (fd (id_ pg)) (page_no (id_ pg)) (data_ pg) PAGE_SIZE
                        (disk_manager_ b) with
                | (Ret _, dm) =>
                    (Ret (Some f),
                     with_page_table (delete (id_ pg) (page_table_ b))
                       (with_pages (<[f := clean pg]> (pages_ b))
                          (with_disk_manager dm b1)))
                | (Throw e, dm) => (Throw e, with_disk_manager dm b1)
                end
              else (Ret (Some f), with_page_table (delete (id_ pg) (page_table_ b)) b1)
          end
      end
  end.
Proof.
  destruct b as [sz ps tab fl dm r]. unfold find_victim_page, bind, get. simpl.
  destruct fl as [|f rest]; [|reflexivity].
  unfold on_replacer, zoom, victim, bind, get; simpl.
  destruct (last (LRUlist_ r)) as [f|]; simpl; [|by destruct r].
  unfold frame, bind, get, defined; simpl.
  destruct (ps !! f) as [pg|]; simpl; [|reflexivity].
  destruct (is_dirty_ pg); simpl; [|reflexivity].
  unfold on_disk, zoom; simpl.
  destruct (write_page _ _ _ _ dm) as [[[]|e] dm']; reflexivity.
Qed.

Lemma frame_eq f b :
  frame f b = match pages_ b !! f with
              | Some pg => (Ret pg, b)
              | None => (Throw Undefined, b)
              end.
Proof. unfold frame, bind, get, defined. by destruct (pages_ b !! f). Qed.

Lemma list_insert_lookup_Some {A} (l : list A) i x y :
  l !! i = Some y -> <[i:=x]> l !! i = Some x.
Proof. intros H. apply list_lookup_insert_eq. by eapply lookup_lt_Some. Qed.

Lemma fetch_page_eq pid b :
  fetch_page pid b =
  match page_table_ b !! pid with
  | Some f =>
      match pages_ b !! f with
      | None => (Throw Undefined, b)
      | Some pg =>
          if bool_decide (INT_MIN <= pin_count_ pg + 1 <= INT_MAX) then
            (Ret (Some f),
             with_replacer (pin f (replacer_ b)).2
               (with_pages
                  (<[f := mkPage (id_ pg) (data_ pg) (is_dirty_ pg) (pin_count_ pg + 1)]>
                     (pages_ b)) b))
          else (Throw Undefined, b)
      end
  | None =>
      match find_victim_page b with
      | (Throw e, b1) => (Throw e, b1)
      | (Ret None, b1) => (Ret None, b1)
      | (Ret (Some f), b1) =>
          match pages_ b1 !! f with
          | None => (Throw Undefined, b1)
          | Some pg =>
              match read_page (fd pid) (page_no pid) (data_ pg) PAGE_SIZE
                      (disk_manager_ b1) with
              | (Throw e, dm) =>
                  (Throw e,
                   with_disk_manager dm
                     (with_pages
                        (<[f := mkPage pid
                                 (read_page_memory (fd pid) (page_no pid) (data_ pg)
                                    PAGE_SIZE (disk_manager_ b1))
                                 (is_dirty_ pg) (pin_count_ pg)]>
                           (pages_ b1)) b1))
              | (Ret bytes, dm) =>
                  (Ret (Some f),
                   with_replacer (pin f (replacer_ b1)).2
                     (with_page_table (<[pid := f]> (page_table_ b1))
                        (with_pages (<[f := mkPage pid bytes false 1]> (pages_ b1))
                           (with_disk_manager dm b1))))
              end
          end
      end
  end.
Proof.
  unfold fetch_page. unfold bind at 1. unfold get at 1.
  destruct (page_table_ b !! pid) as [f|] eqn:Htab.
  - unfold bind at 1. rewrite frame_eq.
    destruct (pages_ b !! f) as [pg|] eqn:Hpg; [|reflexivity].
    unfold bind at 1. unfold int_add.
    case_bool_decide; [|reflexivity].
    unfold ret at 1. unfold bind, set_frame, modify, on_replacer, zoom; simpl.
    rewrite pin_eq. reflexivity.
  - unfold bind at 1.
    destruct (find_victim_page b) as [[[f|]|e] b1]; [|reflexivity..].
    unfold update_page. unfold bind at 1. unfold bind at 1. rewrite frame_eq.
    destruct (pages_ b1 !! f) as [pg|] eqn:Hpg; [|reflexivity].
    unfold set_frame at 1, modify at 1.
    unfold bind at 1. rewrite frame_eq. simpl.
    rewrite (list_insert_lookup_Some _ _ _ _ Hpg).
    unfold bind at 1, on_disk at 1, zoom at 1. simpl.
    unfold read_page, read_page_memory, bind.
    destruct (read_page_mem _ _ _ _ (disk_manager_ b1)) as [[[d [e|]]|e] dm]; simpl.
    + unfold throw, with_pages, with_disk_manager; simpl.
      by rewrite list_insert_insert_eq.
    + unfold on_replacer, zoom, ret; simpl.
      rewrite pin_eq, !list_insert_insert_eq. reflexivity.
    + reflexivity.
Qed.

Lemma new_page_eq pid b :
  new_page pid b =
  match find_victim_page b with
  | (Throw e, b1) => (Throw e, b1)
  | (Ret None, b1) => (Ret None, b1)
  | (Ret (Some f), b1) =>
      match allocate_page (fd pid) (disk_manager_ b1) with
      | (Throw e, dm) => (Throw e, with_disk_manager dm b1)
      | (Ret n, dm) =>
          match pages_ b1 !! f with
          | None => (Throw Undefined, with_disk_manager dm b1)
          | Some pg =>
              (Ret (Some (f, mkPageId (fd pid) n)),
               with_replacer (pin f (replacer_ b1)).2
                 (with_page_table (<[mkPageId (fd pid) n := f]> (page_table_ b1))
                    (with_pages
                       (<[f := mkPage (mkPageId (fd pid) n) (data_ pg) false 1]> (pages_ b1))
                       (with_disk_manager dm b1))))
          end
      end
  end.
Proof.
  unfold new_page. unfold bind at 1.
  destruct (find_victim_page b) as [[[f|]|e] b1]; [|reflexivity..].
  unfold bind at 1, on_disk at 1, zoom at 1.
  destruct (allocate_page _ (disk_manager_ b1)) as [[n|e] dm]; [|reflexivity].
  unfold update_page. unfold bind at 1. unfold bind at 1. rewrite frame_eq. simpl.
  destruct (pages_ b1 !! f) as [pg|] eqn:Hpg; [|reflexivity].
  unfold set_frame at 1, modify at 1.
  unfold bind at 1. rewrite frame_eq. simpl.
  rewrite (list_insert_lookup_Some _ _ _ _ Hpg).
  unfold bind, set_frame, modify, on_replacer, zoom; simpl.
  rewrite pin_eq, list_insert_insert_eq. reflexivity.
Qed.

Lemma unpin_page_eq pid is_dirty b :
  unpin_page pid is_dirty b =
  match page_table_ b !! pid with
  | None => (Ret false, b)
  | Some f =>
      match pages_ b !! f with
      | None => (Throw Undefined, b)
      | Some pg =>
          if bool_decide (pin_count_ pg <= 0) then (Ret false, b)
          else if bool_decide (INT_MIN <= pin_count_ pg + -1 <= INT_MAX) then
            (Ret true,
             with_replacer
               (if bool_decide (pin_count_ pg + -1 = 0)
                then (unpin f (replacer_ b)).2 else replacer_ b)
               (with_pages
                  (<[f := mkPage (id_ pg) (data_ pg)
                            (if is_dirty then true else is_dirty_ pg)
                            (pin_count_ pg + -1)]> (pages_ b)) b))
          else (Throw Undefined, b)
      end
  end.
Proof.
  unfold unpin_page. unfold bind at 1. unfold get at 1.
  destruct (page_table_ b !! pid) as [f|] eqn:Htab; [|reflexivity].
  unfold bind at 1. rewrite frame_eq.
  destruct (pages_ b !! f) as [pg|] eqn:Hpg; [|reflexivity].
  case_bool_decide; [reflexivity|].
  unfold bind at 1. unfold int_add.
  case_bool_decide; [|reflexivity].
  unfold ret at 1. unfold bind at 1, set_frame at 1, modify at 1.
  case_bool_decide.
  - unfold bind, on_replacer, zoom; simpl. rewrite unpin_eq. destruct b; reflexivity.
  - unfold bind, ret. destruct b; reflexivity.
Qed.

Lemma delete_page_eq pid b :
  delete_page pid b =
  match page_table_ b !! pid with
  | None => (Ret true, b)
  | Some f =>
      match pages_ b !! f with
      | None => (Throw Undefined, b)
      | Some pg =>
          if bool_decide (pin_count_ pg > 0) then (Ret false, b)
          else
            (Ret true,
             with_replacer (pin f (replacer_ b)).2
               (with_free_list (free_list_ b ++ [f])
                  (with_pages
                     (<[f := mkPage (mkPageId INVALID_PAGE_ID INVALID_PAGE_ID) (data_ pg)
                               false (pin_count_ pg)]> (pages_ b))
                     (with_page_table (delete pid (page_table_ b)) b))))
      end
  end.
Proof.
  unfold delete_page. unfold bind at 1. unfold get at 1.
  destruct (page_table_ b !! pid) as [f|] eqn:Htab; [|reflexivity].
  unfold bind at 1. rewrite frame_eq.
  destruct (pages_ b !! f) as [pg|] eqn:Hpg; [|reflexivity].
  case_bool_decide; [reflexivity|].
  unfold bind, set_frame, modify, on_replacer, zoom; simpl.
  rewrite pin_eq. reflexivity.
Qed.

Lemma flush_page_eq pid b :
  flush_page pid b =
  match page_table_ b !! pid with
  | None => (Ret false, b)
  | Some f =>
      match pages_ b !! f with
      | None => (Throw Undefined, b)
      | Some pg =>
          match write_page (fd pid) (page_no pid) (data_ pg) PAGE_SIZE (disk_manager_ b) with
          | (Throw e, dm) => (Throw e, with_disk_manager dm b)
          | (Ret _, dm) =>
              (Ret true, with_pages (<[f := clean pg]> (pages_ b)) (with_disk_manager dm b))
          end
      end
  end.
Proof.
  unfold flush_page. unfold bind at 1. unfold get at 1.
  destruct (page_table_ b !! pid) as [f|] eqn:Htab; [|reflexivity].
  unfold bind at 1. rewrite frame_eq.
  destruct (pages_ b !! f) as [pg|] eqn:Hpg; [|reflexivity].
  unfold bind at 1, on_disk at 1, zoom at 1.
  destruct (write_page _ _ _ _ (disk_manager_ b)) as [[[]|e] dm]; reflexivity.
Qed.

End PoolEquations.

(** ** BufferPoolManager: the invariant *)

Lemma pool_inv_intro b b' :
  pool_inv b ->
  lru_inv (replacer_ b') ->
  length (pins b') = length (pins b) ->
  (forall pid g, page_table_ b' !! pid = Some g ->
     page_table_ b !! pid = Some g \/ (g < length (pins b))%nat) ->
  (forall x n, pins b' !! x = Some n -> pins b !! x = Some n \/ 0 <= n <= INT_MAX) ->
  (forall x, x ∈ LRUlist_ (replacer_ b') ->
     (x ∈ LRUlist_ (replacer_ b) /\ pins b' !! x = pins b !! x) \/ pins b' !! x = Some 0) ->
  pool_inv b'.
Proof.
  intros (Hr & Htab & Hpin & Hev) Hr' Hlen Htab' Hpin' Hev'.
  split; [done|]. split; [|split].
  - intros pid g Hg. rewrite Hlen. destruct (Htab' _ _ Hg); eauto.
  - intros x n Hx. destruct (Hpin' _ _ Hx); eauto.
  - intros x Hx. destruct (Hev' _ Hx) as [[? ->]|]; eauto.
Qed.

Lemma pins_insert (f : nat) pg (ps : list Page) :
  pin_count_ <$> <[f := pg]> ps = <[f := pin_count_ pg]> (pin_count_ <$> ps).
Proof. apply list_fmap_insert. Qed.

Lemma pins_lookup b f :
  pins b !! f = pin_count_ <$> pages_ b !! f.
Proof. unfold pins. apply list_lookup_fmap. Qed.

(** Replacing a frame by one with pin count [n], with any change of the
    page table that stays inside [pages_] and a replacer that only lost
    frames, or gained [f] when [n] is 0. *)
Lemma pool_inv_set_frame b b' f pg n :
  pool_inv b ->
  pages_ b !! f = Some pg ->
  pins b' = <[f := n]> (pins b) ->
  0 <= n <= INT_MAX ->
  lru_inv (replacer_ b') ->
  (forall pid g, page_table_ b' !! pid = Some g ->
     page_table_ b !! pid = Some g \/ g = f) ->
  (forall x, x ∈ LRUlist_ (replacer_ b') ->
     (x ∈ LRUlist_ (replacer_ b) /\ x <> f) \/ (x = f /\ n = 0)) ->
  pool_inv b'.
Proof.
  intros Hinv Hpg Hpins Hn Hr' Htab' Hev'.
  assert (Hf : (f < length (pins b))%nat).
  { unfold pins. rewrite length_fmap. by eapply lookup_lt_Some. }
  apply (pool_inv_intro b); [done|done|..].
  - rewrite Hpins. apply length_insert.
  - intros pid g Hg. destruct (Htab' _ _ Hg) as [? | ->]; auto.
  - intros x m. rewrite Hpins. destruct (decide (x = f)) as [->|Hne].
    + rewrite list_lookup_insert_eq by done. intros [= <-]. auto.
    + rewrite list_lookup_insert_ne by done. auto.
  - intros x Hx. rewrite Hpins. destruct (Hev' _ Hx) as [[Hx' Hne] | [-> ->]].
    + rewrite list_lookup_insert_ne by done. auto.
    + rewrite list_lookup_insert_eq by done. auto.
Qed.

(** The same when no pin count changes. *)
Lemma pool_inv_same_pins b b' :
  pool_inv b ->
  pins b' = pins b ->
  lru_inv (replacer_ b') ->
  (forall pid g, page_table_ b' !! pid = Some g -> page_table_ b !! pid = Some g) ->
  (forall x, x ∈ LRUlist_ (replacer_ b') -> x ∈ LRUlist_ (replacer_ b)) ->
  pool_inv b'.
Proof.
  intros Hinv Hpins Hr' Htab' Hev'.
  apply (pool_inv_intro b); [done|done|by rewrite Hpins|..].
  - intros pid g Hg. left. auto.
  - intros x n. rewrite Hpins. auto.
  - intros x Hx. rewrite Hpins. auto.
Qed.

Lemma pins_same_pin b f pg pg' :
  pages_ b !! f = Some pg ->
  pin_count_ pg' = pin_count_ pg ->
  pin_count_ <$> <[f := pg']> (pages_ b) = pins b.
Proof.
  intros Hpg Hpin. unfold pins. rewrite pins_insert, Hpin. apply list_insert_id.
  rewrite list_lookup_fmap, Hpg. reflexivity.
Qed.

Section PoolInvariant.

Context {cfg : Config}.

Lemma pool_inv_new pool_size dm : pool_inv (BufferPoolManager_new pool_size dm).
Proof.
  split; [apply lru_inv_new|]. split; [|split]; simpl.
  - intros pid f. rewrite lookup_empty. discriminate.
  - intros f n. unfold pins; simpl. rewrite list_lookup_fmap.
    intros Hn. apply fmap_Some in Hn as (pg & Hpg & ->).
    apply lookup_replicate in Hpg as [-> _]. simpl. unfold INT_MAX. lia.
  - intros f Hf. by apply elem_of_nil in Hf.
Qed.

Lemma victim_state_inv r :
  lru_inv r ->
  lru_inv (victim r).2 /\ forall x, x ∈ LRUlist_ (victim r).2 -> x ∈ LRUlist_ r.
Proof.
  intros Hr. destruct (victim r) as [v r'] eqn:Hv.
  destruct (victim_inv _ _ _ Hv Hr) as [Hr' [(_ & -> & _)|(f & _ & Hl & _)]].
  - split; [done|]. simpl. auto.
  - split; [done|]. simpl. intros x Hx. rewrite Hl. set_solver.
Qed.

Lemma find_victim_page_pool_inv b :
  pool_inv b -> pool_inv (find_victim_page b).2.
Proof.
  intros Hinv. rewrite find_victim_page_eq.
  destruct (free_list_ b) as [|f0 rest].
  - destruct (last (LRUlist_ (replacer_ b))) as [f|]; [|done].
    pose proof Hinv as (Hr & _).
    apply victim_state_inv in Hr as [Hr' Hsub].
    assert (Hb1 : pool_inv (with_replacer (victim (replacer_ b)).2 b)).
    { apply (pool_inv_same_pins b); auto. }
    simpl. destruct (pages_ b !! f) as [pg|] eqn:Hpg; [|done].
    destruct (is_dirty_ pg).
    + destruct (write_page _ _ _ _ (disk_manager_ b)) as [[[]|e] dm]; simpl.
      * apply (pool_inv_same_pins b); simpl; auto.
        -- unfold pins; simpl. by apply (pins_same_pin b f pg).
        -- intros pid g Hg. apply lookup_delete_Some in Hg. tauto.
      * apply (pool_inv_same_pins b); auto.
    + simpl. apply (pool_inv_same_pins b); simpl; auto.
      intros pid g Hg. apply lookup_delete_Some in Hg. tauto.
  - simpl. apply (pool_inv_same_pins b); auto. by destruct Hinv.
Qed.

Lemma fetch_page_pool_inv pid b :
  pool_inv b -> pool_inv (fetch_page pid b).2.
Proof.
  intros Hinv. rewrite fetch_page_eq.
  destruct (page_table_ b !! pid) as [f|] eqn:Htab.
  - destruct (pages_ b !! f) as [pg|] eqn:Hpg; [|done].
    case_bool_decide as Hov; [|done]. simpl.
    pose proof Hinv as (Hr & _ & Hpin & _).
    apply (pin_state_inv f) in Hr as [Hr' Hmem].
    assert (0 <= pin_count_ pg).
    { apply (Hpin f). rewrite pins_lookup, Hpg. reflexivity. }
    eapply (pool_inv_set_frame b _ f pg (pin_count_ pg + 1)); simpl; auto.
    + unfold pins; simpl. apply pins_insert.
    + unfold INT_MAX, INT_MIN in *. lia.
    + intros x Hx. left. by apply Hmem.
  - pose proof (find_victim_page_pool_inv b Hinv) as Hinv1.
    destruct (find_victim_page b) as [[[f|]|e] b1]; [|done..]. simpl in Hinv1.
    destruct (pages_ b1 !! f) as [pg|] eqn:Hpg; [|done].
    destruct (read_page _ _ _ _ (disk_manager_ b1)) as [[bytes|e] dm]; simpl.
    + pose proof Hinv1 as (Hr & _).
      apply (pin_state_inv f) in Hr as [Hr' Hmem].
      eapply (pool_inv_set_frame b1 _ f pg 1); simpl; auto.
      * unfold pins; simpl. apply pins_insert.
      * unfold INT_MAX. lia.
      * intros q g Hg. apply lookup_insert_Some in Hg as [[_ <-]|[_ Hg]]; auto.
      * intros x Hx. left. by apply Hmem.
    + apply (pool_inv_same_pins b1); simpl; auto.
      * unfold pins; simpl. by apply (pins_same_pin b1 f pg).
      * by destruct Hinv1.
Qed.

Lemma new_page_pool_inv pid b :
  pool_inv b -> pool_inv (new_page pid b).2.
Proof.
  intros Hinv. rewrite new_page_eq.
  pose proof (find_victim_page_pool_inv b Hinv) as Hinv1.
  destruct (find_victim_page b) as [[[f|]|e] b1]; [|done..]. simpl in Hinv1.
  assert (Hdisk : forall dm, pool_inv (with_disk_manager dm b1)).
  { intros dm. apply (pool_inv_same_pins b1); auto. by destruct Hinv1. }
  destruct (allocate_page _ (disk_manager_ b1)) as [[n|e] dm]; [|apply Hdisk].
  destruct (pages_ b1 !! f) as [pg|] eqn:Hpg; [|apply Hdisk]. simpl.
  pose proof Hinv1 as (Hr & _).
  apply (pin_state_inv f) in Hr as [Hr' Hmem].
  eapply (pool_inv_set_frame b1 _ f pg 1); simpl; auto.
  - unfold pins; simpl. apply pins_insert.
  - unfold INT_MAX. lia.
  - intros q g Hg. apply lookup_insert_Some in Hg as [[_ <-]|[_ Hg]]; auto.
  - intros x Hx. left. by apply Hmem.
Qed.

Lemma unpin_page_pool_inv pid is_dirty b :
  pool_inv b -> pool_inv (unpin_page pid is_dirty b).2.
Proof.
  intros Hinv. rewrite unpin_page_eq.
  destruct (page_table_ b !! pid) as [f|] eqn:Htab; [|done].
  destruct (pages_ b !! f) as [pg|] eqn:Hpg; [|done].
  case_bool_decide as Hpos; [done|].
  case_bool_decide as Hov; [|done]. simpl.
  pose proof Hinv as (Hr & _ & Hpin & Hev).
  assert (Hpf : pins b !! f = Some (pin_count_ pg)).
  { rewrite pins_lookup, Hpg. reflexivity. }
  assert (pin_count_ pg <= INT_MAX) by (apply (Hpin f); done).
  eapply (pool_inv_set_frame b _ f pg (pin_count_ pg + -1)); simpl; auto.
  - unfold pins; simpl. apply pins_insert.
  - lia.
  - case_bool_decide; [|done]. by apply unpin_state_inv.
  - intros x. case_bool_decide as Hz.
    + intros Hx. apply (unpin_state_inv f) in Hx as [->|Hx]; [auto| |done].
      destruct (decide (x = f)) as [->|]; auto.
    + intros Hx. left. split; [done|]. intros ->.
      specialize (Hev f Hx). rewrite Hpf in Hev. injection Hev as Hev. lia.
Qed.

Lemma delete_page_pool_inv pid b :
  pool_inv b -> pool_inv (delete_page pid b).2.
Proof.
  intros Hinv. rewrite delete_page_eq.
  destruct (page_table_ b !! pid) as [f|] eqn:Htab; [|done].
  destruct (pages_ b !! f) as [pg|] eqn:Hpg; [|done].
  case_bool_decide as Hpos; [done|]. simpl.
  pose proof Hinv as (Hr & _).
  apply (pin_state_inv f) in Hr as [Hr' Hmem].
  apply (pool_inv_same_pins b); simpl; auto.
  - unfold pins; simpl. by apply (pins_same_pin b f pg).
  - intros q g Hg. apply lookup_delete_Some in Hg. tauto.
  - intros x Hx. by apply Hmem.
Qed.

Lemma pool_inv_with_disk_manager dm b :
  pool_inv b -> pool_inv (with_disk_manager dm b).
Proof. intros Hinv. apply (pool_inv_same_pins b); auto. by destruct Hinv. Qed.

Lemma pool_inv_clean b f pg dm :
  pool_inv b -> pages_ b !! f = Some pg ->
  pool_inv (with_pages (<[f := clean pg]> (pages_ b)) (with_disk_manager dm b)).
Proof.
  intros Hinv Hpg. apply (pool_inv_same_pins b); simpl; auto.
  - unfold pins; simpl. by apply (pins_same_pin b f pg).
  - by destruct Hinv.
Qed.

Lemma flush_page_pool_inv pid b :
  pool_inv b -> pool_inv (flush_page pid b).2.
Proof.
  intros Hinv. rewrite flush_page_eq.
  destruct (page_table_ b !! pid) as [f|] eqn:Htab; [|done].
  destruct (pages_ b !! f) as [pg|] eqn:Hpg; [|done].
  destruct (write_page _ _ _ _ (disk_manager_ b)) as [[[]|e] dm]; simpl.
  - by apply pool_inv_clean.
  - by apply pool_inv_with_disk_manager.
Qed.

Lemma for_each_keeps {S} (I : S -> Prop) (body : nat -> M S unit) l :
  (forall i s, I s -> I (body i s).2) ->
  forall s, I s -> I (for_each l body s).2.
Proof.
  intros Hbody. induction l as [|i l IH]; intros s Hs; simpl; [done|].
  unfold bind. specialize (Hbody i s Hs).
  destruct (body i s) as [[[]|e] s1]; simpl in *; auto.
Qed.

Lemma flush_all_pages_pool_inv fd0 b :
  pool_inv b -> pool_inv (flush_all_pages fd0 b).2.
Proof.
  intros Hinv. unfold flush_all_pages. unfold bind at 1, get at 1.
  apply for_each_keeps; [|done]. clear b Hinv. intros i b Hinv.
  unfold bind at 1. rewrite frame_eq.
  destruct (pages_ b !! i) as [pg|] eqn:Hpg; [|done].
  case_bool_decide; [|done].
  unfold bind, on_disk, zoom, set_frame, modify.
  destruct (write_page _ _ _ _ (disk_manager_ b)) as [[[]|e] dm]; simpl.
  - by apply (pool_inv_clean (with_disk_manager dm b) i pg dm), Hpg; apply pool_inv_with_disk_manager.
  - by apply pool_inv_with_disk_manager.
Qed.

Lemma store_pool_inv page0 off bs b :
  pool_inv b -> pool_inv (store page0 off bs b).2.
Proof.
  intros Hinv. unfold store. unfold bind at 1. rewrite frame_eq.
  destruct (pages_ b !! page0) as [pg|] eqn:Hpg; [|done].
  unfold bind, defined. destruct (mem_write _ _ _) as [d|]; [|done]. simpl.
  apply (pool_inv_same_pins b); simpl; auto.
  - unfold pins; simpl. by apply (pins_same_pin b page0 pg).
  - by destruct Hinv.
Qed.

Lemma reachable_pool_inv b : reachable b -> pool_inv b.
Proof.
  induction 1.
  - apply pool_inv_new.
  - by apply fetch_page_pool_inv.
  - by apply new_page_pool_inv.
  - by apply unpin_page_pool_inv.
  - by apply delete_page_pool_inv.
  - by apply flush_page_pool_inv.
  - by apply flush_all_pages_pool_inv.
  - by apply store_pool_inv.
  - by apply pool_inv_with_disk_manager.
Qed.

End PoolInvariant.

Section PoolProperties.

Context {cfg : Config}.

(** unpin_page on a pool that satisfies the invariant: it returns, false
    exactly for a page that is not cached or has pin count 0, and then the
    pool is as before. *)
Lemma unpin_page_false_iff b pid is_dirty :
  pool_inv b ->
  exists r b',
    unpin_page pid is_dirty b = (Ret r, b') /\
    (r = false <->
       page_table_ b !! pid = None \/
       exists f pg, page_table_ b !! pid = Some f /\ pages_ b !! f = Some pg /\
                    pin_count_ pg = 0) /\
    (r = false -> b' = b).
Proof.
  intros (Hr & Htab & Hpin & Hev). rewrite unpin_page_eq.
  destruct (page_table_ b !! pid) as [f|] eqn:Hf.
  - specialize (Htab _ _ Hf). unfold pins in Htab. rewrite length_fmap in Htab.
    apply lookup_lt_is_Some in Htab as [pg Hpg]. rewrite Hpg.
    assert (0 <= pin_count_ pg <= INT_MAX) as Hrange.
    { apply (Hpin f). rewrite pins_lookup, Hpg. reflexivity. }
    case_bool_decide as Hle.
    + exists false, b. split; [done|]. split; [|done].
      split; [|done]. intros _. right. exists f, pg.
      split; [done|]. split; [done|]. lia.
    + rewrite bool_decide_eq_true_2 by (unfold INT_MIN, INT_MAX in *; lia).
      eexists true, _. split; [done|]. split; [|done].
      split; [done|]. intros [|(f' & pg' & [= <-] & Hpg' & Hz)]; [done|].
      rewrite Hpg in Hpg'. injection Hpg' as <-. lia.
  - exists false, b. split; [done|]. split; [|done]. split; auto.
Qed.

(** The frame the replacer gives up, when no frame is free. *)
Lemma find_victim_page_evicts b f pg :
  free_list_ b = [] ->
  last (LRUlist_ (replacer_ b)) = Some f ->
  pages_ b !! f = Some pg ->
  find_victim_page b =
  let b1 := with_replacer (victim (replacer_ b)).2 b in
  if is_dirty_ pg then
    match write_page (fd (id_ pg)) (page_no (id_ pg)) (data_ pg) PAGE_SIZE
            (disk_manager_ b) with
    | (Ret _, dm) =>
        (Ret (Some f),
         with_page_table (delete (id_ pg) (page_table_ b))
           (with_pages (<[f := clean pg]> (pages_ b)) (with_disk_manager dm b1)))
    | (Throw e, dm) => (Throw e, with_disk_manager dm b1)
    end
  else (Ret (Some f), with_page_table (delete (id_ pg) (page_table_ b)) b1).
Proof.
  intros Hfree Hlast Hpg. rewrite find_victim_page_eq, Hfree, Hlast. simpl.
  rewrite Hpg. reflexivity.
Qed.

Lemma allocate_page_kernel fd0 dm r dm' :
  allocate_page fd0 dm = (r, dm') -> kernel dm' = kernel dm.
Proof.
  unfold allocate_page. case_bool_decide; [|intros [= <- <-]; done].
  unfold bind, get, int_add. case_bool_decide; simpl; intros [= <- <-]; done.
Qed.

(** The events find_victim_page adds to the trace: nothing, or the write of
    a dirty victim. *)
Lemma find_victim_page_trace b r b' :
  find_victim_page b = (Ret r, b') ->
  exists evs,
    trace (kernel (disk_manager_ b')) = trace (kernel (disk_manager_ b)) ++ evs /\
    Forall (fun e => exists fd0 off bs, e = EvWrite fd0 off bs) evs.
Proof.
  rewrite find_victim_page_eq.
  assert (Hnil : forall b0 : BufferPoolManager,
             disk_manager_ b0 = disk_manager_ b ->
             exists evs,
               trace (kernel (disk_manager_ b0)) = trace (kernel (disk_manager_ b)) ++ evs /\
               Forall (fun e => exists fd0 off bs, e = EvWrite fd0 off bs) evs).
  { intros b0 ->. exists []. by rewrite app_nil_r. }
  destruct (free_list_ b) as [|f0 rest]; [|intros [= <- <-]; by apply Hnil].
  destruct (last (LRUlist_ (replacer_ b))) as [f|]; [|intros [= <- <-]; by apply Hnil].
  simpl. destruct (pages_ b !! f) as [pg|]; [|discriminate].
  destruct (is_dirty_ pg); [|intros [= <- <-]; by apply Hnil].
  destruct (write_page _ _ _ _ (disk_manager_ b)) as [[[]|e] dm] eqn:Hw; [|discriminate].
  intros [= <- <-]. simpl.
  apply write_page_inv in Hw as (_ & _ & p & o & content & _ & _ & ->). simpl.
  eexists [_]. split; [done|]. repeat constructor. eauto.
Qed.

(** find_victim_page leaves the memory of every frame as it was. *)
Lemma find_victim_page_data b r b' :
  find_victim_page b = (r, b') ->
  data_ <$> pages_ b' = data_ <$> pages_ b.
Proof.
  rewrite find_victim_page_eq.
  destruct (free_list_ b) as [|f0 rest]; [|intros [= <- <-]; done].
  destruct (last (LRUlist_ (replacer_ b))) as [f|]; [|intros [= <- <-]; done].
  simpl. destruct (pages_ b !! f) as [pg|] eqn:Hpg; [|intros [= <- <-]; done].
  destruct (is_dirty_ pg); [|intros [= <- <-]; done].
  destruct (write_page _ _ _ _ (disk_manager_ b)) as [[[]|e] dm] eqn:Hw;
    intros [= <- <-]; [|done]. simpl.
  rewrite list_fmap_insert. apply list_insert_id.
  rewrite list_lookup_fmap, Hpg. reflexivity.
Qed.

(** new_page hands out the frame with the memory it held before the call;
    the kernel sees no read. *)
Lemma new_page_keeps_data b pid f pid' b' :
  new_page pid b = (Ret (Some (f, pid')), b') ->
  exists pg,
    pages_ b !! f = Some pg /\
    pages_ b' !! f = Some (mkPage pid' (data_ pg) false 1) /\
    fd pid' = fd pid /\
    exists evs,
      trace (kernel (disk_manager_ b')) = trace (kernel (disk_manager_ b)) ++ evs /\
      Forall (fun e => exists fd0 off bs, e = EvWrite fd0 off bs) evs.
Proof.
  rewrite new_page_eq.
  destruct (find_victim_page b) as [[[f1|]|e] b1] eqn:Hv; [|discriminate..].
  destruct (allocate_page _ (disk_manager_ b1)) as [[n|e] dm] eqn:Ha; [|discriminate].
  destruct (pages_ b1 !! f1) as [pg1|] eqn:Hpg1; [|discriminate].
  intros [= <- <- <-]. simpl.
  pose proof (find_victim_page_data _ _ _ Hv) as Hdata.
  assert (exists pg, pages_ b !! f1 = Some pg /\ data_ pg = data_ pg1) as (pg & Hpg & Hd).
  { assert ((data_ <$> pages_ b) !! f1 = Some (data_ pg1)) as Hl.
    { rewrite <- Hdata, list_lookup_fmap, Hpg1. reflexivity. }
    rewrite list_lookup_fmap in Hl. apply fmap_Some in Hl as (pg & ? & ?). eauto. }
  exists pg. split; [done|]. split.
  { rewrite (list_insert_lookup_Some _ _ _ _ Hpg1), Hd. reflexivity. }
  split; [done|].
  apply allocate_page_kernel in Ha. rewrite Ha.
  eapply find_victim_page_trace, Hv.
Qed.

End PoolProperties.

Section Eviction.

Context {cfg : Config}.

Lemma filled_new n dm : filled n [] (BufferPoolManager_new n dm).
Proof.
  unfold filled; simpl. rewrite length_replicate, Nat.sub_0_r.
  repeat split; try done.
Qed.

Lemma fetch_phase n rest :
  forall done b frames b1,
    NoDup (done ++ rest) ->
    (length done + length rest <= n)%nat ->
    filled n done b ->
    for_all fetch_page rest b = (Ret frames, b1) ->
    filled n (done ++ rest) b1.
Proof.
  induction rest as [|p rest IH]; intros done b frames b1 Hnd Hlen Hfill Hrun.
  - injection Hrun as <- <-. by rewrite app_nil_r.
  - simpl in Hrun, Hlen.
    apply bind_Ret in Hrun as (a & b' & Hfetch & Hrun).
    apply bind_Ret in Hrun as (frames' & b1' & Hrun & Hret).
    injection Hret as <- <-.
    rewrite cons_middle, app_assoc in Hnd |- *.
    eapply (IH (done ++ [p])); [done|rewrite length_app; simpl; lia| |done].
    clear IH Hrun.
    destruct Hfill as (Hpages & Hfree & Hlist & Hhash & Htab & Hfr).
    apply NoDup_app in Hnd as (Hnd & _ & _).
    apply NoDup_app in Hnd as (Hnd & Hp & _).
    assert (Hpd : p ∉ done) by (intros Hin; apply (Hp p Hin); set_solver).
    rewrite fetch_page_eq in Hfetch.
    destruct (page_table_ b !! p) as [j|] eqn:Hj.
    { exfalso. apply Htab in Hj. apply Hpd. by eapply list_elem_of_lookup_2. }
    rewrite find_victim_page_eq, Hfree in Hfetch.
    set (k := length done) in *.
    replace (n - k)%nat with (S (n - S k)) in Hfetch by lia. simpl in Hfetch.
    destruct (lookup_lt_is_Some_2 (pages_ b) k) as [pg Hpg]; [lia|].
    rewrite Hpg in Hfetch.
    destruct (read_page _ _ _ _ (disk_manager_ b)) as [[bytes|e] dm]; [|discriminate].
    injection Hfetch as <- <-.
    unfold filled; simpl. rewrite length_insert, length_app. simpl.
    fold k. replace (k + 1)%nat with (S k) by lia.
    assert (Hpin : (pin k (replacer_ b)).2 = replacer_ b).
    { unfold pin, bind, get. rewrite Hhash. rewrite bool_decide_eq_false_2 by set_solver.
      reflexivity. }
    rewrite Hpin. repeat split; try done.
    + intros Hl. apply lookup_insert_Some in Hl as [[<- <-]|[Hne Hl]].
      * rewrite lookup_app_r by done. fold k. by rewrite Nat.sub_diag.
      * apply Htab in Hl. by apply lookup_app_l_Some.
    + intros Hl. apply lookup_app_Some in Hl as [Hl|[Hge Hl]].
      * rewrite lookup_insert_ne; [by apply Htab|].
        intros <-. apply Hpd. by eapply list_elem_of_lookup_2.
      * fold k in Hge, Hl. apply list_lookup_singleton_Some in Hl as [Hjk <-].
        replace j with k by lia. apply lookup_insert_eq.
    + intros j q Hl. apply lookup_app_Some in Hl as [Hl|[Hge Hl]].
      * destruct (Hfr _ _ Hl) as (pg' & Hpg' & Hid & Hpc).
        exists pg'. rewrite list_lookup_insert_ne; [done|].
        apply lookup_lt_Some in Hl. fold k in Hl. lia.
      * fold k in Hge, Hl. apply list_lookup_singleton_Some in Hl as [Hjk <-].
        replace j with k by lia.
        rewrite (list_insert_lookup_Some _ _ _ _ Hpg). eauto.
Qed.

Lemma filled_drained ps b :
  filled (length ps) ps b -> drained ps 0 b.
Proof.
  intros (Hpages & Hfree & Hlist & Hhash & Htab & Hfr).
  rewrite Nat.sub_diag in Hfree.
  repeat split; try done.
  - rewrite Hhash. set_solver.
  - lia.
  - apply Htab.
  - apply Htab.
Qed.

Lemma unpin_phase ps (dirty : PageId -> bool) rest :
  forall done b,
    ps = done ++ rest ->
    drained ps (length done) b ->
    exists oks b2,
      for_all (fun p => unpin_page p (dirty p)) rest b = (Ret oks, b2) /\
      drained ps (length ps) b2.
Proof.
  induction rest as [|p rest IH]; intros done b Hps Hdr.
  - rewrite app_nil_r in Hps. subst done. exists [], b. done.
  - simpl.
    set (k := length done) in *.
    assert (Hk : ps !! k = Some p).
    { rewrite Hps. rewrite lookup_app_r by done. fold k. by rewrite Nat.sub_diag. }
    destruct Hdr as (Hfree & Hlist & Hhash & Htab & Hfr).
    assert (Hunpin : exists b', unpin_page p (dirty p) b = (Ret true, b') /\
                                drained ps (S k) b').
    { rewrite unpin_page_eq. rewrite (proj2 (Htab p k) Hk).
      destruct (Hfr _ _ Hk) as (pg & Hpg & Hid & Hpc). rewrite Hpg.
      rewrite decide_False in Hpc by lia. rewrite Hpc. simpl.
      eexists. split; [reflexivity|].
      assert (Hun : (unpin k (replacer_ b)).2
                    = mkLRU (k :: LRUlist_ (replacer_ b)) ({[k]} ∪ LRUhash_ (replacer_ b))
                            (max_size_ (replacer_ b))).
      { unfold unpin, bind, get. rewrite bool_decide_eq_false_2; [done|].
        rewrite Hhash. lia. }
      rewrite Hun. unfold drained; simpl. repeat split; try done.
      - change (0%nat :: seq 1 k) with (seq 0 (S k)).
        rewrite Hlist, seq_S, reverse_app. reflexivity.
      - intros Hx. apply elem_of_union in Hx as [Hx|Hx].
        + apply elem_of_singleton in Hx. lia.
        + apply Hhash in Hx. lia.
      - intros Hx. apply elem_of_union.
        destruct (decide (x = k)) as [->|]; [left; set_solver|right; apply Hhash; lia].
      - by apply Htab.
      - by apply Htab.
      - intros j q Hjq. destruct (decide (j = k)) as [->|Hne].
        + rewrite (list_insert_lookup_Some _ _ _ _ Hpg). eexists. split; [done|].
          simpl. rewrite Hjq in Hk. injection Hk as ->.
          rewrite decide_True by lia. done.
        + rewrite list_lookup_insert_ne by done.
          destruct (Hfr _ _ Hjq) as (pg' & Hpg' & Hid' & Hpc').
          exists pg'. split; [done|]. split; [done|]. rewrite Hpc'.
          destruct (decide (j < k)%nat), (decide (j < S k)%nat); try done; lia. }
    destruct Hunpin as (b' & Hun & Hdr').
    destruct (IH (done ++ [p]) b') as (oks & b2 & Hrun & Hdr2).
    { by rewrite <- app_assoc. }
    { rewrite length_app; simpl. fold k. by replace (k + 1)%nat with (S k) by lia. }
    exists (true :: oks), b2. split; [|done].
    rewrite (bind_run _ _ _ _ _ Hun), (bind_run _ _ _ _ _ Hrun). reflexivity.
Qed.

(** With no free frame and every page unpinned in the order of [ps], the
    next page fetched takes the frame of the first page of [ps]. *)
Lemma fetch_evicts_first ps p1 q b f b' :
  ps !! 0%nat = Some p1 ->
  NoDup (q :: ps) ->
  drained ps (length ps) b ->
  fetch_page q b = (Ret (Some f), b') ->
  page_table_ b !! p1 = Some f /\
  page_table_ b' !! p1 = None /\
  page_table_ b' !! q = Some f /\
  (forall p, p ∈ ps -> p <> p1 ->
     page_table_ b' !! p = page_table_ b !! p /\ is_Some (page_table_ b' !! p)).
Proof.
  intros Hp1 Hnd (Hfree & Hlist & Hhash & Htab & Hfr) Hfetch.
  apply NoDup_cons in Hnd as [Hq Hnd].
  assert (Hlen : (0 < length ps)%nat) by (by eapply lookup_lt_Some).
  rewrite fetch_page_eq in Hfetch.
  destruct (page_table_ b !! q) as [j|] eqn:Hj.
  { exfalso. apply Htab in Hj. apply Hq. by eapply list_elem_of_lookup_2. }
  destruct (Hfr _ _ Hp1) as (pg & Hpg & Hid & _).
  assert (Hlast : last (LRUlist_ (replacer_ b)) = Some 0%nat).
  { rewrite Hlist, last_reverse. destruct (length ps); [lia|done]. }
  rewrite (find_victim_page_evicts b 0%nat pg Hfree Hlast Hpg) in Hfetch.
  simpl in Hfetch.
  assert (Hother : forall (t : gmap PageId nat) p,
             t = delete (id_ pg) (page_table_ b) ->
             p ∈ ps -> p <> p1 ->
             <[q := 0%nat]> t !! p = page_table_ b !! p /\
             is_Some (<[q := 0%nat]> t !! p)).
  { intros t p -> Hin Hne.
    assert (p <> q) by (intros ->; done).
    rewrite lookup_insert_ne by done. rewrite lookup_delete_ne by congruence.
    split; [done|]. apply list_elem_of_lookup_1 in Hin as [i Hi].
    apply Htab in Hi. eauto. }
  assert (Hq1 : q <> p1).
  { intros ->. apply Hq. by eapply list_elem_of_lookup_2. }
  assert (Hgone : forall t : gmap PageId nat,
             t = delete (id_ pg) (page_table_ b) -> <[q := 0%nat]> t !! p1 = None).
  { intros t ->. rewrite lookup_insert_ne by done. rewrite Hid. apply lookup_delete_eq. }
  destruct (is_dirty_ pg).
  - destruct (write_page _ _ _ _ (disk_manager_ b)) as [[[]|e] dm]; [|discriminate].
    simpl in Hfetch. rewrite (list_insert_lookup_Some _ _ _ _ Hpg) in Hfetch.
    destruct (read_page _ _ _ _ _) as [[bytes|e] dm']; [|discriminate].
    injection Hfetch as <- <-. simpl.
    split; [by apply Htab|]. split; [by apply Hgone|].
    split; [apply lookup_insert_eq|]. intros p. by apply Hother.
  - simpl in Hfetch. rewrite Hpg in Hfetch.
    destruct (read_page _ _ _ _ _) as [[bytes|e] dm']; [|discriminate].
    injection Hfetch as <- <-. simpl.
    split; [by apply Htab|]. split; [by apply Hgone|].
    split; [apply lookup_insert_eq|]. intros p. by apply Hother.
Qed.

(** A frame the replacer picks has pin count 0. *)
Lemma victim_unpinned b f r' :
  pool_inv b ->
  victim (replacer_ b) = (Ret (Some f), r') ->
  exists pg, pages_ b !! f = Some pg /\ pin_count_ pg = 0.
Proof.
  intros (Hr & _ & _ & Hev) Hv.
  destruct (victim_inv _ _ _ Hv Hr) as [_ [(? & _)|(f' & [= <-] & Hl & _)]]; [done|].
  specialize (Hev f). rewrite Hl in Hev.
  rewrite pins_lookup in Hev. 
  destruct (pages_ b !! f) as [pg|]; simpl in Hev.
  - exists pg. split; [done|]. assert (Some (pin_count_ pg) = Some 0) as [= ->]; [|done].
    apply Hev. set_solver.
  - assert (@None Z = Some 0) by (apply Hev; set_solver). done.
Qed.

End Eviction.

(** ** BufferPoolManager: the page table names the page in the frame *)

Lemma table_inv_same_ids b b' :
  table_inv b ->
  id_ <$> pages_ b' = id_ <$> pages_ b ->
  free_list_ b' = free_list_ b ->
  (forall pid g, page_table_ b' !! pid = Some g -> page_table_ b !! pid = Some g) ->
  table_inv b'.
Proof.
  intros (Hnd & Hfree & Hid) Hids Hfl Htab.
  split; [by rewrite Hfl|]. split.
  - intros pid g Hg. rewrite Hfl. eauto.
  - intros pid g Hg. rewrite Hids. eauto.
Qed.

Lemma ids_same_id b f pg pg' :
  pages_ b !! f = Some pg ->
  id_ pg' = id_ pg ->
  id_ <$> <[f := pg']> (pages_ b) = id_ <$> pages_ b.
Proof.
  intros Hpg Hid. rewrite list_fmap_insert, Hid. apply list_insert_id.
  rewrite list_lookup_fmap, Hpg. reflexivity.
Qed.

(** Giving frame [f], which no entry of the table names any more, to page
    [pid]. *)
Lemma table_inv_assign b b' f pg pg' pid :
  table_inv b ->
  pages_ b !! f = Some pg ->
  (forall q, page_table_ b !! q <> Some f) ->
  f ∉ free_list_ b ->
  pages_ b' = <[f := pg']> (pages_ b) ->
  id_ pg' = pid ->
  free_list_ b' = free_list_ b ->
  page_table_ b' = <[pid := f]> (page_table_ b) ->
  table_inv b'.
Proof.
  intros (Hnd & Hfree & Hid) Hpg Hnone Hf Hpages <- Hfl Htab.
  split; [by rewrite Hfl|]. split.
  - intros q g. rewrite Htab, Hfl. intros Hg.
    apply lookup_insert_Some in Hg as [[_ <-]|[_ Hg]]; eauto.
  - intros q g. rewrite Htab, Hpages. intros Hg.
    apply lookup_insert_Some in Hg as [[<- <-]|[_ Hg]].
    + rewrite list_lookup_fmap, (list_insert_lookup_Some _ _ _ _ Hpg). reflexivity.
    + rewrite list_lookup_fmap, list_lookup_insert_ne.
      * rewrite <- list_lookup_fmap. eauto.
      * intros <-. by apply (Hnone q).
Qed.

Section TableInvariant.

Context {cfg : Config}.

Lemma table_inv_new pool_size dm : table_inv (BufferPoolManager_new pool_size dm).
Proof.
  split; [apply NoDup_seq|]. split; intros pid f; simpl; rewrite lookup_empty; discriminate.
Qed.

(** After find_victim_page the table is still right, and the frame handed
    out is named by no entry and is not free. *)
Lemma find_victim_page_table_inv b r b' :
  table_inv b ->
  find_victim_page b = (r, b') ->
  table_inv b' /\
  forall f, r = Ret (Some f) ->
    (forall q, page_table_ b' !! q <> Some f) /\ f ∉ free_list_ b'.
Proof.
  intros Hinv. pose proof Hinv as (Hnd & Hfree & Hid).
  rewrite find_victim_page_eq.
  destruct (free_list_ b) as [|f0 rest] eqn:Hfl.
  - assert (Hb1 : forall r1 dm, table_inv (with_disk_manager dm (with_replacer r1 b))).
    { intros r1 dm. apply (table_inv_same_ids b); auto. }
    destruct (last (LRUlist_ (replacer_ b))) as [f|]; [|intros [= <- <-]; split; [done|discriminate]].
    simpl. destruct (pages_ b !! f) as [pg|] eqn:Hpg.
    2:{ intros [= <- <-]. split; [|discriminate]. apply (table_inv_same_ids b); auto. }
    assert (Hdel : forall q, delete (id_ pg) (page_table_ b) !! q <> Some f).
    { intros q Hq. apply lookup_delete_Some in Hq as [Hne Hq].
      apply Hid in Hq. rewrite list_lookup_fmap, Hpg in Hq. simpl in Hq. congruence. }
    destruct (is_dirty_ pg).
    + destruct (write_page _ _ _ _ (disk_manager_ b)) as [[[]|e] dm];
        intros [= <- <-]; [|split; [apply Hb1|discriminate]].
      split.
      * apply (table_inv_same_ids b); simpl; auto.
        -- by apply (ids_same_id b f pg).
        -- intros q g Hg. apply lookup_delete_Some in Hg. tauto.
      * intros f' [= <-]. simpl. rewrite Hfl. split; [done|]. apply not_elem_of_nil.
    + intros [= <- <-]. split.
      * apply (table_inv_same_ids b); simpl; auto.
        intros q g Hg. apply lookup_delete_Some in Hg. tauto.
      * intros f' [= <-]. simpl. rewrite Hfl. split; [done|]. apply not_elem_of_nil.
  - intros [= <- <-]. apply NoDup_cons in Hnd as [Hf0 Hnd]. split.
    + split; [done|]. split; simpl; [|done].
      intros pid g Hg Hin. apply (Hfree _ _ Hg). by right.
    + intros f' [= <-]. simpl. split; [|done].
      intros q Hq. apply (Hfree _ _ Hq). by left.
Qed.

Lemma table_inv_with_disk_manager dm b :
  table_inv b -> table_inv (with_disk_manager dm b).
Proof. intros Hinv. apply (table_inv_same_ids b); auto. Qed.

Lemma fetch_page_table_inv pid b :
  table_inv b -> table_inv (fetch_page pid b).2.
Proof.
  intros Hinv. rewrite fetch_page_eq.
  destruct (page_table_ b !! pid) as [f|] eqn:Htab.
  - destruct (pages_ b !! f) as [pg|] eqn:Hpg; [|done].
    case_bool_decide as Hov; [|done]. simpl.
    apply (table_inv_same_ids b); simpl; auto.
    by apply (ids_same_id b f pg).
  - destruct (find_victim_page b) as [[[f|]|e] b1] eqn:Hv;
      destruct (find_victim_page_table_inv _ _ _ Hinv Hv) as [Hinv1 Hf]; [|done..].
    destruct (Hf f eq_refl) as [Hnone Hnf].
    destruct (pages_ b1 !! f) as [pg|] eqn:Hpg; [|done].
    destruct (read_page _ _ _ _ (disk_manager_ b1)) as [[bytes|e] dm]; simpl.
    + by eapply (table_inv_assign b1 _ f pg _ pid).
    + destruct Hinv1 as (Hnd & Hfree & Hid). split; [done|]. split; [done|]. simpl.
      intros q g Hg. rewrite list_lookup_fmap, list_lookup_insert_ne.
      * rewrite <- list_lookup_fmap. eauto.
      * intros <-. by apply (Hnone q).
Qed.

Lemma new_page_table_inv pid b :
  table_inv b -> table_inv (new_page pid b).2.
Proof.
  intros Hinv. rewrite new_page_eq.
  destruct (find_victim_page b) as [[[f|]|e] b1] eqn:Hv;
    destruct (find_victim_page_table_inv _ _ _ Hinv Hv) as [Hinv1 Hf]; [|done..].
  destruct (Hf f eq_refl) as [Hnone Hnf].
  destruct (allocate_page _ (disk_manager_ b1)) as [[n|e] dm];
    [|by apply table_inv_with_disk_manager].
  destruct (pages_ b1 !! f) as [pg|] eqn:Hpg; [|by apply table_inv_with_disk_manager].
  simpl. by eapply (table_inv_assign b1 _ f pg _ (mkPageId (fd pid) n)).
Qed.

Lemma unpin_page_table_inv pid is_dirty b :
  table_inv b -> table_inv (unpin_page pid is_dirty b).2.
Proof.
  intros Hinv. rewrite unpin_page_eq.
  destruct (page_table_ b !! pid) as [f|] eqn:Htab; [|done].
  destruct (pages_ b !! f) as [pg|] eqn:Hpg; [|done].
  case_bool_decide as Hpos; [done|].
  case_bool_decide as Hov; [|done]. simpl.
  apply (table_inv_same_ids b); simpl; auto.
  by apply (ids_same_id b f pg).
Qed.

Lemma delete_page_table_inv pid b :
  table_inv b -> table_inv (delete_page pid b).2.
Proof.
  intros Hinv. pose proof Hinv as (Hnd & Hfree & Hid). rewrite delete_page_eq.
  destruct (page_table_ b !! pid) as [f|] eqn:Htab; [|done].
  destruct (pages_ b !! f) as [pg|] eqn:Hpg; [|done].
  case_bool_decide as Hpos; [done|]. simpl.
  assert (Hother : forall q g, delete pid (page_table_ b) !! q = Some g -> g <> f).
  { intros q g Hq <-. apply lookup_delete_Some in Hq as [Hne Hq].
    apply Hid in Hq. apply Hid in Htab. congruence. }
  split; [|split]; simpl.
  - apply NoDup_app. split; [done|]. split; [|apply NoDup_singleton].
    intros x Hx Hx'. apply list_elem_of_singleton in Hx' as ->. by apply (Hfree _ _ Htab).
  - intros q g Hq Hin. apply elem_of_app in Hin as [Hin|Hin].
    + apply lookup_delete_Some in Hq as [_ Hq]. by apply (Hfree _ _ Hq).
    + apply list_elem_of_singleton in Hin as ->. by apply (Hother _ _ Hq).
  - intros q g Hq. rewrite list_lookup_fmap, list_lookup_insert_ne.
    + rewrite <- list_lookup_fmap. apply lookup_delete_Some in Hq as [_ Hq]. eauto.
    + intros <-. by apply (Hother _ _ Hq).
Qed.

Lemma table_inv_clean b f pg dm :
  table_inv b -> pages_ b !! f = Some pg ->
  table_inv (with_pages (<[f := clean pg]> (pages_ b)) (with_disk_manager dm b)).
Proof.
  intros Hinv Hpg. apply (table_inv_same_ids b); simpl; auto.
  by apply (ids_same_id b f pg).
Qed.

Lemma flush_page_table_inv pid b :
  table_inv b -> table_inv (flush_page pid b).2.
Proof.
  intros Hinv. rewrite flush_page_eq.
  destruct (page_table_ b !! pid) as [f|] eqn:Htab; [|done].
  destruct (pages_ b !! f) as [pg|] eqn:Hpg; [|done].
  destruct (write_page _ _ _ _ (disk_manager_ b)) as [[[]|e] dm]; simpl.
  - by apply table_inv_clean.
  - by apply table_inv_with_disk_manager.
Qed.

Lemma flush_all_pages_table_inv fd0 b :
  table_inv b -> table_inv (flush_all_pages fd0 b).2.
Proof.
  intros Hinv. unfold flush_all_pages. unfold bind at 1, get at 1.
  apply for_each_keeps; [|done]. clear b Hinv. intros i b Hinv.
  unfold bind at 1. rewrite frame_eq.
  destruct (pages_ b !! i) as [pg|] eqn:Hpg; [|done].
  case_bool_decide; [|done].
  unfold bind, on_disk, zoom, set_frame, modify.
  destruct (write_page _ _ _ _ (disk_manager_ b)) as [[[]|e] dm]; simpl.
  - by apply (table_inv_clean (with_disk_manager dm b) i pg dm), Hpg;
      apply table_inv_with_disk_manager.
  - by apply table_inv_with_disk_manager.
Qed.

Lemma store_table_inv page0 off bs b :
  table_inv b -> table_inv (store page0 off bs b).2.
Proof.
  intros Hinv. unfold store. unfold bind at 1. rewrite frame_eq.
  destruct (pages_ b !! page0) as [pg|] eqn:Hpg; [|done].
  unfold bind, defined. destruct (mem_write _ _ _) as [d|]; [|done]. simpl.
  apply (table_inv_same_ids b); simpl; auto.
  by apply (ids_same_id b page0 pg).
Qed.

Lemma reachable_table_inv b : reachable b -> table_inv b.
Proof.
  induction 1.
  - apply table_inv_new.
  - by apply fetch_page_table_inv.
  - by apply new_page_table_inv.
  - by apply unpin_page_table_inv.
  - by apply delete_page_table_inv.
  - by apply flush_page_table_inv.
  - by apply flush_all_pages_table_inv.
  - by apply store_table_inv.
  - by apply table_inv_with_disk_manager.
Qed.

End TableInvariant.

(** ** Page memory *)

Lemma mem_write_Some buf off bs buf' :
  mem_write buf off bs = Some buf' ->
  0 <= off /\ off + Z.of_nat (length bs) <= Z.of_nat (length buf) /\
  buf' = take (Z.to_nat off) buf ++ bs ++ drop (Z.to_nat off + length bs) buf.
Proof.
  unfold mem_write. case_bool_decide as Hb; [|discriminate]. intros [= <-]. tauto.
Qed.

Lemma mem_write_length buf off bs buf' :
  mem_write buf off bs = Some buf' -> length buf' = length buf.
Proof.
  intros H. apply mem_write_Some in H as (H0 & Hle & ->).
  rewrite !length_app, length_take, length_drop. lia.
Qed.

(** The bytes of a buffer after memcpy. *)
Lemma mem_write_lookup buf off bs buf' (j : nat) :
  mem_write buf off bs = Some buf' ->
  buf' !! j = if decide (Z.to_nat off <= j < Z.to_nat off + length bs)%nat
              then bs !! (j - Z.to_nat off)%nat else buf !! j.
Proof.
  intros H. apply mem_write_Some in H as (H0 & Hle & ->).
  set (o := Z.to_nat off) in *.
  assert (Hlt : length (take o buf) = o) by (rewrite length_take; lia).
  destruct (decide (o <= j < o + length bs)%nat) as [Hin|Hout].
  - rewrite lookup_app_r by lia. rewrite Hlt. rewrite lookup_app_l by lia. done.
  - destruct (decide (j < o)%nat).
    + rewrite lookup_app_l by lia. apply lookup_take_lt. lia.
    + rewrite lookup_app_r by lia. rewrite lookup_app_r by lia.
      rewrite lookup_drop, Hlt. f_equal. lia.
Qed.

Lemma mem_read_lookup buf off len bs (i : nat) :
  mem_read buf off len = Some bs ->
  bs !! i = if decide (i < Z.to_nat len)%nat then buf !! (Z.to_nat off + i)%nat else None.
Proof.
  intros H. apply mem_read_Some in H as (H0 & H1 & Hle & -> & Hlen).
  destruct (decide (i < Z.to_nat len)%nat).
  - rewrite lookup_take_lt by done. apply lookup_drop.
  - apply lookup_take_ge. lia.
Qed.

Lemma mem_read_ext buf buf' off len :
  length buf' = length buf ->
  (forall j : nat, (Z.to_nat off <= j < Z.to_nat off + Z.to_nat len)%nat ->
                   buf' !! j = buf !! j) ->
  mem_read buf' off len = mem_read buf off len.
Proof.
  intros Hlen Hsame. unfold mem_read. rewrite Hlen.
  case_bool_decide as Hb; [|done]. f_equal. apply list_eq. intros i.
  destruct (decide (i < Z.to_nat len)%nat).
  - rewrite !lookup_take_lt, !lookup_drop by done. apply Hsame. lia.
  - rewrite !lookup_take_ge by lia. done.
Qed.

(** Reading back what was written. *)
Lemma mem_read_write_same buf off bs buf' :
  mem_write buf off bs = Some buf' ->
  mem_read buf' off (Z.of_nat (length bs)) = Some bs.
Proof.
  intros H. pose proof (mem_write_length _ _ _ _ H) as Hlen.
  pose proof H as H'. apply mem_write_Some in H' as (H0 & Hle & _).
  unfold mem_read. rewrite Hlen, bool_decide_eq_true_2 by lia. f_equal.
  apply list_eq. intros i. rewrite Nat2Z.id.
  destruct (decide (i < length bs)%nat).
  - rewrite lookup_take_lt, lookup_drop by done.
    rewrite (mem_write_lookup _ _ _ _ _ H), decide_True by lia. f_equal. lia.
  - rewrite lookup_take_ge by lia. symmetry. apply lookup_ge_None. lia.
Qed.

(** A write leaves the bytes outside its range as they were. *)
Lemma mem_read_write_other buf off bs buf' off2 len2 :
  mem_write buf off bs = Some buf' ->
  0 <= off2 -> 0 <= len2 ->
  off2 + len2 <= off \/ off + Z.of_nat (length bs) <= off2 ->
  mem_read buf' off2 len2 = mem_read buf off2 len2.
Proof.
  intros H H2 Hl2 Hdisj. apply mem_read_ext; [by eapply mem_write_length|].
  intros j Hj. rewrite (mem_write_lookup _ _ _ _ _ H). apply decide_False.
  apply mem_write_Some in H as (H0 & _ & _). lia.
Qed.

(** ** Integers in page memory *)

Lemma decode_encode_i32 v :
  INT_MIN <= v <= INT_MAX -> decode_i32 (encode_i32 v) = v.
Proof.
  unfold INT_MIN, INT_MAX. intros Hv. unfold decode_i32, encode_i32, wrap32.
  replace (v / 65536) with (v / 256 / 256) by (rewrite Z.div_div by lia; reflexivity).
  replace (v / 16777216) with (v / 256 / 256 / 256)
    by (rewrite !Z.div_div by lia; reflexivity).
  pose proof (Z.div_mod v 256 ltac:(lia)) as H0.
  pose proof (Z.div_mod (v / 256) 256 ltac:(lia)) as H1.
  pose proof (Z.div_mod (v / 256 / 256) 256 ltac:(lia)) as H2.
  pose proof (Z.div_mod (v / 256 / 256 / 256) 256 ltac:(lia)) as H3.
  set (q3 := v / 256 / 256 / 256 / 256) in *.
  replace (v mod 256 + 256 * ((v / 256) mod 256) + 65536 * ((v / 256 / 256) mod 256)
           + 16777216 * ((v / 256 / 256 / 256) mod 256) + 2147483648)
    with (v + 2147483648 + (- q3) * 4294967296) by lia.
  rewrite Z_mod_plus_full, Z.mod_small by lia. lia.
Qed.

Lemma length_encode_i32 v : length (encode_i32 v) = 4%nat.
Proof. reflexivity. Qed.

(** ** Bitmap bits *)

Lemma get_bit_pos pos : 0 < get_bit pos.
Proof.
  unfold get_bit, BITMAP_WIDTH.
  assert (0 <= pos mod 8 < 8) as Hk by (apply Z.mod_pos_bound; lia).
  rewrite Z.shiftr_div_pow2 by lia.
  assert (pos mod 8 = 0 \/ pos mod 8 = 1 \/ pos mod 8 = 2 \/ pos mod 8 = 3 \/
          pos mod 8 = 4 \/ pos mod 8 = 5 \/ pos mod 8 = 6 \/ pos mod 8 = 7) as Hc by lia.
  destruct Hc as [-> | [-> | [-> | [-> | [-> | [-> | [-> | ->]]]]]]]; reflexivity.
Qed.

Lemma land_lor_same b m : Z.land (Z.lor b m) m = m.
Proof.
  apply Z.bits_inj'. intros n Hn. rewrite Z.land_spec, Z.lor_spec.
  destruct (Z.testbit b n), (Z.testbit m n); reflexivity.
Qed.

Lemma bit_set_is_set b pos : Z.land (Z.lor b (get_bit pos)) (get_bit pos) <> 0.
Proof. rewrite land_lor_same. pose proof (get_bit_pos pos). lia. Qed.

(** ** Reading and writing the memory of a frame *)

Lemma load_inv f off len b bs b' :
  load f off len b = (Ret bs, b') ->
  b' = b /\ exists pg, pages_ b !! f = Some pg /\ mem_read (data_ pg) off len = Some bs.
Proof.
  unfold load. unfold bind at 1. rewrite frame_eq.
  destruct (pages_ b !! f) as [pg|] eqn:Hpg; [|discriminate].
  unfold defined. destruct (mem_read _ _ _) as [x|] eqn:Hr; [|discriminate].
  intros [= <- <-]. eauto.
Qed.

Lemma load_run f off len b pg bs :
  pages_ b !! f = Some pg -> mem_read (data_ pg) off len = Some bs ->
  load f off len b = (Ret bs, b).
Proof.
  intros Hpg Hr. unfold load. unfold bind at 1. rewrite frame_eq, Hpg.
  unfold defined. rewrite Hr. reflexivity.
Qed.

Lemma store_inv f off bs b b' :
  store f off bs b = (Ret tt, b') ->
  exists pg d, pages_ b !! f = Some pg /\ mem_write (data_ pg) off bs = Some d /\
               b' = with_pages (<[f := with_data d pg]> (pages_ b)) b.
Proof.
  unfold store. unfold bind at 1. rewrite frame_eq.
  destruct (pages_ b !! f) as [pg|] eqn:Hpg; [|discriminate].
  unfold bind, defined. destruct (mem_write _ _ _) as [d|] eqn:Hw; [|discriminate].
  intros [= <-]. eauto.
Qed.

Lemma load_int_inv f off b n b' :
  load_int f off b = (Ret n, b') ->
  b' = b /\ exists pg bs, pages_ b !! f = Some pg /\
                          mem_read (data_ pg) off 4 = Some bs /\ n = decode_i32 bs.
Proof.
  unfold load_int. intros H. apply bind_Ret in H as (bs & b1 & Hl & [= <- <-]).
  apply load_inv in Hl as (-> & pg & ? & ?). eauto 6.
Qed.

Lemma load_int_run f off b pg bs :
  pages_ b !! f = Some pg -> mem_read (data_ pg) off 4 = Some bs ->
  load_int f off b = (Ret (decode_i32 bs), b).
Proof.
  intros Hpg Hr. unfold load_int. rewrite (bind_run _ _ _ _ _ (load_run _ _ _ _ _ _ Hpg Hr)).
  reflexivity.
Qed.

Lemma Bitmap_is_set_inv f bm pos b r b' :
  Bitmap_is_set f bm pos b = (Ret r, b') ->
  b' = b /\ 0 <= pos /\
  exists pg bs, pages_ b !! f = Some pg /\
                mem_read (data_ pg) (bm + get_bucket pos) 1 = Some bs /\
                r = bool_decide (Z.land (hd 0 bs) (get_bit pos) <> 0).
Proof.
  unfold Bitmap_is_set. case_bool_decide as Hneg; [discriminate|].
  intros H. apply bind_Ret in H as (bs & b1 & Hl & [= <- <-]).
  apply load_inv in Hl as (-> & pg & ? & ?). split; [done|]. split; [lia|]. eauto 6.
Qed.

Lemma Bitmap_is_set_run f bm pos b pg bs :
  0 <= pos ->
  pages_ b !! f = Some pg ->
  mem_read (data_ pg) (bm + get_bucket pos) 1 = Some bs ->
  Bitmap_is_set f bm pos b = (Ret (bool_decide (Z.land (hd 0 bs) (get_bit pos) <> 0)), b).
Proof.
  intros Hpos Hpg Hr. unfold Bitmap_is_set. rewrite bool_decide_eq_false_2 by lia.
  rewrite (bind_run _ _ _ _ _ (load_run _ _ _ _ _ _ Hpg Hr)). reflexivity.
Qed.

Lemma Bitmap_set_inv f bm pos b b' :
  Bitmap_set f bm pos b = (Ret tt, b') ->
  0 <= pos /\
  exists pg bs d, pages_ b !! f = Some pg /\
    mem_read (data_ pg) (bm + get_bucket pos) 1 = Some bs /\
    mem_write (data_ pg) (bm + get_bucket pos) [Z.lor (hd 0 bs) (get_bit pos)] = Some d /\
    b' = with_pages (<[f := with_data d pg]> (pages_ b)) b.
Proof.
  unfold Bitmap_set. case_bool_decide as Hneg; [discriminate|].
  intros H. apply bind_Ret in H as (bs & b1 & Hl & Hs).
  apply load_inv in Hl as (-> & pg & Hpg & Hr).
  apply store_inv in Hs as (pg' & d & Hpg' & Hw & ->).
  rewrite Hpg in Hpg'. injection Hpg' as <-. split; [lia|]. eauto 8.
Qed.

Lemma scan_bits_inv n bit f bm : forall i b r b',
  scan_bits n bit f bm i b = (Ret r, b') ->
  b' = b /\ (r = INT_MAX \/ i <= r < i + Z.of_nat n).
Proof.
  induction n as [|n IH]; intros i b r b'; simpl.
  - intros [= <- <-]. auto.
  - intros H. apply bind_Ret in H as (x & b1 & Hs & H).
    apply Bitmap_is_set_inv in Hs as (-> & _).
    case_bool_decide as Hbit.
    + injection H as <- <-. split; [done|]. right. lia.
    + apply IH in H as (-> & [->|Hr]); [auto|]. split; [done|]. right. lia.
Qed.

(** ** What the pool gives to the record layer *)

Lemma with_pool_id fh : with_pool (buffer_pool_manager_ fh) fh = fh.
Proof. by destruct fh. Qed.

Lemma write_page_fd2pageno {cfg : Config} fd0 p data n dm dm' :
  write_page fd0 p data n dm = (Ret tt, dm') -> fd2pageno_ dm' = fd2pageno_ dm.
Proof. intros H. apply write_page_inv in H as (_ & _ & ? & ? & ? & _ & _ & ->). done. Qed.

Section PoolForRecords.

Context {cfg : Config}.

Lemma find_victim_page_fd2pageno b r b' :
  find_victim_page b = (Ret r, b') ->
  fd2pageno_ (disk_manager_ b') = fd2pageno_ (disk_manager_ b).
Proof.
  rewrite find_victim_page_eq.
  destruct (free_list_ b) as [|f0 rest]; [|intros [= <- <-]; done].
  destruct (last (LRUlist_ (replacer_ b))) as [f|]; [|intros [= <- <-]; done].
  simpl. destruct (pages_ b !! f) as [pg|]; [|discriminate].
  destruct (is_dirty_ pg); [|intros [= <- <-]; done].
  destruct (write_page _ _ _ _ (disk_manager_ b)) as [[[]|e] dm] eqn:Hw; [|discriminate].
  intros [= <- <-]. simpl. by eapply write_page_fd2pageno.
Qed.

Lemma fetch_page_Ret pid b f b' :
  table_inv b -> pool_inv b ->
  fetch_page pid b = (Ret (Some f), b') ->
  table_inv b' /\ pool_inv b' /\
  page_table_ b' !! pid = Some f /\
  exists pg, pages_ b' !! f = Some pg /\ id_ pg = pid /\ 0 <= pin_count_ pg <= INT_MAX.
Proof.
  intros Htinv Hpinv Hfetch.
  assert (Hb' : b' = (fetch_page pid b).2) by (by rewrite Hfetch).
  assert (Ht' : table_inv b') by (rewrite Hb'; by apply fetch_page_table_inv).
  assert (Hp' : pool_inv b') by (rewrite Hb'; by apply fetch_page_pool_inv).
  clear Hb'.
  split; [done|]. split; [done|].
  assert (Htab : page_table_ b' !! pid = Some f).
  { rewrite fetch_page_eq in Hfetch.
    destruct (page_table_ b !! pid) as [f0|] eqn:Htab.
    - destruct (pages_ b !! f0) as [pg|]; [|discriminate].
      case_bool_decide; [|discriminate]. by injection Hfetch as <- <-.
    - destruct (find_victim_page b) as [[[f0|]|e] b1]; [|discriminate..].
      destruct (pages_ b1 !! f0) as [pg|]; [|discriminate].
      destruct (read_page _ _ _ _ _) as [[bytes|e] dm]; [|discriminate].
      injection Hfetch as <- <-. simpl. apply lookup_insert_eq. }
  split; [done|].
  destruct Ht' as (_ & _ & Hid). specialize (Hid _ _ Htab).
  rewrite list_lookup_fmap in Hid. apply fmap_Some in Hid as (pg & Hpg & ->).
  exists pg. split; [done|]. split; [done|].
  destruct Hp' as (_ & _ & Hpin & _). apply (Hpin f).
  rewrite pins_lookup, Hpg. reflexivity.
Qed.

Lemma new_page_Ret pid b f pid' b' :
  table_inv b -> pool_inv b ->
  new_page pid b = (Ret (Some (f, pid')), b') ->
  table_inv b' /\ pool_inv b' /\
  page_table_ b' !! pid' = Some f /\
  fd pid' = fd pid /\
  page_no pid' = default 0 (fd2pageno_ (disk_manager_ b) !! fd pid) /\
  fd2pageno_ (disk_manager_ b')
    = <[fd pid := page_no pid' + 1]> (fd2pageno_ (disk_manager_ b)) /\
  exists pg, pages_ b' !! f = Some pg /\ id_ pg = pid' /\ pin_count_ pg = 1.
Proof.
  intros Htinv Hpinv Hnew.
  assert (Hb' : b' = (new_page pid b).2) by (by rewrite Hnew).
  assert (Ht' : table_inv b') by (rewrite Hb'; by apply new_page_table_inv).
  assert (Hp' : pool_inv b') by (rewrite Hb'; by apply new_page_pool_inv).
  clear Hb'.
  split; [done|]. split; [done|].
  rewrite new_page_eq in Hnew.
  destruct (find_victim_page b) as [[[f0|]|e] b1] eqn:Hv; [|discriminate..].
  apply find_victim_page_fd2pageno in Hv.
  destruct (allocate_page _ (disk_manager_ b1)) as [[n|e] dm] eqn:Ha; [|discriminate].
  destruct (pages_ b1 !! f0) as [pg|] eqn:Hpg; [|discriminate].
  injection Hnew as <- <- <-. simpl.
  split; [apply lookup_insert_eq|]. split; [done|].
  unfold allocate_page in Ha. case_bool_decide; [|discriminate].
  unfold bind, get, int_add in Ha. case_bool_decide; [|discriminate].
  simpl in Ha. injection Ha as <- <-. simpl. rewrite Hv.
  split; [done|]. split; [done|].
  rewrite (list_insert_lookup_Some _ _ _ _ Hpg). eauto.
Qed.

(** unpin_page on the page held in frame [f]. *)
Lemma unpin_page_held pid is_dirty b f pg :
  page_table_ b !! pid = Some f ->
  pages_ b !! f = Some pg ->
  0 <= pin_count_ pg <= INT_MAX ->
  exists r pg',
    unpin_page pid is_dirty b
    = (Ret r, with_replacer (replacer_ (unpin_page pid is_dirty b).2)
                (with_pages (<[f := pg']> (pages_ b)) b)) /\
    id_ pg' = id_ pg /\ data_ pg' = data_ pg /\ 0 <= pin_count_ pg' < INT_MAX.
Proof.
  intros Htab Hpg Hpin. rewrite unpin_page_eq, Htab, Hpg.
  case_bool_decide as Hle.
  - exists false, pg. simpl. rewrite list_insert_id by done.
    split; [by destruct b|]. split; [done|]. split; [done|]. unfold INT_MAX in *. lia.
  - rewrite bool_decide_eq_true_2 by (unfold INT_MIN, INT_MAX in *; lia).
    eexists true, _. simpl. split; [reflexivity|]. simpl.
    split; [done|]. split; [done|]. lia.
Qed.

End PoolForRecords.

(** ** RmFileHandle *)

Ltac layout :=
  unfold sizeof_RmPageHdr, OFFSET_num_records, OFFSET_next_free_page_no in *; simpl; lia.

Section Records.

Context {cfg : Config}.

Local Abbreviation pool := buffer_pool_manager_.

Lemma get_page_id_inv f fh pid fh' :
  get_page_id f fh = (Ret pid, fh') ->
  fh' = fh /\ exists pg, pages_ (pool fh) !! f = Some pg /\ pid = id_ pg.
Proof.
  unfold get_page_id. intros H. apply bind_Ret in H as (pg & fh1 & Hf & [= <- <-]).
  apply zoom_inv in Hf as (b1 & Hf & ->). rewrite frame_eq in Hf.
  destruct (pages_ (pool fh) !! f) as [pg'|] eqn:Hpg; [|discriminate].
  injection Hf as <- <-. rewrite with_pool_id. eauto.
Qed.

Lemma get_page_id_run f fh pg :
  pages_ (pool fh) !! f = Some pg -> get_page_id f fh = (Ret (id_ pg), fh).
Proof.
  intros Hpg. unfold get_page_id, bind, on_pool, zoom. rewrite frame_eq, Hpg.
  by rewrite with_pool_id.
Qed.

(** fetch_page_handle gives the frame that holds the page, pinned. *)
Lemma fetch_page_handle_inv p fh h fh1 :
  table_inv (pool fh) -> pool_inv (pool fh) ->
  fetch_page_handle p fh = (Ret h, fh1) ->
  h = mkRmPageHandle (page h) 0 sizeof_RmPageHdr
        (sizeof_RmPageHdr + bitmap_size (file_hdr_ fh)) /\
  fd_ fh1 = fd_ fh /\ file_hdr_ fh1 = file_hdr_ fh /\
  disk_manager_ (pool fh1) = disk_manager_ (fetch_page (mkPageId (fd_ fh) p) (pool fh)).2 /\
  table_inv (pool fh1) /\ pool_inv (pool fh1) /\
  page_table_ (pool fh1) !! mkPageId (fd_ fh) p = Some (page h) /\
  exists pg, pages_ (pool fh1) !! page h = Some pg /\ id_ pg = mkPageId (fd_ fh) p /\
             0 <= pin_count_ pg <= INT_MAX.
Proof.
  intros Ht Hp H. unfold fetch_page_handle in H.
  apply bind_Ret in H as (fh0 & fh0' & [= <- <-] & H).
  apply bind_Ret in H as (r & fh2 & Hf & H).
  apply zoom_inv in Hf as (b1 & Hf & ->).
  destruct r as [f|]; [|discriminate]. injection H as <- <-. simpl.
  rewrite Hf. simpl.
  destruct (fetch_page_Ret _ _ _ _ Ht Hp Hf) as (? & ? & ? & ?). auto 10.
Qed.

Lemma put_data_lookup f d pg b :
  pages_ b !! f = Some pg ->
  pages_ (put_data f d pg b) !! f = Some (with_data d pg).
Proof. intros Hpg. simpl. by apply (list_insert_lookup_Some _ _ _ pg). Qed.

Lemma put_data_put_data f d1 d2 pg b :
  put_data f d2 (with_data d1 pg) (put_data f d1 pg b) = put_data f d2 pg b.
Proof. unfold put_data. simpl. by rewrite list_insert_insert_eq. Qed.

Lemma put_data_same f pg b :
  pages_ b !! f = Some pg -> put_data f (data_ pg) pg b = b.
Proof.
  intros Hpg. unfold put_data, with_data.
  replace (mkPage (id_ pg) (data_ pg) (is_dirty_ pg) (pin_count_ pg)) with pg by (by destruct pg).
  rewrite list_insert_id by done. by destruct b.
Qed.

Lemma put_data_table_inv f d pg b :
  pages_ b !! f = Some pg -> table_inv b -> table_inv (put_data f d pg b).
Proof.
  intros Hpg Hinv. apply (table_inv_same_ids b); simpl; auto.
  by apply (ids_same_id b f pg).
Qed.

Lemma put_data_pool_inv f d pg b :
  pages_ b !! f = Some pg -> pool_inv b -> pool_inv (put_data f d pg b).
Proof.
  intros Hpg Hinv. apply (pool_inv_same_pins b); simpl; auto.
  - unfold pins; simpl. by apply (pins_same_pin b f pg).
  - by destruct Hinv.
Qed.

Lemma store_put_data f off bs b b' pg :
  pages_ b !! f = Some pg ->
  store f off bs b = (Ret tt, b') ->
  exists d, mem_write (data_ pg) off bs = Some d /\ b' = put_data f d pg b.
Proof.
  intros Hpg H. apply store_inv in H as (pg' & d & Hpg' & Hw & ->).
  rewrite Hpg in Hpg'. injection Hpg' as <-. eauto.
Qed.

(** create_new_page_handle: the new page is pinned in its frame, its header
    says "no next free page", and only the page count of the file header
    changes. *)
Lemma create_new_page_handle_inv fh h fh1 :
  table_inv (pool fh) -> pool_inv (pool fh) ->
  create_new_page_handle fh = (Ret h, fh1) ->
  h = mkRmPageHandle (page h) 0 sizeof_RmPageHdr
        (sizeof_RmPageHdr + bitmap_size (file_hdr_ fh)) /\
  fd_ fh1 = fd_ fh /\
  file_hdr_ fh1 = with_num_pages (num_pages (file_hdr_ fh) + 1) (file_hdr_ fh) /\
  table_inv (pool fh1) /\ pool_inv (pool fh1) /\
  fd2pageno_ (disk_manager_ (pool fh1))
    = <[fd_ fh := default 0 (fd2pageno_ (disk_manager_ (pool fh)) !! fd_ fh) + 1]>
        (fd2pageno_ (disk_manager_ (pool fh))) /\
  exists pg,
    pages_ (pool fh1) !! page h = Some pg /\
    page_table_ (pool fh1) !! id_ pg = Some (page h) /\
    id_ pg = mkPageId (fd_ fh) (default 0 (fd2pageno_ (disk_manager_ (pool fh)) !! fd_ fh)) /\
    pin_count_ pg = 1 /\
    hdr_next_free_page_no (data_ pg) = Some RM_NO_FREE_PAGE.
Proof.
  intros Ht Hp H. unfold create_new_page_handle in H.
  apply bind_Ret in H as (fh0 & fh0' & [= <- <-] & H).
  apply bind_Ret in H as (r & fh2 & Hn & H).
  apply zoom_inv in Hn as (b1 & Hn & ->).
  destruct r as [[f pid']|]; [|discriminate].
  destruct (new_page_Ret _ _ _ _ _ Ht Hp Hn)
    as (Ht1 & Hp1 & Htab1 & Hfd & Hno & Hcnt & pg1 & Hpg1 & Hid1 & Hpin1).
  simpl in Hfd, Hno, Hcnt.
  apply bind_Ret in H as ([] & fh3 & Hs1 & H).
  apply zoom_inv in Hs1 as (b2 & Hs1 & ->). simpl in Hs1.
  apply (store_put_data _ _ _ _ _ _ Hpg1) in Hs1 as (d1 & Hw1 & ->).
  apply bind_Ret in H as ([] & fh4 & Hs2 & H).
  apply zoom_inv in Hs2 as (b3 & Hs2 & ->). simpl in Hs2.
  apply (store_put_data _ _ _ _ _ _ (put_data_lookup _ _ _ _ Hpg1)) in Hs2 as (d2 & Hw2 & ->).
  rewrite put_data_put_data in H.
  apply bind_Ret in H as ([] & fh5 & Hs3 & H).
  apply zoom_inv in Hs3 as (b4 & Hs3 & ->). simpl in Hs3.
  unfold Bitmap_init in Hs3. case_bool_decide as Hbs; [|discriminate].
  apply (store_put_data _ _ _ _ _ _ (put_data_lookup _ _ _ _ Hpg1)) in Hs3 as (d3 & Hw3 & ->).
  rewrite put_data_put_data in H.
  apply bind_Ret in H as (n & fh6 & Hadd & H).
  unfold int_add in Hadd. case_bool_decide; [|discriminate]. injection Hadd as <- <-.
  apply bind_Ret in H as ([] & fh7 & [= <-] & [= <- <-]). simpl.
  split; [done|]. split; [done|]. split; [done|].
  split; [by apply put_data_table_inv|]. split; [by apply put_data_pool_inv|].
  split; [by rewrite Hcnt, Hno|].
  exists (with_data d3 pg1). split; [by apply (list_insert_lookup_Some _ _ _ pg1)|]. simpl.
  split; [by rewrite Hid1|]. split; [rewrite Hid1; destruct pid'; simpl in *; congruence|].
  split; [done|].
  unfold hdr_next_free_page_no. simpl in *.
  rewrite (mem_read_write_other _ _ _ _ _ _ Hw3) by layout.
  rewrite (mem_read_write_other _ _ _ _ _ _ Hw2) by layout.
  change 4 with (Z.of_nat (length (encode_i32 RM_NO_FREE_PAGE))).
  rewrite (mem_read_write_same _ _ _ _ Hw1). reflexivity.
Qed.

(** create_page_handle: the head of the free list when there is one, else
    a new page; in both cases pinned in the frame of the handle. *)
Lemma create_page_handle_inv fh h fh1 :
  table_inv (pool fh) -> pool_inv (pool fh) ->
  create_page_handle fh = (Ret h, fh1) ->
  h = mkRmPageHandle (page h) 0 sizeof_RmPageHdr
        (sizeof_RmPageHdr + bitmap_size (file_hdr_ fh)) /\
  fd_ fh1 = fd_ fh /\
  table_inv (pool fh1) /\ pool_inv (pool fh1) /\
  exists pg,
    pages_ (pool fh1) !! page h = Some pg /\
    page_table_ (pool fh1) !! id_ pg = Some (page h) /\
    fd (id_ pg) = fd_ fh /\
    0 <= pin_count_ pg <= INT_MAX /\
    ((first_free_page_no (file_hdr_ fh) <> RM_NO_FREE_PAGE /\
      file_hdr_ fh1 = file_hdr_ fh /\
      page_no (id_ pg) = first_free_page_no (file_hdr_ fh)) \/
     (first_free_page_no (file_hdr_ fh) = RM_NO_FREE_PAGE /\
      file_hdr_ fh1 = with_num_pages (num_pages (file_hdr_ fh) + 1) (file_hdr_ fh) /\
      page_no (id_ pg) = default 0 (fd2pageno_ (disk_manager_ (pool fh)) !! fd_ fh) /\
      fd2pageno_ (disk_manager_ (pool fh1))
        = <[fd_ fh := page_no (id_ pg) + 1]> (fd2pageno_ (disk_manager_ (pool fh))) /\
      hdr_next_free_page_no (data_ pg) = Some RM_NO_FREE_PAGE)).
Proof.
  intros Ht Hp H. unfold create_page_handle in H.
  apply bind_Ret in H as (fh0 & fh0' & [= <- <-] & H).
  case_bool_decide as Hfree.
  - apply fetch_page_handle_inv in H
      as (Hh & Hfd & Hhdr & _ & Ht1 & Hp1 & Htab & pg & Hpg & Hid & Hpin); [|done..].
    split; [done|]. split; [done|]. split; [done|]. split; [done|].
    exists pg. rewrite Hid. split; [done|]. split; [done|]. split; [done|].
    split; [done|]. left. done.
  - apply create_new_page_handle_inv in H
      as (Hh & Hfd & Hhdr & Ht1 & Hp1 & Hcnt & pg & Hpg & Htab & Hid & Hpin & Hnext);
      [|done..].
    split; [done|]. split; [done|]. split; [done|]. split; [done|].
    exists pg. split; [done|]. split; [done|]. rewrite Hid. simpl.
    split; [done|]. split; [unfold INT_MAX; lia|]. right.
    split; [by destruct (decide (first_free_page_no (file_hdr_ fh) = RM_NO_FREE_PAGE))|].
    done.
Qed.

(** What a successful insert_record has done: it took the page of
    create_page_handle, set the bit of a slot [slot] that was free, copied
    the record there, counted it, moved the free-list head when the page
    became full and was the head, and unpinned the page dirty. *)
Lemma insert_record_inv buf fh rid fh' :
  table_inv (pool fh) -> pool_inv (pool fh) ->
  num_records_per_page (file_hdr_ fh) <= 8 * bitmap_size (file_hdr_ fh) ->
  insert_record buf fh = (Ret rid, fh') ->
  exists h fh1 pg1 d slot n bytes,
    create_page_handle fh = (Ret h, fh1) /\
    pages_ (pool fh1) !! page h = Some pg1 /\
    0 <= slot < num_records_per_page (file_hdr_ fh) /\
    rid = mkRid (page_no (id_ pg1)) slot /\
    (exists byte, mem_read d (sizeof_RmPageHdr + get_bucket slot) 1 = Some [byte] /\
                  Z.land byte (get_bit slot) <> 0) /\
    mem_read buf 0 (record_size (file_hdr_ fh)) = Some bytes /\
    mem_read d (get_slot (file_hdr_ fh) h slot) (record_size (file_hdr_ fh)) = Some bytes /\
    hdr_next_free_page_no d = hdr_next_free_page_no (data_ pg1) /\
    hdr_num_records d = Some n /\
    fh' = mkRmFileHandle
            (unpin_page (id_ pg1) true (put_data (page h) d pg1 (pool fh1))).2
            (fd_ fh)
            (if bool_decide (n = num_records_per_page (file_hdr_ fh))
                && bool_decide (first_free_page_no (file_hdr_ fh1) = page_no (id_ pg1))
             then with_first_free_page_no (default 0 (hdr_next_free_page_no d))
                    (file_hdr_ fh1)
             else file_hdr_ fh1).
Proof.
  intros Ht Hp Hlayout H. unfold insert_record in H.
  apply bind_Ret in H as (h & fh1 & Hcph & H).
  destruct (create_page_handle_inv _ _ _ Ht Hp Hcph)
    as (Hh & Hfd & Ht1 & Hp1 & pg1 & Hpg1 & Htab1 & Hfdp & Hpin1 & Hcase).
  assert (Hsame : num_records_per_page (file_hdr_ fh1) = num_records_per_page (file_hdr_ fh)
                  /\ record_size (file_hdr_ fh1) = record_size (file_hdr_ fh)
                  /\ bitmap_size (file_hdr_ fh1) = bitmap_size (file_hdr_ fh)).
  { destruct Hcase as [(_ & -> & _)|(_ & -> & _)]; done. }
  destruct Hsame as (Hnpp & Hrs & Hbms).
  set (f := page h) in *.
  apply bind_Ret in H as (fh0 & fh0' & [= <- <-] & H).
  apply bind_Ret in H as (slot & fh2 & Hfb & H).
  apply zoom_inv in Hfb as (b2 & Hfb & ->).
  apply scan_bits_inv in Hfb as (-> & Hslot). rewrite with_pool_id in H.
  case_bool_decide as Hmax; [apply bind_Ret in H as (? & ? & _ & H);
                             apply bind_Ret in H as (? & ? & _ & H); discriminate|].
  destruct Hslot as [?|Hslot]; [done|].
  rewrite Hh in H. simpl in H. fold f in H.
  (* the bit *)
  apply bind_Ret in H as ([] & fh3 & Hset & H).
  apply zoom_inv in Hset as (b3 & Hset & ->).
  apply Bitmap_set_inv in Hset as (Hpos & pgX1 & bs & d1 & HpgX1 & Hrb & Hw1 & ->).
  rewrite Hpg1 in HpgX1. injection HpgX1 as <-.
  fold (put_data f d1 pg1 (pool fh1)) in H.
  (* the record *)
  apply bind_Ret in H as (bytes & fh4 & Hbytes & H).
  apply defined_Ret in Hbytes as [Hbytes ->].
  apply bind_Ret in H as ([] & fh5 & Hst & H).
  apply zoom_inv in Hst as (b4 & Hst & ->). simpl in Hst.
  apply (store_put_data _ _ _ _ _ _ (put_data_lookup _ _ _ _ Hpg1)) in Hst as (d2 & Hw2 & ->).
  rewrite put_data_put_data in H.
  (* the count *)
  apply bind_Ret in H as (n0 & fh6 & Hld & H).
  apply zoom_inv in Hld as (b5 & Hld & ->). simpl in Hld.
  apply load_int_inv in Hld as (-> & pgX2 & bs0 & HpgX2 & Hr0 & ->).
  apply bind_Ret in H as (n1 & fh7 & Hadd & H).
  unfold int_add in Hadd. case_bool_decide as Hov; [|discriminate]. injection Hadd as <- <-.
  apply bind_Ret in H as ([] & fh8 & Hst & H).
  apply zoom_inv in Hst as (b6 & Hst & ->). simpl in Hst.
  apply (store_put_data _ _ _ _ _ _ (put_data_lookup _ _ _ _ Hpg1)) in Hst as (d3 & Hw3 & ->).
  simpl in H. rewrite put_data_put_data in H.
  (* the rid and the free list *)
  apply bind_Ret in H as (pid & fh9 & Hid & H).
  apply get_page_id_inv in Hid as (-> & pgX3 & HpgX3 & ->). simpl in HpgX3.
  rewrite (list_insert_lookup_Some _ _ _ _ Hpg1) in HpgX3. injection HpgX3 as <-. simpl in H.
  apply bind_Ret in H as (n2 & fh10 & Hld & H).
  apply zoom_inv in Hld as (b7 & Hld & ->). simpl in Hld.
  apply load_int_inv in Hld as (-> & pgX4 & bs2 & HpgX4 & Hr2 & ->). simpl in HpgX4.
  rewrite (list_insert_lookup_Some _ _ _ _ Hpg1) in HpgX4. injection HpgX4 as <-.
  simpl in Hr2, H.
  apply bind_Ret in H as (fh0 & fh0' & [= <- <-] & H). simpl in H.
  apply bind_Ret in H as ([] & fh11 & Hhead & H).
  apply bind_Ret in H as (r & fh12 & Hun & [= <- <-]).
  apply zoom_inv in Hun as (b8 & Hun & ->).
  (* the memory of the page *)
  unfold get_slot in Hw2. simpl in Hw2. rewrite Hrs in Hw2, Hbytes.
  pose proof (mem_read_Some _ _ _ _ Hbytes) as (_ & Hrs0 & _ & _ & Hbyteslen).
  assert (Hbucket : 0 <= get_bucket slot < bitmap_size (file_hdr_ fh)).
  { unfold get_bucket, BITMAP_WIDTH. split; [apply Z.div_pos; lia|].
    apply Z.div_lt_upper_bound; lia. }
  assert (0 <= slot * record_size (file_hdr_ fh)) by nia.
  assert (Hbit : mem_read d3 (sizeof_RmPageHdr + get_bucket slot) 1
                 = Some [Z.lor (hd 0 bs) (get_bit slot)]).
  { rewrite (mem_read_write_other _ _ _ _ _ _ Hw3) by layout.
    rewrite (mem_read_write_other _ _ _ _ _ _ Hw2) by layout.
    apply (mem_read_write_same _ _ _ _ Hw1). }
  assert (Hrec : mem_read d3 (get_slot (file_hdr_ fh) h slot) (record_size (file_hdr_ fh))
                 = Some bytes).
  { rewrite Hh. unfold get_slot. simpl.
    rewrite (mem_read_write_other _ _ _ _ _ _ Hw3) by layout.
    replace (record_size (file_hdr_ fh)) with (Z.of_nat (length bytes)) at 2 by lia.
    apply (mem_read_write_same _ _ _ _ Hw2). }
  assert (Hnext : hdr_next_free_page_no d3 = hdr_next_free_page_no (data_ pg1)).
  { unfold hdr_next_free_page_no.
    rewrite (mem_read_write_other _ _ _ _ _ _ Hw3) by layout.
    rewrite (mem_read_write_other _ _ _ _ _ _ Hw2) by layout.
    rewrite (mem_read_write_other _ _ _ _ _ _ Hw1) by layout. done. }
  exists h, fh1, pg1, d3, slot, (decode_i32 bs2), bytes.
  split; [done|]. split; [done|]. split; [lia|]. split; [done|].
  split; [eexists; split; [exact Hbit|apply bit_set_is_set]|].
  split; [done|]. split; [done|]. split; [done|].
  split; [unfold hdr_num_records; by rewrite Hr2|].
  rewrite Hnpp in Hhead.
  assert (Hrest : forall hdr2,
             file_hdr_ fh11 = hdr2 -> fd_ fh11 = fd_ fh ->
             pool fh11 = put_data f d3 pg1 (pool fh1) ->
             with_pool b8 fh11
             = mkRmFileHandle (unpin_page (id_ pg1) true (put_data f d3 pg1 (pool fh1))).2
                 (fd_ fh) hdr2).
  { intros hdr2 <- <- Hpool. rewrite Hpool in Hun. rewrite Hun. by destruct fh11. }
  case_bool_decide as Hfull; simpl; [case_bool_decide as Hhead0; simpl|].
  - apply bind_Ret in Hhead as (nx & fh13 & Hld & [= <-]).
    apply zoom_inv in Hld as (b9 & Hld & ->). simpl in Hld.
    apply load_int_inv in Hld as (-> & pgX5 & bs3 & HpgX5 & Hr3 & ->). simpl in HpgX5.
    rewrite (list_insert_lookup_Some _ _ _ _ Hpg1) in HpgX5. injection HpgX5 as <-.
    simpl in Hr3. apply Hrest; simpl; [|done..].
    unfold hdr_next_free_page_no. rewrite Hr3. done.
  - injection Hhead as <-. apply Hrest; done.
  - injection Hhead as <-. apply Hrest; done.
Qed.

End Records.

Section RecordsRun.

Context {cfg : Config}.

Local Abbreviation pool := buffer_pool_manager_.

(** fetch_page_handle on a cached page. *)
Lemma fetch_page_handle_hit p fh f pg :
  page_table_ (pool fh) !! mkPageId (fd_ fh) p = Some f ->
  pages_ (pool fh) !! f = Some pg ->
  0 <= pin_count_ pg < INT_MAX ->
  fetch_page_handle p fh
  = (Ret (mkRmPageHandle f 0 sizeof_RmPageHdr (sizeof_RmPageHdr + bitmap_size (file_hdr_ fh))),
     with_pool (pinned f pg (pool fh)) fh).
Proof.
  intros Htab Hpg Hpin. unfold fetch_page_handle, bind, get, on_pool, zoom.
  rewrite fetch_page_eq, Htab, Hpg.
  rewrite bool_decide_eq_true_2 by (unfold INT_MIN, INT_MAX in *; lia).
  reflexivity.
Qed.

(** get_record on a cached page whose bit for the slot is set. *)
Lemma get_record_run rid fh f pg byte bytes :
  page_table_ (pool fh) !! mkPageId (fd_ fh) (rid_page_no rid) = Some f ->
  pages_ (pool fh) !! f = Some pg ->
  id_ pg = mkPageId (fd_ fh) (rid_page_no rid) ->
  0 <= pin_count_ pg < INT_MAX ->
  0 <= slot_no rid ->
  mem_read (data_ pg) (sizeof_RmPageHdr + get_bucket (slot_no rid)) 1 = Some [byte] ->
  Z.land byte (get_bit (slot_no rid)) <> 0 ->
  mem_read (data_ pg)
    (sizeof_RmPageHdr + bitmap_size (file_hdr_ fh) + slot_no rid * record_size (file_hdr_ fh))
    (record_size (file_hdr_ fh)) = Some bytes ->
  exists fh', get_record rid fh = (Ret bytes, fh').
Proof.
  intros Htab Hpg Hid Hpin Hslot Hbit Hset Hrec.
  unfold get_record.
  rewrite (bind_run _ _ _ _ _ (fetch_page_handle_hit _ _ _ _ Htab Hpg Hpin)).
  set (pg' := mkPage (id_ pg) (data_ pg) (is_dirty_ pg) (pin_count_ pg + 1)).
  set (fh1 := with_pool (pinned f pg (pool fh)) fh).
  assert (Hpg' : pages_ (pool fh1) !! f = Some pg').
  { simpl. by apply (list_insert_lookup_Some _ _ _ pg). }
  simpl.
  assert (His : on_pool (Bitmap_is_set f sizeof_RmPageHdr (slot_no rid)) fh1 = (Ret true, fh1)).
  { unfold on_pool.
    rewrite (zoom_run _ _ _ _ _ _ (Bitmap_is_set_run _ _ _ _ pg' [byte] Hslot Hpg' Hbit)).
    rewrite with_pool_id. simpl. by rewrite bool_decide_eq_true_2. }
  rewrite (bind_run _ _ _ _ _ His). simpl.
  unfold bind at 1, get at 1.
  assert (Hld : on_pool (load f (get_slot (file_hdr_ fh1)
                                   {| page := f; page_hdr := 0; bitmap := sizeof_RmPageHdr;
                                      slots := sizeof_RmPageHdr + bitmap_size (file_hdr_ fh) |}
                                   (slot_no rid)) (record_size (file_hdr_ fh1))) fh1
                = (Ret bytes, fh1)).
  { unfold on_pool. rewrite (zoom_run _ _ _ _ _ _ (load_run _ _ _ _ pg' bytes Hpg' Hrec)).
    by rewrite with_pool_id. }
  rewrite (bind_run _ _ _ _ _ Hld).
  rewrite (bind_run _ _ _ _ _ (get_page_id_run _ _ _ Hpg')). simpl.
  assert (Htab' : page_table_ (pool fh1) !! id_ pg = Some f) by (by rewrite Hid).
  destruct (unpin_page_held (id_ pg) false (pool fh1) f pg' Htab' Hpg')
    as (r & pg'' & Hun & _); [simpl; lia|].
  unfold bind, on_pool, zoom. rewrite Hun. eauto.
Qed.

(** The fields of the file header that insert_record never changes. *)
Lemma create_page_handle_hdr fh h fh1 :
  table_inv (pool fh) -> pool_inv (pool fh) ->
  create_page_handle fh = (Ret h, fh1) ->
  record_size (file_hdr_ fh1) = record_size (file_hdr_ fh) /\
  num_records_per_page (file_hdr_ fh1) = num_records_per_page (file_hdr_ fh) /\
  bitmap_size (file_hdr_ fh1) = bitmap_size (file_hdr_ fh).
Proof.
  intros Ht Hp H.
  destruct (create_page_handle_inv _ _ _ Ht Hp H)
    as (_ & _ & _ & _ & pg & _ & _ & _ & _ & [(_ & -> & _)|(_ & -> & _)]); done.
Qed.

(** The page insert_record wrote to, as it is left in the pool. *)
Lemma insert_record_leaves buf fh rid fh' :
  table_inv (pool fh) -> pool_inv (pool fh) ->
  num_records_per_page (file_hdr_ fh) <= 8 * bitmap_size (file_hdr_ fh) ->
  insert_record buf fh = (Ret rid, fh') ->
  exists f pg bytes n,
    fd_ fh' = fd_ fh /\
    record_size (file_hdr_ fh') = record_size (file_hdr_ fh) /\
    num_records_per_page (file_hdr_ fh') = num_records_per_page (file_hdr_ fh) /\
    bitmap_size (file_hdr_ fh') = bitmap_size (file_hdr_ fh) /\
    table_inv (pool fh') /\ pool_inv (pool fh') /\
    page_table_ (pool fh') !! mkPageId (fd_ fh) (rid_page_no rid) = Some f /\
    pages_ (pool fh') !! f = Some pg /\
    id_ pg = mkPageId (fd_ fh) (rid_page_no rid) /\
    0 <= pin_count_ pg < INT_MAX /\
    0 <= slot_no rid < num_records_per_page (file_hdr_ fh) /\
    (exists byte,
       mem_read (data_ pg) (sizeof_RmPageHdr + get_bucket (slot_no rid)) 1 = Some [byte] /\
       Z.land byte (get_bit (slot_no rid)) <> 0) /\
    mem_read buf 0 (record_size (file_hdr_ fh)) = Some bytes /\
    mem_read (data_ pg)
      (sizeof_RmPageHdr + bitmap_size (file_hdr_ fh)
       + slot_no rid * record_size (file_hdr_ fh))
      (record_size (file_hdr_ fh)) = Some bytes /\
    hdr_num_records (data_ pg) = Some n /\
    ((first_free_page_no (file_hdr_ fh) <> RM_NO_FREE_PAGE /\
      rid_page_no rid = first_free_page_no (file_hdr_ fh) /\
      num_pages (file_hdr_ fh') = num_pages (file_hdr_ fh) /\
      first_free_page_no (file_hdr_ fh')
      = if bool_decide (n = num_records_per_page (file_hdr_ fh))
        then default 0 (hdr_next_free_page_no (data_ pg))
        else first_free_page_no (file_hdr_ fh)) \/
     (first_free_page_no (file_hdr_ fh) = RM_NO_FREE_PAGE /\
      first_free_page_no (file_hdr_ fh') = RM_NO_FREE_PAGE /\
      num_pages (file_hdr_ fh') = num_pages (file_hdr_ fh) + 1 /\
      rid_page_no rid = default 0 (fd2pageno_ (disk_manager_ (pool fh)) !! fd_ fh) /\
      fd2pageno_ (disk_manager_ (pool fh'))
      = <[fd_ fh := rid_page_no rid + 1]> (fd2pageno_ (disk_manager_ (pool fh))))).
Proof.
  intros Ht Hp Hlayout H.
  destruct (insert_record_inv _ _ _ _ Ht Hp Hlayout H)
    as (h & fh1 & pg1 & d & slot & n & bytes & Hcph & Hpg1 & Hslot & -> & Hbit & Hbytes
        & Hrec & Hnext & Hn & ->).
  destruct (create_page_handle_hdr _ _ _ Ht Hp Hcph) as (Hrs & Hnpp & Hbms).
  destruct (create_page_handle_inv _ _ _ Ht Hp Hcph)
    as (Hh & Hfd & Ht1 & Hp1 & pg1' & Hpg1' & Htab1 & Hfdp & Hpin1 & Hcase).
  rewrite Hpg1 in Hpg1'. injection Hpg1' as <-.
  set (f := page h) in *.
  set (b5 := put_data f d pg1 (pool fh1)).
  assert (Hpg5 : pages_ b5 !! f = Some (with_data d pg1)) by (by apply put_data_lookup).
  assert (Htab5 : page_table_ b5 !! id_ pg1 = Some f) by done.
  destruct (unpin_page_held (id_ pg1) true b5 f _ Htab5 Hpg5 Hpin1)
    as (r & pg' & Hun & Hid' & Hdata' & Hpin').
  simpl in Hid', Hdata'.
  assert (Hidp : id_ pg1 = mkPageId (fd_ fh) (page_no (id_ pg1))).
  { destruct (id_ pg1) as [a c]. simpl in *. by rewrite Hfdp. }
  exists f, pg', bytes, n. simpl.
  split; [done|].
  assert (Hkeep : forall hdr2 (x : bool),
             (if x then with_first_free_page_no (default 0 (hdr_next_free_page_no d))
                         (file_hdr_ fh1) else file_hdr_ fh1) = hdr2 ->
             record_size hdr2 = record_size (file_hdr_ fh) /\
             num_records_per_page hdr2 = num_records_per_page (file_hdr_ fh) /\
             bitmap_size hdr2 = bitmap_size (file_hdr_ fh)).
  { intros hdr2 x <-. by destruct x. }
  match goal with
  | |- context [record_size (if ?x then _ else _)] =>
      destruct (Hkeep _ x eq_refl) as (Hk1 & Hk2 & Hk3)
  end.
  split; [done|]. split; [done|]. split; [done|].
  split; [by apply unpin_page_table_inv, put_data_table_inv|].
  split; [by apply unpin_page_pool_inv, put_data_pool_inv|].
  rewrite Hun. simpl.
  split; [by rewrite <- Hidp|].
  split; [apply (list_insert_lookup_Some _ _ _ _ Hpg5)|].
  split; [by rewrite Hid'|]. split; [done|]. split; [done|].
  rewrite Hdata'.
  split; [done|]. split; [done|].
  split; [by rewrite Hh in Hrec|]. split; [done|].
  destruct Hcase as [(Hhead & Hhdr & Hno)|(Hhead & Hhdr & Hno & Hcnt & Hnx)].
  - left. rewrite Hhdr. split; [done|]. split; [done|].
    rewrite (bool_decide_eq_true_2 (_ = page_no _)) by done. rewrite andb_true_r.
    case_bool_decide; done.
  - right. split; [done|]. rewrite Hhdr.
    assert (Hnx' : default 0 (hdr_next_free_page_no d) = RM_NO_FREE_PAGE)
      by (by rewrite Hnext, Hnx).
    split; [|split].
    + match goal with |- context [if ?x then _ else _] => destruct x end;
        [exact Hnx' | exact Hhead].
    + match goal with |- context [if ?x then _ else _] => by destruct x end.
    + done.
Qed.

(** insert_record and then get_record on the Rid it returned. *)
Lemma insert_then_get buf fh rid fh' :
  table_inv (pool fh) -> pool_inv (pool fh) ->
  num_records_per_page (file_hdr_ fh) <= 8 * bitmap_size (file_hdr_ fh) ->
  Z.of_nat (length buf) = record_size (file_hdr_ fh) ->
  insert_record buf fh = (Ret rid, fh') ->
  exists fh'', get_record rid fh' = (Ret buf, fh'').
Proof.
  intros Ht Hp Hlayout Hlen H.
  destruct (insert_record_leaves _ _ _ _ Ht Hp Hlayout H)
    as (f & pg & bytes & n & Hfd & Hrs & Hnpp & Hbms & _ & _ & Htab & Hpg & Hid & Hpin
        & Hslot & (byte & Hbit & Hset) & Hbytes & Hrec & _).
  assert (bytes = buf) as ->.
  { apply mem_read_Some in Hbytes as (_ & _ & _ & -> & _).
    rewrite drop_0. apply take_ge. lia. }
  apply (get_record_run rid fh' f pg byte buf); rewrite ?Hfd, ?Hrs, ?Hbms; try done. lia.
Qed.

End RecordsRun.

Section FreeList.

Context {cfg : Config}.

Local Abbreviation pool := buffer_pool_manager_.

Lemma hdr_fields_Some d n :
  hdr_num_records d = Some n -> is_Some (hdr_next_free_page_no d).
Proof.
  unfold hdr_num_records, hdr_next_free_page_no. intros H.
  apply fmap_Some in H as (bs & H & _). apply mem_read_Some in H as (_ & _ & Hlen & _).
  unfold mem_read. rewrite bool_decide_eq_true_2 by layout. by eexists.
Qed.

(** What a successful delete_record has done. *)
Lemma delete_record_inv rid fh fh' :
  table_inv (pool fh) -> pool_inv (pool fh) ->
  delete_record rid fh = (Ret tt, fh') ->
  exists h fh1 pg1 d n0,
    fetch_page_handle (rid_page_no rid) fh = (Ret h, fh1) /\
    pages_ (pool fh1) !! page h = Some pg1 /\
    hdr_num_records (data_ pg1) = Some n0 /\
    (n0 = num_records_per_page (file_hdr_ fh) ->
     hdr_next_free_page_no d
     = Some (decode_i32 (encode_i32 (first_free_page_no (file_hdr_ fh))))) /\
    fh' = mkRmFileHandle
            (unpin_page (id_ pg1) true (put_data (page h) d pg1 (pool fh1))).2
            (fd_ fh)
            (if bool_decide (n0 = num_records_per_page (file_hdr_ fh))
             then with_first_free_page_no (page_no (id_ pg1)) (file_hdr_ fh)
             else file_hdr_ fh).
Proof.
  intros Ht Hp H. unfold delete_record in H.
  apply bind_Ret in H as (h & fh1 & Hfph & H).
  destruct (fetch_page_handle_inv _ _ _ _ Ht Hp Hfph)
    as (Hh & Hfd & Hhdr & _ & Ht1 & Hp1 & Htab1 & pg1 & Hpg1 & Hid1 & Hpin1).
  set (f := page h) in *.
  apply bind_Ret in H as (present & fh2 & Hset & H).
  apply zoom_inv in Hset as (b2 & Hset & ->).
  apply Bitmap_is_set_inv in Hset as (-> & Hpos & _). rewrite with_pool_id in H.
  destruct present; simpl in H;
    [|apply bind_Ret in H as (? & ? & _ & H);
      apply bind_Ret in H as (? & ? & _ & H); discriminate].
  rewrite Hh in H. simpl in H.
  (* the bit *)
  apply bind_Ret in H as ([] & fh3 & Hreset & H).
  apply zoom_inv in Hreset as (b3 & Hreset & ->).
  unfold Bitmap_reset in Hreset. rewrite bool_decide_eq_false_2 in Hreset by lia.
  apply bind_Ret in Hreset as (bs & b3' & Hld & Hst).
  apply load_inv in Hld as (-> & _).
  apply (store_put_data _ _ _ _ _ _ Hpg1) in Hst as (d1 & Hw1 & ->).
  (* the count *)
  apply bind_Ret in H as (n0 & fh4 & Hld & H).
  apply zoom_inv in Hld as (b4 & Hld & ->). simpl in Hld.
  apply load_int_inv in Hld as (-> & pgX1 & bs0 & HpgX1 & Hr0 & ->).
  simpl in HpgX1. rewrite (list_insert_lookup_Some _ _ _ _ Hpg1) in HpgX1.
  injection HpgX1 as <-. simpl in Hr0.
  apply bind_Ret in H as (n1 & fh5 & Hadd & H).
  unfold int_add in Hadd. case_bool_decide as Hov; [|discriminate]. injection Hadd as <- <-.
  apply bind_Ret in H as ([] & fh6 & Hst & H).
  apply zoom_inv in Hst as (b6 & Hst & ->). simpl in Hst.
  apply (store_put_data _ _ _ _ _ _ (put_data_lookup _ _ _ _ Hpg1)) in Hst as (d2 & Hw2 & ->).
  simpl in H. rewrite put_data_put_data in H.
  apply bind_Ret in H as (n2 & fh7 & Hld & H).
  apply zoom_inv in Hld as (b7 & Hld & ->). simpl in Hld.
  apply load_int_inv in Hld as (-> & pgX2 & bs2 & HpgX2 & Hr2 & ->).
  simpl in HpgX2. rewrite (list_insert_lookup_Some _ _ _ _ Hpg1) in HpgX2.
  injection HpgX2 as <-. simpl in Hr2.
  change 4 with (Z.of_nat (length (encode_i32 (decode_i32 bs0 + -1)))) in Hr2.
  rewrite (mem_read_write_same _ _ _ _ Hw2) in Hr2. injection Hr2 as <-.
  rewrite decode_encode_i32 in H by done.
  apply bind_Ret in H as (n3 & fh8 & Hadd & H).
  unfold int_add in Hadd. case_bool_decide as Hov'; [|discriminate]. injection Hadd as <- <-.
  replace (decode_i32 bs0 + -1 + 1) with (decode_i32 bs0) in H by lia.
  apply bind_Ret in H as (fh0 & fh0' & [= <- <-] & H). simpl in H. rewrite Hhdr in H.
  set (n0 := decode_i32 bs0) in *.
  assert (0 <= get_bucket (slot_no rid))
    by (unfold get_bucket, BITMAP_WIDTH; apply Z.div_pos; lia).
  assert (Hn0 : hdr_num_records (data_ pg1) = Some n0).
  { unfold hdr_num_records.
    rewrite <- (mem_read_write_other _ _ _ _ _ _ Hw1) by layout.
    simpl in Hr0. by rewrite Hr0. }
  exists h, fh1, pg1.
  case_bool_decide as Hfull.
  - (* the page was full: release_page_handle *)
    unfold release_page_handle in H.
    apply bind_Ret in H as (fh0 & fh0' & [= <- <-] & H). simpl in H.
    apply bind_Ret in H as ([] & fh9 & Hst & H).
    apply zoom_inv in Hst as (b9 & Hst & ->). simpl in Hst.
    apply (store_put_data _ _ _ _ _ _ (put_data_lookup _ _ _ _ Hpg1)) in Hst as (d3 & Hw3 & ->).
    simpl in H. rewrite put_data_put_data in H.
    apply bind_Ret in H as (pid & fh10 & Hid & H).
    apply get_page_id_inv in Hid as (-> & pgX3 & HpgX3 & ->). simpl in HpgX3.
    rewrite (list_insert_lookup_Some _ _ _ _ Hpg1) in HpgX3. injection HpgX3 as <-.
    apply bind_Ret in H as ([] & fh11 & [= <-] & H).
    apply bind_Ret in H as (pid & fh12 & Hid & H).
    apply get_page_id_inv in Hid as (-> & pgX4 & HpgX4 & ->). simpl in HpgX4.
    rewrite (list_insert_lookup_Some _ _ _ _ Hpg1) in HpgX4. injection HpgX4 as <-.
    apply bind_Ret in H as (r & fh13 & Hun & [= <-]).
    apply zoom_inv in Hun as (b13 & Hun & ->). simpl in Hun |- *.
    exists d3, n0. split; [done|]. split; [done|]. split; [done|]. split.
    + intros _. unfold hdr_next_free_page_no. rewrite Hhdr in Hw3.
      change 4 with (Z.of_nat (length (encode_i32 (first_free_page_no (file_hdr_ fh))))).
      by rewrite (mem_read_write_same _ _ _ _ Hw3).
    + assert (b13 = (unpin_page (id_ pg1) true (put_data f d3 pg1 (pool fh1))).2) as ->
        by (by rewrite Hun).
      rewrite bool_decide_eq_true_2 by done. unfold with_pool, with_file_hdr. simpl.
      by rewrite Hhdr, Hfd.
  - apply bind_Ret in H as (pid & fh10 & Hid & H).
    apply get_page_id_inv in Hid as (-> & pgX3 & HpgX3 & ->). simpl in HpgX3.
    rewrite (list_insert_lookup_Some _ _ _ _ Hpg1) in HpgX3. injection HpgX3 as <-.
    apply bind_Ret in H as (r & fh13 & Hun & [= <-]).
    apply zoom_inv in Hun as (b13 & Hun & ->). simpl in Hun |- *.
    exists d2, n0. split; [done|]. split; [done|]. split; [done|]. split; [done|].
    assert (b13 = (unpin_page (id_ pg1) true (put_data f d2 pg1 (pool fh1))).2) as ->
      by (by rewrite Hun).
    rewrite bool_decide_eq_false_2 by done. unfold with_pool. simpl.
    by rewrite Hhdr, Hfd.
Qed.

End FreeList.

Section FreeListClaims.

Context {cfg : Config}.

Local Abbreviation pool := buffer_pool_manager_.

(** How fetch_page_handle sees a page that is cached. *)
Lemma page_of_cached fh p f pg :
  page_table_ (pool fh) !! mkPageId (fd_ fh) p = Some f ->
  pages_ (pool fh) !! f = Some pg ->
  0 <= pin_count_ pg < INT_MAX ->
  num_records_of fh p = hdr_num_records (data_ pg) /\
  next_free_of fh p = hdr_next_free_page_no (data_ pg).
Proof.
  intros Htab Hpg Hpin. unfold num_records_of, next_free_of, page_of.
  rewrite (fetch_page_handle_hit _ _ _ _ Htab Hpg Hpin). simpl.
  rewrite (list_insert_lookup_Some _ _ _ _ Hpg). done.
Qed.

(** An insert that fills its page moves the free-list head to the page's
    next-free link when the page was the head, and leaves an empty free list
    empty. *)
Lemma insert_full_advances buf fh rid fh' :
  table_inv (pool fh) -> pool_inv (pool fh) ->
  num_records_per_page (file_hdr_ fh) <= 8 * bitmap_size (file_hdr_ fh) ->
  insert_record buf fh = (Ret rid, fh') ->
  num_records_of fh' (rid_page_no rid) = Some (num_records_per_page (file_hdr_ fh)) ->
  (first_free_page_no (file_hdr_ fh) <> RM_NO_FREE_PAGE ->
   rid_page_no rid = first_free_page_no (file_hdr_ fh) /\
   next_free_of fh' (rid_page_no rid) = Some (first_free_page_no (file_hdr_ fh'))) /\
  (first_free_page_no (file_hdr_ fh) = RM_NO_FREE_PAGE ->
   first_free_page_no (file_hdr_ fh') = RM_NO_FREE_PAGE).
Proof.
  intros Ht Hp Hlayout H Hfull.
  destruct (insert_record_leaves _ _ _ _ Ht Hp Hlayout H)
    as (f & pg & bytes & n & Hfd & _ & _ & _ & _ & _ & Htab & Hpg & _ & Hpin & _ & _ & _ & _
        & Hn & Hcase).
  rewrite <- Hfd in Htab.
  destruct (page_of_cached _ _ _ _ Htab Hpg Hpin) as [Hnum Hnext].
  rewrite Hnum, Hn in Hfull. injection Hfull as ->.
  destruct (hdr_fields_Some _ _ Hn) as [nx Hnx].
  destruct Hcase as [(Hhead & Hrid & _ & Hff)|(Hhead & Hff & _)].
  - split; [|done]. intros _. split; [done|].
    rewrite Hnext, Hff, bool_decide_eq_true_2, Hnx by done. done.
  - split; [done|]. done.
Qed.

(** A delete from a page that was full makes the page the head of the free
    list, linked to the old head, and the next create_page_handle gives that
    page. *)
Lemma delete_full_relinks rid fh fh' :
  table_inv (pool fh) -> pool_inv (pool fh) ->
  rid_page_no rid <> RM_NO_FREE_PAGE ->
  INT_MIN <= first_free_page_no (file_hdr_ fh) <= INT_MAX ->
  num_records_of fh (rid_page_no rid) = Some (num_records_per_page (file_hdr_ fh)) ->
  delete_record rid fh = (Ret tt, fh') ->
  first_free_page_no (file_hdr_ fh') = rid_page_no rid /\
  next_free_of fh' (rid_page_no rid) = Some (first_free_page_no (file_hdr_ fh)) /\
  exists h fh'' pg,
    create_page_handle fh' = (Ret h, fh'') /\
    pages_ (pool fh'') !! page h = Some pg /\
    id_ pg = mkPageId (fd_ fh) (rid_page_no rid) /\
    0 < pin_count_ pg.
Proof.
  intros Ht Hp Hrid Hint Hfull H.
  destruct (delete_record_inv _ _ _ Ht Hp H)
    as (h & fh1 & pg1 & d & n0 & Hfph & Hpg1 & Hn0 & Hlink & ->).
  unfold num_records_of, page_of in Hfull. rewrite Hfph, Hpg1 in Hfull. simpl in Hfull.
  rewrite Hn0 in Hfull. injection Hfull as ->.
  rewrite bool_decide_eq_true_2 by done.
  specialize (Hlink eq_refl). rewrite decode_encode_i32 in Hlink by done.
  destruct (fetch_page_handle_inv _ _ _ _ Ht Hp Hfph)
    as (Hh & Hfd & Hhdr & _ & Ht1 & Hp1 & Htab1 & pg1' & Hpg1' & Hid1 & Hpin1).
  rewrite Hpg1 in Hpg1'. injection Hpg1' as <-.
  set (f := page h) in *.
  set (b5 := put_data f d pg1 (pool fh1)).
  assert (Hpg5 : pages_ b5 !! f = Some (with_data d pg1)) by (by apply put_data_lookup).
  assert (Htab5 : page_table_ b5 !! id_ pg1 = Some f) by (by rewrite Hid1).
  destruct (unpin_page_held (id_ pg1) true b5 f _ Htab5 Hpg5 Hpin1)
    as (r & pg' & Hun & Hid' & Hdata' & Hpin').
  simpl in Hid', Hdata'.
  set (fh' := mkRmFileHandle (unpin_page (id_ pg1) true b5).2 (fd_ fh)
                (with_first_free_page_no (page_no (id_ pg1)) (file_hdr_ fh))).
  assert (Htab' : page_table_ (pool fh') !! mkPageId (fd_ fh') (rid_page_no rid) = Some f).
  { simpl. rewrite Hun. simpl. by rewrite <- Hid1. }
  assert (Hpg' : pages_ (pool fh') !! f = Some pg').
  { simpl. rewrite Hun. simpl. apply (list_insert_lookup_Some _ _ _ _ Hpg5). }
  assert (Hno : page_no (id_ pg1) = rid_page_no rid) by (by rewrite Hid1).
  split; [done|]. split.
  - destruct (page_of_cached _ _ _ _ Htab' Hpg' Hpin') as [_ ->]. by rewrite Hdata'.
  - eexists _, _, _. split.
    + unfold create_page_handle, bind, get. simpl.
      rewrite bool_decide_eq_true_2 by (by rewrite Hno).
      rewrite Hno. apply (fetch_page_handle_hit _ _ _ _ Htab' Hpg' Hpin').
    + simpl. rewrite (list_insert_lookup_Some _ _ _ _ Hpg').
      split; [done|]. simpl. split; [by rewrite Hid', Hid1|lia].
Qed.

(** create_new_page_handle never touches the head of the free list, whether
    it returns or throws. *)
Lemma on_pool_file_hdr {A} (m : M BufferPoolManager A) fh r fh' :
  on_pool m fh = (r, fh') -> file_hdr_ fh' = file_hdr_ fh.
Proof. unfold on_pool. intros H. apply zoom_inv in H as (b & _ & ->). done. Qed.

Lemma bind_inv {S A B} (m : M S A) (k : A -> M S B) s r s' :
  bind m k s = (r, s') ->
  (exists a s1, m s = (Ret a, s1) /\ k a s1 = (r, s')) \/
  (exists e, m s = (Throw e, s') /\ r = Throw e).
Proof.
  unfold bind. destruct (m s) as [[a|e] s1]; [eauto|]. intros [= <- <-]. eauto.
Qed.

Lemma create_new_page_handle_first_free fh r fh1 :
  create_new_page_handle fh = (r, fh1) ->
  first_free_page_no (file_hdr_ fh1) = first_free_page_no (file_hdr_ fh).
Proof.
  unfold create_new_page_handle. intros H.
  apply bind_inv in H as [(fh0 & fh0' & [= <- <-] & H)|(e & [=] & _)].
  apply bind_inv in H as [(r0 & fh2 & Hn & H)|(e & Hn & _)];
    [|by rewrite (on_pool_file_hdr _ _ _ _ Hn)].
  pose proof (on_pool_file_hdr _ _ _ _ Hn) as Hh2.
  destruct r0 as [[f pid']|]; [|injection H as <- <-; by rewrite Hh2].
  apply bind_inv in H as [([] & fh3 & Hs1 & H)|(e & Hs1 & _)];
    [|by rewrite (on_pool_file_hdr _ _ _ _ Hs1), Hh2].
  pose proof (on_pool_file_hdr _ _ _ _ Hs1) as Hh3.
  apply bind_inv in H as [([] & fh4 & Hs2 & H)|(e & Hs2 & _)];
    [|by rewrite (on_pool_file_hdr _ _ _ _ Hs2), Hh3, Hh2].
  pose proof (on_pool_file_hdr _ _ _ _ Hs2) as Hh4.
  apply bind_inv in H as [([] & fh5 & Hs3 & H)|(e & Hs3 & _)];
    [|by rewrite (on_pool_file_hdr _ _ _ _ Hs3), Hh4, Hh3, Hh2].
  pose proof (on_pool_file_hdr _ _ _ _ Hs3) as Hh5.
  assert (Hh : first_free_page_no (file_hdr_ fh5) = first_free_page_no (file_hdr_ fh))
    by (by rewrite Hh5, Hh4, Hh3, Hh2).
  apply bind_inv in H as [(n & fh6 & Hadd & H)|(e & Hadd & _)].
  - unfold int_add in Hadd. case_bool_decide; [|discriminate]. injection Hadd as <- <-.
    apply bind_inv in H as [([] & fh7 & [= <-] & [= <- <-])|(e & [=] & _)]. done.
  - unfold int_add in Hadd. case_bool_decide; [discriminate|]. by injection Hadd as <- <-.
Qed.

(** With an empty free list every insert_record takes a page number of its
    own from the disk manager. *)
Lemma inserts_take_new_pages bufs : forall fh rids fh',
  table_inv (pool fh) -> pool_inv (pool fh) ->
  num_records_per_page (file_hdr_ fh) <= 8 * bitmap_size (file_hdr_ fh) ->
  first_free_page_no (file_hdr_ fh) = RM_NO_FREE_PAGE ->
  for_all insert_record bufs fh = (Ret rids, fh') ->
  first_free_page_no (file_hdr_ fh') = RM_NO_FREE_PAGE /\
  num_pages (file_hdr_ fh') = num_pages (file_hdr_ fh) + Z.of_nat (length bufs) /\
  rid_page_no <$> rids
  = seqZ (default 0 (fd2pageno_ (disk_manager_ (pool fh)) !! fd_ fh))
         (Z.of_nat (length bufs)).
Proof.
  induction bufs as [|buf bufs IH]; intros fh rids fh' Ht Hp Hlayout Hfree Hrun.
  - injection Hrun as <- <-. simpl. split; [done|]. split; [lia|done].
  - simpl in Hrun.
    apply bind_Ret in Hrun as (rid & fh1 & Hins & Hrun).
    apply bind_Ret in Hrun as (rids' & fh2 & Hrun & [= <- <-]).
    destruct (insert_record_leaves _ _ _ _ Ht Hp Hlayout Hins)
      as (f & pg & bytes & n & Hfd & _ & Hnpp & Hbms & Ht1 & Hp1 & _ & _ & _ & _ & _ & _ & _
          & _ & _ & [(Hhead & _)|(_ & Hff & Hnum & Hrid & Hcnt)]); [done|].
    destruct (IH fh1 rids' fh2) as (Hff' & Hnum' & Hrids'); try done.
    { by rewrite Hnpp, Hbms. }
    split; [done|]. split; [rewrite Hnum', Hnum; simpl; lia|].
    rewrite fmap_cons, Hrids', Hcnt, Hfd, lookup_insert_eq. simpl default.
    rewrite (seqZ_cons _ (Z.of_nat (length (buf :: bufs)))) by (simpl; lia).
    rewrite Hrid. f_equal. f_equal; simpl; lia.
Qed.

End FreeListClaims.

(** ** Invariants along a computation *)

Lemma preserves_ret {S A} (I : S -> Prop) (a : A) : preserves I (ret a).
Proof. by intros s. Qed.

Lemma preserves_throw {S A} (I : S -> Prop) e : preserves I (throw (A := A) e).
Proof. by intros s. Qed.

Lemma preserves_get {S} (I : S -> Prop) : preserves I get.
Proof. by intros s. Qed.

Lemma preserves_modify {S} (I : S -> Prop) f :
  (forall s, I s -> I (f s)) -> preserves I (modify f).
Proof. intros Hf s. apply Hf. Qed.

Lemma preserves_defined {S A} (I : S -> Prop) (o : option A) : preserves I (defined o).
Proof. intros s. by destruct o. Qed.

Lemma preserves_int_add {S} (I : S -> Prop) a b : preserves I (int_add a b).
Proof. intros s. unfold int_add. by case_bool_decide. Qed.

Lemma preserves_bind {S A B} (I : S -> Prop) (m : M S A) (k : A -> M S B) :
  preserves I m -> (forall a, preserves I (k a)) -> preserves I (bind m k).
Proof.
  intros Hm Hk s Hs. unfold bind. specialize (Hm s Hs).
  destruct (m s) as [[a|e] s1]; simpl in *; [by apply Hk|done].
Qed.

Lemma preserves_for_all {S A B} (I : S -> Prop) (f : A -> M S B) l :
  (forall a, preserves I (f a)) -> preserves I (for_all f l).
Proof.
  intros Hf. induction l as [|a l IH]; simpl; [apply preserves_ret|].
  apply preserves_bind; [done|]. intros b.
  apply preserves_bind; [done|]. intros r. apply preserves_ret.
Qed.

Lemma preserves_on_pool {A} (I : BufferPoolManager -> Prop) (m : M BufferPoolManager A) :
  preserves I m -> preserves (fun fh => I (buffer_pool_manager_ fh)) (on_pool m).
Proof.
  intros Hm fh Hfh. unfold on_pool, zoom. specialize (Hm _ Hfh).
  by destruct (m (buffer_pool_manager_ fh)).
Qed.

Lemma preserves_on_file {A} (I : RmFileHandle -> Prop) (m : M RmFileHandle A) :
  preserves I m -> preserves (fun s => I (file_handle_ s)) (on_file m).
Proof.
  intros Hm s Hs. unfold on_file, zoom. specialize (Hm _ Hs).
  by destruct (m (file_handle_ s)).
Qed.

Section ReachableRecords.

Context {cfg : Config}.

Lemma frame_reachable f : preserves reachable (frame f).
Proof. intros b Hb. rewrite frame_eq. by destruct (pages_ b !! f). Qed.

Lemma load_reachable f off len : preserves reachable (load f off len).
Proof.
  apply preserves_bind; [apply frame_reachable|]. intros pg. apply preserves_defined.
Qed.

Lemma load_int_reachable f off : preserves reachable (load_int f off).
Proof.
  apply preserves_bind; [apply load_reachable|]. intros bs. apply preserves_ret.
Qed.

Lemma store_reachable f off bs : preserves reachable (store f off bs).
Proof. intros b Hb. by apply reach_store. Qed.

Lemma Bitmap_is_set_reachable f bm pos : preserves reachable (Bitmap_is_set f bm pos).
Proof.
  unfold Bitmap_is_set. case_bool_decide; [apply preserves_throw|].
  apply preserves_bind; [apply load_reachable|]. intros bs. apply preserves_ret.
Qed.

Lemma Bitmap_set_reachable f bm pos : preserves reachable (Bitmap_set f bm pos).
Proof.
  unfold Bitmap_set. case_bool_decide; [apply preserves_throw|].
  apply preserves_bind; [apply load_reachable|]. intros bs. apply store_reachable.
Qed.

Lemma Bitmap_reset_reachable f bm pos : preserves reachable (Bitmap_reset f bm pos).
Proof.
  unfold Bitmap_reset. case_bool_decide; [apply preserves_throw|].
  apply preserves_bind; [apply load_reachable|]. intros bs. apply store_reachable.
Qed.

Lemma Bitmap_init_reachable f bm size : preserves reachable (Bitmap_init f bm size).
Proof.
  unfold Bitmap_init. case_bool_decide; [apply store_reachable|apply preserves_throw].
Qed.

Lemma scan_bits_reachable n bit f bm : forall i, preserves reachable (scan_bits n bit f bm i).
Proof.
  induction n as [|n IH]; intros i; simpl; [apply preserves_ret|].
  apply preserves_bind; [apply Bitmap_is_set_reachable|]. intros b.
  case_bool_decide; [apply preserves_ret|apply IH].
Qed.

Lemma fetch_page_reachable pid : preserves reachable (fetch_page pid).
Proof. intros b Hb. by apply reach_fetch_page. Qed.

Lemma new_page_reachable pid : preserves reachable (new_page pid).
Proof. intros b Hb. by apply reach_new_page. Qed.

Lemma unpin_page_reachable pid d : preserves reachable (unpin_page pid d).
Proof. intros b Hb. by apply reach_unpin_page. Qed.

Local Abbreviation pool_reachable := (fun fh => reachable (buffer_pool_manager_ fh)).

Ltac keeps :=
  repeat first
    [ apply preserves_ret | apply preserves_throw | apply preserves_get
    | apply preserves_defined | apply preserves_int_add
    | apply (preserves_modify pool_reachable); intros ? ?; assumption
    | apply (preserves_on_pool reachable)
    | apply frame_reachable | apply load_reachable | apply load_int_reachable
    | apply store_reachable | apply Bitmap_is_set_reachable | apply Bitmap_set_reachable
    | apply Bitmap_reset_reachable | apply Bitmap_init_reachable | apply scan_bits_reachable
    | apply fetch_page_reachable | apply new_page_reachable | apply unpin_page_reachable
    | apply preserves_bind; [|intros ?]
    | match goal with |- preserves _ (if ?c then _ else _) => destruct c end
    | match goal with |- preserves _ (match ?x with _ => _ end) => destruct x end ].

Lemma get_page_id_reachable f : preserves pool_reachable (get_page_id f).
Proof. unfold get_page_id. keeps. Qed.

Lemma fetch_page_handle_reachable p : preserves pool_reachable (fetch_page_handle p).
Proof. unfold fetch_page_handle. keeps. Qed.

Lemma create_page_handle_reachable : preserves pool_reachable create_page_handle.
Proof.
  unfold create_page_handle. apply preserves_bind; [keeps|]. intros fh.
  case_bool_decide; [apply fetch_page_handle_reachable|].
  unfold create_new_page_handle, store_int. keeps.
Qed.

Lemma insert_record_reachable buf : preserves pool_reachable (insert_record buf).
Proof.
  unfold insert_record. apply preserves_bind; [apply create_page_handle_reachable|].
  intros h. unfold Bitmap_first_bit, store_int, get_page_id. keeps.
Qed.

Lemma delete_record_reachable rid : preserves pool_reachable (delete_record rid).
Proof.
  unfold delete_record. apply preserves_bind; [apply fetch_page_handle_reachable|].
  intros h. unfold release_page_handle, store_int, get_page_id. keeps.
Qed.

Lemma get_record_reachable rid : preserves pool_reachable (get_record rid).
Proof.
  unfold get_record. apply preserves_bind; [apply fetch_page_handle_reachable|].
  intros h. unfold get_page_id. keeps.
Qed.

End ReachableRecords.

(** * The claims *)

Lemma open_file_path2fd path dm r dm' :
  open_file path dm = (r, dm') -> path2fd_ dm' = path2fd_ dm.
Proof.
  unfold open_file. intros H.
  apply bind_inv in H as [(dm0 & dm0' & [= <- <-] & H)|(e & [=] & _)].
  destruct (negb (is_file path dm)); [by injection H as <- <-|].
  apply bind_inv in H as [(fd0 & dm1 & Ho & H)|(e & Ho & _)];
    apply zoom_inv in Ho as (k1 & _ & ->); [|done].
  case_bool_decide; [by injection H as <- <-|].
  assert (Hclose : forall (dmx : DiskManager) rx dmy,
             path2fd_ dmx = path2fd_ dm ->
             (sys (sys_close fd0);; throw (A := Z) InternalError)%cpp dmx = (rx, dmy) ->
             path2fd_ dmy = path2fd_ dm).
  { intros dmx rx dmy Hx Hc.
    apply bind_inv in Hc as [(x & dm2 & Hc & [= <- <-])|(e & Hc & _)];
      apply zoom_inv in Hc as (k2 & _ & ->); done. }
  case_bool_decide; [by eapply Hclose, H|].
  apply bind_inv in H as [(dm2 & dm2' & [= <- <-] & H)|(e & [=] & _)].
  case_bool_decide; [by eapply Hclose, H|].
  apply bind_inv in H as [([] & dm3 & [= <-] & [= <- <-])|(e & [=] & _)]. done.
Qed.

Section Claims.

Context {cfg : Config}.

Local Abbreviation pool := buffer_pool_manager_.

(** The record that was just inserted is read back: on a file handle over a
    reachable pool, whose header gives the bitmap a bit for every slot, with
    buf of record_size bytes, a successful insert_record followed at once by
    get_record on the Rid it returned gives buf. *)
Theorem insert_record_get_record_roundtrip buf fh rid fh' :
  reachable (pool fh) ->
  num_records_per_page (file_hdr_ fh) <= 8 * bitmap_size (file_hdr_ fh) ->
  Z.of_nat (length buf) = record_size (file_hdr_ fh) ->
  insert_record buf fh = (Ret rid, fh') ->
  exists fh'', get_record rid fh' = (Ret buf, fh'').
Proof.
  intros Hreach. apply insert_then_get.
  - by apply reachable_table_inv.
  - by apply reachable_pool_inv.
Qed.

(** C3. In an empty pool of n frames, after the n distinct pages of ps were
    fetched and then unpinned once each in the same order, fetching one more
    page q evicts the first page of ps and no other: q gets its frame, it
    leaves the page table and the other pages stay cached.  And in every
    reachable pool the frame the replacer picks as victim has pin count 0. *)
Theorem lru_evicts_least_recently_unpinned
    n ps p1 q (dirty : PageId -> bool) dm frames b1 oks b2 f b3 :
  length ps = n ->
  ps !! 0%nat = Some p1 ->
  NoDup (q :: ps) ->
  for_all fetch_page ps (BufferPoolManager_new n dm) = (Ret frames, b1) ->
  for_all (fun p => unpin_page p (dirty p)) ps b1 = (Ret oks, b2) ->
  fetch_page q b2 = (Ret (Some f), b3) ->
  (page_table_ b2 !! p1 = Some f /\
   page_table_ b3 !! p1 = None /\
   page_table_ b3 !! q = Some f /\
   forall p, p ∈ ps -> p <> p1 ->
     page_table_ b3 !! p = page_table_ b2 !! p /\ is_Some (page_table_ b3 !! p)) /\
  (forall b g r', reachable b -> victim (replacer_ b) = (Ret (Some g), r') ->
     exists pg, pages_ b !! g = Some pg /\ pin_count_ pg = 0).
Proof.
  intros Hlen Hp1 Hnd Hfetch Hunpin Hq. split.
  - assert (Hnd' : NoDup ([] ++ ps)) by (by apply NoDup_cons in Hnd as [_ ?]).
    pose proof (fetch_phase n ps [] _ _ _ Hnd' ltac:(simpl; lia) (filled_new n dm) Hfetch)
      as Hfilled.
    simpl in Hfilled. rewrite <- Hlen in Hfilled. apply filled_drained in Hfilled.
    destruct (unpin_phase ps dirty ps [] b1 eq_refl Hfilled) as (oks' & b2' & Hrun & Hdr).
    rewrite Hunpin in Hrun. injection Hrun as <- <-.
    by apply (fetch_evicts_first ps p1 q b2 f b3).
  - intros b g r' Hb. apply victim_unpinned. by apply reachable_pool_inv.
Qed.

(** C5. When find_victim_page takes the frame f the replacer gives up: if
    the page in f is dirty, its bytes are written to its place on disk, and f
    still holds the page when that is done (a read of the page from disk then
    gives those bytes); if that write fails no frame is handed out; if the
    page is not dirty the disk manager is left as it was, so nothing is
    written. *)
Theorem eviction_writes_back_dirty_only b f pg :
  free_list_ b = [] ->
  last (LRUlist_ (replacer_ b)) = Some f ->
  pages_ b !! f = Some pg ->
  (is_dirty_ pg = true ->
   forall dm',
     write_page (fd (id_ pg)) (page_no (id_ pg)) (data_ pg) PAGE_SIZE (disk_manager_ b)
     = (Ret tt, dm') ->
     exists b',
       find_victim_page b = (Ret (Some f), b') /\
       disk_manager_ b' = dm' /\
       trace (kernel dm')
       = trace (kernel (disk_manager_ b))
         ++ [EvWrite (fd (id_ pg)) (page_no (id_ pg) * PAGE_SIZE)
               (take (Z.to_nat PAGE_SIZE) (data_ pg))] /\
       pages_ b' !! f = Some (clean pg) /\
       forall buf, PAGE_SIZE <= Z.of_nat (length buf) ->
         exists dm'',
           read_page (fd (id_ pg)) (page_no (id_ pg)) buf PAGE_SIZE dm'
           = (Ret (take (Z.to_nat PAGE_SIZE) (data_ pg) ++ drop (Z.to_nat PAGE_SIZE) buf),
              dm'')) /\
  (is_dirty_ pg = true ->
   forall e dm',
     write_page (fd (id_ pg)) (page_no (id_ pg)) (data_ pg) PAGE_SIZE (disk_manager_ b)
     = (Throw e, dm') ->
     exists b', find_victim_page b = (Throw e, b') /\ pages_ b' = pages_ b) /\
  (is_dirty_ pg = false ->
   exists b',
     find_victim_page b = (Ret (Some f), b') /\
     disk_manager_ b' = disk_manager_ b /\
     pages_ b' = pages_ b).
Proof.
  intros Hfree Hlast Hpg.
  rewrite (find_victim_page_evicts b f pg Hfree Hlast Hpg). simpl.
  split; [|split].
  - intros -> dm' Hw. rewrite Hw. eexists. split; [reflexivity|]. simpl.
    split; [done|].
    pose proof Hw as Hw'.
    apply write_page_inv in Hw' as (_ & _ & p & o & content & _ & _ & ->). simpl.
    split; [done|]. split; [by apply (list_insert_lookup_Some _ _ _ pg)|].
    intros buf Hbuf. by eapply write_then_read_page.
  - intros -> e dm' Hw. rewrite Hw. eexists. split; reflexivity.
  - intros ->. eexists. split; [reflexivity|]. done.
Qed.

(** C6. On a reachable pool unpin_page(page_id, is_dirty) returns false
    exactly when the page is not cached or its pin count is 0, and then the
    whole pool (frames with their pin counts and dirty flags, page table,
    replacer, free list) is as it was. *)
Theorem unpin_page_fails_exactly b pid is_dirty :
  reachable b ->
  exists r b',
    unpin_page pid is_dirty b = (Ret r, b') /\
    (r = false <->
       page_table_ b !! pid = None \/
       exists f pg, page_table_ b !! pid = Some f /\ pages_ b !! f = Some pg /\
                    pin_count_ pg = 0) /\
    (r = false -> b' = b).
Proof. intros Hb. by apply unpin_page_false_iff, reachable_pool_inv. Qed.

(** C7. On a file handle over a reachable pool: an insert_record after which
    the page of the new record holds exactly num_records_per_page records
    moves the free-list head past that page, to the page's next-free link,
    when the page was the head, and leaves an empty free list empty; a
    delete_record on a page that held exactly num_records_per_page records
    makes that page the head of the free list, linked to the old head, and
    the create_page_handle that follows returns that page, pinned. *)
Theorem full_page_and_free_list fh :
  reachable (pool fh) ->
  (forall buf rid fh',
     num_records_per_page (file_hdr_ fh) <= 8 * bitmap_size (file_hdr_ fh) ->
     insert_record buf fh = (Ret rid, fh') ->
     num_records_of fh' (rid_page_no rid) = Some (num_records_per_page (file_hdr_ fh)) ->
     (first_free_page_no (file_hdr_ fh) <> RM_NO_FREE_PAGE ->
      rid_page_no rid = first_free_page_no (file_hdr_ fh) /\
      next_free_of fh' (rid_page_no rid) = Some (first_free_page_no (file_hdr_ fh'))) /\
     (first_free_page_no (file_hdr_ fh) = RM_NO_FREE_PAGE ->
      first_free_page_no (file_hdr_ fh') = RM_NO_FREE_PAGE)) /\
  (forall rid fh',
     rid_page_no rid <> RM_NO_FREE_PAGE ->
     INT_MIN <= first_free_page_no (file_hdr_ fh) <= INT_MAX ->
     num_records_of fh (rid_page_no rid) = Some (num_records_per_page (file_hdr_ fh)) ->
     delete_record rid fh = (Ret tt, fh') ->
     first_free_page_no (file_hdr_ fh') = rid_page_no rid /\
     next_free_of fh' (rid_page_no rid) = Some (first_free_page_no (file_hdr_ fh)) /\
     exists h fh'' pg,
       create_page_handle fh' = (Ret h, fh'') /\
       pages_ (pool fh'') !! page h = Some pg /\
       id_ pg = mkPageId (fd_ fh) (rid_page_no rid) /\
       0 < pin_count_ pg).
Proof.
  intros Hreach.
  pose proof (reachable_table_inv _ Hreach) as Ht.
  pose proof (reachable_pool_inv _ Hreach) as Hp.
  split.
  - intros buf rid fh'. by apply insert_full_advances.
  - intros rid fh'. by apply delete_full_relinks.
Qed.

(** C8. read_page(fd, page_no, buf, n) at an offset at or beyond the size of
    the file fills the first n bytes of buf with zeros and returns, leaving
    the disk manager as it was; and after a write_page that returned, a
    read_page of the same n bytes at the same (fd, page_no) returns and gives
    the bytes written. *)
Theorem read_page_write_page dm fd0 page_no0 data buf n :
  0 <= n <= Z.of_nat (length buf) ->
  (forall st_size,
     sys_fstat fd0 (kernel dm) = Some st_size ->
     st_size <= page_no0 * PAGE_SIZE ->
     read_page fd0 page_no0 buf n dm = (Ret (zeros n ++ drop (Z.to_nat n) buf), dm)) /\
  (forall dm',
     write_page fd0 page_no0 data n dm = (Ret tt, dm') ->
     exists dm'',
       read_page fd0 page_no0 buf n dm'
       = (Ret (take (Z.to_nat n) data ++ drop (Z.to_nat n) buf), dm'')).
Proof.
  intros Hn. split.
  - intros st_size Hst Hoff. by apply (read_page_beyond dm fd0 page_no0 buf n st_size).
  - intros dm' Hw. apply (write_then_read_page dm fd0 page_no0 data n dm' buf Hw). lia.
Qed.

(** C9. new_page does not initialise the memory of the frame it returns: the
    frame holds the new page id, pin count 1 and a clear dirty flag, and the
    bytes it held before the call; the kernel sees no read during the call
    (at most the write of a dirty victim). *)
Theorem new_page_keeps_frame_memory b pid f pid' b' :
  new_page pid b = (Ret (Some (f, pid')), b') ->
  exists pg,
    pages_ b !! f = Some pg /\
    pages_ b' !! f = Some (mkPage pid' (data_ pg) false 1) /\
    exists evs,
      trace (kernel (disk_manager_ b')) = trace (kernel (disk_manager_ b)) ++ evs /\
      Forall (fun e => exists fd0 off bs, e = EvWrite fd0 off bs) evs.
Proof.
  intros H. destruct (new_page_keeps_data _ _ _ _ _ H) as (pg & ? & ? & _ & ?). eauto.
Qed.

End Claims.

(** * The model at work on the example database *)

Local Abbreviation pool := buffer_pool_manager_.

Lemma insert_record_get_record_roundtrip_witness :
  exists fh'',
    get_record (cfg := example_config) (mkRid 1 0)
      (insert_record (cfg := example_config) example_record example_file).2
    = (Ret example_record, fh'').
Proof.
  apply (insert_record_get_record_roundtrip (cfg := example_config)
           example_record example_file (mkRid 1 0)).
  - exact (reach_new (cfg := example_config) 2 example_disk).
  - simpl. lia.
  - reflexivity.
  - vm_compute. reflexivity.
Defined.

(** C1. A record that was inserted is lost although nothing deleted or
    updated it.  On the example file over a pool of three frames,
    get_record of (1, 0) and of (2, 0), records that do not exist, throws
    and leaves the zero pages 1 and 2 of the file cached in frames 0 and 1.
    insert_record then makes page 1, the next page number of the file, in
    frame 2 and returns (1, 0): frames 0 and 2 now both carry the id of
    page 1, and the page table maps it to frame 2.  get_record of (1, 0)
    at once returns the record.  But get_record of (8, 0), which does not
    exist either, evicts frame 0, and find_victim_page, which erases the
    table entry of the victim's id, erases that of the frame holding the
    record, which stays in frame 2, dirty; get_record of (1, 0) then reads
    page 1 from the disk, where it was never written, and throws. *)
Theorem inserted_record_is_lost :
  let fh1 := (get_record (cfg := example_config) (mkRid 1 0) example_file3).2 in
  let fh2 := (get_record (cfg := example_config) (mkRid 2 0) fh1).2 in
  let fh3 := (insert_record (cfg := example_config) example_record fh2).2 in
  let fh4 := (get_record (cfg := example_config) (mkRid 8 0) fh3).2 in
  (get_record (cfg := example_config) (mkRid 1 0) example_file3).1 = Throw RuntimeError /\
  (get_record (cfg := example_config) (mkRid 2 0) fh1).1 = Throw RuntimeError /\
  id_ <$> pages_ (pool fh2) = [example_page1; example_page2; mkPageId (-1) (-1)] /\
  (insert_record (cfg := example_config) example_record fh2).1 = Ret (mkRid 1 0) /\
  id_ <$> pages_ (pool fh3) = [example_page1; example_page2; example_page1] /\
  page_table_ (pool fh3) !! example_page1 = Some 2%nat /\
  (get_record (cfg := example_config) (mkRid 1 0) fh3).1 = Ret example_record /\
  (get_record (cfg := example_config) (mkRid 8 0) fh3).1 = Throw RuntimeError /\
  id_ <$> pages_ (pool fh4) = [mkPageId 3 8; example_page2; example_page1] /\
  is_dirty_ <$> pages_ (pool fh4) = [false; false; true] /\
  page_table_ (pool fh4) !! example_page1 = None /\
  (get_record (cfg := example_config) (mkRid 1 0) fh4).1 = Throw RuntimeError.
Proof. vm_compute. repeat split; reflexivity. Qed.

(** C2. RmScan never unpins the pages it fetches.  On the example file with
    one record at (1, 0) and no page pinned, the constructor of the scan
    stops at (1, 0) and leaves page 1 with pin count 1; the next() that
    completes the scan fetches page 1 again, reaches the end and leaves it
    with pin count 2. *)
Theorem scan_leaves_pages_pinned :
  let fh := (insert_record (cfg := example_config) example_record example_file).2 in
  let fh1 := (RmScan_new (cfg := example_config) fh).2 in
  let s2 := (next (cfg := example_config) (mkRmScan fh1 (mkRid 1 0))).2 in
  pins (pool fh) = [0; 0] /\
  (RmScan_new (cfg := example_config) fh).1 = Ret (mkRid 1 0) /\
  pins (pool fh1) = [1; 0] /\
  (next (cfg := example_config) (mkRmScan fh1 (mkRid 1 0))).1 = Ret tt /\
  is_end s2 = true /\
  pins (pool (file_handle_ s2)) = [2; 0].
Proof. vm_compute. repeat split; reflexivity. Qed.

Lemma lru_evicts_least_recently_unpinned_witness :
  let b0 := BufferPoolManager_new (cfg := example_config) 2 example_disk in
  let ps := [example_page1; example_page2] in
  let b1 := (for_all (fetch_page (cfg := example_config)) ps b0).2 in
  let b2 := (for_all (fun p => unpin_page p true) ps b1).2 in
  let b3 := (fetch_page (cfg := example_config) example_page3 b2).2 in
  page_table_ b2 !! example_page1 = Some 0%nat /\
  page_table_ b3 !! example_page1 = None /\
  page_table_ b3 !! example_page3 = Some 0%nat.
Proof.
  intros b0 ps b1 b2 b3.
  destruct (lru_evicts_least_recently_unpinned (cfg := example_config)
              2 ps example_page1 example_page3 (fun _ => true) example_disk
              [Some 0%nat; Some 1%nat] b1 [true; true] b2 0%nat b3)
    as [(H1 & H2 & H3 & _) _].
  - reflexivity.
  - reflexivity.
  - apply (bool_decide_unpack _). vm_compute. exact I.
  - vm_compute. reflexivity.
  - vm_compute. reflexivity.
  - vm_compute. reflexivity.
  - exact (conj H1 (conj H2 H3)).
Defined.

(** C4. get_file_fd opens a file that open_file has already opened: no
    function of the disk manager ever puts a path into path2fd_.  On a new
    disk manager open_file("t.db") returns descriptor 3 and leaves path2fd_
    empty; get_file_fd("t.db") then opens the file again and returns
    descriptor 4. *)
Theorem get_file_fd_opens_again :
  let dm1 := (open_file "t.db" (DiskManager_new example_kernel)).2 in
  (open_file "t.db" (DiskManager_new example_kernel)).1 = Ret 3 /\
  path2fd_ dm1 = ∅ /\
  (get_file_fd "t.db" dm1).1 = Ret 4 /\
  trace (kernel (get_file_fd "t.db" dm1).2) = [EvOpen "t.db" 3; EvOpen "t.db" 4].
Proof. vm_compute. repeat split; reflexivity. Qed.

Lemma eviction_writes_back_dirty_only_witness :
  exists b',
    find_victim_page (cfg := example_config) example_dirty_pool = (Ret (Some 0%nat), b') /\
    trace (kernel (disk_manager_ b'))
    = trace (kernel (disk_manager_ example_dirty_pool)) ++ [EvWrite 3 4096 (zeros 4096)].
Proof.
  pose (pg := mkPage example_page1 (zeros 4096) true 0).
  pose (dm' := (write_page (cfg := example_config) 3 1 (zeros 4096) 4096
                  (disk_manager_ example_dirty_pool)).2).
  destruct (eviction_writes_back_dirty_only (cfg := example_config)
              example_dirty_pool 0%nat pg) as (Hdirty & _ & _).
  - vm_compute. reflexivity.
  - vm_compute. reflexivity.
  - vm_compute. reflexivity.
  - destruct (Hdirty eq_refl dm') as (b' & Hv & Hdm & Htr & _).
    + vm_compute. reflexivity.
    + exists b'. split; [exact Hv|]. rewrite Hdm. exact Htr.
Defined.

Lemma unpin_page_fails_exactly_witness :
  exists r b',
    unpin_page example_page1 false example_dirty_pool = (Ret r, b') /\
    (r = false <->
       page_table_ example_dirty_pool !! example_page1 = None \/
       exists f pg, page_table_ example_dirty_pool !! example_page1 = Some f /\
                    pages_ example_dirty_pool !! f = Some pg /\ pin_count_ pg = 0) /\
    (r = false -> b' = example_dirty_pool).
Proof.
  apply (unpin_page_fails_exactly (cfg := example_config)).
  unfold example_dirty_pool. apply reach_unpin_page, reach_fetch_page, reach_new.
Defined.

Lemma full_page_and_free_list_witness :
  (let fh' := (insert_record (cfg := example_config) example_record1 example_freed).2 in
   next_free_of (cfg := example_config) fh' 1 = Some (first_free_page_no (file_hdr_ fh'))) /\
  first_free_page_no (file_hdr_ example_freed) = 1 /\
  next_free_of (cfg := example_config) example_freed 1 = Some (-1).
Proof.
  assert (Hfull : reachable (cfg := example_config) (pool example_full)).
  { apply (insert_record_reachable (cfg := example_config)).
    exact (reach_new (cfg := example_config) 2 example_disk). }
  assert (Hfreed : reachable (cfg := example_config) (pool example_freed)).
  { apply (delete_record_reachable (cfg := example_config)). exact Hfull. }
  split.
  - destruct (full_page_and_free_list (cfg := example_config) example_freed Hfreed)
      as [Hins _].
    destruct (Hins example_record1 (mkRid 1 0)
                (insert_record (cfg := example_config) example_record1 example_freed).2)
      as [Hhead _].
    + vm_compute. discriminate.
    + vm_compute. reflexivity.
    + vm_compute. reflexivity.
    + destruct Hhead as [_ Hnext]; [vm_compute; discriminate|]. exact Hnext.
  - destruct (full_page_and_free_list (cfg := example_config) example_full Hfull)
      as [_ Hdel].
    destruct (Hdel (mkRid 1 0) example_freed) as (Hhead & Hnext & _).
    + simpl. discriminate.
    + vm_compute. split; discriminate.
    + vm_compute. reflexivity.
    + vm_compute. reflexivity.
    + split; [exact Hhead | exact Hnext].
Defined.

Lemma read_page_write_page_witness :
  read_page (cfg := example_config) 3 1 (replicate 4096 9) 4096 example_disk
  = (Ret (zeros 4096), example_disk) /\
  exists dm'',
    read_page (cfg := example_config) 3 1 (replicate 4096 9) 4096
      (write_page (cfg := example_config) 3 1 (replicate 4096 5) 4096 example_disk).2
    = (Ret (replicate 4096 5), dm'').
Proof.
  destruct (read_page_write_page (cfg := example_config) example_disk 3 1
              (replicate 4096 5) (replicate 4096 9) 4096) as [Hzero Hback].
  - vm_compute. split; discriminate.
  - split.
    + apply (Hzero 0); vm_compute; [reflexivity | discriminate].
    + apply (Hback (write_page (cfg := example_config) 3 1 (replicate 4096 5) 4096
                      example_disk).2).
      vm_compute. reflexivity.
Defined.

Lemma new_page_keeps_frame_memory_witness :
  exists pg,
    pages_ example_dirty_pool !! 0%nat = Some pg /\
    pages_ (new_page (cfg := example_config) (mkPageId 3 (-1)) example_dirty_pool).2 !! 0%nat
    = Some (mkPage (mkPageId 3 1) (data_ pg) false 1) /\
    exists evs,
      trace (kernel (disk_manager_
                       (new_page (cfg := example_config) (mkPageId 3 (-1))
                          example_dirty_pool).2))
      = trace (kernel (disk_manager_ example_dirty_pool)) ++ evs /\
      Forall (fun e => exists fd0 off bs, e = EvWrite fd0 off bs) evs.
Proof.
  apply (new_page_keeps_frame_memory (cfg := example_config) example_dirty_pool
           (mkPageId 3 (-1)) 0%nat (mkPageId 3 1)).
  vm_compute. reflexivity.
Defined.

(** * Further properties of the storage core *)

(** ** The replacer as a queue *)

Lemma last_snoc_Some {A} (l : list A) x : last (l ++ [x]) = Some x.
Proof. apply last_snoc. Qed.

Lemma victim_snoc l f h m :
  victim (mkLRU (l ++ [f]) h m) = (Ret (Some f), mkLRU l (h ∖ {[f]}) m).
Proof.
  unfold victim, bind, get, put, ret. simpl.
  rewrite last_snoc, removelast_last. reflexivity.
Qed.

Lemma victim_nil h m : victim (mkLRU [] h m) = (Ret None, mkLRU [] h m).
Proof. reflexivity. Qed.

Lemma for_all_cons {S A B} (f : A -> M S B) a l s b s1 bs s2 :
  f a s = (Ret b, s1) -> for_all f l s1 = (Ret bs, s2) ->
  for_all f (a :: l) s = (Ret (b :: bs), s2).
Proof.
  intros H1 H2. simpl. unfold bind. rewrite H1, H2. reflexivity.
Qed.

Lemma victims_drain {T} l : forall (ts : list T) h m,
  length ts = length l ->
  exists h',
    for_all (fun _ => victim) ts (mkLRU l h m)
    = (Ret (Some <$> reverse l), mkLRU [] h' m).
Proof.
  induction l as [|f l IH] using rev_ind; intros ts h m Hlen.
  - destruct ts; [|done]. exists h. reflexivity.
  - rewrite length_app in Hlen. simpl in Hlen.
    destruct ts as [|t ts]; [simpl in Hlen; lia|].
    destruct (IH ts (h ∖ {[f]}) m) as [h' Hrun]; [simpl in Hlen; lia|].
    exists h'. rewrite reverse_snoc. simpl fmap.
    eapply for_all_cons; [apply victim_snoc | exact Hrun].
Qed.

Lemma unpins_fill fs : forall l h m,
  (forall x, x ∈ h <-> x ∈ l) ->
  NoDup (fs ++ l) ->
  exists h',
    for_all unpin fs (mkLRU l h m)
    = (Ret (replicate (length fs) tt), mkLRU (reverse fs ++ l) h' m) /\
    (forall x, x ∈ h' <-> x ∈ reverse fs ++ l).
Proof.
  induction fs as [|f fs IH]; intros l h m Hh Hnd.
  - exists h. split; [reflexivity | exact Hh].
  - simpl in Hnd. apply NoDup_cons in Hnd as [Hf Hnd].
    assert (Hstep : unpin f (mkLRU l h m) = (Ret tt, mkLRU (f :: l) ({[f]} ∪ h) m)).
    { unfold unpin, bind, get, put, ret. simpl.
      rewrite bool_decide_eq_false_2; [reflexivity|].
      rewrite Hh. intros Hin. apply Hf. apply elem_of_app. by right. }
    destruct (IH (f :: l) ({[f]} ∪ h) m) as (h' & Hrun & Hh').
    + intros x. rewrite elem_of_union, elem_of_singleton, elem_of_cons, Hh. tauto.
    + apply NoDup_app. apply NoDup_app in Hnd as (Hfs & Hdis & Hl).
      split; [exact Hfs|]. split.
      * intros x Hx. rewrite elem_of_cons. intros [-> | Hxl].
        -- apply Hf. apply elem_of_app. by left.
        -- by apply (Hdis x).
      * apply NoDup_cons. split; [|exact Hl].
        intros Hin. apply Hf. apply elem_of_app. by right.
    + exists h'. rewrite reverse_cons, <- app_assoc. simpl.
      split; [|exact Hh'].
      change (tt :: replicate (length fs) tt) with (tt :: replicate (length fs) tt).
      eapply for_all_cons; [exact Hstep | exact Hrun].
Qed.

(** Frames unpinned one after the other into an empty replacer are handed out
    by victim in the order of their unpin calls, after which the replacer
    has no victim left. *)
Theorem victims_come_in_unpin_order (fs : list nat) (num_pages : nat) :
  NoDup fs ->
  exists r1 r2,
    for_all unpin fs (LRUReplacer_new num_pages) = (Ret (replicate (length fs) tt), r1) /\
    Size r1 = length fs /\
    for_all (fun _ => victim) fs r1 = (Ret (Some <$> fs), r2) /\
    victim r2 = (Ret None, r2).
Proof.
  intros Hnd.
  destruct (unpins_fill fs [] ∅ num_pages) as (h1 & Hfill & Hh1).
  { intros x. set_solver. }
  { by rewrite app_nil_r. }
  rewrite app_nil_r in Hfill.
  destruct (victims_drain (reverse fs) fs h1 num_pages) as [h2 Hdrain].
  { by rewrite length_reverse. }
  rewrite reverse_involutive in Hdrain.
  eexists _, _. split; [exact Hfill|]. split.
  { unfold Size. simpl. apply length_reverse. }
  split; [exact Hdrain | reflexivity].
Qed.

Lemma erase_node_length f l :
  f ∈ l -> S (length (erase_node f l)) = length l.
Proof.
  induction l as [|x l IH]; [by intros ?%elem_of_nil|].
  intros Hin. simpl. destruct (decide (x = f)) as [->|Hne]; [done|].
  simpl. f_equal. apply IH. apply elem_of_cons in Hin as [->|]; done.
Qed.

Lemma victims_are_evictable {T} (ts : list T) : forall r vs r',
  lru_inv r ->
  for_all (fun _ => victim) ts r = (Ret vs, r') ->
  forall g, Some g ∈ vs -> g ∈ LRUlist_ r.
Proof.
  induction ts as [|t ts IH]; intros r vs r' Hinv Hrun g Hg.
  - simpl in Hrun. unfold ret in Hrun. injection Hrun as <- <-.
    by apply elem_of_nil in Hg.
  - simpl in Hrun. apply bind_Ret in Hrun as (v & r1 & Hv & Hrun).
    apply bind_Ret in Hrun as (vs' & r2 & Hrest & Hret).
    unfold ret in Hret. injection Hret as <- <-.
    destruct (victim_inv _ _ _ Hv Hinv) as [Hinv1 Hcase].
    apply elem_of_cons in Hg as [Hg | Hg].
    + destruct Hcase as [(Hnone & _) | (f & Hsome & Hl & _)].
      * congruence.
      * assert (g = f) by congruence. subst g. rewrite Hl.
        apply elem_of_app. right. by apply list_elem_of_singleton.
    + specialize (IH r1 vs' r2 Hinv1 Hrest g Hg).
      destruct Hcase as [(_ & -> & _) | (f & _ & Hl & _)]; [done|].
      rewrite Hl. apply elem_of_app. by left.
Qed.

(** A frame that was pinned is handed out by no later victim call, however
    many victims are asked for. *)
Theorem pinned_frame_is_no_victim {T} (r : LRUReplacer) (f : nat) (ts : list T) vs r' :
  lru_inv r ->
  (pin f;; for_all (fun _ => victim) ts) r = (Ret vs, r') ->
  Some f ∉ vs.
Proof.
  intros Hinv Hrun.
  apply bind_Ret in Hrun as ([] & r1 & Hpin & Hrun).
  destruct (pin_inv _ _ _ _ Hpin Hinv) as (_ & Hinv1 & _ & Hmem).
  intros Hin. apply (victims_are_evictable ts r1 vs r' Hinv1 Hrun) in Hin.
  apply Hmem in Hin as [_ Hne]. by apply Hne.
Qed.

(** Pinning an evictable frame and unpinning it again makes it the most
    recently used one: every other evictable frame is handed out before it, in
    the order they had. *)
Theorem pin_unpin_makes_most_recent (r : LRUReplacer) (f : nat) :
  lru_inv r ->
  f ∈ LRUlist_ r ->
  exists r',
    (pin f;; unpin f;; for_all (fun _ => victim) (LRUlist_ r)) r
    = (Ret (Some <$> (reverse (erase_node f (LRUlist_ r)) ++ [f])), r') /\
    Size r' = 0%nat.
Proof.
  intros [Hnd Hh] Hin. destruct r as [l h m]. simpl in *.
  assert (Hpin : pin f (mkLRU l h m)
                 = (Ret tt, mkLRU (erase_node f l) (h ∖ {[f]}) m)).
  { unfold pin, bind, get, put, ret. simpl.
    rewrite bool_decide_eq_true_2; [reflexivity|]. by apply Hh. }
  assert (Hunpin : unpin f (mkLRU (erase_node f l) (h ∖ {[f]}) m)
                   = (Ret tt, mkLRU (f :: erase_node f l) ({[f]} ∪ h ∖ {[f]}) m)).
  { unfold unpin, bind, get, put, ret. simpl.
    rewrite bool_decide_eq_false_2; [reflexivity|]. set_solver. }
  destruct (victims_drain (f :: erase_node f l) l ({[f]} ∪ h ∖ {[f]}) m) as [h' Hdrain].
  { simpl. symmetry. by apply erase_node_length. }
  rewrite reverse_cons in Hdrain.
  exists (mkLRU [] h' m). split; [|reflexivity].
  unfold bind at 1. rewrite Hpin. unfold bind at 1. rewrite Hunpin. exact Hdrain.
Qed.

(** ** The descriptor table of the kernel *)

Lemma lowest_free_None (tab : gmap Z (string * Z)) : tab !! lowest_free tab = None.
Proof.
  unfold lowest_free.
  destruct (find _ _) as [fd|] eqn:Hfind; simpl.
  - apply find_some in Hfind as [_ Hfd]. by apply bool_decide_eq_true_1 in Hfd.
  - destruct (tab !! Z.of_nat (size tab)) as [v|] eqn:Hlast; [|done]. exfalso.
    assert (Hall : forall fd, 0 <= fd <= Z.of_nat (size tab) -> fd ∈ dom tab).
    { intros fd Hfd. apply elem_of_dom.
      destruct (decide (fd = Z.of_nat (size tab))) as [->|Hne]; [by eexists|].
      assert (Hin : In fd (seqZ 0 (Z.of_nat (size tab)))).
      { apply list_elem_of_In, elem_of_seqZ. lia. }
      pose proof (find_none _ _ Hfind fd Hin) as Hnone. simpl in Hnone.
      apply bool_decide_eq_false_1 in Hnone.
      destruct (tab !! fd) eqn:E; [by eexists | done]. }
    assert (Hsub : list_to_set (C := gset Z) (seqZ 0 (Z.of_nat (size tab) + 1)) ⊆ dom tab).
    { intros fd Hfd. apply elem_of_list_to_set, elem_of_seqZ in Hfd. apply Hall. lia. }
    apply subseteq_size in Hsub.
    rewrite size_list_to_set in Hsub by apply NoDup_seqZ.
    rewrite length_seqZ, size_dom in Hsub. lia.
Qed.

Lemma lowest_free_nonneg (tab : gmap Z (string * Z)) : 0 <= lowest_free tab.
Proof.
  unfold lowest_free.
  destruct (find _ _) as [fd|] eqn:Hfind; simpl; [|lia].
  apply find_some in Hfind as [Hin _].
  apply list_elem_of_In, elem_of_seqZ in Hin. lia.
Qed.

(** ** Opening and closing *)

Lemma open_file_Ret path dm fd0 dm' :
  open_file path dm = (Ret fd0, dm') ->
  is_Some (files (kernel dm) !! path) /\
  fd0 = lowest_free (fdtab (kernel dm)) /\
  0 <= fd0 < MAX_FD /\
  (fd0 ∉ fd_occupied_ dm) /\
  dm' = mkDiskManager
          (mkKernel (files (kernel dm)) (<[fd0 := (path, 0)]> (fdtab (kernel dm)))
                    (trace (kernel dm) ++ [EvOpen path fd0]))
          (fd2pageno_ dm) ({[fd0]} ∪ fd_occupied_ dm) (<[fd0 := path]> (fd2path_ dm))
          (path2fd_ dm).
Proof.
  intros H. unfold open_file, bind, get, is_file, sys_stat, sys, zoom, sys_open in H.
  cbv beta iota in H.
  destruct (files (kernel dm) !! path) as [c|] eqn:Hp; simpl in H; [|discriminate H].
  rewrite Hp in H.
  pose proof (lowest_free_nonneg (fdtab (kernel dm))) as Hnn.
  set (fd1 := lowest_free (fdtab (kernel dm))) in *.
  case_bool_decide as H1; [discriminate H|].
  case_bool_decide as H2.
  { unfold sys_close in H. simpl in H. rewrite lookup_insert_eq in H. discriminate H. }
  simpl in H. case_bool_decide as H3.
  { unfold sys_close in H. simpl in H. rewrite lookup_insert_eq in H. discriminate H. }
  simpl in H. injection H as <- <-.
  split; [by eexists|]. split; [done|]. split; [lia|]. split; [done|]. reflexivity.
Qed.

Lemma open_file_missing path dm :
  files (kernel dm) !! path = None ->
  open_file path dm = (Throw FileNotFoundError, dm).
Proof.
  intros Hp. unfold open_file, bind, get, is_file, sys_stat. rewrite Hp. reflexivity.
Qed.

Lemma close_file_Ret fd0 dm dm' :
  close_file fd0 dm = (Ret tt, dm') ->
  0 <= fd0 < MAX_FD /\ fd0 ∈ fd_occupied_ dm /\
  is_Some (fdtab (kernel dm) !! fd0) /\
  dm' = mkDiskManager
          (mkKernel (files (kernel dm)) (delete fd0 (fdtab (kernel dm)))
                    (trace (kernel dm) ++ [EvClose fd0]))
          (fd2pageno_ dm) (fd_occupied_ dm ∖ {[fd0]}) (delete fd0 (fd2path_ dm))
          (path2fd_ dm).
Proof.
  unfold close_file.
  case_bool_decide as H1; [unfold throw; discriminate|].
  unfold bind, get.
  case_bool_decide as H2; [unfold throw; discriminate|].
  unfold sys, zoom, sys_close.
  destruct (fdtab (kernel dm) !! fd0) as [v|] eqn:Hfd; simpl; [|unfold throw; discriminate].
  unfold put. intros [= <-].
  split; [lia|]. split; [done|]. split; [by eexists|]. reflexivity.
Qed.

Lemma close_file_run fd0 dm v :
  0 <= fd0 < MAX_FD -> fd0 ∈ fd_occupied_ dm ->
  fdtab (kernel dm) !! fd0 = Some v ->
  close_file fd0 dm
  = (Ret tt,
     mkDiskManager
       (mkKernel (files (kernel dm)) (delete fd0 (fdtab (kernel dm)))
                 (trace (kernel dm) ++ [EvClose fd0]))
       (fd2pageno_ dm) (fd_occupied_ dm ∖ {[fd0]}) (delete fd0 (fd2path_ dm))
       (path2fd_ dm)).
Proof.
  intros Hr Hocc Hfd. unfold close_file.
  rewrite bool_decide_eq_false_2 by lia.
  unfold bind, get. rewrite bool_decide_eq_false_2 by (intros Hn; by apply Hn).
  unfold sys, zoom, sys_close. rewrite Hfd. simpl. reflexivity.
Qed.

Lemma open_file_fresh path dm fd0 dm1 :
  dm_inv dm ->
  open_file path dm = (Ret fd0, dm1) ->
  fdtab (kernel dm) !! fd0 = None /\ fd2path_ dm !! fd0 = None /\
  (fd0 ∉ fd_occupied_ dm) /\ 0 <= fd0 < MAX_FD.
Proof.
  intros Hinv Hopen.
  destruct (open_file_Ret _ _ _ _ Hopen) as (_ & Hfd & Hrange & Hocc & _).
  split; [rewrite Hfd; apply lowest_free_None|].
  split; [|done].
  destruct (fd2path_ dm !! fd0) eqn:E; [|done].
  exfalso. apply Hocc. apply (Hinv fd0). by eexists.
Qed.

Lemma open_file_close_file_run path dm fd0 dm1 :
  dm_inv dm ->
  open_file path dm = (Ret fd0, dm1) ->
  close_file fd0 dm1
  = (Ret tt,
     mkDiskManager
       (mkKernel (files (kernel dm)) (fdtab (kernel dm))
                 (trace (kernel dm) ++ [EvOpen path fd0; EvClose fd0]))
       (fd2pageno_ dm) (fd_occupied_ dm) (fd2path_ dm) (path2fd_ dm)).
Proof.
  intros Hinv Hopen.
  destruct (open_file_fresh _ _ _ _ Hinv Hopen) as (Hfree & Hpath & Hocc & Hrange).
  destruct (open_file_Ret _ _ _ _ Hopen) as (_ & _ & _ & _ & ->).
  rewrite (close_file_run _ _ (path, 0)); simpl.
  - f_equal. f_equal.
    + f_equal; [by rewrite delete_insert_eq, delete_id | by rewrite <- app_assoc].
    + set_solver.
    + by rewrite delete_insert_eq, delete_id.
  - exact Hrange.
  - set_solver.
  - apply lookup_insert_eq.
Qed.

(** A file that was opened can be closed, and closing it takes the disk
    manager and the kernel back to where they were: the tables, the files and
    the descriptors are those before the open_file call. *)
Theorem open_file_then_close_file path dm fd0 dm1 :
  dm_inv dm ->
  open_file path dm = (Ret fd0, dm1) ->
  exists dm2,
    close_file fd0 dm1 = (Ret tt, dm2) /\
    fd2pageno_ dm2 = fd2pageno_ dm /\
    fd_occupied_ dm2 = fd_occupied_ dm /\
    fd2path_ dm2 = fd2path_ dm /\
    path2fd_ dm2 = path2fd_ dm /\
    files (kernel dm2) = files (kernel dm) /\
    fdtab (kernel dm2) = fdtab (kernel dm) /\
    trace (kernel dm2) = trace (kernel dm) ++ [EvOpen path fd0; EvClose fd0].
Proof.
  intros Hinv Hopen. eexists. split.
  - by apply (open_file_close_file_run path dm).
  - simpl. repeat split.
Qed.

(** A descriptor can be closed once: the second close_file throws
    InternalError and changes nothing. *)
Theorem close_file_twice fd0 dm dm1 :
  close_file fd0 dm = (Ret tt, dm1) ->
  close_file fd0 dm1 = (Throw InternalError, dm1).
Proof.
  intros Hclose.
  destruct (close_file_Ret _ _ _ Hclose) as (Hrange & _ & _ & ->).
  unfold close_file. rewrite bool_decide_eq_false_2 by lia.
  unfold bind, get. simpl.
  rewrite bool_decide_eq_true_2 by set_solver. reflexivity.
Qed.

Lemma get_file_name_eq fd0 dm :
  get_file_name fd0 dm
  = match fd2path_ dm !! fd0 with
    | Some p => (Ret p, dm)
    | None => (Throw FileNotOpenError, dm)
    end.
Proof.
  unfold get_file_name, bind, get. cbv beta iota.
  destruct (fd2path_ dm !! fd0) eqn:E; [|reflexivity].
  unfold fd2path_at, bind, get. cbv beta iota. rewrite E. reflexivity.
Qed.

(** get_file_name gives the path a descriptor was opened on, and throws
    FileNotOpenError once the descriptor is closed. *)
Theorem get_file_name_after_open_and_close path dm fd0 dm1 :
  dm_inv dm ->
  open_file path dm = (Ret fd0, dm1) ->
  get_file_name fd0 dm1 = (Ret path, dm1) /\
  exists dm2,
    close_file fd0 dm1 = (Ret tt, dm2) /\
    get_file_name fd0 dm2 = (Throw FileNotOpenError, dm2).
Proof.
  intros Hinv Hopen.
  pose proof (open_file_close_file_run _ _ _ _ Hinv Hopen) as Hclose.
  destruct (open_file_fresh _ _ _ _ Hinv Hopen) as (_ & Hpath & _).
  split.
  - destruct (open_file_Ret _ _ _ _ Hopen) as (_ & _ & _ & _ & ->).
    rewrite get_file_name_eq. simpl. by rewrite lookup_insert_eq.
  - eexists. split; [exact Hclose|].
    rewrite get_file_name_eq. simpl. by rewrite Hpath.
Qed.

(** ** The open-file tables stay consistent *)

Lemma dm_inv_new k : dm_inv (DiskManager_new k).
Proof.
  intros fd0. simpl. split.
  - rewrite lookup_empty. split; [set_solver | by intros [? ?]].
  - intros p. rewrite lookup_empty. discriminate.
Qed.

(** The same tables over another kernel state that has the recorded
    descriptors open on the same paths. *)
Lemma dm_inv_kernel dm k :
  dm_inv dm ->
  (forall fd0 p o, fdtab (kernel dm) !! fd0 = Some (p, o) -> 0 <= fd0 < MAX_FD ->
                   fd0 ∈ fd_occupied_ dm ->
                   exists o', fdtab k !! fd0 = Some (p, o')) ->
  dm_inv (mkDiskManager k (fd2pageno_ dm) (fd_occupied_ dm) (fd2path_ dm) (path2fd_ dm)).
Proof.
  intros Hinv Hk fd0. destruct (Hinv fd0) as [Hocc Hpath]. simpl. split; [exact Hocc|].
  intros p Hp. destruct (Hpath p Hp) as (Hrange & o & Ho).
  split; [exact Hrange|]. apply (Hk fd0 p o Ho Hrange). apply Hocc. by eexists.
Qed.

Lemma preserves_sys {A} (m : M Kernel A) :
  (forall k fd0 p o, fdtab k !! fd0 = Some (p, o) ->
                     exists o', fdtab (m k).2 !! fd0 = Some (p, o')) ->
  preserves dm_inv (sys m).
Proof.
  intros Hm dm Hinv. unfold sys, zoom. destruct (m (kernel dm)) as [r k] eqn:E. simpl.
  apply dm_inv_kernel; [exact Hinv|].
  intros fd0 p o Ho _ _. specialize (Hm (kernel dm) fd0 p o Ho). by rewrite E in Hm.
Qed.

Lemma sys_lseek_keeps fd1 off k fd0 p o :
  fdtab k !! fd0 = Some (p, o) ->
  exists o', fdtab (sys_lseek fd1 off k).2 !! fd0 = Some (p, o').
Proof.
  intros Ho. unfold sys_lseek.
  destruct (fdtab k !! fd1) as [[p1 o1]|] eqn:E1; simpl; [|by eexists].
  case_bool_decide; simpl; [|by eexists].
  destruct (decide (fd0 = fd1)) as [->|Hne].
  - rewrite lookup_insert_eq. assert (p1 = p) by congruence. subst. by eexists.
  - rewrite lookup_insert_ne by done. by eexists.
Qed.

Lemma sys_write_keeps fd1 bs k fd0 p o :
  fdtab k !! fd0 = Some (p, o) ->
  exists o', fdtab (sys_write fd1 bs k).2 !! fd0 = Some (p, o').
Proof.
  intros Ho. unfold sys_write.
  destruct (fdtab k !! fd1) as [[p1 o1]|] eqn:E1; simpl; [|by eexists].
  destruct (files k !! p1); simpl; [|by eexists].
  destruct (decide (fd0 = fd1)) as [->|Hne].
  - rewrite lookup_insert_eq. assert (p1 = p) by congruence. subst. by eexists.
  - rewrite lookup_insert_ne by done. by eexists.
Qed.

Lemma sys_read_keeps fd1 n k fd0 p o :
  fdtab k !! fd0 = Some (p, o) ->
  exists o', fdtab (sys_read fd1 n k).2 !! fd0 = Some (p, o').
Proof.
  intros Ho. unfold sys_read.
  destruct (fdtab k !! fd1) as [[p1 o1]|] eqn:E1; simpl; [|by eexists].
  destruct (files k !! p1); simpl; [|by eexists].
  destruct (decide (fd0 = fd1)) as [->|Hne].
  - rewrite lookup_insert_eq. assert (p1 = p) by congruence. subst. by eexists.
  - rewrite lookup_insert_ne by done. by eexists.
Qed.

Lemma sys_unlink_keeps path k fd0 p o :
  fdtab k !! fd0 = Some (p, o) ->
  exists o', fdtab (sys_unlink path k).2 !! fd0 = Some (p, o').
Proof.
  intros Ho. unfold sys_unlink. destruct (files k !! path); simpl; by eexists.
Qed.

Section DiskInvariant.
Context {cfg : Config}.

Lemma write_page_dm_inv fd0 page_no0 data n : preserves dm_inv (write_page fd0 page_no0 data n).
Proof.
  unfold write_page.
  apply preserves_bind; [apply preserves_sys, sys_lseek_keeps|]. intros r.
  case_bool_decide; [apply preserves_throw|].
  apply preserves_bind; [apply preserves_defined|]. intros bs.
  apply preserves_bind; [apply preserves_sys, sys_write_keeps|]. intros w.
  case_bool_decide; [apply preserves_throw | apply preserves_ret].
Qed.

Lemma read_page_mem_dm_inv fd0 page_no0 buf n :
  preserves dm_inv (read_page_mem fd0 page_no0 buf n).
Proof.
  unfold read_page_mem.
  apply preserves_bind; [apply preserves_get|]. intros dm.
  destruct (sys_fstat fd0 (kernel dm)); [|apply preserves_ret].
  case_bool_decide.
  { apply preserves_bind; [apply preserves_defined|]. intros d. apply preserves_ret. }
  apply preserves_bind; [apply preserves_sys, sys_lseek_keeps|]. intros r.
  case_bool_decide; [apply preserves_ret|].
  apply preserves_bind; [apply preserves_sys, sys_read_keeps|]. intros [bs|];
    [|apply preserves_ret].
  apply preserves_bind; [apply preserves_defined|]. intros d.
  case_bool_decide; apply preserves_ret.
Qed.

Lemma read_page_dm_inv fd0 page_no0 buf n : preserves dm_inv (read_page fd0 page_no0 buf n).
Proof.
  unfold read_page.
  apply preserves_bind; [apply read_page_mem_dm_inv|]. intros r.
  destruct (r.2); [apply preserves_throw | apply preserves_ret].
Qed.

End DiskInvariant.

Lemma allocate_page_dm_inv fd0 : preserves dm_inv (allocate_page fd0).
Proof.
  intros dm Hinv. unfold allocate_page.
  case_bool_decide; [|exact Hinv].
  unfold bind, get, int_add. case_bool_decide; [|exact Hinv]. simpl.
  intros fd1. exact (Hinv fd1).
Qed.

(** open_file in all its outcomes. *)
Lemma open_file_eq path dm :
  open_file path dm =
  match files (kernel dm) !! path with
  | None => (Throw FileNotFoundError, dm)
  | Some _ =>
      let fd0 := lowest_free (fdtab (kernel dm)) in
      if bool_decide (fd0 >= MAX_FD \/ fd0 ∈ fd_occupied_ dm) then
        (Throw InternalError,
         mkDiskManager
           (mkKernel (files (kernel dm)) (fdtab (kernel dm))
                     (trace (kernel dm) ++ [EvOpen path fd0; EvClose fd0]))
           (fd2pageno_ dm) (fd_occupied_ dm) (fd2path_ dm) (path2fd_ dm))
      else
        (Ret fd0,
         mkDiskManager
           (mkKernel (files (kernel dm)) (<[fd0 := (path, 0)]> (fdtab (kernel dm)))
                     (trace (kernel dm) ++ [EvOpen path fd0]))
           (fd2pageno_ dm) ({[fd0]} ∪ fd_occupied_ dm) (<[fd0 := path]> (fd2path_ dm))
           (path2fd_ dm))
  end.
Proof.
  destruct (files (kernel dm) !! path) as [c|] eqn:Hp; [|by apply open_file_missing].
  pose proof (lowest_free_nonneg (fdtab (kernel dm))) as Hnn.
  pose proof (lowest_free_None (fdtab (kernel dm))) as Hfree.
  cbv zeta.
  unfold open_file, bind, get, is_file, sys_stat, sys, zoom, sys_open. cbv beta iota.
  rewrite Hp. simpl. rewrite Hp.
  set (fd1 := lowest_free (fdtab (kernel dm))) in *.
  rewrite (bool_decide_eq_false_2 (fd1 = -1)) by lia.
  assert (Hclosed :
    delete fd1 (<[fd1 := (path, 0)]> (fdtab (kernel dm))) = fdtab (kernel dm)).
  { by rewrite delete_insert_eq, delete_id. }
  destruct (decide (fd1 >= MAX_FD)) as [Hbig|Hsmall].
  { rewrite (bool_decide_eq_true_2 (fd1 >= MAX_FD)) by done.
    rewrite bool_decide_eq_true_2 by (by left).
    unfold sys_close. simpl. rewrite lookup_insert_eq. simpl.
    unfold throw, log_event. simpl. rewrite Hclosed, <- app_assoc. reflexivity. }
  rewrite (bool_decide_eq_false_2 (fd1 >= MAX_FD)) by done. simpl.
  destruct (decide (fd1 ∈ fd_occupied_ dm)) as [Hocc|Hocc].
  { rewrite (bool_decide_eq_true_2 (fd1 ∈ fd_occupied_ dm)) by done.
    rewrite bool_decide_eq_true_2 by (by right).
    unfold sys_close. simpl. rewrite lookup_insert_eq. simpl.
    unfold throw, log_event. simpl. rewrite Hclosed, <- app_assoc. reflexivity. }
  rewrite (bool_decide_eq_false_2 (fd1 ∈ fd_occupied_ dm)) by done.
  rewrite bool_decide_eq_false_2 by tauto.
  reflexivity.
Qed.

Lemma open_file_dm_inv path : preserves dm_inv (open_file path).
Proof.
  intros dm Hinv. rewrite open_file_eq.
  destruct (files (kernel dm) !! path) as [c|]; [|exact Hinv].
  cbv zeta. pose proof (lowest_free_None (fdtab (kernel dm))) as Hfree.
  set (fd1 := lowest_free (fdtab (kernel dm))) in *.
  case_bool_decide as Hbad; simpl.
  - apply dm_inv_kernel; [exact Hinv|]. simpl. intros fd0 p o Ho _ _. by eexists.
  - assert (Hpath : fd2path_ dm !! fd1 = None).
    { destruct (fd2path_ dm !! fd1) eqn:E; [|done].
      exfalso. apply Hbad. right. apply (Hinv fd1). by eexists. }
    intros fd0. destruct (Hinv fd0) as [Hocc Hp]. simpl.
    destruct (decide (fd0 = fd1)) as [->|Hne].
    + rewrite !lookup_insert_eq. split.
      * split; [by eexists | set_solver].
      * intros p [= <-]. split; [|by eexists].
        pose proof (lowest_free_nonneg (fdtab (kernel dm))). fold fd1 in H. lia.
    + rewrite !lookup_insert_ne by done. split; [|exact Hp].
      rewrite <- Hocc. set_solver.
Qed.

Lemma close_file_dm_inv fd1 : preserves dm_inv (close_file fd1).
Proof.
  intros dm Hinv.
  destruct (close_file fd1 dm) as [r dm'] eqn:E. simpl.
  destruct r as [[]|e].
  - destruct (close_file_Ret _ _ _ E) as (_ & _ & _ & ->).
    intros fd0. destruct (Hinv fd0) as [Hocc Hp]. simpl.
    destruct (decide (fd0 = fd1)) as [->|Hne].
    + rewrite !lookup_delete_eq. split; [|discriminate].
      split; [set_solver | by intros [? ?]].
    + rewrite !lookup_delete_ne by done. split; [|exact Hp].
      rewrite <- Hocc. set_solver.
  - assert (dm' = dm) as ->; [|exact Hinv].
    unfold close_file in E.
    case_bool_decide; [unfold throw in E; congruence|].
    unfold bind, get in E.
    case_bool_decide as Hocc; [unfold throw in E; congruence|].
    unfold sys, zoom, sys_close in E.
    destruct (Hinv fd1) as [Hoc Hp].
    destruct (fd2path_ dm !! fd1) as [p|] eqn:Ep.
    + destruct (Hp p eq_refl) as (_ & o & Ho). rewrite Ho in E. simpl in E. discriminate E.
    + apply Hoc in Hocc as [? ?]. discriminate.
Qed.

Section CreateFile.
Context {dirs : Directories}.

(** create_file in all its outcomes. *)
Lemma create_file_eq path dm :
  create_file path dm =
  match files (kernel dm) !! path with
  | Some _ => (Throw FileExistsError, dm)
  | None =>
      if bool_decide (path = ""%string) || negb (creatable path)
      then (Throw UnixError, dm)
      else
        let fd0 := lowest_free (fdtab (kernel dm)) in
        (Ret tt,
         mkDiskManager
           (mkKernel (<[path := []]> (files (kernel dm))) (fdtab (kernel dm))
                     (trace (kernel dm) ++ [EvOpen path fd0; EvClose fd0]))
           (fd2pageno_ dm) (fd_occupied_ dm) (fd2path_ dm) (path2fd_ dm))
  end.
Proof.
  pose proof (lowest_free_nonneg (fdtab (kernel dm))) as Hnn.
  unfold create_file, bind, get, is_file, sys_stat. cbv beta iota.
  destruct (files (kernel dm) !! path) as [c|] eqn:Hp; [reflexivity|].
  simpl. unfold sys, zoom, sys_open_excl. rewrite Hp.
  destruct (bool_decide (path = ""%string) || negb (creatable path)).
  { simpl. by destruct dm as [[] ? ? ? ?]. }
  cbv zeta.
  set (fd1 := lowest_free (fdtab (kernel dm))) in *. cbv beta iota.
  rewrite (bool_decide_eq_false_2 (fd1 = -1)) by lia.
  unfold sys_close. simpl. rewrite lookup_insert_eq. simpl.
  unfold ret, log_event. simpl.
  by rewrite delete_insert_eq, delete_id, <- app_assoc by apply lowest_free_None.
Qed.

Lemma create_file_dm_inv path : preserves dm_inv (create_file path).
Proof.
  intros dm Hinv. rewrite create_file_eq.
  destruct (files (kernel dm) !! path); [exact Hinv|].
  destruct (bool_decide (path = ""%string) || negb (creatable path)); [exact Hinv|].
  cbv zeta. simpl.
  apply dm_inv_kernel; [exact Hinv|]. simpl. intros fd0 p o Ho _ _. by eexists.
Qed.

End CreateFile.

Lemma destroy_check_eq path i dm :
  dm_inv dm ->
  destroy_check path i dm
  = if bool_decide (fd2path_ dm !! Z.of_nat i = Some path)
    then (Throw InternalError, dm) else (Ret tt, dm).
Proof.
  intros Hinv. destruct (Hinv (Z.of_nat i)) as [Hocc _].
  unfold destroy_check, bind, get. cbv zeta beta iota.
  case_bool_decide as Hin.
  - apply Hocc in Hin as [p Hp]. unfold fd2path_at, bind, get. cbv beta iota.
    rewrite Hp. simpl. unfold ret at 1. cbv beta iota.
    case_bool_decide as Heq.
    + subst p. by rewrite bool_decide_eq_true_2.
    + rewrite bool_decide_eq_false_2; [reflexivity | congruence].
  - rewrite bool_decide_eq_false_2; [reflexivity|].
    intros Hp. apply Hin, Hocc. by eexists.
Qed.

Lemma destroy_loop_eq path dm l :
  dm_inv dm ->
  for_each l (destroy_check path) dm
  = if bool_decide (Exists (fun i => fd2path_ dm !! Z.of_nat i = Some path) l)
    then (Throw InternalError, dm) else (Ret tt, dm).
Proof.
  intros Hinv. induction l as [|i l IH].
  - rewrite bool_decide_eq_false_2; [reflexivity|]. by intros ?%Exists_nil.
  - change (for_each (i :: l) (destroy_check path) dm)
      with (bind (destroy_check path i) (fun _ => for_each l (destroy_check path)) dm).
    unfold bind. rewrite (destroy_check_eq _ _ _ Hinv).
    destruct (decide (fd2path_ dm !! Z.of_nat i = Some path)) as [Hi|Hi].
    + rewrite (bool_decide_eq_true_2 _ Hi).
      rewrite bool_decide_eq_true_2; [reflexivity|]. by apply Exists_cons_hd.
    + rewrite (bool_decide_eq_false_2 _ Hi). rewrite IH.
      destruct (decide (Exists (fun i => fd2path_ dm !! Z.of_nat i = Some path) l))
        as [Hl|Hl].
      * rewrite (bool_decide_eq_true_2 _ Hl).
        rewrite bool_decide_eq_true_2; [reflexivity|]. by apply Exists_cons_tl.
      * rewrite (bool_decide_eq_false_2 _ Hl).
        rewrite bool_decide_eq_false_2; [reflexivity|].
        intros [?|?]%Exists_cons; tauto.
Qed.

Lemma destroy_file_unfold path :
  destroy_file path
  = (let* dm := get in
     if negb (is_file path dm) then throw FileNotFoundError else
     for_each (seq 0 (Z.to_nat MAX_FD)) (destroy_check path);;
     let* r := sys (sys_unlink path) in
     if bool_decide (r = -1) then throw UnixError else ret tt).
Proof. reflexivity. Qed.

Lemma recorded_in_range path dm :
  dm_inv dm ->
  Exists (fun i => fd2path_ dm !! Z.of_nat i = Some path) (seq 0 (Z.to_nat MAX_FD))
  <-> exists fd0, fd2path_ dm !! fd0 = Some path.
Proof.
  intros Hinv. rewrite Exists_exists. split.
  - intros (i & _ & Hi). by eexists.
  - intros (fd0 & Hfd). destruct (Hinv fd0) as [_ Hp].
    destruct (Hp path Hfd) as (Hrange & _).
    exists (Z.to_nat fd0). split.
    + apply elem_of_seq. lia.
    + by rewrite Z2Nat.id by lia.
Qed.

Lemma is_file_Some path dm c :
  files (kernel dm) !! path = Some c -> is_file path dm = true.
Proof.
  intros Hp. unfold is_file, sys_stat. rewrite Hp. apply bool_decide_eq_true_2. by eexists.
Qed.

Lemma is_file_None path dm :
  files (kernel dm) !! path = None -> is_file path dm = false.
Proof.
  intros Hp. unfold is_file, sys_stat. rewrite Hp. apply bool_decide_eq_false_2.
  by intros [? ?].
Qed.

Lemma destroy_file_missing path dm :
  files (kernel dm) !! path = None ->
  destroy_file path dm = (Throw FileNotFoundError, dm).
Proof.
  intros Hp. rewrite destroy_file_unfold.
  unfold bind at 1. unfold get at 1. cbv beta iota.
  by rewrite (is_file_None _ _ Hp).
Qed.

Lemma destroy_file_open path dm c fd0 :
  dm_inv dm ->
  files (kernel dm) !! path = Some c ->
  fd2path_ dm !! fd0 = Some path ->
  destroy_file path dm = (Throw InternalError, dm).
Proof.
  intros Hinv Hp Hfd. rewrite destroy_file_unfold.
  unfold bind at 1. unfold get at 1. cbv beta iota.
  rewrite (is_file_Some _ _ _ Hp).
  change (negb true) with false. cbv beta iota. unfold bind at 1.
  rewrite (destroy_loop_eq _ _ _ Hinv).
  rewrite bool_decide_eq_true_2; [reflexivity|].
  apply (recorded_in_range path dm Hinv). by eexists.
Qed.

Lemma destroy_file_run path dm c :
  dm_inv dm ->
  files (kernel dm) !! path = Some c ->
  (forall fd0, fd2path_ dm !! fd0 <> Some path) ->
  destroy_file path dm
  = (Ret tt,
     mkDiskManager
       (mkKernel (delete path (files (kernel dm))) (fdtab (kernel dm)) (trace (kernel dm)))
       (fd2pageno_ dm) (fd_occupied_ dm) (fd2path_ dm) (path2fd_ dm)).
Proof.
  intros Hinv Hp Hno. rewrite destroy_file_unfold.
  unfold bind at 1. unfold get at 1. cbv beta iota.
  rewrite (is_file_Some _ _ _ Hp).
  change (negb true) with false. cbv beta iota. unfold bind at 1.
  rewrite (destroy_loop_eq _ _ _ Hinv).
  rewrite bool_decide_eq_false_2.
  - unfold bind, sys, zoom, sys_unlink. rewrite Hp. simpl. reflexivity.
  - intros (fd0 & Hfd)%(recorded_in_range path dm Hinv). by apply (Hno fd0).
Qed.

Lemma destroy_file_dm_inv path : preserves dm_inv (destroy_file path).
Proof.
  intros dm Hinv.
  destruct (files (kernel dm) !! path) as [c|] eqn:Hp.
  - destruct (decide (Exists (fun i => fd2path_ dm !! Z.of_nat i = Some path)
                        (seq 0 (Z.to_nat MAX_FD)))) as [Hex|Hno].
    + apply (recorded_in_range path dm Hinv) in Hex as [fd0 Hfd].
      by rewrite (destroy_file_open path dm c fd0).
    + rewrite (destroy_file_run path dm c); [|done..|].
      * simpl. apply dm_inv_kernel; [exact Hinv|]. simpl. intros fd0 p o Ho _ _. by eexists.
      * intros fd0 Hfd. apply Hno, (recorded_in_range path dm Hinv). by eexists.
  - by rewrite destroy_file_missing.
Qed.

Lemma get_file_fd_dm_inv path : preserves dm_inv (get_file_fd path).
Proof.
  intros dm Hinv. unfold get_file_fd, bind, get. cbv beta iota.
  destruct (path2fd_ dm !! path); [exact Hinv|].
  by apply open_file_dm_inv.
Qed.

Lemma get_file_name_dm_inv fd0 : preserves dm_inv (get_file_name fd0).
Proof.
  intros dm Hinv. rewrite get_file_name_eq. by destruct (fd2path_ dm !! fd0).
Qed.

Section DiskInvariantTheorem.
Context {cfg : Config} {dirs : Directories}.

(** The open-file tables of a disk manager stay consistent with each other
    and with the kernel: they are so in a new disk manager, and every member
    function keeps them so, whether it returns or throws. *)
Theorem disk_manager_tables_consistent :
  (forall k, dm_inv (DiskManager_new k)) /\
  (forall path, preserves dm_inv (open_file path)) /\
  (forall fd0, preserves dm_inv (close_file fd0)) /\
  (forall path, preserves dm_inv (create_file path)) /\
  (forall path, preserves dm_inv (destroy_file path)) /\
  (forall path, preserves dm_inv (get_file_fd path)) /\
  (forall fd0, preserves dm_inv (get_file_name fd0)) /\
  (forall fd0, preserves dm_inv (allocate_page fd0)) /\
  (forall fd0 page_no0 data n, preserves dm_inv (write_page fd0 page_no0 data n)) /\
  (forall fd0 page_no0 buf n, preserves dm_inv (read_page fd0 page_no0 buf n)).
Proof.
  split; [exact dm_inv_new|].
  split; [exact open_file_dm_inv|].
  split; [exact close_file_dm_inv|].
  split; [exact create_file_dm_inv|].
  split; [exact destroy_file_dm_inv|].
  split; [exact get_file_fd_dm_inv|].
  split; [exact get_file_name_dm_inv|].
  split; [exact allocate_page_dm_inv|].
  split; [exact write_page_dm_inv | exact read_page_dm_inv].
Qed.

End DiskInvariantTheorem.


(** A file that is open through the disk manager cannot be destroyed:
    destroy_file throws InternalError and changes nothing.  Once the file is
    closed (and no other descriptor of the disk manager is open on it),
    destroy_file removes it, and open_file no longer finds it. *)
Theorem destroy_file_needs_closed_file path dm fd0 dm1 :
  dm_inv dm ->
  (forall fd1, fd2path_ dm !! fd1 <> Some path) ->
  open_file path dm = (Ret fd0, dm1) ->
  destroy_file path dm1 = (Throw InternalError, dm1) /\
  exists dm2 dm3,
    close_file fd0 dm1 = (Ret tt, dm2) /\
    destroy_file path dm2 = (Ret tt, dm3) /\
    is_file path dm3 = false /\
    open_file path dm3 = (Throw FileNotFoundError, dm3).
Proof.
  intros Hinv Hno Hopen.
  pose proof (open_file_dm_inv path dm Hinv) as Hinv1. rewrite Hopen in Hinv1.
  simpl in Hinv1.
  pose proof (open_file_close_file_run _ _ _ _ Hinv Hopen) as Hclose.
  destruct (open_file_Ret _ _ _ _ Hopen) as ([c Hc] & _ & _ & _ & Hdm1).
  split.
  - apply (destroy_file_open path dm1 c fd0); [exact Hinv1 | |].
    + by rewrite Hdm1.
    + rewrite Hdm1. simpl. apply lookup_insert_eq.
  - eexists _, _. split; [exact Hclose|].
    assert (Hinv2 : dm_inv (close_file fd0 dm1).2) by (by apply close_file_dm_inv).
    rewrite Hclose in Hinv2. simpl in Hinv2.
    split; [by apply (destroy_file_run _ _ c)|].
    split.
    + apply is_file_None. simpl. apply lookup_delete_eq.
    + apply open_file_missing. simpl. apply lookup_delete_eq.
Qed.

(** ** Pages of a file *)

Lemma splice_lookup content off bs (j : nat) :
  splice content off bs !! j
  = if decide (j < off)%nat then
      (if decide (j < length content)%nat then content !! j else Some 0)
    else if decide (j < off + length bs)%nat then bs !! (j - off)%nat
    else content !! j.
Proof.
  unfold splice.
  assert (Hlen : (off <= length (content ++ replicate (off - length content) 0%Z))%nat).
  { rewrite length_app, length_replicate. lia. }
  destruct (decide (j < off)%nat) as [Hj|Hj].
  - rewrite lookup_app_l by (rewrite length_take; lia).
    rewrite lookup_take_lt by done.
    destruct (decide (j < length content)%nat) as [Hc|Hc].
    + by rewrite lookup_app_l.
    + rewrite lookup_app_r by lia. apply lookup_replicate_2. lia.
  - rewrite lookup_app_r by (rewrite length_take; lia).
    rewrite length_take, Nat.min_l by done.
    destruct (decide (j < off + length bs)%nat) as [Hb|Hb].
    + by rewrite lookup_app_l by lia.
    + rewrite lookup_app_r by lia. rewrite lookup_drop. f_equal. lia.
Qed.

Lemma splice_length_eq content off bs :
  length (splice content off bs) = (Nat.max (length content) (off + length bs))%nat.
Proof.
  unfold splice. rewrite !length_app, length_take, length_drop, length_app, length_replicate.
  lia.
Qed.

Section PagesOfAFile.
Context {cfg : Config}.

Lemma read_page_inv dm fd0 q buf m r dmr path o content :
  fdtab (kernel dm) !! fd0 = Some (path, o) ->
  files (kernel dm) !! path = Some content ->
  read_page fd0 q buf m dm = (Ret r, dmr) ->
  (Z.of_nat (length content) <= q * PAGE_SIZE /\ mem_zero buf 0 m = Some r) \/
  (0 <= q * PAGE_SIZE < Z.of_nat (length content) /\ 0 <= m /\
   q * PAGE_SIZE + m <= Z.of_nat (length content) /\
   mem_write buf 0 (take (Z.to_nat m) (drop (Z.to_nat (q * PAGE_SIZE)) content)) = Some r).
Proof.
  intros Hfd Hp Hr. rewrite read_page_eq in Hr.
  apply bind_Ret in Hr as (dm0 & dm0' & Hget & Hr).
  unfold get in Hget. injection Hget as <- <-.
  unfold sys_fstat, sys_stat in Hr. rewrite Hfd, Hp in Hr. simpl in Hr.
  case_bool_decide as Hbeyond.
  { left. apply defined_Ret in Hr as [Hr _]. split; [lia | done]. }
  apply bind_Ret in Hr as (s & dm1 & Hseek & Hr).
  apply zoom_inv in Hseek as (k1 & Hseek & ->).
  apply sys_lseek_inv in Hseek as [[-> ->] | (-> & Hoff & p' & o' & Hfd' & ->)].
  { rewrite bool_decide_eq_true_2 in Hr by done. discriminate. }
  case_bool_decide as Hneg; [discriminate|].
  apply bind_Ret in Hr as (got & dm2 & Hread & Hr).
  apply zoom_inv in Hread as (k2 & Hread & ->).
  unfold sys_read in Hread. simpl in Hread. rewrite lookup_insert_eq in Hread.
  assert (p' = path) as -> by congruence.
  rewrite Hp in Hread. injection Hread as <- <-.
  apply bind_Ret in Hr as (d & dm3 & Hd & Hr).
  apply defined_Ret in Hd as [Hd _].
  case_bool_decide as Hshort; [discriminate|].
  injection Hr as <- _.
  right.
  rewrite length_take, length_drop in Hshort.
  split; [lia|]. split; [lia|]. split; [lia | done].
Qed.

Lemma read_page_data dm fd0 q buf m r path o content :
  fdtab (kernel dm) !! fd0 = Some (path, o) ->
  files (kernel dm) !! path = Some content ->
  0 <= q * PAGE_SIZE < Z.of_nat (length content) ->
  0 <= m ->
  q * PAGE_SIZE + m <= Z.of_nat (length content) ->
  mem_write buf 0 (take (Z.to_nat m) (drop (Z.to_nat (q * PAGE_SIZE)) content)) = Some r ->
  exists dm', read_page fd0 q buf m dm = (Ret r, dm').
Proof.
  intros Hfd Hp Hq Hm Hend Hres.
  rewrite read_page_eq.
  unfold bind, get, sys_fstat, sys_stat. rewrite Hfd, Hp. simpl.
  rewrite bool_decide_eq_false_2 by lia.
  unfold sys, zoom, sys_lseek. rewrite Hfd.
  rewrite bool_decide_eq_true_2 by lia. simpl.
  rewrite bool_decide_eq_false_2 by lia.
  unfold sys_read. simpl. rewrite lookup_insert_eq, Hp. simpl.
  rewrite Hres. simpl.
  rewrite bool_decide_eq_false_2.
  - unfold ret. eauto.
  - rewrite length_take, length_drop. lia.
Qed.

Lemma read_page_zero dm fd0 q buf m r path o content :
  fdtab (kernel dm) !! fd0 = Some (path, o) ->
  files (kernel dm) !! path = Some content ->
  Z.of_nat (length content) <= q * PAGE_SIZE ->
  mem_zero buf 0 m = Some r ->
  read_page fd0 q buf m dm = (Ret r, dm).
Proof.
  intros Hfd Hp Hq Hres.
  rewrite read_page_eq.
  unfold bind, get, sys_fstat, sys_stat. rewrite Hfd, Hp. simpl.
  rewrite bool_decide_eq_true_2 by lia. by rewrite Hres.
Qed.

(** Writing a page leaves the other pages of the file as they were: what
    read_page returned for another page before the write, it returns after
    it. *)
Theorem write_page_keeps_other_pages dm fd0 p q data n buf m r dmr dm1 :
  p <> q ->
  n <= PAGE_SIZE ->
  m <= PAGE_SIZE ->
  read_page fd0 q buf m dm = (Ret r, dmr) ->
  write_page fd0 p data n dm = (Ret tt, dm1) ->
  exists dm2, read_page fd0 q buf m dm1 = (Ret r, dm2).
Proof.
  intros Hpq Hn Hm Hread Hwrite.
  apply write_page_inv in Hwrite as (Hoff & Hn0 & path & o & content & Hfd & Hp & ->).
  set (bs := take (Z.to_nat n) data) in *.
  assert (Hbslen : length bs = Z.to_nat n).
  { subst bs. rewrite length_take. lia. }
  set (content' := if bool_decide (bs = []) then content
                   else splice content (Z.to_nat (p * PAGE_SIZE)) bs).
  set (dm1 := mkDiskManager _ _ _ _ _).
  assert (Hfd1 : fdtab (kernel dm1) !! fd0 = Some (path, p * PAGE_SIZE + n)).
  { subst dm1. simpl. by rewrite lookup_insert_eq. }
  assert (Hp1 : files (kernel dm1) !! path = Some content').
  { subst dm1. simpl. by rewrite lookup_insert_eq. }
  clearbody dm1.
  destruct (decide (bs = [])) as [Hnil|Hne].
  { (* nothing was written *)
    assert (content' = content) as Hsame.
    { subst content'. by rewrite bool_decide_eq_true_2. }
    rewrite Hsame in Hp1.
    destruct (read_page_inv _ _ _ _ _ _ _ _ _ _ Hfd Hp Hread)
      as [[Hbeyond Hz] | (Hq & Hm0 & Hend & Hres)].
    - eexists. eapply read_page_zero; [exact Hfd1 | exact Hp1 | lia | done].
    - eapply read_page_data; [exact Hfd1 | exact Hp1 | lia | lia | lia | done]. }
  assert (Hn1 : 0 < n).
  { destruct bs; [done|]. simpl in Hbslen. lia. }
  assert (Hc' : content' = splice content (Z.to_nat (p * PAGE_SIZE)) bs).
  { subst content'. by rewrite bool_decide_eq_false_2. }
  assert (Hlen' : length content'
                  = Nat.max (length content) (Z.to_nat (p * PAGE_SIZE) + length bs)).
  { rewrite Hc'. apply splice_length_eq. }
  assert (Hps : 0 < PAGE_SIZE) by lia.
  assert (Hp0 : 0 <= p) by nia.
  destruct (read_page_inv _ _ _ _ _ _ _ _ _ _ Hfd Hp Hread)
    as [[Hbeyond Hz] | (Hq & Hm0 & Hend & Hres)].
  - (* the page was past the end of the file *)
    assert (Hq0 : 0 <= q * PAGE_SIZE) by lia.
    destruct (decide (Z.of_nat (length content') <= q * PAGE_SIZE)) as [Hstill|Hnow].
    { eexists. eapply read_page_zero; [exact Hfd1 | exact Hp1 | lia | done]. }
    assert (Hlt : q < p) by nia.
    assert (Hgap : q * PAGE_SIZE + PAGE_SIZE <= p * PAGE_SIZE) by nia.
    unfold mem_zero in Hz. case_bool_decide as Hm0; [|discriminate].
    eapply read_page_data; [exact Hfd1 | exact Hp1 | lia | lia | lia |].
    replace (take (Z.to_nat m) (drop (Z.to_nat (q * PAGE_SIZE)) content')) with (zeros m);
      [done|].
    unfold zeros. apply list_eq. intros i.
    rewrite lookup_take, lookup_drop, Hc', splice_lookup.
    destruct (decide (i < Z.to_nat m)%nat) as [Hi|Hi].
    + rewrite lookup_replicate_2 by done.
      rewrite decide_True by lia. rewrite decide_False by lia. reflexivity.
    + apply lookup_replicate_None. lia.
  - (* the page was inside the file *)
    eapply read_page_data; [exact Hfd1 | exact Hp1 | lia | lia | lia |].
    replace (take (Z.to_nat m) (drop (Z.to_nat (q * PAGE_SIZE)) content'))
      with (take (Z.to_nat m) (drop (Z.to_nat (q * PAGE_SIZE)) content)); [done|].
    apply list_eq. intros i. rewrite !lookup_take, !lookup_drop, Hc', splice_lookup.
    destruct (decide (i < Z.to_nat m)%nat) as [Hi|Hi]; [|reflexivity].
    destruct (decide (q < p)) as [Hlt|Hge].
    + assert (q * PAGE_SIZE + PAGE_SIZE <= p * PAGE_SIZE) by nia.
      rewrite decide_True by lia. rewrite decide_True by lia. reflexivity.
    + assert (p * PAGE_SIZE + PAGE_SIZE <= q * PAGE_SIZE) by nia.
      rewrite decide_False by lia. rewrite decide_False by lia. reflexivity.
Qed.

End PagesOfAFile.

(** ** The frames of the pool *)

Section Frames.
Context {cfg : Config}.

Lemma frames_inv_same b b' :
  frames_inv b ->
  pool_size_ b' = pool_size_ b ->
  length (pages_ b') = length (pages_ b) ->
  (forall f, f ∈ free_list_ b' -> f ∈ free_list_ b) ->
  (forall f, f ∈ LRUlist_ (replacer_ b') -> f ∈ LRUlist_ (replacer_ b)) ->
  frames_inv b'.
Proof.
  intros (Hlen & Hfree & Hdis) Hsize Hlen' Hf Hl.
  split; [congruence|]. split.
  - intros f Hin. rewrite Hlen'. by apply Hfree, Hf.
  - intros f Hin Hin'. apply (Hdis f); auto.
Qed.

Lemma frames_inv_new pool_size dm : frames_inv (BufferPoolManager_new pool_size dm).
Proof.
  split; [simpl; by rewrite length_replicate|]. split; simpl.
  - intros f Hf. rewrite length_replicate. apply elem_of_seq in Hf. lia.
  - intros f Hf. by apply elem_of_nil in Hf.
Qed.

Lemma find_victim_page_frames_inv b :
  lru_inv (replacer_ b) -> frames_inv b -> frames_inv (find_victim_page b).2.
Proof.
  intros Hr Hinv. rewrite find_victim_page_eq.
  destruct (free_list_ b) as [|f0 rest] eqn:Hfree.
  - destruct (last (LRUlist_ (replacer_ b))) as [f|]; [|done].
    apply victim_state_inv in Hr as [_ Hsub].
    assert (Hb1 : frames_inv (with_replacer (victim (replacer_ b)).2 b)).
    { apply (frames_inv_same b); auto. }
    simpl. destruct (pages_ b !! f) as [pg|] eqn:Hpg; [|done].
    destruct (is_dirty_ pg).
    + destruct (write_page _ _ _ _ (disk_manager_ b)) as [[[]|e] dm]; simpl.
      * apply (frames_inv_same b); simpl; auto. by rewrite length_insert.
      * apply (frames_inv_same b); auto.
    + simpl. apply (frames_inv_same b); simpl; auto.
  - simpl. apply (frames_inv_same b); simpl; auto.
    intros f Hf. rewrite Hfree. by apply elem_of_cons; right.
Qed.

Lemma fetch_page_frames_inv pid b :
  pool_inv b -> frames_inv b -> frames_inv (fetch_page pid b).2.
Proof.
  intros Hpool Hinv. rewrite fetch_page_eq.
  destruct (page_table_ b !! pid) as [f|] eqn:Htab.
  - destruct (pages_ b !! f) as [pg|] eqn:Hpg; [|done].
    case_bool_decide as Hov; [|done]. simpl.
    destruct Hpool as (Hr & _).
    apply (pin_state_inv f) in Hr as [_ Hmem].
    apply (frames_inv_same b); simpl; auto.
    + by rewrite length_insert.
    + intros x Hx. by apply Hmem in Hx as [? _].
  - pose proof (find_victim_page_frames_inv b (proj1 Hpool) Hinv) as Hinv1.
    pose proof (find_victim_page_pool_inv b Hpool) as Hpool1.
    destruct (find_victim_page b) as [[[f|]|e] b1]; [|done..]. simpl in Hinv1, Hpool1.
    destruct (pages_ b1 !! f) as [pg|] eqn:Hpg; [|done].
    destruct Hpool1 as (Hr & _).
    apply (pin_state_inv f) in Hr as [_ Hmem].
    destruct (read_page _ _ _ _ (disk_manager_ b1)) as [[bytes|e] dm]; simpl.
    + apply (frames_inv_same b1); simpl; auto.
      * by rewrite length_insert.
      * intros x Hx. by apply Hmem in Hx as [? _].
    + apply (frames_inv_same b1); simpl; auto. by rewrite length_insert.
Qed.

Lemma new_page_frames_inv pid b :
  pool_inv b -> frames_inv b -> frames_inv (new_page pid b).2.
Proof.
  intros Hpool Hinv. rewrite new_page_eq.
  pose proof (find_victim_page_frames_inv b (proj1 Hpool) Hinv) as Hinv1.
  pose proof (find_victim_page_pool_inv b Hpool) as Hpool1.
  destruct (find_victim_page b) as [[[f|]|e] b1]; [|done..]. simpl in Hinv1, Hpool1.
  assert (Hdisk : forall dm, frames_inv (with_disk_manager dm b1)).
  { intros dm. apply (frames_inv_same b1); auto. }
  destruct (allocate_page _ (disk_manager_ b1)) as [[n|e] dm]; [|apply Hdisk].
  destruct (pages_ b1 !! f) as [pg|] eqn:Hpg; [|apply Hdisk]. simpl.
  destruct Hpool1 as (Hr & _).
  apply (pin_state_inv f) in Hr as [_ Hmem].
  apply (frames_inv_same b1); simpl; auto.
  - by rewrite length_insert.
  - intros x Hx. by apply Hmem in Hx as [? _].
Qed.

Lemma unpin_page_frames_inv pid is_dirty b :
  pool_inv b -> table_inv b -> frames_inv b -> frames_inv (unpin_page pid is_dirty b).2.
Proof.
  intros Hpool Htab Hinv. rewrite unpin_page_eq.
  destruct (page_table_ b !! pid) as [f|] eqn:Hf; [|done].
  destruct (pages_ b !! f) as [pg|] eqn:Hpg; [|done].
  case_bool_decide as Hpos; [done|].
  case_bool_decide as Hov; [|done]. simpl.
  destruct Hinv as (Hlen & Hfree & Hdis).
  split; [simpl; by rewrite length_insert|]. split; simpl.
  - intros x Hx. rewrite length_insert. by apply Hfree.
  - intros x. case_bool_decide; [|apply Hdis].
    destruct Hpool as (Hr & _).
    intros Hx. apply (unpin_state_inv f _ Hr) in Hx as [->|Hx]; [|by apply Hdis].
    destruct Htab as (_ & Hnf & _). by apply (Hnf pid).
Qed.

Lemma delete_page_frames_inv pid b :
  pool_inv b -> frames_inv b -> frames_inv (delete_page pid b).2.
Proof.
  intros Hpool Hinv. rewrite delete_page_eq.
  destruct (page_table_ b !! pid) as [f|] eqn:Hf; [|done].
  destruct (pages_ b !! f) as [pg|] eqn:Hpg; [|done].
  case_bool_decide as Hpos; [done|]. simpl.
  destruct Hinv as (Hlen & Hfree & Hdis).
  destruct Hpool as (Hr & _).
  apply (pin_state_inv f) in Hr as [_ Hmem].
  split; [simpl; by rewrite length_insert|]. split; simpl.
  - intros x Hx. rewrite length_insert. apply elem_of_app in Hx as [Hx|Hx]; [by apply Hfree|].
    apply list_elem_of_singleton in Hx as ->. by apply lookup_lt_Some in Hpg.
  - intros x Hx. apply Hmem in Hx as [Hx Hne].
    rewrite elem_of_app, list_elem_of_singleton. intros [?|?]; [by apply (Hdis x)|done].
Qed.

Lemma frames_inv_clean b f pg dm :
  frames_inv b ->
  frames_inv (with_pages (<[f := clean pg]> (pages_ b)) (with_disk_manager dm b)).
Proof.
  intros Hinv. apply (frames_inv_same b); simpl; auto. by rewrite length_insert.
Qed.

Lemma frames_inv_with_disk_manager dm b :
  frames_inv b -> frames_inv (with_disk_manager dm b).
Proof. intros Hinv. apply (frames_inv_same b); auto. Qed.

Lemma flush_page_frames_inv pid b :
  frames_inv b -> frames_inv (flush_page pid b).2.
Proof.
  intros Hinv. rewrite flush_page_eq.
  destruct (page_table_ b !! pid) as [f|] eqn:Htab; [|done].
  destruct (pages_ b !! f) as [pg|] eqn:Hpg; [|done].
  destruct (write_page _ _ _ _ (disk_manager_ b)) as [[[]|e] dm]; simpl.
  - by apply frames_inv_clean.
  - by apply frames_inv_with_disk_manager.
Qed.

Lemma flush_all_pages_frames_inv fd0 b :
  frames_inv b -> frames_inv (flush_all_pages fd0 b).2.
Proof.
  intros Hinv. unfold flush_all_pages. unfold bind at 1, get at 1.
  apply for_each_keeps; [|done]. clear b Hinv. intros i b Hinv.
  unfold bind at 1. rewrite frame_eq.
  destruct (pages_ b !! i) as [pg|] eqn:Hpg; [|done].
  case_bool_decide; [|done].
  unfold bind, on_disk, zoom, set_frame, modify.
  destruct (write_page _ _ _ _ (disk_manager_ b)) as [[[]|e] dm]; simpl.
  - apply (frames_inv_clean (with_disk_manager dm b) i pg dm).
    by apply frames_inv_with_disk_manager.
  - by apply frames_inv_with_disk_manager.
Qed.

Lemma store_frames_inv page0 off bs b :
  frames_inv b -> frames_inv (store page0 off bs b).2.
Proof.
  intros Hinv. unfold store. unfold bind at 1. rewrite frame_eq.
  destruct (pages_ b !! page0) as [pg|] eqn:Hpg; [|done].
  unfold bind, defined. destruct (mem_write _ _ _) as [d|]; [|done]. simpl.
  apply (frames_inv_same b); simpl; auto. by rewrite length_insert.
Qed.

Lemma reachable_frames_inv b : reachable b -> frames_inv b.
Proof.
  induction 1 as [ | b pid Hb IH | b pid Hb IH | b pid d Hb IH | b pid Hb IH
                   | b pid Hb IH | b fd0 Hb IH | b f off bs Hb IH | b dm Hb IH ].
  - apply frames_inv_new.
  - apply fetch_page_frames_inv; [by apply reachable_pool_inv | done].
  - apply new_page_frames_inv; [by apply reachable_pool_inv | done].
  - apply unpin_page_frames_inv;
      [by apply reachable_pool_inv | by apply reachable_table_inv | done].
  - apply delete_page_frames_inv; [by apply reachable_pool_inv | done].
  - by apply flush_page_frames_inv.
  - by apply flush_all_pages_frames_inv.
  - by apply store_frames_inv.
  - by apply frames_inv_with_disk_manager.
Qed.

Lemma NoDup_below_length (l : list nat) n :
  NoDup l -> (forall x, x ∈ l -> (x < n)%nat) -> (length l <= n)%nat.
Proof.
  intros Hnd Hlt.
  assert (Hsub : l ⊆+ seq 0 n).
  { apply NoDup_submseteq; [done|]. intros x Hx. apply elem_of_seq. specialize (Hlt x Hx). lia. }
  apply submseteq_length in Hsub. by rewrite length_seq in Hsub.
Qed.

(** In every state the pool can reach: [pages_] has [pool_size_] frames; no
    frame holds two cached pages, and the frame of a cached page is a frame
    of the pool, holds the id of that page and is not on the free list; an
    evictable frame has pin count 0 and is not on the free list; and the
    evictable and the free frames together are at most [pool_size_]. *)
Theorem frames_are_accounted_for b :
  reachable b ->
  length (pages_ b) = pool_size_ b /\
  (forall p q f, page_table_ b !! p = Some f -> page_table_ b !! q = Some f -> p = q) /\
  (forall p f, page_table_ b !! p = Some f ->
     (f ∉ free_list_ b) /\ exists pg, pages_ b !! f = Some pg /\ id_ pg = p) /\
  (forall f, f ∈ LRUlist_ (replacer_ b) ->
     (f ∉ free_list_ b) /\ exists pg, pages_ b !! f = Some pg /\ pin_count_ pg = 0) /\
  (Size (replacer_ b) + length (free_list_ b) <= pool_size_ b)%nat.
Proof.
  intros Hreach.
  pose proof (reachable_pool_inv b Hreach) as ((Hnd & Hhash) & Hrange & Hpins & Hev).
  pose proof (reachable_table_inv b Hreach) as (Hndf & Hnf & Hid).
  pose proof (reachable_frames_inv b Hreach) as (Hlen & Hfree & Hdis).
  assert (Hframe : forall p f, page_table_ b !! p = Some f ->
                     exists pg, pages_ b !! f = Some pg /\ id_ pg = p).
  { intros p f Hp. specialize (Hid p f Hp). rewrite list_lookup_fmap in Hid.
    apply fmap_Some in Hid as (pg & Hpg & ->). by exists pg. }
  assert (Hzero : forall f, f ∈ LRUlist_ (replacer_ b) ->
                    exists pg, pages_ b !! f = Some pg /\ pin_count_ pg = 0).
  { intros f Hf. specialize (Hev f Hf). rewrite pins_lookup in Hev.
    apply fmap_Some in Hev as (pg & Hpg & Hz). by exists pg. }
  split; [exact Hlen|]. split.
  { intros p q f Hp Hq.
    destruct (Hframe p f Hp) as (pg & Hpg & <-).
    destruct (Hframe q f Hq) as (pg' & Hpg' & <-). congruence. }
  split; [intros p f Hp; split; [by apply (Hnf p) | by apply Hframe]|].
  split; [intros f Hf; split; [by apply Hdis | by apply Hzero]|].
  unfold Size. rewrite <- length_app, <- Hlen.
  apply NoDup_below_length.
  - apply NoDup_app. split; [done|]. split; [exact Hdis | done].
  - intros x [Hx|Hx]%elem_of_app.
    + destruct (Hzero x Hx) as (pg & Hpg & _). by apply lookup_lt_Some in Hpg.
    + by apply Hfree.
Qed.

End Frames.

Section PoolEdges.
Context {cfg : Config}.

Lemma find_victim_page_None b b' :
  find_victim_page b = (Ret None, b') <->
  free_list_ b = [] /\ LRUlist_ (replacer_ b) = [] /\ b' = b.
Proof.
  rewrite find_victim_page_eq. split.
  - destruct (free_list_ b) as [|f0 rest]; [|discriminate].
    destruct (last (LRUlist_ (replacer_ b))) as [f|] eqn:Hlast.
    + simpl. destruct (pages_ b !! f) as [pg|]; [|discriminate].
      destruct (is_dirty_ pg); [|discriminate].
      by destruct (write_page _ _ _ _ _) as [[[]|e] dm].
    + intros [= <-]. by apply last_None in Hlast.
  - intros (-> & Hl & ->). by rewrite Hl.
Qed.

Lemma fetch_page_None b pid b' :
  fetch_page pid b = (Ret None, b') <->
  page_table_ b !! pid = None /\ free_list_ b = [] /\
  LRUlist_ (replacer_ b) = [] /\ b' = b.
Proof.
  rewrite fetch_page_eq. split.
  - destruct (page_table_ b !! pid) as [f|].
    { destruct (pages_ b !! f); [|discriminate]. by case_bool_decide. }
    destruct (find_victim_page b) as [[[f|]|e] b1] eqn:Hv; [| |discriminate].
    + destruct (pages_ b1 !! f); [|discriminate].
      by destruct (read_page _ _ _ _ _) as [[bytes|e] dm].
    + intros [= <-]. by apply find_victim_page_None in Hv as (? & ? & ->).
  - intros (-> & Hfree & Hl & ->).
    by rewrite (proj2 (find_victim_page_None b b)).
Qed.

Lemma new_page_None b pid b' :
  new_page pid b = (Ret None, b') <->
  free_list_ b = [] /\ LRUlist_ (replacer_ b) = [] /\ b' = b.
Proof.
  rewrite new_page_eq. split.
  - destruct (find_victim_page b) as [[[f|]|e] b1] eqn:Hv; [| |discriminate].
    + destruct (allocate_page _ _) as [[n|e] dm]; [|discriminate].
      by destruct (pages_ b1 !! f).
    + intros [= <-]. by apply find_victim_page_None in Hv as (? & ? & ->).
  - intros (Hfree & Hl & ->).
    by rewrite (proj2 (find_victim_page_None b b)).
Qed.

(** fetch_page returns nullptr exactly for a page that is not cached when no
    frame is free and none is evictable, and new_page returns nullptr exactly
    when no frame is free and none is evictable; the pool is then left as it
    was, so a new_page call that fails takes no page number. *)
Theorem pool_exhausted b pid b' :
  (fetch_page pid b = (Ret None, b') <->
     page_table_ b !! pid = None /\ free_list_ b = [] /\
     LRUlist_ (replacer_ b) = [] /\ b' = b) /\
  (new_page pid b = (Ret None, b') <->
     free_list_ b = [] /\ LRUlist_ (replacer_ b) = [] /\ b' = b).
Proof. split; [apply fetch_page_None | apply new_page_None]. Qed.

(** delete_page in a state the pool can reach: it returns false exactly for a
    cached page that is pinned, and then changes nothing; otherwise the page
    is no longer cached, its frame is at the back of the free list and is not
    evictable, and nothing is written to disk, also when the page was
    dirty. *)
Theorem delete_page_frees_the_frame b pid :
  reachable b ->
  exists r b',
    delete_page pid b = (Ret r, b') /\
    (r = false <->
       exists f pg, page_table_ b !! pid = Some f /\ pages_ b !! f = Some pg /\
                    0 < pin_count_ pg) /\
    (r = false -> b' = b) /\
    (r = true ->
       page_table_ b' !! pid = None /\
       disk_manager_ b' = disk_manager_ b /\
       forall f, page_table_ b !! pid = Some f ->
         free_list_ b' = free_list_ b ++ [f] /\
         (f ∉ LRUlist_ (replacer_ b')) /\
         exists pg,
           pages_ b !! f = Some pg /\
           pages_ b' !! f
           = Some (mkPage (mkPageId INVALID_PAGE_ID INVALID_PAGE_ID) (data_ pg) false 0)).
Proof.
  intros Hreach.
  pose proof (reachable_pool_inv b Hreach) as (Hr & Hrange & Hpins & Hev).
  rewrite delete_page_eq.
  destruct (page_table_ b !! pid) as [f|] eqn:Htab; cycle 1.
  { exists true, b. split; [done|]. split.
    - split; [done|]. by intros (? & ? & ? & _).
    - split; [done|]. intros _. split; [done|]. split; [done|]. by intros f. }
  destruct (pages_ b !! f) as [pg|] eqn:Hpg; cycle 1.
  { apply Hrange in Htab. unfold pins in Htab. rewrite length_fmap in Htab.
    apply lookup_ge_None in Hpg. lia. }
  assert (Hpin : 0 <= pin_count_ pg).
  { apply (Hpins f). by rewrite pins_lookup, Hpg. }
  case_bool_decide as Hpos.
  - exists false, b. split; [done|]. split.
    + split; [|done]. intros _. exists f, pg. split; [done|]. split; [done|lia].
    + split; [done|]. discriminate.
  - eexists true, _. split; [reflexivity|]. split.
    + split; [discriminate|]. intros (f' & pg' & [= <-] & Hpg' & Hlt).
      assert (pg' = pg) by congruence. subst. lia.
    + split; [discriminate|]. intros _. simpl.
      split; [apply lookup_delete_eq|]. split; [done|].
      intros f' [= <-]. split; [done|]. split.
      * intros Hin. apply (pin_state_inv f _ Hr) in Hin as [_ Hne]. by apply Hne.
      * exists pg. split; [done|].
        rewrite list_lookup_insert_eq by (by apply lookup_lt_Some in Hpg).
        do 2 f_equal. lia.
Qed.

(** flush_page returns false exactly for a page that is not cached, and then
    changes nothing.  When it returns true it has written the page from its
    frame, whether dirty or not: the frame is clean, the rest of the pool is
    as before, and read_page gives the bytes of the frame. *)
Theorem flush_page_writes_the_frame b pid b' :
  (flush_page pid b = (Ret false, b') <-> page_table_ b !! pid = None /\ b' = b) /\
  (flush_page pid b = (Ret true, b') ->
   exists f pg,
     page_table_ b !! pid = Some f /\
     pages_ b !! f = Some pg /\
     pages_ b' = <[f := clean pg]> (pages_ b) /\
     page_table_ b' = page_table_ b /\
     free_list_ b' = free_list_ b /\
     replacer_ b' = replacer_ b /\
     trace (kernel (disk_manager_ b'))
     = trace (kernel (disk_manager_ b))
       ++ [EvWrite (fd pid) (page_no pid * PAGE_SIZE) (take (Z.to_nat PAGE_SIZE) (data_ pg))] /\
     forall buf, PAGE_SIZE <= Z.of_nat (length buf) ->
       exists dm'',
         read_page (fd pid) (page_no pid) buf PAGE_SIZE (disk_manager_ b')
         = (Ret (take (Z.to_nat PAGE_SIZE) (data_ pg) ++ drop (Z.to_nat PAGE_SIZE) buf),
            dm'')).
Proof.
  rewrite flush_page_eq. split.
  - split.
    + destruct (page_table_ b !! pid) as [f|]; [|by intros [= <-]].
      destruct (pages_ b !! f) as [pg|]; [|discriminate].
      by destruct (write_page _ _ _ _ _) as [[[]|e] dm].
    + by intros [-> ->].
  - destruct (page_table_ b !! pid) as [f|] eqn:Htab; [|discriminate].
    destruct (pages_ b !! f) as [pg|] eqn:Hpg; [|discriminate].
    destruct (write_page _ _ _ _ _) as [[[]|e] dm] eqn:Hw; [|discriminate].
    intros [= <-]. exists f, pg. simpl.
    do 6 (split; [done|]). split.
    + apply write_page_inv in Hw as (_ & _ & p & o & c & _ & _ & ->). reflexivity.
    + intros buf Hbuf. by apply (write_then_read_page (disk_manager_ b)).
Qed.

(** When the disk read of fetch_page throws, the frame that was taken from
    the free list is lost to the pool: afterwards it is neither free, nor
    evictable, nor the frame of a cached page. *)
Theorem fetch_page_failed_read_loses_frame b pid f rest e b' :
  reachable b ->
  page_table_ b !! pid = None ->
  free_list_ b = f :: rest ->
  fetch_page pid b = (Throw e, b') ->
  (f ∉ free_list_ b') /\
  (f ∉ LRUlist_ (replacer_ b')) /\
  (forall q, page_table_ b' !! q <> Some f) /\
  free_list_ b' = rest.
Proof.
  intros Hreach Htab Hfree Hfetch.
  pose proof (reachable_table_inv b Hreach) as (Hnd & Hnf & _).
  pose proof (reachable_frames_inv b Hreach) as (_ & Hrange & Hdis).
  rewrite fetch_page_eq, Htab, find_victim_page_eq, Hfree in Hfetch.
  rewrite Hfree in Hnd. apply NoDup_cons in Hnd as [Hf _].
  assert (Hin : f ∈ free_list_ b) by (rewrite Hfree; apply elem_of_cons; by left).
  simpl in Hfetch.
  destruct (pages_ b !! f) as [pg|] eqn:Hpg; cycle 1.
  { apply Hrange in Hin. apply lookup_ge_None in Hpg. lia. }
  destruct (read_page _ _ _ _ _) as [[bytes|e'] dm]; [discriminate|].
  injection Hfetch as <- <-. simpl.
  split; [done|]. split.
  - intros Hl. by apply (Hdis f).
  - split; [|done]. intros q Hq. by apply (Hnf q f).
Qed.

End PoolEdges.

Section FlushAll.
Context {cfg : Config}.

(** One turn of the loop of flush_all_pages. *)
Lemma flush_turn fd0 i b r b' pg :
  pages_ b !! i = Some pg ->
  (let* pg := frame i in
   if bool_decide (fd (id_ pg) = fd0) then
     on_disk (write_page fd0 (page_no (id_ pg)) (data_ pg) PAGE_SIZE);;
     set_frame i (mkPage (id_ pg) (data_ pg) false (pin_count_ pg))
   else ret tt) b = (Ret r, b') ->
  page_table_ b' = page_table_ b /\ free_list_ b' = free_list_ b /\
  replacer_ b' = replacer_ b /\
  pages_ b' = <[i := if bool_decide (fd (id_ pg) = fd0) then clean pg else pg]> (pages_ b) /\
  trace (kernel (disk_manager_ b'))
  = trace (kernel (disk_manager_ b))
    ++ (if bool_decide (fd (id_ pg) = fd0)
        then [EvWrite fd0 (page_no (id_ pg) * PAGE_SIZE)
                (take (Z.to_nat PAGE_SIZE) (data_ pg))]
        else []).
Proof.
  intros Hpg Hrun. unfold bind at 1 in Hrun. rewrite frame_eq, Hpg in Hrun.
  case_bool_decide as Hfd.
  - unfold bind, on_disk, zoom, set_frame, modify in Hrun.
    destruct (write_page _ _ _ _ (disk_manager_ b)) as [[[]|e] dm] eqn:Hw; [|discriminate].
    injection Hrun as <- <-. simpl. do 4 (split; [done|]).
    apply write_page_inv in Hw as (_ & _ & p & o & c & _ & _ & ->). reflexivity.
  - unfold ret in Hrun. injection Hrun as <- <-.
    split; [done|]. split; [done|]. split; [done|]. split.
    + by rewrite list_insert_id.
    + by rewrite app_nil_r.
Qed.

Lemma flush_loop fd0 k : forall i b b',
  (i + k)%nat = length (pages_ b) ->
  for_each (seq i k) (fun i =>
    let* pg := frame i in
    if bool_decide (fd (id_ pg) = fd0) then
      on_disk (write_page fd0 (page_no (id_ pg)) (data_ pg) PAGE_SIZE);;
      set_frame i (mkPage (id_ pg) (data_ pg) false (pin_count_ pg))
    else ret tt) b = (Ret tt, b') ->
  page_table_ b' = page_table_ b /\ free_list_ b' = free_list_ b /\
  replacer_ b' = replacer_ b /\
  pages_ b'
  = take i (pages_ b)
    ++ ((fun pg => if bool_decide (fd (id_ pg) = fd0) then clean pg else pg)
          <$> drop i (pages_ b)) /\
  trace (kernel (disk_manager_ b'))
  = trace (kernel (disk_manager_ b))
    ++ ((fun pg => EvWrite fd0 (page_no (id_ pg) * PAGE_SIZE)
                     (take (Z.to_nat PAGE_SIZE) (data_ pg)))
          <$> filter (fun pg => fd (id_ pg) = fd0) (drop i (pages_ b))).
Proof.
  induction k as [|k IH]; intros i b b' Hlen Hrun.
  - simpl in Hrun. unfold ret in Hrun. injection Hrun as <-.
    rewrite drop_ge by lia. rewrite take_ge by lia. simpl.
    by rewrite !app_nil_r.
  - simpl in Hrun. apply bind_Ret in Hrun as ([] & b1 & Hturn & Hrun).
    destruct (lookup_lt_is_Some_2 (pages_ b) i) as [pg Hpg]; [lia|].
    destruct (flush_turn _ _ _ _ _ _ Hpg Hturn) as (Ht1 & Hf1 & Hr1 & Hp1 & Htr1).
    destruct (IH (S i) b1 b') as (Ht & Hf & Hr & Hp & Htr); [|exact Hrun|].
    { rewrite Hp1, length_insert. lia. }
    split; [congruence|]. split; [congruence|]. split; [congruence|].
    rewrite (drop_S _ _ _ Hpg).
    assert (Hdrop : drop (S i) (pages_ b1) = drop (S i) (pages_ b)).
    { rewrite Hp1. apply drop_insert_lt. lia. }
    split.
    + rewrite Hp, Hdrop, Hp1. rewrite fmap_cons.
      rewrite (take_S_r _ _ (if bool_decide (fd (id_ pg) = fd0) then clean pg else pg)).
      * rewrite take_insert_ge by lia. by rewrite <- app_assoc.
      * apply list_lookup_insert_eq. by apply lookup_lt_Some in Hpg.
    + rewrite Htr, Htr1, Hdrop, <- app_assoc. f_equal.
      case_bool_decide as Hfd.
      * by rewrite filter_cons_True.
      * by rewrite filter_cons_False.
Qed.

(** When flush_all_pages returns, every frame that holds a page of the file
    has been written to disk, in the order of the frames and whether it was
    dirty or not, and is clean; the other frames, the page table, the free
    list and the replacer are as before. *)
Theorem flush_all_pages_cleans_the_file b fd0 b' :
  length (pages_ b) = pool_size_ b ->
  flush_all_pages fd0 b = (Ret tt, b') ->
  pages_ b'
  = (fun pg => if bool_decide (fd (id_ pg) = fd0) then clean pg else pg) <$> pages_ b /\
  page_table_ b' = page_table_ b /\
  free_list_ b' = free_list_ b /\
  replacer_ b' = replacer_ b /\
  trace (kernel (disk_manager_ b'))
  = trace (kernel (disk_manager_ b))
    ++ ((fun pg => EvWrite fd0 (page_no (id_ pg) * PAGE_SIZE)
                     (take (Z.to_nat PAGE_SIZE) (data_ pg)))
          <$> filter (fun pg => fd (id_ pg) = fd0) (pages_ b)).
Proof.
  intros Hlen Hrun. unfold flush_all_pages in Hrun.
  unfold bind at 1, get at 1 in Hrun.
  destruct (flush_loop fd0 (pool_size_ b) 0 b b') as (Ht & Hf & Hr & Hp & Htr);
    [simpl; lia | exact Hrun |].
  rewrite drop_0, take_0 in Hp. rewrite drop_0 in Htr. simpl in Hp.
  by repeat split.
Qed.

End FlushAll.

(** ** Pin counts page by page *)

Section PinCounts.
Context {cfg : Config}.

Lemma table_inv_frame b p f :
  table_inv b -> page_table_ b !! p = Some f ->
  exists pg, pages_ b !! f = Some pg /\ id_ pg = p.
Proof.
  intros (_ & _ & Hid) Hp. specialize (Hid p f Hp). rewrite list_lookup_fmap in Hid.
  apply fmap_Some in Hid as (pg & Hpg & ->). by exists pg.
Qed.

Lemma table_inv_inj b p q f :
  table_inv b -> page_table_ b !! p = Some f -> page_table_ b !! q = Some f -> p = q.
Proof.
  intros Hinv Hp Hq.
  destruct (table_inv_frame b p f Hinv Hp) as (pg & Hpg & <-).
  destruct (table_inv_frame b q f Hinv Hq) as (pg' & Hpg' & <-). congruence.
Qed.

Lemma pin_of_cached b p f pg :
  page_table_ b !! p = Some f -> pages_ b !! f = Some pg -> pin_of b p = pin_count_ pg.
Proof. intros Hp Hpg. unfold pin_of. by rewrite Hp, Hpg. Qed.

Lemma pin_of_uncached b p : page_table_ b !! p = None -> pin_of b p = 0.
Proof. intros Hp. unfold pin_of. by rewrite Hp. Qed.

(** Replacing the frame of page [p] changes the pin count of [p] only. *)
Lemma pin_of_insert b b' p f pg' :
  table_inv b ->
  page_table_ b !! p = Some f ->
  page_table_ b' = page_table_ b ->
  pages_ b' = <[f := pg']> (pages_ b) ->
  forall q, pin_of b' q = if decide (q = p) then pin_count_ pg' else pin_of b q.
Proof.
  intros Hinv Hp Htab Hpages q. unfold pin_of. rewrite Htab, Hpages.
  destruct (table_inv_frame b p f Hinv Hp) as (pg & Hpg & _).
  destruct (decide (q = p)) as [->|Hne].
  - rewrite Hp. rewrite list_lookup_insert_eq by (by apply lookup_lt_Some in Hpg). done.
  - destruct (page_table_ b !! q) as [g|] eqn:Hq; [|done].
    rewrite list_lookup_insert_ne; [done|].
    intros <-. apply Hne. by apply (table_inv_inj b q p f).
Qed.

Lemma find_victim_page_pin_of b f b0 :
  table_inv b -> pool_inv b -> evictable_inv b ->
  find_victim_page b = (Ret (Some f), b0) ->
  (forall q, pin_of b0 q = pin_of b q) /\
  (forall q g, page_table_ b0 !! q = Some g ->
               page_table_ b !! q = Some g /\ g <> f /\
               pin_count_ <$> pages_ b0 !! g = pin_count_ <$> pages_ b !! g).
Proof.
  intros Htab Hpool Hev Hv.
  destruct (find_victim_page_table_inv b _ _ Htab Hv) as (_ & Hfresh).
  destruct (Hfresh f eq_refl) as [Hnot _]. clear Hfresh.
  rewrite find_victim_page_eq in Hv.
  destruct (free_list_ b) as [|f0 rest] eqn:Hfree.
  - destruct (last (LRUlist_ (replacer_ b))) as [f1|] eqn:Hlast; [|discriminate].
    simpl in Hv.
    assert (Hin : f1 ∈ LRUlist_ (replacer_ b)).
    { apply last_Some in Hlast as [l' ->]. apply elem_of_app. right.
      by apply list_elem_of_singleton. }
    destruct (Hev f1 Hin) as [pid0 Hpid0].
    destruct (table_inv_frame b pid0 f1 Htab Hpid0) as (pg & Hpg & Hid).
    destruct Hpool as (_ & _ & _ & Hzero).
    specialize (Hzero f1 Hin). rewrite pins_lookup, Hpg in Hzero.
    injection Hzero as Hzero.
    rewrite Hpg in Hv.
    assert (Hshape : f = f1 /\ page_table_ b0 = delete pid0 (page_table_ b) /\
                     (pages_ b0 = pages_ b \/ pages_ b0 = <[f1 := clean pg]> (pages_ b))).
    { rewrite Hid in Hv. destruct (is_dirty_ pg).
      - destruct (write_page _ _ _ _ _) as [[[]|e] dm]; [|discriminate].
        injection Hv as <- <-. simpl. auto.
      - injection Hv as <- <-. simpl. auto. }
    destruct Hshape as (-> & Htab0 & Hpages0).
    assert (Hpins : forall g, pin_count_ <$> pages_ b0 !! g = pin_count_ <$> pages_ b !! g).
    { intros g. destruct Hpages0 as [-> | ->]; [done|].
      destruct (decide (g = f1)) as [->|Hne].
      - rewrite list_lookup_insert_eq by (by apply lookup_lt_Some in Hpg). by rewrite Hpg.
      - by rewrite list_lookup_insert_ne. }
    split.
    + intros q. unfold pin_of. rewrite Htab0.
      destruct (decide (q = pid0)) as [->|Hne].
      * rewrite lookup_delete_eq, Hpid0, Hpg. simpl. lia.
      * rewrite lookup_delete_ne by done.
        destruct (page_table_ b !! q) as [g|]; [|done]. by rewrite Hpins.
    + intros q g Hq. rewrite Htab0 in Hq. apply lookup_delete_Some in Hq as [Hne Hq].
      split; [done|]. split; [|apply Hpins].
      intros ->. apply Hne. by apply (table_inv_inj b pid0 q f1).
  - injection Hv as <- <-. split; [done|]. simpl. intros q g Hq.
    split; [done|]. split; [|done]. intros ->. by apply (Hnot q).
Qed.

Lemma fetch_page_pin_of b pid f b1 :
  table_inv b -> pool_inv b -> evictable_inv b ->
  fetch_page pid b = (Ret (Some f), b1) ->
  forall q, pin_of b1 q = if decide (q = pid) then pin_of b pid + 1 else pin_of b q.
Proof.
  intros Htab Hpool Hev Hfetch. rewrite fetch_page_eq in Hfetch.
  destruct (page_table_ b !! pid) as [f0|] eqn:Hpid.
  - destruct (pages_ b !! f0) as [pg|] eqn:Hpg; [|discriminate].
    case_bool_decide; [|discriminate]. injection Hfetch as <- <-.
    intros q.
    erewrite (pin_of_insert b); [|exact Htab | exact Hpid | reflexivity | reflexivity].
    simpl.
    by rewrite (pin_of_cached b pid f0 pg).
  - destruct (find_victim_page b) as [[[f0|]|e] b0] eqn:Hv; [|discriminate..].
    destruct (find_victim_page_pin_of b f0 b0 Htab Hpool Hev Hv) as [Hsame Hsub].
    destruct (pages_ b0 !! f0) as [pg|] eqn:Hpg; [|discriminate].
    destruct (read_page _ _ _ _ _) as [[bytes|e] dm]; [|discriminate].
    injection Hfetch as <- <-. intros q. unfold pin_of at 1. simpl.
    destruct (decide (q = pid)) as [->|Hne].
    + rewrite lookup_insert_eq.
      rewrite list_lookup_insert_eq by (by apply lookup_lt_Some in Hpg).
      simpl. by rewrite (pin_of_uncached b pid).
    + rewrite lookup_insert_ne by done. rewrite <- Hsame. unfold pin_of.
      destruct (page_table_ b0 !! q) as [g|] eqn:Hq; [|done].
      destruct (Hsub q g Hq) as (_ & Hgf & _).
      by rewrite list_lookup_insert_ne.
Qed.

Lemma unpin_page_pin_of b pid d b1 :
  table_inv b ->
  unpin_page pid d b = (Ret true, b1) ->
  forall q, pin_of b1 q = if decide (q = pid) then pin_of b pid - 1 else pin_of b q.
Proof.
  intros Htab Hunpin. rewrite unpin_page_eq in Hunpin.
  destruct (page_table_ b !! pid) as [f|] eqn:Hpid; [|discriminate].
  destruct (pages_ b !! f) as [pg|] eqn:Hpg; [|discriminate].
  case_bool_decide; [discriminate|].
  case_bool_decide; [|discriminate]. injection Hunpin as <-.
  intros q.
  erewrite (pin_of_insert b); [|exact Htab | exact Hpid | reflexivity | reflexivity].
  simpl.
  rewrite (pin_of_cached b pid f pg) by done.
  destruct (decide (q = pid)); [lia | done].
Qed.

Lemma pin_of_range b p : pool_inv b -> 0 <= pin_of b p <= INT_MAX.
Proof.
  intros (_ & _ & Hpins & _). unfold pin_of.
  destruct (page_table_ b !! p) as [f|]; [|unfold INT_MAX; lia].
  destruct (pages_ b !! f) as [pg|] eqn:Hpg; simpl; [|unfold INT_MAX; lia].
  apply (Hpins f). by rewrite pins_lookup, Hpg.
Qed.

Lemma fetch_then_unpin b pid d f b1 :
  table_inv b -> pool_inv b -> evictable_inv b ->
  fetch_page pid b = (Ret (Some f), b1) ->
  exists b2,
    unpin_page pid d b1 = (Ret true, b2) /\
    (forall q, pin_of b2 q = pin_of b q).
Proof.
  intros Htab Hpool Hev Hfetch.
  pose proof (fetch_page_pin_of b pid f b1 Htab Hpool Hev Hfetch) as Hpin1.
  destruct (fetch_page_Ret pid b f b1 Htab Hpool Hfetch)
    as (Htab1 & Hpool1 & Hpid1 & pg1 & Hpg1 & Hid1 & Hrange1).
  assert (Hp1 : pin_count_ pg1 = pin_of b pid + 1).
  { rewrite <- (pin_of_cached b1 pid f pg1) by done. rewrite Hpin1.
    by rewrite decide_True. }
  pose proof (pin_of_range b pid Hpool) as Hr.
  destruct (unpin_page pid d b1) as [r b2] eqn:Hunpin.
  pose proof Hunpin as Hunpin'. rewrite unpin_page_eq, Hpid1, Hpg1 in Hunpin'.
  rewrite bool_decide_eq_false_2 in Hunpin' by lia.
  rewrite bool_decide_eq_true_2 in Hunpin' by (unfold INT_MIN, INT_MAX in *; lia).
  assert (r = Ret true) as -> by congruence.
  exists b2. split; [done|]. intros q.
  rewrite (unpin_page_pin_of b1 pid d b2 Htab1 Hunpin q).
  destruct (decide (q = pid)) as [->|Hne].
  - rewrite Hpin1, decide_True by done. lia.
  - by rewrite Hpin1, decide_False.
Qed.

Lemma pin_absent f r : f ∉ LRUhash_ r -> pin f r = (Ret tt, r).
Proof.
  intros Hf. unfold pin, bind, get. cbv beta iota.
  by rewrite bool_decide_eq_false_2.
Qed.

Lemma fetch_unpin_pinned b pid f pg :
  pool_inv b ->
  page_table_ b !! pid = Some f ->
  pages_ b !! f = Some pg ->
  0 < pin_count_ pg < INT_MAX ->
  fetch_page pid b = (Ret (Some f), pinned f pg b) /\
  unpin_page pid false (pinned f pg b) = (Ret true, b).
Proof.
  intros (Hr & _ & _ & Hzero) Hpid Hpg Hpin.
  assert (Hnot : f ∉ LRUhash_ (replacer_ b)).
  { destruct Hr as [_ Hhash]. rewrite Hhash. intros Hin.
    specialize (Hzero f Hin). rewrite pins_lookup, Hpg in Hzero.
    injection Hzero as Hzero. lia. }
  split.
  - rewrite fetch_page_eq, Hpid, Hpg.
    rewrite bool_decide_eq_true_2 by (unfold INT_MIN, INT_MAX in *; lia). reflexivity.
  - rewrite unpin_page_eq. unfold pinned. simpl. rewrite Hpid.
    rewrite list_lookup_insert_eq by (by apply lookup_lt_Some in Hpg). simpl.
    rewrite bool_decide_eq_false_2 by lia.
    rewrite bool_decide_eq_true_2 by (unfold INT_MIN, INT_MAX in *; lia).
    rewrite bool_decide_eq_false_2 by lia.
    rewrite (pin_absent f _ Hnot). simpl.
    rewrite list_insert_insert_eq.
    replace (pin_count_ pg + 1 + -1) with (pin_count_ pg) by lia.
    destruct b as [n ps t fl dm r]. destruct pg as [i d dirty k]. simpl in *.
    unfold with_replacer, with_pages. simpl. f_equal.
    by rewrite list_insert_id.
Qed.

(** A page that was fetched can be unpinned, and the two calls together
    leave the pin count of every page as it was (0 standing for a page that
    is not cached).  For a page that was pinned already and is unpinned as
    not dirty, they leave the whole pool as it was. *)
Theorem fetch_page_then_unpin_page b pid is_dirty f b1 :
  reachable b ->
  evictable_inv b ->
  fetch_page pid b = (Ret (Some f), b1) ->
  exists b2,
    unpin_page pid is_dirty b1 = (Ret true, b2) /\
    (forall q, pin_of b2 q = pin_of b q) /\
    (0 < pin_of b pid -> is_dirty = false -> b2 = b).
Proof.
  intros Hreach Hev Hfetch.
  pose proof (reachable_table_inv b Hreach) as Htab.
  pose proof (reachable_pool_inv b Hreach) as Hpool.
  destruct (fetch_then_unpin b pid is_dirty f b1 Htab Hpool Hev Hfetch)
    as (b2 & Hunpin & Hsame).
  exists b2. split; [done|]. split; [done|].
  intros Hpos ->. unfold pin_of in Hpos.
  destruct (page_table_ b !! pid) as [f0|] eqn:Hpid; [|lia].
  destruct (pages_ b !! f0) as [pg|] eqn:Hpg; simpl in Hpos; [|lia].
  assert (Hlt : pin_count_ pg < INT_MAX).
  { rewrite fetch_page_eq, Hpid, Hpg in Hfetch.
    case_bool_decide; [lia | discriminate]. }
  destruct (fetch_unpin_pinned b pid f0 pg Hpool Hpid Hpg) as [Hf Hu]; [lia|].
  rewrite Hf in Hfetch. injection Hfetch as <- <-. congruence.
Qed.

End PinCounts.

(** ** Rules for specifications *)

Lemma triple_ret {S A} (P : S -> Prop) (a : A) (Q : A -> S -> Prop) E :
  (forall s, P s -> Q a s) -> triple P (ret a) Q E.
Proof. intros H s Hs. by apply H. Qed.

Lemma triple_throw {S A} (P : S -> Prop) e (Q : A -> S -> Prop) (E : S -> Prop) :
  (forall s, P s -> E s) -> triple P (throw e) Q E.
Proof. intros H s Hs. unfold throw. destruct e; auto. Qed.

Lemma triple_undefined {S A} (P : S -> Prop) (Q : A -> S -> Prop) (E : S -> Prop) :
  triple P (throw Undefined) Q E.
Proof. by intros s Hs. Qed.

Lemma triple_get {S} (P : S -> Prop) (Q : S -> S -> Prop) E :
  (forall s, P s -> Q s s) -> triple P get Q E.
Proof. intros H s Hs. by apply H. Qed.

Lemma triple_modify {S} (P : S -> Prop) f (Q : unit -> S -> Prop) E :
  (forall s, P s -> Q tt (f s)) -> triple P (modify f) Q E.
Proof. intros H s Hs. by apply H. Qed.

Lemma triple_defined {S A} (P : S -> Prop) (o : option A) (Q : A -> S -> Prop) E :
  (forall a s, o = Some a -> P s -> Q a s) -> triple P (defined o) Q E.
Proof. intros H s Hs. destruct o; simpl; auto. Qed.

Lemma triple_int_add {S} (P : S -> Prop) a b (Q : Z -> S -> Prop) E :
  (forall s, P s -> Q (a + b) s) -> triple P (int_add a b) Q E.
Proof. intros H s Hs. unfold int_add. case_bool_decide; simpl; auto. Qed.

Lemma triple_bind {S A B} (P : S -> Prop) (m : M S A) (k : A -> M S B) Q R E :
  triple P m Q E -> (forall a, triple (Q a) (k a) R E) -> triple P (bind m k) R E.
Proof.
  intros Hm Hk s Hs. unfold bind. specialize (Hm s Hs).
  destruct (m s) as [[a|e] s1]; [by apply Hk | done].
Qed.

Lemma triple_conseq {S A} (P P' : S -> Prop) (m : M S A) (Q Q' : A -> S -> Prop)
    (E E' : S -> Prop) :
  triple P' m Q' E' ->
  (forall s, P s -> P' s) -> (forall a s, Q' a s -> Q a s) -> (forall s, E' s -> E s) ->
  triple P m Q E.
Proof.
  intros Hm HP HQ HE s Hs. specialize (Hm s (HP s Hs)).
  destruct (m s) as [[a|e] s1]; [by apply HQ|]. destruct e; auto.
Qed.

Lemma triple_on_pool {A} (P : BufferPoolManager -> Prop) (m : M BufferPoolManager A) Q E :
  triple P m Q E ->
  triple (fun fh => P (buffer_pool_manager_ fh)) (on_pool m)
         (fun a fh => Q a (buffer_pool_manager_ fh))
         (fun fh => E (buffer_pool_manager_ fh)).
Proof.
  intros Hm fh Hfh. unfold on_pool, zoom. specialize (Hm _ Hfh).
  by destruct (m (buffer_pool_manager_ fh)) as [[a|e] b1].
Qed.

(** ** Steps that touch page memory only *)

Lemma only_data_refl b : only_data b b.
Proof. split; [by destruct b | done]. Qed.

Lemma only_data_trans b1 b2 b3 : only_data b1 b2 -> only_data b2 b3 -> only_data b1 b3.
Proof.
  intros [H1 H1'] [H2 H2']. split; [|congruence].
  rewrite H2, H1. reflexivity.
Qed.

Lemma data_step_ret {A} (a : A) : data_step (ret a).
Proof. intros b. split; [apply only_data_refl | discriminate]. Qed.

Lemma data_step_undefined {A} : data_step (throw (A := A) Undefined).
Proof. intros b. split; [apply only_data_refl|]. by intros e [= <-]. Qed.

Lemma data_step_defined {A} (o : option A) : data_step (defined o).
Proof. destruct o; [apply data_step_ret | apply data_step_undefined]. Qed.

Lemma data_step_bind {A B} (m : M BufferPoolManager A) (k : A -> M BufferPoolManager B) :
  data_step m -> (forall a, data_step (k a)) -> data_step (bind m k).
Proof.
  intros Hm Hk b. unfold bind. destruct (Hm b) as [Hd He].
  destruct (m b) as [[a|e] b1]; simpl in *.
  - destruct (Hk a b1) as [Hd' He']. split; [by apply (only_data_trans b b1) | done].
  - split; [done|]. intros e' [= <-]. by apply He.
Qed.

Lemma data_step_frame f : data_step (frame f).
Proof.
  intros b. rewrite frame_eq. destruct (pages_ b !! f); simpl.
  - split; [apply only_data_refl | discriminate].
  - split; [apply only_data_refl|]. by intros e [= <-].
Qed.

Lemma data_step_store f off bs : data_step (store f off bs).
Proof.
  intros b. destruct (store f off bs b) as [r b1] eqn:E. simpl.
  unfold store in E. unfold bind at 1 in E. rewrite frame_eq in E.
  destruct (pages_ b !! f) as [pg|] eqn:Hpg.
  - unfold bind, defined in E. destruct (mem_write _ _ _) as [d|]; simpl in E.
    + injection E as <- <-. split; [|discriminate]. split; [reflexivity|]. simpl.
      rewrite list_fmap_insert. simpl. apply list_insert_id.
      by rewrite list_lookup_fmap, Hpg.
    + injection E as <- <-. split; [apply only_data_refl|]. by intros e [= <-].
  - injection E as <- <-. split; [apply only_data_refl|]. by intros e [= <-].
Qed.

Lemma data_step_load f off len : data_step (load f off len).
Proof.
  unfold load. apply data_step_bind; [apply data_step_frame|].
  intros pg. apply data_step_defined.
Qed.

Lemma data_step_load_int f off : data_step (load_int f off).
Proof.
  unfold load_int. apply data_step_bind; [apply data_step_load|].
  intros bs. apply data_step_ret.
Qed.

Lemma data_step_store_int f off v : data_step (store_int f off v).
Proof. apply data_step_store. Qed.

Lemma data_step_is_set f bm pos : data_step (Bitmap_is_set f bm pos).
Proof.
  unfold Bitmap_is_set. case_bool_decide; [apply data_step_undefined|].
  apply data_step_bind; [apply data_step_load|]. intros bs. apply data_step_ret.
Qed.

Lemma data_step_set f bm pos : data_step (Bitmap_set f bm pos).
Proof.
  unfold Bitmap_set. case_bool_decide; [apply data_step_undefined|].
  apply data_step_bind; [apply data_step_load|]. intros bs. apply data_step_store.
Qed.

Lemma data_step_reset f bm pos : data_step (Bitmap_reset f bm pos).
Proof.
  unfold Bitmap_reset. case_bool_decide; [apply data_step_undefined|].
  apply data_step_bind; [apply data_step_load|]. intros bs. apply data_step_store.
Qed.

Lemma data_step_init f bm size : data_step (Bitmap_init f bm size).
Proof.
  unfold Bitmap_init. case_bool_decide; [apply data_step_store | apply data_step_undefined].
Qed.

Lemma data_step_scan_bits n bit f bm : forall i, data_step (scan_bits n bit f bm i).
Proof.
  induction n as [|n IH]; intros i; simpl; [apply data_step_ret|].
  apply data_step_bind; [apply data_step_is_set|]. intros b.
  case_bool_decide; [apply data_step_ret | apply IH].
Qed.

Lemma data_step_first_bit bit f bm max_n : data_step (Bitmap_first_bit bit f bm max_n).
Proof. apply data_step_scan_bits. Qed.

Lemma only_data_lookup b b' f pg :
  only_data b b' -> pages_ b !! f = Some pg ->
  exists pg', pages_ b' !! f = Some pg' /\ id_ pg' = id_ pg /\
              is_dirty_ pg' = is_dirty_ pg /\ pin_count_ pg' = pin_count_ pg.
Proof.
  intros [_ Heq] Hpg.
  assert (H : ((fun pg => (id_ pg, is_dirty_ pg, pin_count_ pg)) <$> pages_ b') !! f
              = Some (id_ pg, is_dirty_ pg, pin_count_ pg)).
  { rewrite Heq, list_lookup_fmap, Hpg. reflexivity. }
  rewrite list_lookup_fmap in H. apply fmap_Some in H as (pg' & Hpg' & [= H1 H2 H3]).
  exists pg'. auto.
Qed.

Lemma only_data_ids b b' : only_data b b' -> id_ <$> pages_ b' = id_ <$> pages_ b.
Proof.
  intros [_ Heq].
  apply (f_equal (fmap (fun t : PageId * bool * Z => t.1.1))) in Heq.
  by rewrite <- !list_fmap_compose in Heq.
Qed.

Lemma only_data_pins b b' : only_data b b' -> pins b' = pins b.
Proof.
  intros [_ Heq]. unfold pins.
  apply (f_equal (fmap (fun t : PageId * bool * Z => t.2))) in Heq.
  by rewrite <- !list_fmap_compose in Heq.
Qed.

Lemma only_data_table_inv b b' : only_data b b' -> table_inv b -> table_inv b'.
Proof.
  intros Hd Hinv. pose proof (only_data_ids b b' Hd) as Hids. destruct Hd as [Hb' _].
  apply (table_inv_same_ids b); [done | done | by rewrite Hb' | by rewrite Hb'].
Qed.

Lemma only_data_pool_inv b b' : only_data b b' -> pool_inv b -> pool_inv b'.
Proof.
  intros Hd Hinv. pose proof (only_data_pins b b' Hd) as Hpins. destruct Hd as [Hb' _].
  apply (pool_inv_same_pins b); [done | done | | |].
  - rewrite Hb'. by destruct Hinv.
  - by rewrite Hb'.
  - by rewrite Hb'.
Qed.

Lemma only_data_pin_of b b' q : only_data b b' -> pin_of b' q = pin_of b q.
Proof.
  intros Hd. pose proof (only_data_pins b b' Hd) as Hpins. destruct Hd as [Hb' _].
  unfold pin_of. rewrite Hb'. simpl.
  destruct (page_table_ b !! q) as [f|]; [|done].
  by rewrite <- !pins_lookup, <- Hpins, Hb'.
Qed.

Lemma only_data_held b0 pid f b b' : only_data b b' -> held b0 pid f b -> held b0 pid f b'.
Proof.
  intros Hd (Htab & Hpool & Hpid & Hpins).
  split; [by apply (only_data_table_inv b)|]. split; [by apply (only_data_pool_inv b)|].
  split.
  - destruct Hd as [Hb' _]. by rewrite Hb'.
  - intros q. by rewrite (only_data_pin_of b b' q Hd).
Qed.

Lemma triple_data_step {A} (J : BufferPoolManager -> Prop) (m : M BufferPoolManager A) E :
  data_step m ->
  (forall b b', only_data b b' -> J b -> J b') ->
  triple J m (fun _ => J) E.
Proof.
  intros Hm HJ b Hb. destruct (Hm b) as [Hd He].
  destruct (m b) as [[a|e] b1]; simpl in *.
  - by apply (HJ b).
  - by rewrite (He e eq_refl).
Qed.

(** ** Fetching and unpinning, as specifications *)

Section PinTriples.
Context {cfg : Config}.

Lemma find_victim_page_Throw_pin_of b e b1 :
  find_victim_page b = (Throw e, b1) -> balanced b b1.
Proof.
  rewrite find_victim_page_eq.
  destruct (free_list_ b) as [|f0 rest]; [|discriminate].
  destruct (last (LRUlist_ (replacer_ b))) as [f|]; [|discriminate]. simpl.
  destruct (pages_ b !! f) as [pg|]; [|by intros [= <- <-]].
  destruct (is_dirty_ pg); [|discriminate].
  destruct (write_page _ _ _ _ _) as [[[]|e'] dm]; [discriminate|].
  by intros [= <- <-].
Qed.

Lemma fetch_page_Throw_pin_of b pid e b1 :
  table_inv b -> pool_inv b -> evictable_inv b ->
  fetch_page pid b = (Throw e, b1) -> balanced b b1.
Proof.
  intros Htab Hpool Hev Hfetch. rewrite fetch_page_eq in Hfetch.
  destruct (page_table_ b !! pid) as [f0|] eqn:Hpid.
  { destruct (pages_ b !! f0) as [pg|]; [|by injection Hfetch as <- <-].
    case_bool_decide; [discriminate | by injection Hfetch as <- <-]. }
  destruct (find_victim_page b) as [[[f0|]|e0] b0] eqn:Hv; [|discriminate|].
  - destruct (find_victim_page_pin_of b f0 b0 Htab Hpool Hev Hv) as [Hsame Hsub].
    destruct (pages_ b0 !! f0) as [pg|] eqn:Hpg; [|by injection Hfetch as <- <-].
    destruct (read_page _ _ _ _ _) as [[bytes|e'] dm]; [discriminate|].
    injection Hfetch as <- <-. intros q. rewrite <- Hsame. unfold pin_of. simpl.
    destruct (page_table_ b0 !! q) as [g|] eqn:Hq; [|done].
    destruct (Hsub q g Hq) as (_ & Hgf & _). by rewrite list_lookup_insert_ne.
  - injection Hfetch as <- <-. by apply (find_victim_page_Throw_pin_of b e0).
Qed.

Lemma fetch_page_triple b0 pid :
  table_inv b0 -> pool_inv b0 -> evictable_inv b0 ->
  triple (eq b0) (fetch_page pid)
    (fun r b => match r with Some f => held b0 pid f b | None => balanced b0 b end)
    (balanced b0).
Proof.
  intros Htab Hpool Hev b <-.
  destruct (fetch_page pid b0) as [[[f|]|e] b1] eqn:Hfetch.
  - destruct (fetch_page_Ret pid b0 f b1 Htab Hpool Hfetch) as (Htab1 & Hpool1 & Hpid1 & _).
    split; [done|]. split; [done|]. split; [done|].
    by apply (fetch_page_pin_of b0 pid f b1).
  - apply fetch_page_None in Hfetch as (_ & _ & _ & ->). by intros q.
  - pose proof (fetch_page_Throw_pin_of b0 pid e b1 Htab Hpool Hev Hfetch).
    by destruct e.
Qed.

Lemma unpin_page_triple b0 pid f d :
  pool_inv b0 ->
  triple (held b0 pid f) (unpin_page pid d) (fun _ => balanced b0) (balanced b0).
Proof.
  intros Hpool0 b (Htab & Hpool & Hpid & Hpins).
  destruct (table_inv_frame b pid f Htab Hpid) as (pg & Hpg & Hid).
  pose proof (pin_of_range b0 pid Hpool0) as Hr0.
  pose proof (pin_of_range b pid Hpool) as Hr.
  assert (Hp : pin_count_ pg = pin_of b0 pid + 1).
  { rewrite <- (pin_of_cached b pid f pg) by done. by rewrite Hpins, decide_True. }
  rewrite (pin_of_cached b pid f pg) in Hr by done.
  destruct (unpin_page pid d b) as [r b1] eqn:Hunpin.
  pose proof Hunpin as Hunpin'. rewrite unpin_page_eq, Hpid, Hpg in Hunpin'.
  rewrite bool_decide_eq_false_2 in Hunpin' by lia.
  rewrite bool_decide_eq_true_2 in Hunpin' by (unfold INT_MIN, INT_MAX in *; lia).
  assert (r = Ret true) as -> by congruence.
  intros q. rewrite (unpin_page_pin_of b pid d b1 Htab Hunpin q).
  destruct (decide (q = pid)) as [->|Hne].
  - rewrite Hpins, decide_True by done. lia.
  - by rewrite Hpins, decide_False.
Qed.

Lemma triple_on_pool_data {A} (J : BufferPoolManager -> Prop) (m : M BufferPoolManager A)
    (E : RmFileHandle -> Prop) :
  data_step m ->
  (forall b b', only_data b b' -> J b -> J b') ->
  triple (fun fh => J (buffer_pool_manager_ fh)) (on_pool m)
         (fun _ fh => J (buffer_pool_manager_ fh)) E.
Proof.
  intros Hm HJ fh Hfh. unfold on_pool, zoom. destruct (Hm (buffer_pool_manager_ fh)) as [Hd He].
  destruct (m (buffer_pool_manager_ fh)) as [[a|e] b1]; simpl in *.
  - by apply (HJ (buffer_pool_manager_ fh)).
  - by rewrite (He e eq_refl).
Qed.

Lemma triple_held_data {A} b0 pid f (m : M BufferPoolManager A) (E : RmFileHandle -> Prop) :
  data_step m ->
  triple (fun fh => held b0 pid f (buffer_pool_manager_ fh)) (on_pool m)
         (fun _ fh => held b0 pid f (buffer_pool_manager_ fh)) E.
Proof.
  intros Hm. apply (triple_on_pool_data (held b0 pid f)); [done|].
  intros b b'. apply only_data_held.
Qed.

Lemma triple_held_get b0 pid f (E : RmFileHandle -> Prop) :
  triple (fun fh => held b0 pid f (buffer_pool_manager_ fh)) get
         (fun _ fh => held b0 pid f (buffer_pool_manager_ fh)) E.
Proof. by apply triple_get. Qed.

Lemma triple_held_int_add b0 pid f x y (E : RmFileHandle -> Prop) :
  triple (fun fh => held b0 pid f (buffer_pool_manager_ fh)) (int_add x y)
         (fun _ fh => held b0 pid f (buffer_pool_manager_ fh)) E.
Proof. by apply triple_int_add. Qed.

Lemma triple_held_defined {A} b0 pid f (o : option A) (E : RmFileHandle -> Prop) :
  triple (fun fh => held b0 pid f (buffer_pool_manager_ fh)) (defined o)
         (fun _ fh => held b0 pid f (buffer_pool_manager_ fh)) E.
Proof. by apply triple_defined. Qed.

Lemma triple_held_file_hdr b0 pid f g (E : RmFileHandle -> Prop) :
  triple (fun fh => held b0 pid f (buffer_pool_manager_ fh))
         (modify (fun fh => with_file_hdr (g fh) fh))
         (fun _ fh => held b0 pid f (buffer_pool_manager_ fh)) E.
Proof. by apply triple_modify. Qed.

Lemma triple_pure {S A} (phi : Prop) (P : S -> Prop) (m : M S A) Q E :
  (phi -> triple P m Q E) -> triple (fun s => phi /\ P s) m Q E.
Proof. intros H s [Hphi Hs]. by apply H. Qed.

Lemma get_page_id_triple b0 pid f (E : RmFileHandle -> Prop) :
  triple (fun fh => held b0 pid f (buffer_pool_manager_ fh)) (get_page_id f)
         (fun pid' fh => pid' = pid /\ held b0 pid f (buffer_pool_manager_ fh)) E.
Proof.
  intros fh Hheld. pose proof Hheld as (Htab & _ & Hpid & _).
  destruct (table_inv_frame _ pid f Htab Hpid) as (pg & Hpg & Hid).
  rewrite (get_page_id_run f fh pg Hpg). by split.
Qed.

(** [page->get_page_id()] followed by unpin_page, as the record operations
    end. *)
Lemma triple_release {A} b0 pid f d (k : M RmFileHandle A) (E : RmFileHandle -> Prop) R :
  pool_inv b0 ->
  (forall fh, balanced b0 (buffer_pool_manager_ fh) -> E fh) ->
  triple (fun fh => balanced b0 (buffer_pool_manager_ fh)) k R E ->
  triple (fun fh => held b0 pid f (buffer_pool_manager_ fh))
         (let* pid' := get_page_id f in on_pool (unpin_page pid' d);; k) R E.
Proof.
  intros Hpool0 HE Hk.
  eapply triple_bind; [apply get_page_id_triple|]. intros pid'.
  apply triple_pure. intros ->.
  eapply triple_bind; [|intros ?; exact Hk].
  eapply triple_conseq; [apply triple_on_pool, (unpin_page_triple b0 pid f d Hpool0) | | |];
    simpl; auto.
Qed.

Lemma fetch_page_handle_triple b0 fd0 p :
  table_inv b0 -> pool_inv b0 -> evictable_inv b0 ->
  triple (fun fh => buffer_pool_manager_ fh = b0 /\ fd_ fh = fd0)
         (fetch_page_handle p)
         (fun h fh => held b0 (mkPageId fd0 p) (page h) (buffer_pool_manager_ fh))
         (fun fh => balanced b0 (buffer_pool_manager_ fh)).
Proof.
  intros Htab Hpool Hev fh [Hb Hfd]. unfold fetch_page_handle, bind, get, on_pool, zoom.
  cbv beta iota. rewrite Hfd, Hb.
  pose proof (fetch_page_triple b0 (mkPageId fd0 p) Htab Hpool Hev b0 eq_refl) as Hf.
  destruct (fetch_page (mkPageId fd0 p) b0) as [[[f|]|e] b1]; simpl; done.
Qed.

End PinTriples.

(** ** The record operations release the page they fetch *)

Section RecordPins.
Context {cfg : Config}.

Local Abbreviation pool := buffer_pool_manager_.

Lemma get_record_balanced b0 fd0 rid :
  table_inv b0 -> pool_inv b0 -> evictable_inv b0 ->
  triple (fun fh => pool fh = b0 /\ fd_ fh = fd0) (get_record rid)
         (fun _ fh => balanced b0 (pool fh)) (fun fh => balanced b0 (pool fh)).
Proof.
  intros Htab Hpool Hev. unfold get_record.
  eapply triple_bind; [by apply fetch_page_handle_triple|]. intros h.
  eapply triple_bind; [apply triple_held_data, data_step_is_set|]. intros present.
  destruct present; simpl.
  - eapply triple_bind; [apply triple_held_get|]. intros fh0.
    eapply triple_bind; [apply triple_held_data, data_step_load|]. intros record.
    apply triple_release; [done | auto | by apply triple_ret].
  - apply triple_release; [done | auto | by apply triple_throw].
Qed.

Lemma update_record_balanced b0 fd0 rid buf :
  table_inv b0 -> pool_inv b0 -> evictable_inv b0 ->
  triple (fun fh => pool fh = b0 /\ fd_ fh = fd0) (update_record rid buf)
         (fun _ fh => balanced b0 (pool fh)) (fun fh => balanced b0 (pool fh)).
Proof.
  intros Htab Hpool Hev. unfold update_record.
  eapply triple_bind; [by apply fetch_page_handle_triple|]. intros h.
  eapply triple_bind; [apply triple_held_data, data_step_is_set|]. intros present.
  destruct present; simpl.
  - eapply triple_bind; [apply triple_held_get|]. intros fh0.
    eapply triple_bind; [apply triple_held_defined|]. intros bytes.
    eapply triple_bind; [apply triple_held_data, data_step_store|]. intros ?.
    apply triple_release; [done | auto | by apply triple_ret].
  - apply triple_release; [done | auto | by apply triple_throw].
Qed.

Lemma release_page_handle_balanced b0 pid h :
  pool_inv b0 ->
  triple (fun fh => held b0 pid (page h) (pool fh)) (release_page_handle h)
         (fun _ fh => balanced b0 (pool fh)) (fun fh => balanced b0 (pool fh)).
Proof.
  intros Hpool. unfold release_page_handle.
  eapply triple_bind; [apply triple_held_get|]. intros fh0.
  eapply triple_bind; [apply triple_held_data, data_step_store_int|]. intros ?.
  eapply triple_bind; [apply get_page_id_triple|]. intros pid'.
  apply triple_pure. intros ->.
  eapply triple_bind; [apply triple_held_file_hdr|]. intros ?.
  apply triple_release; [done | auto | by apply triple_ret].
Qed.

Lemma delete_record_balanced b0 fd0 rid :
  table_inv b0 -> pool_inv b0 -> evictable_inv b0 ->
  triple (fun fh => pool fh = b0 /\ fd_ fh = fd0) (delete_record rid)
         (fun _ fh => balanced b0 (pool fh)) (fun fh => balanced b0 (pool fh)).
Proof.
  intros Htab Hpool Hev. unfold delete_record.
  eapply triple_bind; [by apply fetch_page_handle_triple|]. intros h.
  eapply triple_bind; [apply triple_held_data, data_step_is_set|]. intros present.
  destruct present; simpl.
  - eapply triple_bind; [apply triple_held_data, data_step_reset|]. intros ?.
    eapply triple_bind; [apply triple_held_data, data_step_load_int|]. intros n.
    eapply triple_bind; [apply triple_held_int_add|]. intros n'.
    eapply triple_bind; [apply triple_held_data, data_step_store_int|]. intros ?.
    eapply triple_bind; [apply triple_held_data, data_step_load_int|]. intros n2.
    eapply triple_bind; [apply triple_held_int_add|]. intros n1.
    eapply triple_bind; [apply triple_held_get|]. intros fh0.
    case_bool_decide.
    + by apply release_page_handle_balanced.
    + apply triple_release; [done | auto | by apply triple_ret].
  - apply triple_release; [done | auto | by apply triple_throw].
Qed.

Lemma new_page_pin_of b pid f pid' b1 :
  table_inv b -> pool_inv b -> evictable_inv b ->
  page_table_ b !! mkPageId (fd pid) (default 0 (fd2pageno_ (disk_manager_ b) !! fd pid))
  = None ->
  new_page pid b = (Ret (Some (f, pid')), b1) ->
  held b pid' f b1.
Proof.
  intros Htab Hpool Hev Hfresh Hnew.
  destruct (new_page_Ret pid b f pid' b1 Htab Hpool Hnew)
    as (Htab1 & Hpool1 & Hpid1 & Hfd & Hno & _ & pg1 & Hpg1 & Hid1 & Hpin1).
  assert (Hpid' : page_table_ b !! pid' = None).
  { destruct pid' as [fd' no']. simpl in Hfd, Hno. by rewrite Hfd, Hno. }
  split; [done|]. split; [done|]. split; [done|].
  rewrite new_page_eq in Hnew.
  destruct (find_victim_page b) as [[[f0|]|e] b0] eqn:Hv; [|discriminate..].
  destruct (find_victim_page_pin_of b f0 b0 Htab Hpool Hev Hv) as [Hsame Hsub].
  destruct (allocate_page _ _) as [[n|e] dm]; [|discriminate].
  destruct (pages_ b0 !! f0) as [pg|] eqn:Hpg; [|discriminate].
  injection Hnew as <- <- <-. intros q. unfold pin_of at 1. simpl.
  destruct (decide (q = mkPageId (fd pid) n)) as [->|Hne].
  - rewrite lookup_insert_eq.
    rewrite list_lookup_insert_eq by (by apply lookup_lt_Some in Hpg).
    simpl. by rewrite (pin_of_uncached b _ Hpid').
  - rewrite lookup_insert_ne by done. rewrite <- Hsame. unfold pin_of.
    destruct (page_table_ b0 !! q) as [g|] eqn:Hq; [|done].
    destruct (Hsub q g Hq) as (_ & Hgf & _). by rewrite list_lookup_insert_ne.
Qed.

Lemma new_page_Throw_pin_of b pid e b1 :
  table_inv b -> pool_inv b -> evictable_inv b ->
  new_page pid b = (Throw e, b1) -> balanced b b1.
Proof.
  intros Htab Hpool Hev Hnew. rewrite new_page_eq in Hnew.
  destruct (find_victim_page b) as [[[f0|]|e0] b0] eqn:Hv; [|discriminate|].
  - destruct (find_victim_page_pin_of b f0 b0 Htab Hpool Hev Hv) as [Hsame _].
    destruct (allocate_page _ _) as [[n|e'] dm]; [|by injection Hnew as <- <-].
    destruct (pages_ b0 !! f0) as [pg|]; [discriminate | by injection Hnew as <- <-].
  - injection Hnew as <- <-. by apply (find_victim_page_Throw_pin_of b e0).
Qed.

Lemma create_new_page_handle_triple b0 fd0 :
  table_inv b0 -> pool_inv b0 -> evictable_inv b0 ->
  page_table_ b0 !! mkPageId fd0 (default 0 (fd2pageno_ (disk_manager_ b0) !! fd0)) = None ->
  triple (fun fh => pool fh = b0 /\ fd_ fh = fd0) create_new_page_handle
         (fun h fh => exists pid, held b0 pid (page h) (pool fh))
         (fun fh => balanced b0 (pool fh)).
Proof.
  intros Htab Hpool Hev Hfresh. unfold create_new_page_handle.
  eapply triple_bind; [apply (triple_get _ (fun fh0 fh => fh0 = fh /\ pool fh = b0 /\ fd_ fh = fd0));
                       auto|].
  intros fh0.
  eapply (triple_bind _ _ _
            (fun r fh => match r with
                         | Some (f, pid') => held b0 pid' f (pool fh)
                         | None => balanced b0 (pool fh)
                         end)).
  { intros fh (-> & Hb & Hfd). unfold on_pool, zoom. rewrite Hb, Hfd.
    destruct (new_page (mkPageId fd0 INVALID_PAGE_ID) b0) as [[[[f pid']|]|e] b1] eqn:Hnew;
      simpl.
    - by apply (new_page_pin_of b0 (mkPageId fd0 INVALID_PAGE_ID)).
    - apply new_page_None in Hnew as (_ & _ & ->). by intros q.
    - pose proof (new_page_Throw_pin_of _ _ _ _ Htab Hpool Hev Hnew). by destruct e. }
  intros [[f pid']|]; [|by apply triple_throw].
  eapply triple_bind; [apply triple_held_data, data_step_store_int|]. intros ?.
  eapply triple_bind; [apply triple_held_data, data_step_store_int|]. intros ?.
  eapply triple_bind; [apply triple_held_data, data_step_init|]. intros ?.
  eapply triple_bind; [apply triple_held_int_add|]. intros n.
  eapply triple_bind; [apply triple_held_file_hdr|]. intros ?.
  apply triple_ret. intros fh Hheld. by exists pid'.
Qed.

Lemma create_page_handle_triple b0 fd0 :
  table_inv b0 -> pool_inv b0 -> evictable_inv b0 ->
  page_table_ b0 !! mkPageId fd0 (default 0 (fd2pageno_ (disk_manager_ b0) !! fd0)) = None ->
  triple (fun fh => pool fh = b0 /\ fd_ fh = fd0) create_page_handle
         (fun h fh => exists pid, held b0 pid (page h) (pool fh))
         (fun fh => balanced b0 (pool fh)).
Proof.
  intros Htab Hpool Hev Hfresh. unfold create_page_handle.
  eapply triple_bind; [apply (triple_get _ (fun _ fh => pool fh = b0 /\ fd_ fh = fd0)); auto|].
  intros fh0. case_bool_decide.
  - eapply triple_conseq; [by apply (fetch_page_handle_triple b0 fd0) | | |]; simpl; eauto.
  - by apply create_new_page_handle_triple.
Qed.

Lemma triple_exists {S A T} (P : T -> S -> Prop) (m : M S A) Q E :
  (forall t, triple (P t) m Q E) -> triple (fun s => exists t, P t s) m Q E.
Proof. intros H s [t Hs]. by apply (H t). Qed.

Lemma insert_record_balanced b0 fd0 buf :
  table_inv b0 -> pool_inv b0 -> evictable_inv b0 ->
  page_table_ b0 !! mkPageId fd0 (default 0 (fd2pageno_ (disk_manager_ b0) !! fd0)) = None ->
  triple (fun fh => pool fh = b0 /\ fd_ fh = fd0) (insert_record buf)
         (fun _ fh => balanced b0 (pool fh)) (fun fh => balanced b0 (pool fh)).
Proof.
  intros Htab Hpool Hev Hfresh. unfold insert_record.
  eapply triple_bind; [by apply create_page_handle_triple|]. intros h.
  apply triple_exists. intros pid.
  eapply triple_bind; [apply triple_held_get|]. intros fh0.
  eapply triple_bind; [apply triple_held_data, data_step_first_bit|]. intros slot.
  case_bool_decide.
  { apply triple_release; [done | auto | by apply triple_throw]. }
  eapply triple_bind; [apply triple_held_data, data_step_set|]. intros ?.
  eapply triple_bind; [apply triple_held_defined|]. intros bytes.
  eapply triple_bind; [apply triple_held_data, data_step_store|]. intros ?.
  eapply triple_bind; [apply triple_held_data, data_step_load_int|]. intros n.
  eapply triple_bind; [apply triple_held_int_add|]. intros n'.
  eapply triple_bind; [apply triple_held_data, data_step_store_int|]. intros ?.
  eapply triple_bind; [apply get_page_id_triple|]. intros pid'.
  apply triple_pure. intros ->.
  eapply triple_bind; [apply triple_held_data, data_step_load_int|]. intros n2.
  eapply triple_bind; [apply triple_held_get|]. intros fh1.
  eapply (triple_bind _ _ _ (fun _ fh => held b0 pid (page h) (pool fh))).
  { case_bool_decide; [|by apply triple_ret].
    case_bool_decide; [|by apply triple_ret].
    eapply triple_bind; [apply triple_held_data, data_step_load_int|]. intros next.
    apply triple_held_file_hdr. }
  intros ?.
  eapply (triple_bind _ _ _ (fun _ fh => balanced b0 (pool fh)));
    [|intros ?; by apply triple_ret].
  eapply triple_conseq;
    [apply triple_on_pool, (unpin_page_triple b0 pid (page h) true Hpool) | | |];
    simpl; auto.
Qed.

Lemma triple_run {S A} (P : S -> Prop) (m : M S A) (Q E : S -> Prop) s r s' :
  triple P m (fun _ => Q) E -> (forall s, Q s -> E s) ->
  P s -> m s = (r, s') -> r <> Throw Undefined -> E s'.
Proof.
  intros Hm HQ Hs Hrun Hr. specialize (Hm s Hs). rewrite Hrun in Hm.
  destruct r as [a|e]; [by apply HQ|]. by destruct e.
Qed.

(** In a reachable pool state in which every evictable frame holds a cached
    page, get_record, update_record, delete_record and insert_record leave
    the pin count of every page as it was (0 standing for a page that is not
    cached), when they return and when they throw: the page they fetch or
    create is unpinned again on every path.  For insert_record the page
    number that would be allocated next must not be that of a cached page.
    Only a run that ends in undefined behaviour is excepted. *)
Theorem record_operations_release_their_pin fh :
  reachable (pool fh) ->
  evictable_inv (pool fh) ->
  (forall rid r fh',
     get_record rid fh = (r, fh') -> r <> Throw Undefined ->
     forall q, pin_of (pool fh') q = pin_of (pool fh) q) /\
  (forall rid buf r fh',
     update_record rid buf fh = (r, fh') -> r <> Throw Undefined ->
     forall q, pin_of (pool fh') q = pin_of (pool fh) q) /\
  (forall rid r fh',
     delete_record rid fh = (r, fh') -> r <> Throw Undefined ->
     forall q, pin_of (pool fh') q = pin_of (pool fh) q) /\
  (forall buf r fh',
     page_table_ (pool fh)
       !! mkPageId (fd_ fh) (default 0 (fd2pageno_ (disk_manager_ (pool fh)) !! fd_ fh))
     = None ->
     insert_record buf fh = (r, fh') -> r <> Throw Undefined ->
     forall q, pin_of (pool fh') q = pin_of (pool fh) q).
Proof.
  intros Hreach Hev.
  pose proof (reachable_table_inv _ Hreach) as Htab.
  pose proof (reachable_pool_inv _ Hreach) as Hpool.
  split; [|split; [|split]]; cycle 3.
  { intros buf r fh' Hfresh Hrun Hr.
    apply (triple_run _ _ _ _ fh r fh'
             (insert_record_balanced (pool fh) (fd_ fh) buf Htab Hpool Hev Hfresh)); auto. }
  - intros rid r fh' Hrun Hr.
    apply (triple_run _ _ _ _ fh r fh'
             (get_record_balanced (pool fh) (fd_ fh) rid Htab Hpool Hev)); auto.
  - intros rid buf r fh' Hrun Hr.
    apply (triple_run _ _ _ _ fh r fh'
             (update_record_balanced (pool fh) (fd_ fh) rid buf Htab Hpool Hev)); auto.
  - intros rid r fh' Hrun Hr.
    apply (triple_run _ _ _ _ fh r fh'
             (delete_record_balanced (pool fh) (fd_ fh) rid Htab Hpool Hev)); auto.
Qed.

End RecordPins.

(** ** Bits of the bitmap *)

Lemma get_bit_pow pos : get_bit pos = 2 ^ (7 - pos mod 8).
Proof.
  unfold get_bit, BITMAP_WIDTH.
  pose proof (Z.mod_pos_bound pos 8 ltac:(lia)) as Hm.
  rewrite Z.shiftr_div_pow2 by lia.
  change 128 with (2 ^ 7).
  replace 7 with ((7 - pos mod 8) + pos mod 8) at 1 by lia.
  rewrite Z.pow_add_r by lia.
  rewrite Z.div_mul; [reflexivity|]. apply Z.pow_nonzero; lia.
Qed.

Lemma land_ldiff_same x m : Z.land (Z.ldiff x m) m = 0.
Proof.
  apply Z.bits_inj'. intros i Hi.
  rewrite Z.land_spec, Z.ldiff_spec, Z.bits_0. by destruct (Z.testbit x i), (Z.testbit m i).
Qed.

Lemma land_pow2_disjoint j k : 0 <= j -> 0 <= k -> j <> k -> Z.land (2 ^ j) (2 ^ k) = 0.
Proof.
  intros Hj Hk Hne. apply Z.bits_inj'. intros i Hi.
  rewrite Z.land_spec, !Z.pow2_bits_eqb, Z.bits_0 by lia.
  destruct (Z.eqb_spec j i), (Z.eqb_spec k i); simpl; try reflexivity. lia.
Qed.

Lemma land_lor_other x m m' : Z.land m m' = 0 -> Z.land (Z.lor x m) m' = Z.land x m'.
Proof.
  intros H. rewrite Z.land_lor_distr_l, H. apply Z.lor_0_r.
Qed.

Lemma land_ldiff_other x m m' : Z.land m m' = 0 -> Z.land (Z.ldiff x m) m' = Z.land x m'.
Proof.
  intros H. apply Z.bits_inj'. intros i Hi.
  apply (f_equal (fun z => Z.testbit z i)) in H.
  rewrite Z.land_spec, Z.bits_0 in H.
  rewrite !Z.land_spec, Z.ldiff_spec.
  destruct (Z.testbit x i), (Z.testbit m i), (Z.testbit m' i); simpl in *; congruence.
Qed.

Lemma get_bit_disjoint s s' :
  get_bucket s = get_bucket s' -> s <> s' -> Z.land (get_bit s) (get_bit s') = 0.
Proof.
  unfold get_bucket, BITMAP_WIDTH. intros Hb Hne. rewrite !get_bit_pow.
  pose proof (Z.mod_pos_bound s 8 ltac:(lia)).
  pose proof (Z.mod_pos_bound s' 8 ltac:(lia)).
  pose proof (Z.div_mod s 8 ltac:(lia)).
  pose proof (Z.div_mod s' 8 ltac:(lia)).
  apply land_pow2_disjoint; lia.
Qed.

(** ** Slots in page memory *)

Lemma mem_read_one d off bs :
  mem_read d off 1 = Some bs -> exists x, bs = [x].
Proof.
  intros H. apply mem_read_Some in H as (_ & _ & _ & _ & Hlen).
  destruct bs as [|x [|y bs]]; simpl in Hlen; try lia. by exists x.
Qed.

Lemma slot_live_Some d s r :
  slot_live d s = Some r ->
  exists x, mem_read d (sizeof_RmPageHdr + get_bucket s) 1 = Some [x] /\
            r = bool_decide (Z.land x (get_bit s) <> 0).
Proof.
  unfold slot_live. intros H. apply fmap_Some in H as (bs & Hr & ->).
  destruct (mem_read_one _ _ _ Hr) as [x ->]. by exists x.
Qed.

Lemma slot_live_read d s x :
  mem_read d (sizeof_RmPageHdr + get_bucket s) 1 = Some [x] ->
  slot_live d s = Some (bool_decide (Z.land x (get_bit s) <> 0)).
Proof. intros H. unfold slot_live. by rewrite H. Qed.

Lemma get_bucket_nonneg s : 0 <= s -> 0 <= get_bucket s.
Proof. intros H. unfold get_bucket, BITMAP_WIDTH. apply Z.div_pos; lia. Qed.

Lemma get_bucket_lt s n : 0 <= s < 8 * n -> get_bucket s < n.
Proof.
  intros H. unfold get_bucket, BITMAP_WIDTH. apply Z.div_lt_upper_bound; lia.
Qed.

(** A write that does not touch the byte of slot [s] in the bitmap. *)
Lemma slot_live_write_other d off bs d' s :
  mem_write d off bs = Some d' ->
  0 <= s ->
  off + Z.of_nat (length bs) <= sizeof_RmPageHdr + get_bucket s \/
  sizeof_RmPageHdr + get_bucket s + 1 <= off ->
  slot_live d' s = slot_live d s.
Proof.
  intros Hw Hs Hdis. unfold slot_live.
  pose proof (get_bucket_nonneg s Hs).
  rewrite (mem_read_write_other _ _ _ _ _ _ Hw); [done | layout | lia | lia].
Qed.

Lemma slot_bytes_write_other hdr d off bs d' s :
  mem_write d off bs = Some d' ->
  0 <= sizeof_RmPageHdr + bitmap_size hdr + s * record_size hdr ->
  0 <= record_size hdr ->
  off + Z.of_nat (length bs) <= sizeof_RmPageHdr + bitmap_size hdr + s * record_size hdr \/
  sizeof_RmPageHdr + bitmap_size hdr + s * record_size hdr + record_size hdr <= off ->
  slot_bytes hdr d' s = slot_bytes hdr d s.
Proof.
  intros Hw Hoff Hrs Hdis. unfold slot_bytes.
  rewrite (mem_read_write_other _ _ _ _ _ _ Hw); [done | done | done | lia].
Qed.

(** Setting or clearing the bit of slot [s] leaves the bits of the other
    slots as they were. *)
Lemma slot_live_flip d s x y d' :
  0 <= s ->
  mem_read d (sizeof_RmPageHdr + get_bucket s) 1 = Some [x] ->
  mem_write d (sizeof_RmPageHdr + get_bucket s) [y] = Some d' ->
  (forall m', Z.land (get_bit s) m' = 0 -> Z.land y m' = Z.land x m') ->
  slot_live d' s = Some (bool_decide (Z.land y (get_bit s) <> 0)) /\
  forall s', 0 <= s' -> s' <> s -> slot_live d' s' = slot_live d s'.
Proof.
  intros Hs Hr Hw Hother.
  pose proof (mem_read_write_same _ _ _ _ Hw) as Hsame.
  change (Z.of_nat (length [y])) with 1 in Hsame.
  split; [by apply slot_live_read|].
  intros s' Hs' Hne.
  destruct (decide (get_bucket s' = get_bucket s)) as [Hb|Hb].
  - unfold slot_live. rewrite Hb, Hsame, Hr. simpl. f_equal.
    rewrite Hother; [done|]. by apply get_bit_disjoint.
  - apply (slot_live_write_other _ _ _ _ _ Hw Hs'). simpl. lia.
Qed.

Lemma slot_live_set d s x d' :
  0 <= s ->
  mem_read d (sizeof_RmPageHdr + get_bucket s) 1 = Some [x] ->
  mem_write d (sizeof_RmPageHdr + get_bucket s) [Z.lor x (get_bit s)] = Some d' ->
  slot_live d' s = Some true /\
  forall s', 0 <= s' -> s' <> s -> slot_live d' s' = slot_live d s'.
Proof.
  intros Hs Hr Hw.
  destruct (slot_live_flip d s x _ d' Hs Hr Hw) as [Hlive Hother].
  { intros m' Hm. by apply land_lor_other. }
  split; [|done]. rewrite Hlive. f_equal. apply bool_decide_eq_true_2, bit_set_is_set.
Qed.

Lemma slot_live_reset d s x d' :
  0 <= s ->
  mem_read d (sizeof_RmPageHdr + get_bucket s) 1 = Some [x] ->
  mem_write d (sizeof_RmPageHdr + get_bucket s) [Z.ldiff x (get_bit s)] = Some d' ->
  slot_live d' s = Some false /\
  forall s', 0 <= s' -> s' <> s -> slot_live d' s' = slot_live d s'.
Proof.
  intros Hs Hr Hw.
  destruct (slot_live_flip d s x _ d' Hs Hr Hw) as [Hlive Hother].
  { intros m' Hm. by apply land_ldiff_other. }
  split; [|done]. rewrite Hlive. f_equal. apply bool_decide_eq_false_2.
  rewrite land_ldiff_same. auto.
Qed.

(** ** Specifications of the steps on a held page *)

Section HeldPage.
Context {cfg : Config}.

Local Abbreviation pool := buffer_pool_manager_.

Lemma holding_conseq pid f (phi psi : list Z -> Prop) b :
  (forall d, phi d -> psi d) -> holding pid f phi b -> holding pid f psi b.
Proof.
  intros H (Ht & Hp & Htab & pg & Hpg & Hpin & Hphi).
  split; [done|]. split; [done|]. split; [done|]. exists pg. auto.
Qed.

Lemma holding_load pid f phi off len (E : BufferPoolManager -> Prop) :
  triple (holding pid f phi) (load f off len)
         (fun bs => holding pid f (fun d => phi d /\ mem_read d off len = Some bs)) E.
Proof.
  intros b Hb. pose proof Hb as (Ht & Hp & Htab & pg & Hpg & Hpin & Hphi).
  unfold load, bind. rewrite frame_eq, Hpg.
  destruct (mem_read (data_ pg) off len) as [bs|] eqn:Hr; simpl; [|done].
  split; [done|]. split; [done|]. split; [done|]. exists pg. auto.
Qed.

Lemma holding_store pid f (phi psi : list Z -> Prop) off bs (E : BufferPoolManager -> Prop) :
  (forall d d', phi d -> mem_write d off bs = Some d' -> psi d') ->
  triple (holding pid f phi) (store f off bs) (fun _ => holding pid f psi) E.
Proof.
  intros Hpsi b (Ht & Hp & Htab & pg & Hpg & Hpin & Hphi).
  destruct (store f off bs b) as [[[]|e] b1] eqn:Hst.
  - apply (store_put_data _ _ _ _ _ _ Hpg) in Hst as (d' & Hw & ->).
    split; [by apply put_data_table_inv|]. split; [by apply put_data_pool_inv|].
    split; [done|]. exists (with_data d' pg).
    split; [by apply put_data_lookup|]. split; [done|]. by apply (Hpsi (data_ pg)).
  - destruct (data_step_store f off bs b) as [_ He]. rewrite Hst in He.
    by rewrite (He e eq_refl).
Qed.

Lemma holding_load_int pid f phi off (E : BufferPoolManager -> Prop) :
  triple (holding pid f phi) (load_int f off)
         (fun n => holding pid f
                     (fun d => phi d /\ decode_i32 <$> mem_read d off 4 = Some n)) E.
Proof.
  unfold load_int. eapply triple_bind; [apply holding_load|]. intros bs.
  apply triple_ret. intros b. apply holding_conseq. intros d [Hphi Hr].
  split; [done|]. by rewrite Hr.
Qed.

Lemma holding_is_set pid f phi bm pos (E : BufferPoolManager -> Prop) :
  triple (holding pid f phi) (Bitmap_is_set f bm pos)
         (fun r => holding pid f
                     (fun d => phi d /\ 0 <= pos /\
                               exists x, mem_read d (bm + get_bucket pos) 1 = Some [x] /\
                                         r = bool_decide (Z.land x (get_bit pos) <> 0))) E.
Proof.
  unfold Bitmap_is_set. case_bool_decide as Hneg; [apply triple_undefined|].
  eapply triple_bind; [apply holding_load|]. intros bs.
  apply triple_ret. intros b. apply holding_conseq. intros d [Hphi Hr].
  split; [done|]. split; [lia|].
  destruct (mem_read_one _ _ _ Hr) as [x ->]. by exists x.
Qed.

(** Bitmap::set and Bitmap::reset replace the byte that holds the bit. *)
Lemma holding_set pid f (phi psi : list Z -> Prop) bm pos (E : BufferPoolManager -> Prop) :
  (forall d x d', phi d -> 0 <= pos ->
     mem_read d (bm + get_bucket pos) 1 = Some [x] ->
     mem_write d (bm + get_bucket pos) [Z.lor x (get_bit pos)] = Some d' -> psi d') ->
  triple (holding pid f phi) (Bitmap_set f bm pos) (fun _ => holding pid f psi) E.
Proof.
  intros Hpsi. unfold Bitmap_set. case_bool_decide as Hneg; [apply triple_undefined|].
  eapply triple_bind; [apply holding_load|]. intros bs.
  apply holding_store. intros d d' [Hphi Hr] Hw.
  destruct (mem_read_one _ _ _ Hr) as [x ->].
  apply (Hpsi d x d'); [done | lia | done | done].
Qed.

Lemma holding_reset pid f (phi psi : list Z -> Prop) bm pos (E : BufferPoolManager -> Prop) :
  (forall d x d', phi d -> 0 <= pos ->
     mem_read d (bm + get_bucket pos) 1 = Some [x] ->
     mem_write d (bm + get_bucket pos) [Z.ldiff x (get_bit pos)] = Some d' -> psi d') ->
  triple (holding pid f phi) (Bitmap_reset f bm pos) (fun _ => holding pid f psi) E.
Proof.
  intros Hpsi. unfold Bitmap_reset. case_bool_decide as Hneg; [apply triple_undefined|].
  eapply triple_bind; [apply holding_load|]. intros bs.
  apply holding_store. intros d d' [Hphi Hr] Hw.
  destruct (mem_read_one _ _ _ Hr) as [x ->].
  apply (Hpsi d x d'); [done | lia | done | done].
Qed.

Lemma holding_unpin pid f phi is_dirty (E : BufferPoolManager -> Prop) :
  triple (holding pid f phi) (unpin_page pid is_dirty) (fun _ => cached_with pid phi) E.
Proof.
  intros b (Ht & Hp & Htab & pg & Hpg & Hpin & Hphi).
  pose proof (unpin_page_table_inv pid is_dirty b Ht) as Ht'.
  pose proof (unpin_page_pool_inv pid is_dirty b Hp) as Hp'.
  assert (Hmax : pin_count_ pg <= INT_MAX).
  { destruct Hp as (_ & _ & Hpins & _). apply (Hpins f). by rewrite pins_lookup, Hpg. }
  destruct (unpin_page_held pid is_dirty b f pg Htab Hpg) as (r & pg' & Hun & Hid & Hd & Hpin');
    [lia|].
  rewrite Hun in Ht', Hp' |- *. simpl in Ht', Hp'.
  split; [done|]. split; [done|]. exists f, pg'. simpl.
  split; [done|]. split.
  - apply list_lookup_insert_eq. by apply lookup_lt_Some in Hpg.
  - split; [lia|]. by rewrite Hd.
Qed.

(** *** On the file handle *)

Lemma at_file_on_pool {A} (J : BufferPoolManager -> Prop) (m : M BufferPoolManager A) Q
    fd0 hdr (E : RmFileHandle -> Prop) :
  triple J m Q (fun _ => True) ->
  (forall fh, E fh) ->
  triple (at_file J fd0 hdr) (on_pool m) (fun a => at_file (Q a) fd0 hdr) E.
Proof.
  intros Hm HE fh (HJ & Hfd & Hhdr). unfold on_pool, zoom. specialize (Hm _ HJ).
  destruct (m (pool fh)) as [[a|e] b1]; simpl.
  - by split.
  - destruct e; auto.
Qed.

Lemma at_file_get J fd0 hdr (E : RmFileHandle -> Prop) :
  triple (at_file J fd0 hdr) get
         (fun fh0 fh => (fd_ fh0 = fd0 /\ file_hdr_ fh0 = hdr) /\ at_file J fd0 hdr fh) E.
Proof. apply triple_get. intros fh Hfh. split; [|done]. by destruct Hfh as (_ & ? & ?). Qed.

Lemma at_file_int_add J fd0 hdr x y (E : RmFileHandle -> Prop) :
  triple (at_file J fd0 hdr) (int_add x y)
         (fun n fh => (n = x + y /\ INT_MIN <= x + y <= INT_MAX) /\ at_file J fd0 hdr fh) E.
Proof.
  intros fh Hfh. unfold int_add. case_bool_decide; simpl; [|done]. done.
Qed.

Lemma at_file_defined {A} J fd0 hdr (o : option A) (E : RmFileHandle -> Prop) :
  triple (at_file J fd0 hdr) (defined o)
         (fun a fh => o = Some a /\ at_file J fd0 hdr fh) E.
Proof. apply triple_defined. by intros a fh -> Hfh. Qed.

Lemma at_file_conseq (J J' : BufferPoolManager -> Prop) fd0 hdr fh :
  (forall b, J b -> J' b) -> at_file J fd0 hdr fh -> at_file J' fd0 hdr fh.
Proof. intros H (HJ & ? & ?). split; auto. Qed.

Lemma at_file_get_page_id pid f phi fd0 hdr (E : RmFileHandle -> Prop) :
  triple (at_file (holding pid f phi) fd0 hdr) (get_page_id f)
         (fun pid' fh => pid' = pid /\ at_file (holding pid f phi) fd0 hdr fh) E.
Proof.
  intros fh Hfh. pose proof Hfh as ((Ht & _ & Htab & _) & _).
  destruct (table_inv_frame _ pid f Ht Htab) as (pg & Hpg & Hid).
  rewrite (get_page_id_run f fh pg Hpg). by split.
Qed.

(** [page->get_page_id()] followed by unpin_page, as the record operations
    end. *)
Lemma at_file_release {A} pid f phi fd0 hdr d (k : M RmFileHandle A) R
    (E : RmFileHandle -> Prop) :
  (forall fh, E fh) ->
  triple (at_file (cached_with pid phi) fd0 hdr) k R E ->
  triple (at_file (holding pid f phi) fd0 hdr)
         (let* pid' := get_page_id f in on_pool (unpin_page pid' d);; k) R E.
Proof.
  intros HE Hk.
  eapply triple_bind; [apply at_file_get_page_id|]. intros pid'.
  apply triple_pure. intros ->.
  eapply triple_bind; [|intros ?; exact Hk].
  apply at_file_on_pool; [apply holding_unpin | done].
Qed.

Lemma fetch_page_pinned pid b f b1 :
  pool_inv b ->
  fetch_page pid b = (Ret (Some f), b1) ->
  exists pg, pages_ b1 !! f = Some pg /\ 0 < pin_count_ pg.
Proof.
  intros Hpool Hfetch. rewrite fetch_page_eq in Hfetch.
  destruct (page_table_ b !! pid) as [f0|].
  - destruct (pages_ b !! f0) as [pg|] eqn:Hpg; [|discriminate].
    case_bool_decide; [|discriminate]. injection Hfetch as <- <-. simpl.
    eexists. split; [apply list_lookup_insert_eq; by apply lookup_lt_Some in Hpg|].
    simpl. destruct Hpool as (_ & _ & Hpins & _).
    assert (0 <= pin_count_ pg) by (apply (Hpins f0); by rewrite pins_lookup, Hpg). lia.
  - destruct (find_victim_page b) as [[[f0|]|e] b0]; [|discriminate..].
    destruct (pages_ b0 !! f0) as [pg|] eqn:Hpg; [|discriminate].
    destruct (read_page _ _ _ _ _) as [[bytes|e] dm]; [|discriminate].
    injection Hfetch as <- <-. simpl.
    eexists. split; [apply list_lookup_insert_eq; by apply lookup_lt_Some in Hpg|].
    simpl. lia.
Qed.

(** fetch_page_handle gives the page pinned, with the memory that [page_of]
    shows. *)
Lemma at_file_fetch_page_handle fh0 p (E : RmFileHandle -> Prop) :
  table_inv (pool fh0) -> pool_inv (pool fh0) ->
  (forall fh, E fh) ->
  triple (eq fh0) (fetch_page_handle p)
         (fun h fh =>
            h = mkRmPageHandle (page h) 0 sizeof_RmPageHdr
                  (sizeof_RmPageHdr + bitmap_size (file_hdr_ fh0)) /\
            exists pg0,
              page_of fh0 p = Some pg0 /\
              at_file (holding (mkPageId (fd_ fh0) p) (page h) (eq (data_ pg0)))
                      (fd_ fh0) (file_hdr_ fh0) fh) E.
Proof.
  intros Ht Hp HE fh <-.
  destruct (fetch_page_handle p fh0) as [[h|e] fh1] eqn:Hf; [|destruct e; auto].
  destruct (fetch_page_handle_inv _ _ _ _ Ht Hp Hf)
    as (Hh & Hfd & Hhdr & _ & Ht1 & Hp1 & Htab1 & pg & Hpg & Hid & _).
  split; [done|]. exists pg. split.
  { unfold page_of. by rewrite Hf. }
  split; [|done].
  split; [done|]. split; [done|]. split; [done|]. exists pg.
  split; [done|]. split; [|done].
  unfold fetch_page_handle in Hf.
  apply bind_Ret in Hf as (fh0' & fh0'' & [= <- <-] & Hf).
  apply bind_Ret in Hf as (r & fh2 & Hfp & Hf).
  apply zoom_inv in Hfp as (b1 & Hfp & ->).
  destruct r as [f|]; [|discriminate]. injection Hf as <- <-. simpl in *.
  destruct (fetch_page_pinned _ _ _ _ Hp Hfp) as (pg' & Hpg' & Hpin).
  congruence.
Qed.

End HeldPage.

(** ** What the record operations do to the memory of the page *)

Section SlotMemory.

Variable hdr : RmFileHdr.
Variable s : Z.
Hypothesis Hs : 0 <= s < 8 * bitmap_size hdr.
Hypothesis Hrs : 0 <= record_size hdr.

Lemma others_kept_refl d : others_kept hdr s d d.
Proof. by split. Qed.

Lemma slot_offset_ge s' : 0 <= s' -> 0 <= s' * record_size hdr.
Proof using Hrs. intros. nia. Qed.

Lemma slots_apart s' :
  0 <= s' -> s' <> s ->
  s' * record_size hdr + record_size hdr <= s * record_size hdr \/
  s * record_size hdr + record_size hdr <= s' * record_size hdr.
Proof using Hs Hrs. intros H0 Hne. destruct (Z.lt_ge_cases s' s); [left | right]; nia. Qed.

(** A write into the page header. *)
Lemma write_hdr_kept d0 d1 d2 off bs :
  others_kept hdr s d0 d1 ->
  mem_write d1 off bs = Some d2 ->
  off + Z.of_nat (length bs) <= sizeof_RmPageHdr ->
  others_kept hdr s d0 d2 /\
  slot_live d2 s = slot_live d1 s /\ slot_bytes hdr d2 s = slot_bytes hdr d1 s.
Proof using Hs Hrs.
  intros [Hl Hb] Hw Hoff.
  assert (Hsz : sizeof_RmPageHdr = 8) by reflexivity.
  assert (Hbucket : forall s', 0 <= s' -> 0 <= get_bucket s') by apply get_bucket_nonneg.
  assert (Hlive : forall s', 0 <= s' -> slot_live d2 s' = slot_live d1 s').
  { intros s' H0. apply (slot_live_write_other _ _ _ _ _ Hw H0). left.
    specialize (Hbucket s' H0). lia. }
  assert (Hbytes : forall s', 0 <= s' -> slot_bytes hdr d2 s' = slot_bytes hdr d1 s').
  { intros s' H0. pose proof (slot_offset_ge s' H0).
    apply (slot_bytes_write_other _ _ _ _ _ _ Hw); [lia | done | lia]. }
  split; [split|split].
  - intros s' H0 Hne. rewrite Hlive by lia. by apply Hl.
  - intros s' H0 Hne. rewrite Hbytes by lia. by apply Hb.
  - apply Hlive. lia.
  - apply Hbytes. lia.
Qed.

(** A write of the byte that holds the bit of [s], changing that bit only. *)
Lemma write_bit_kept d0 d1 d2 x y :
  others_kept hdr s d0 d1 ->
  mem_read d1 (sizeof_RmPageHdr + get_bucket s) 1 = Some [x] ->
  mem_write d1 (sizeof_RmPageHdr + get_bucket s) [y] = Some d2 ->
  (forall m', Z.land (get_bit s) m' = 0 -> Z.land y m' = Z.land x m') ->
  others_kept hdr s d0 d2 /\
  slot_live d2 s = Some (bool_decide (Z.land y (get_bit s) <> 0)) /\
  slot_bytes hdr d2 s = slot_bytes hdr d1 s.
Proof using Hs Hrs.
  intros [Hl Hb] Hr Hw Hy.
  destruct (slot_live_flip d1 s x y d2 ltac:(lia) Hr Hw Hy) as [Hlive Hothers].
  pose proof (get_bucket_lt s (bitmap_size hdr) Hs) as Hlt.
  assert (Hsz : sizeof_RmPageHdr = 8) by reflexivity.
  assert (Hbytes : forall s', 0 <= s' -> slot_bytes hdr d2 s' = slot_bytes hdr d1 s').
  { intros s' H0. pose proof (slot_offset_ge s' H0).
    apply (slot_bytes_write_other _ _ _ _ _ _ Hw); [lia | done |].
    left. change (Z.of_nat (length [y])) with 1. lia. }
  split; [split|split].
  - intros s' H0 Hne. rewrite Hothers by lia. by apply Hl.
  - intros s' H0 Hne. rewrite Hbytes by lia. by apply Hb.
  - done.
  - apply Hbytes. lia.
Qed.

(** A write of the bytes of slot [s]. *)
Lemma write_slot_kept d0 d1 d2 bytes :
  others_kept hdr s d0 d1 ->
  Z.of_nat (length bytes) = record_size hdr ->
  mem_write d1 (sizeof_RmPageHdr + bitmap_size hdr + s * record_size hdr) bytes = Some d2 ->
  others_kept hdr s d0 d2 /\
  slot_live d2 s = slot_live d1 s /\ slot_bytes hdr d2 s = Some bytes.
Proof using Hs Hrs.
  intros [Hl Hb] Hlen Hw.
  pose proof (slot_offset_ge s ltac:(lia)) as Hoff.
  assert (Hsz : sizeof_RmPageHdr = 8) by reflexivity.
  assert (Hlive : forall s', 0 <= s' < 8 * bitmap_size hdr -> slot_live d2 s' = slot_live d1 s').
  { intros s' H0. pose proof (get_bucket_lt s' (bitmap_size hdr) H0).
    apply (slot_live_write_other _ _ _ _ _ Hw); [lia|]. right. lia. }
  split; [split|split].
  - intros s' H0 Hne. rewrite Hlive by lia. by apply Hl.
  - intros s' H0 Hne. rewrite <- (Hb s' H0 Hne).
    pose proof (slot_offset_ge s' H0). pose proof (slots_apart s' H0 Hne).
    apply (slot_bytes_write_other _ _ _ _ _ _ Hw); [lia | done | lia].
  - by apply Hlive.
  - unfold slot_bytes. rewrite <- Hlen at 2. rewrite <- Hlen in Hw |- * at 1.
    exact (mem_read_write_same _ _ _ _ Hw).
Qed.

End SlotMemory.

(** ** Reading and changing one record *)

Section OneRecord.
Context {cfg : Config}.

Local Abbreviation pool := buffer_pool_manager_.

(** get_record on a cached page whose bit for the slot is not set. *)
Lemma get_record_absent_run rid fh f pg byte :
  page_table_ (pool fh) !! mkPageId (fd_ fh) (rid_page_no rid) = Some f ->
  pages_ (pool fh) !! f = Some pg ->
  id_ pg = mkPageId (fd_ fh) (rid_page_no rid) ->
  0 <= pin_count_ pg < INT_MAX ->
  0 <= slot_no rid ->
  mem_read (data_ pg) (sizeof_RmPageHdr + get_bucket (slot_no rid)) 1 = Some [byte] ->
  Z.land byte (get_bit (slot_no rid)) = 0 ->
  exists fh', get_record rid fh = (Throw RuntimeError, fh').
Proof.
  intros Htab Hpg Hid Hpin Hslot Hbit Hset.
  unfold get_record.
  rewrite (bind_run _ _ _ _ _ (fetch_page_handle_hit _ _ _ _ Htab Hpg Hpin)).
  set (pg' := mkPage (id_ pg) (data_ pg) (is_dirty_ pg) (pin_count_ pg + 1)).
  set (fh1 := with_pool (pinned f pg (pool fh)) fh).
  assert (Hpg' : pages_ (pool fh1) !! f = Some pg').
  { simpl. by apply (list_insert_lookup_Some _ _ _ pg). }
  simpl.
  assert (His : on_pool (Bitmap_is_set f sizeof_RmPageHdr (slot_no rid)) fh1 = (Ret false, fh1)).
  { unfold on_pool.
    rewrite (zoom_run _ _ _ _ _ _ (Bitmap_is_set_run _ _ _ _ pg' [byte] Hslot Hpg' Hbit)).
    rewrite with_pool_id. simpl. rewrite bool_decide_eq_false_2; [done|]. by intros []. }
  rewrite (bind_run _ _ _ _ _ His). simpl.
  rewrite (bind_run _ _ _ _ _ (get_page_id_run _ _ _ Hpg')). simpl.
  assert (Htab' : page_table_ (pool fh1) !! id_ pg = Some f) by (by rewrite Hid).
  destruct (unpin_page_held (id_ pg) false (pool fh1) f pg' Htab' Hpg')
    as (r & pg'' & Hun & _); [simpl; lia|].
  unfold bind, on_pool, zoom. rewrite Hun. eauto.
Qed.

Lemma cached_with_frame pid phi fd0 hdr0 fh :
  at_file (cached_with pid phi) fd0 hdr0 fh ->
  exists f pg,
    page_table_ (pool fh) !! pid = Some f /\ pages_ (pool fh) !! f = Some pg /\
    id_ pg = pid /\ 0 <= pin_count_ pg < INT_MAX /\ phi (data_ pg) /\
    fd_ fh = fd0 /\ file_hdr_ fh = hdr0 /\ table_inv (pool fh) /\ pool_inv (pool fh).
Proof.
  intros ((Ht & Hp & f & pg & Htab & Hpg & Hpin & Hphi) & Hfd & Hhdr).
  exists f, pg. destruct (table_inv_frame _ _ _ Ht Htab) as (pg' & Hpg' & Hid).
  assert (pg' = pg) as -> by congruence.
  assert (0 <= pin_count_ pg).
  { destruct Hp as (_ & _ & Hpins & _). apply (Hpins f). by rewrite pins_lookup, Hpg. }
  split; [done|]. split; [done|]. split; [done|]. split; [lia|]. done.
Qed.

(** get_record on a page that is cached: the bytes of a live slot. *)
Lemma get_record_cached_live p s r phi fd0 hdr0 fh :
  at_file (cached_with (mkPageId fd0 p) phi) fd0 hdr0 fh ->
  (forall d, phi d -> slot_live d s = Some true /\ slot_bytes hdr0 d s = Some r) ->
  0 <= s ->
  exists fh', get_record (mkRid p s) fh = (Ret r, fh').
Proof.
  intros Hfh Hphi Hs.
  destruct (cached_with_frame _ _ _ _ _ Hfh)
    as (f & pg & Htab & Hpg & Hid & Hpin & Hd & <- & <- & _).
  destruct (Hphi _ Hd) as [Hlive Hbytes].
  apply slot_live_Some in Hlive as (x & Hx & Hset).
  apply (get_record_run (mkRid p s) fh f pg x r); try done.
  symmetry in Hset. by apply bool_decide_eq_true_1 in Hset.
Qed.

(** get_record on a page that is cached: no record in a slot that is not
    live. *)
Lemma get_record_cached_dead p s phi fd0 hdr0 fh :
  at_file (cached_with (mkPageId fd0 p) phi) fd0 hdr0 fh ->
  (forall d, phi d -> slot_live d s = Some false) ->
  0 <= s ->
  exists fh', get_record (mkRid p s) fh = (Throw RuntimeError, fh').
Proof.
  intros Hfh Hphi Hs.
  destruct (cached_with_frame _ _ _ _ _ Hfh)
    as (f & pg & Htab & Hpg & Hid & Hpin & Hd & <- & <- & _).
  pose proof (Hphi _ Hd) as Hlive.
  apply slot_live_Some in Hlive as (x & Hx & Hset).
  apply (get_record_absent_run (mkRid p s) fh f pg x); try done.
  symmetry in Hset. apply bool_decide_eq_false_1 in Hset.
  destruct (decide (Z.land x (get_bit s) = 0)); [done|]. by destruct Hset.
Qed.

(** What get_record found when it returned. *)
Lemma get_record_spec fh0 rid :
  table_inv (pool fh0) -> pool_inv (pool fh0) ->
  triple (eq fh0) (get_record rid)
    (fun r _ => exists pg0,
       page_of fh0 (rid_page_no rid) = Some pg0 /\ 0 <= slot_no rid /\
       slot_live (data_ pg0) (slot_no rid) = Some true /\
       slot_bytes (file_hdr_ fh0) (data_ pg0) (slot_no rid) = Some r)
    (fun _ => True).
Proof.
  intros Ht Hp. unfold get_record.
  eapply triple_bind; [by apply at_file_fetch_page_handle|]. intros h.
  apply triple_pure. intros Hh. destruct h as [f ph bm sl]. simpl in Hh.
  injection Hh as -> -> ->. simpl.
  apply triple_exists. intros pg0. apply triple_pure. intros Hpg0.
  eapply triple_bind; [apply at_file_on_pool; [apply holding_is_set | done]|].
  intros present. destruct present; simpl.
  - eapply triple_bind; [apply at_file_get|]. intros fh1.
    apply triple_pure. intros [Hfd Hhdr].
    eapply triple_bind; [apply at_file_on_pool; [apply holding_load | done]|].
    intros record. apply at_file_release; [done|]. apply triple_ret.
    intros fh Hfh. exists pg0.
    destruct (cached_with_frame _ _ _ _ _ Hfh)
      as (f' & pg & _ & _ & _ & _ & ((<- & Hpos & x & Hx & Hset) & Hrec) & _).
    split; [done|]. split; [done|]. split.
    + rewrite (slot_live_read _ _ _ Hx). by rewrite <- Hset.
    + unfold slot_bytes. rewrite Hhdr in Hrec. exact Hrec.
  - apply at_file_release; [done|]. by apply triple_throw.
Qed.

Lemma get_record_Ret rid fh r fh' :
  table_inv (pool fh) -> pool_inv (pool fh) ->
  get_record rid fh = (Ret r, fh') ->
  exists pg0,
    page_of fh (rid_page_no rid) = Some pg0 /\ 0 <= slot_no rid /\
    slot_live (data_ pg0) (slot_no rid) = Some true /\
    slot_bytes (file_hdr_ fh) (data_ pg0) (slot_no rid) = Some r.
Proof.
  intros Ht Hp Hrun. pose proof (get_record_spec fh rid Ht Hp fh eq_refl) as H.
  by rewrite Hrun in H.
Qed.

(** What update_record leaves when it returned. *)
Lemma update_record_spec fh0 rid buf :
  table_inv (pool fh0) -> pool_inv (pool fh0) ->
  triple (eq fh0) (update_record rid buf)
    (fun _ fh => exists pg0 bytes,
       page_of fh0 (rid_page_no rid) = Some pg0 /\ 0 <= slot_no rid /\
       slot_live (data_ pg0) (slot_no rid) = Some true /\
       mem_read buf 0 (record_size (file_hdr_ fh0)) = Some bytes /\
       at_file (cached_with (mkPageId (fd_ fh0) (rid_page_no rid))
                  (fun d => mem_write (data_ pg0)
                              (sizeof_RmPageHdr + bitmap_size (file_hdr_ fh0)
                               + slot_no rid * record_size (file_hdr_ fh0)) bytes = Some d))
               (fd_ fh0) (file_hdr_ fh0) fh)
    (fun _ => True).
Proof.
  intros Ht Hp. unfold update_record.
  eapply triple_bind; [by apply at_file_fetch_page_handle|]. intros h.
  apply triple_pure. intros Hh. destruct h as [f ph bm sl]. simpl in Hh.
  injection Hh as -> -> ->. simpl.
  apply triple_exists. intros pg0. apply triple_pure. intros Hpg0.
  eapply triple_bind; [apply at_file_on_pool; [apply holding_is_set | done]|].
  intros present. destruct present; simpl.
  - eapply triple_bind; [apply at_file_get|]. intros fh1.
    apply triple_pure. intros [Hfd Hhdr].
    eapply triple_bind; [apply at_file_defined|]. intros bytes.
    apply triple_pure. intros Hbytes.
    eapply triple_bind;
      [apply at_file_on_pool;
       [apply (holding_store _ _ _
                 (fun d => 0 <= slot_no rid /\
                           slot_live (data_ pg0) (slot_no rid) = Some true /\
                           mem_write (data_ pg0)
                             (sizeof_RmPageHdr + bitmap_size (file_hdr_ fh0)
                              + slot_no rid * record_size (file_hdr_ fh0)) bytes = Some d))
       | done]|].
    { intros d d' (<- & Hpos & x & Hx & Hset) Hw.
      split; [done|]. split; [rewrite (slot_live_read _ _ _ Hx); by rewrite <- Hset|].
      unfold get_slot in Hw. simpl in Hw. by rewrite Hhdr in Hw. }
    intros ?. apply at_file_release; [done|]. apply triple_ret.
    intros fh Hfh. exists pg0, bytes.
    destruct (cached_with_frame _ _ _ _ _ Hfh)
      as (f' & pg & _ & _ & _ & _ & (Hpos & Hlive & Hw) & _).
    split; [done|]. split; [done|]. split; [done|]. split; [by rewrite <- Hhdr|].
    destruct Hfh as ((Ht' & Hp' & Hc) & Hf). split; [|done].
    split; [done|]. split; [done|].
    destruct Hc as (f2 & pg2 & ? & ? & ? & ? & ? & ?). by exists f2, pg2.
  - apply at_file_release; [done|]. by apply triple_throw.
Qed.

End OneRecord.

(** ** Deleting one record *)

Section DeleteRecord.
Context {cfg : Config}.

Local Abbreviation pool := buffer_pool_manager_.

Lemma triple_post {S A} (P : S -> Prop) (m : M S A) (Q Q' : A -> S -> Prop) (E : S -> Prop) :
  triple P m Q' E -> (forall a s, Q' a s -> Q a s) -> triple P m Q E.
Proof. intros H HQ. by apply (triple_conseq _ _ _ _ _ _ _ H). Qed.

Lemma holding_load_int_keep pid f phi off (E : BufferPoolManager -> Prop) :
  triple (holding pid f phi) (load_int f off) (fun _ => holding pid f phi) E.
Proof.
  eapply triple_conseq; [apply holding_load_int | done | | done].
  intros n b. apply holding_conseq. by intros d [? _].
Qed.

Lemma holding_store_int pid f (phi psi : list Z -> Prop) off v
    (E : BufferPoolManager -> Prop) :
  (forall d d', phi d -> mem_write d off (encode_i32 v) = Some d' -> psi d') ->
  triple (holding pid f phi) (store_int f off v) (fun _ => holding pid f psi) E.
Proof. intros H. unfold store_int. by apply holding_store. Qed.

Lemma at_file_keep_int_add J fd0 hdr x y (E : RmFileHandle -> Prop) :
  triple (at_file J fd0 hdr) (int_add x y) (fun _ => at_file J fd0 hdr) E.
Proof. by apply triple_int_add. Qed.

Lemma at_file_set_first_free J fd0 hdr (g : RmFileHandle -> Z) (E : RmFileHandle -> Prop) :
  triple (at_file J fd0 hdr)
         (modify (fun fh => with_file_hdr (with_first_free_page_no (g fh) (file_hdr_ fh)) fh))
         (fun _ fh => exists x, at_file J fd0 (with_first_free_page_no x hdr) fh) E.
Proof.
  apply triple_modify. intros fh (HJ & Hfd & Hhdr). exists (g fh).
  split; [done|]. split; [done|]. simpl. by rewrite Hhdr.
Qed.

Lemma with_first_free_page_no_same hdr :
  with_first_free_page_no (first_free_page_no hdr) hdr = hdr.
Proof. by destruct hdr. Qed.

(** A slot that was freed stays so when the page header is written. *)
Lemma slot_freed_write_hdr hdr s d0 d d' off bs :
  0 <= s ->
  slot_freed hdr s d0 d ->
  mem_write d off bs = Some d' ->
  off + Z.of_nat (length bs) <= sizeof_RmPageHdr ->
  slot_freed hdr s d0 d'.
Proof.
  intros Hs [Hlive Hkept] Hw Hoff. split.
  - rewrite <- Hlive. apply (slot_live_write_other _ _ _ _ _ Hw Hs). left.
    pose proof (get_bucket_nonneg s Hs). lia.
  - intros Hlt Hrs.
    by destruct (write_hdr_kept hdr s (conj Hs Hlt) Hrs d0 d d' off bs (Hkept Hlt Hrs) Hw Hoff).
Qed.

Lemma slot_freed_reset hdr s d0 x d' :
  0 <= s ->
  mem_read d0 (sizeof_RmPageHdr + get_bucket s) 1 = Some [x] ->
  mem_write d0 (sizeof_RmPageHdr + get_bucket s) [Z.ldiff x (get_bit s)] = Some d' ->
  slot_freed hdr s d0 d'.
Proof.
  intros Hs Hr Hw. split.
  - by destruct (slot_live_reset d0 s x d' Hs Hr Hw).
  - intros Hlt Hrs.
    destruct (write_bit_kept hdr s (conj Hs Hlt) Hrs d0 d0 d' x _
                (others_kept_refl hdr s d0) Hr Hw) as [Hk _]; [|done].
    intros m' Hm. by apply land_ldiff_other.
Qed.

(** release_page_handle writes the link into the page header, makes the page
    the head of the free list and unpins it. *)
Lemma release_page_handle_spec pid f (phi : list Z -> Prop) fd0 hdr h
    (E : RmFileHandle -> Prop) :
  page h = f -> page_hdr h = 0 ->
  (forall fh, E fh) ->
  (forall d d' off bs, phi d -> mem_write d off bs = Some d' ->
                       off + Z.of_nat (length bs) <= sizeof_RmPageHdr -> phi d') ->
  triple (at_file (holding pid f phi) fd0 hdr) (release_page_handle h)
         (fun _ fh => exists x, at_file (cached_with pid phi) fd0
                                  (with_first_free_page_no x hdr) fh) E.
Proof.
  intros Hf Hph HE Hphi. unfold release_page_handle. rewrite Hf, Hph.
  eapply triple_bind; [apply at_file_get|]. intros fh1.
  apply triple_pure. intros [Hfd Hhdr].
  eapply triple_bind;
    [apply at_file_on_pool; [apply (holding_store_int _ _ phi phi) | done]|].
  { intros d d' Hd Hw. apply (Hphi _ _ _ _ Hd Hw). done. }
  intros ?. eapply triple_bind; [apply at_file_get_page_id|]. intros pid'.
  apply triple_pure. intros ->.
  eapply triple_bind; [apply at_file_set_first_free|]. intros ?.
  apply triple_exists. intros x.
  apply at_file_release; [done|]. apply triple_ret. intros fh Hfh. by exists x.
Qed.

(** What delete_record leaves when it returned. *)
Lemma delete_record_spec fh0 rid :
  table_inv (pool fh0) -> pool_inv (pool fh0) ->
  triple (eq fh0) (delete_record rid)
    (fun _ fh => exists pg0 x,
       page_of fh0 (rid_page_no rid) = Some pg0 /\ 0 <= slot_no rid /\
       slot_live (data_ pg0) (slot_no rid) = Some true /\
       at_file (cached_with (mkPageId (fd_ fh0) (rid_page_no rid))
                  (slot_freed (file_hdr_ fh0) (slot_no rid) (data_ pg0)))
               (fd_ fh0) (with_first_free_page_no x (file_hdr_ fh0)) fh)
    (fun _ => True).
Proof.
  intros Ht Hp. unfold delete_record.
  eapply triple_bind; [by apply at_file_fetch_page_handle|]. intros h.
  apply triple_pure. intros Hh. destruct h as [f ph bm sl]. simpl in Hh.
  injection Hh as -> -> ->. simpl.
  apply triple_exists. intros pg0. apply triple_pure. intros Hpg0.
  eapply triple_bind; [apply at_file_on_pool; [apply holding_is_set | done]|].
  intros present. destruct present; simpl; [|apply at_file_release; [done|]; by apply triple_throw].
  set (phi := fun d => 0 <= slot_no rid /\ slot_live (data_ pg0) (slot_no rid) = Some true /\
                       slot_freed (file_hdr_ fh0) (slot_no rid) (data_ pg0) d).
  assert (Hphi : forall d d' off bs, phi d -> mem_write d off bs = Some d' ->
                   off + Z.of_nat (length bs) <= sizeof_RmPageHdr -> phi d').
  { intros d d' off bs (Hpos & Hlive & Hfreed) Hw Hoff.
    split; [done|]. split; [done|]. by apply (slot_freed_write_hdr _ _ _ d d' off bs). }
  eapply triple_bind;
    [apply at_file_on_pool; [apply (holding_reset _ _ _ phi) | done]|].
  { intros d x d' (<- & _ & y & Hy & Hset) Hpos Hx Hw.
    split; [done|]. split.
    - rewrite (slot_live_read _ _ _ Hy). by rewrite <- Hset.
    - by apply (slot_freed_reset _ _ _ x). }
  intros ?.
  eapply triple_bind; [apply at_file_on_pool; [apply holding_load_int_keep | done]|].
  intros n.
  eapply triple_bind; [apply at_file_keep_int_add|]. intros n'.
  eapply triple_bind;
    [apply at_file_on_pool; [apply (holding_store_int _ _ phi phi) | done]|].
  { intros d d' Hd Hw. apply (Hphi _ _ _ _ Hd Hw). done. }
  intros ?.
  eapply triple_bind; [apply at_file_on_pool; [apply holding_load_int_keep | done]|].
  intros n2.
  eapply triple_bind; [apply at_file_keep_int_add|]. intros n1.
  eapply triple_bind; [apply at_file_get|]. intros fh1.
  apply triple_pure. intros [Hfd Hhdr].
  assert (Hpost : forall x fh,
            at_file (cached_with (mkPageId (fd_ fh0) (rid_page_no rid)) phi) (fd_ fh0)
                    (with_first_free_page_no x (file_hdr_ fh0)) fh ->
            exists pg1 x1,
              page_of fh0 (rid_page_no rid) = Some pg1 /\ 0 <= slot_no rid /\
              slot_live (data_ pg1) (slot_no rid) = Some true /\
              at_file (cached_with (mkPageId (fd_ fh0) (rid_page_no rid))
                         (slot_freed (file_hdr_ fh0) (slot_no rid) (data_ pg1)))
                      (fd_ fh0) (with_first_free_page_no x1 (file_hdr_ fh0)) fh).
  { intros x fh Hfh. exists pg0, x.
    destruct (cached_with_frame _ _ _ _ _ Hfh)
      as (f' & pg & _ & _ & _ & _ & (Hpos & Hlive & Hfreed) & _).
    split; [done|]. split; [done|]. split; [done|].
    destruct Hfh as ((Ht' & Hp' & f2 & pg2 & ? & ? & ? & ? & ? & ?) & Hrest).
    split; [|done]. split; [done|]. split; [done|]. by exists f2, pg2. }
  case_bool_decide.
  - eapply triple_post;
      [apply (release_page_handle_spec _ f phi); [done | done | done | exact Hphi]|].
    intros ? fh [x Hfh]. by apply (Hpost x).
  - apply at_file_release; [done|]. apply triple_ret. intros fh Hfh.
    apply (Hpost (first_free_page_no (file_hdr_ fh0))).
    by rewrite with_first_free_page_no_same.
Qed.

End DeleteRecord.

(** ** update_record and delete_record, as get_record sees them *)

Section UpdateDelete.
Context {cfg : Config}.

Local Abbreviation pool := buffer_pool_manager_.

Lemma update_record_Ret rid buf fh fh1 :
  table_inv (pool fh) -> pool_inv (pool fh) ->
  slot_no rid < 8 * bitmap_size (file_hdr_ fh) ->
  update_record rid buf fh = (Ret tt, fh1) ->
  exists pg0 bytes,
    page_of fh (rid_page_no rid) = Some pg0 /\
    0 <= slot_no rid /\ 0 <= record_size (file_hdr_ fh) /\
    bytes = take (Z.to_nat (record_size (file_hdr_ fh))) buf /\
    at_file (cached_with (mkPageId (fd_ fh) (rid_page_no rid))
               (fun d => slot_live d (slot_no rid) = Some true /\
                         slot_bytes (file_hdr_ fh) d (slot_no rid) = Some bytes /\
                         others_kept (file_hdr_ fh) (slot_no rid) (data_ pg0) d))
            (fd_ fh) (file_hdr_ fh) fh1.
Proof.
  intros Ht Hp Hlt Hrun. pose proof (update_record_spec fh rid buf Ht Hp fh eq_refl) as H.
  rewrite Hrun in H. destruct H as (pg0 & bytes & Hpg0 & Hpos & Hlive & Hbytes & Hfh).
  apply mem_read_Some in Hbytes as (_ & Hrs & _ & Hb & Hlen).
  rewrite drop_0 in Hb. exists pg0, bytes.
  split; [done|]. split; [done|]. split; [done|]. split; [done|].
  destruct Hfh as ((Ht1 & Hp1 & f & pg & Htab & Hpg & Hpin & Hw) & Hrest).
  split; [|done]. split; [done|]. split; [done|]. exists f, pg.
  split; [done|]. split; [done|]. split; [done|].
  destruct (write_slot_kept (file_hdr_ fh) (slot_no rid) (conj Hpos Hlt) Hrs
              (data_ pg0) (data_ pg0) (data_ pg) bytes
              (others_kept_refl _ _ _) ltac:(lia) Hw) as (Hk & Hl & Hb').
  split; [by rewrite Hl|]. by split.
Qed.

Lemma delete_record_Ret rid fh fh1 :
  table_inv (pool fh) -> pool_inv (pool fh) ->
  delete_record rid fh = (Ret tt, fh1) ->
  exists pg0 x,
    page_of fh (rid_page_no rid) = Some pg0 /\ 0 <= slot_no rid /\
    at_file (cached_with (mkPageId (fd_ fh) (rid_page_no rid))
               (slot_freed (file_hdr_ fh) (slot_no rid) (data_ pg0)))
            (fd_ fh) (with_first_free_page_no x (file_hdr_ fh)) fh1.
Proof.
  intros Ht Hp Hrun. pose proof (delete_record_spec fh rid Ht Hp fh eq_refl) as H.
  rewrite Hrun in H. destruct H as (pg0 & x & Hpg0 & Hpos & _ & Hfh). by exists pg0, x.
Qed.

(** On a file handle over a reachable pool: after update_record returned,
    get_record on the same Rid returns the first record_size bytes of the
    buffer that was passed, whatever the record held before.  The slot must
    lie inside the bitmap of the page. *)
Theorem update_record_then_get_record rid buf fh fh1 :
  reachable (pool fh) ->
  slot_no rid < 8 * bitmap_size (file_hdr_ fh) ->
  update_record rid buf fh = (Ret tt, fh1) ->
  exists fh2,
    get_record rid fh1 = (Ret (take (Z.to_nat (record_size (file_hdr_ fh))) buf), fh2).
Proof.
  intros Hreach Hlt Hrun.
  pose proof (reachable_table_inv _ Hreach) as Ht.
  pose proof (reachable_pool_inv _ Hreach) as Hp.
  destruct (update_record_Ret _ _ _ _ Ht Hp Hlt Hrun)
    as (pg0 & bytes & _ & Hpos & _ & -> & Hfh).
  destruct rid as [p s]. simpl in *.
  apply (get_record_cached_live p s _ _ _ _ _ Hfh); [|done].
  by intros d (? & ? & _).
Qed.

(** update_record changes no other record of the page: on a file handle over
    a reachable pool, a record in another slot of the same page that
    get_record returned before the update is returned unchanged after it.
    Both slots must lie inside the bitmap. *)
Theorem update_record_keeps_other_records rid buf fh fh1 rid' r fh' :
  reachable (pool fh) ->
  slot_no rid < 8 * bitmap_size (file_hdr_ fh) ->
  slot_no rid' < 8 * bitmap_size (file_hdr_ fh) ->
  rid_page_no rid' = rid_page_no rid -> slot_no rid' <> slot_no rid ->
  update_record rid buf fh = (Ret tt, fh1) ->
  get_record rid' fh = (Ret r, fh') ->
  exists fh2, get_record rid' fh1 = (Ret r, fh2).
Proof.
  intros Hreach Hlt Hlt' Hpage Hslot Hrun Hget.
  pose proof (reachable_table_inv _ Hreach) as Ht.
  pose proof (reachable_pool_inv _ Hreach) as Hp.
  destruct (update_record_Ret _ _ _ _ Ht Hp Hlt Hrun)
    as (pg0 & bytes & Hpg0 & Hpos & _ & _ & Hfh).
  destruct (get_record_Ret _ _ _ _ Ht Hp Hget) as (pg0' & Hpg0' & Hpos' & Hlive & Hbytes).
  rewrite Hpage, Hpg0 in Hpg0'. injection Hpg0' as <-.
  destruct rid as [p s], rid' as [p' s']. simpl in *. subst p'.
  apply (get_record_cached_live p s' _ _ _ _ _ Hfh); [|done].
  intros d (_ & _ & Hl & Hb). rewrite Hl, Hb by (done || lia). done.
Qed.

(** On a file handle over a reachable pool: after delete_record returned,
    get_record on the same Rid throws the error of a record that does not
    exist. *)
Theorem delete_record_then_get_record rid fh fh1 :
  reachable (pool fh) ->
  delete_record rid fh = (Ret tt, fh1) ->
  exists fh2, get_record rid fh1 = (Throw RuntimeError, fh2).
Proof.
  intros Hreach Hrun.
  pose proof (reachable_table_inv _ Hreach) as Ht.
  pose proof (reachable_pool_inv _ Hreach) as Hp.
  destruct (delete_record_Ret _ _ _ Ht Hp Hrun) as (pg0 & x & _ & Hpos & Hfh).
  destruct rid as [p s]. simpl in *.
  apply (get_record_cached_dead p s _ _ _ _ Hfh); [|done].
  by intros d [? _].
Qed.

(** delete_record changes no other record of the page: on a file handle over
    a reachable pool, a record in another slot of the same page that
    get_record returned before the delete is returned unchanged after it.
    Both slots must lie inside the bitmap. *)
Theorem delete_record_keeps_other_records rid fh fh1 rid' r fh' :
  reachable (pool fh) ->
  slot_no rid < 8 * bitmap_size (file_hdr_ fh) ->
  slot_no rid' < 8 * bitmap_size (file_hdr_ fh) ->
  rid_page_no rid' = rid_page_no rid -> slot_no rid' <> slot_no rid ->
  delete_record rid fh = (Ret tt, fh1) ->
  get_record rid' fh = (Ret r, fh') ->
  exists fh2, get_record rid' fh1 = (Ret r, fh2).
Proof.
  intros Hreach Hlt Hlt' Hpage Hslot Hrun Hget.
  pose proof (reachable_table_inv _ Hreach) as Ht.
  pose proof (reachable_pool_inv _ Hreach) as Hp.
  destruct (delete_record_Ret _ _ _ Ht Hp Hrun) as (pg0 & x & Hpg0 & Hpos & Hfh).
  destruct (get_record_Ret _ _ _ _ Ht Hp Hget) as (pg0' & Hpg0' & Hpos' & Hlive & Hbytes).
  rewrite Hpage, Hpg0 in Hpg0'. injection Hpg0' as <-.
  assert (Hrs : 0 <= record_size (file_hdr_ fh)).
  { unfold slot_bytes in Hbytes. by apply mem_read_Some in Hbytes as (_ & ? & _). }
  destruct rid as [p s], rid' as [p' s']. simpl in *. subst p'.
  apply (get_record_cached_live p s' _ _ _ _ _ Hfh); [|done].
  intros d [_ Hk]. destruct (Hk Hlt Hrs) as [Hl Hb].
  rewrite Hl by (done || lia). split; [done|].
  change (slot_bytes (with_first_free_page_no x (file_hdr_ fh)) d s')
    with (slot_bytes (file_hdr_ fh) d s').
  by rewrite Hb.
Qed.

End UpdateDelete.

(** ** Inserting a record into a page of the free list *)

Section InsertRecord.
Context {cfg : Config}.

Local Abbreviation pool := buffer_pool_manager_.

(** The first-fit scan of the bitmap. *)
Lemma holding_scan_bits n bit pid f (E : BufferPoolManager -> Prop) : forall phi i,
  triple (holding pid f phi) (scan_bits n bit f sizeof_RmPageHdr i)
         (fun r => holding pid f
            (fun d => phi d /\
               (r = INT_MAX \/
                (0 <= i <= r /\ r < i + Z.of_nat n /\ slot_live d r = Some bit /\
                 forall s', i <= s' < r -> slot_live d s' = Some (negb bit))))) E.
Proof.
  induction n as [|n IH]; intros phi i.
  - apply triple_ret. intros b. apply holding_conseq. auto.
  - change (scan_bits (S n) bit f sizeof_RmPageHdr i)
      with (let* b := Bitmap_is_set f sizeof_RmPageHdr i in
            if bool_decide (b = bit) then ret i
            else scan_bits n bit f sizeof_RmPageHdr (i + 1)).
    eapply triple_bind; [apply holding_is_set|]. intros b0.
    case_bool_decide as Hbit.
    + apply triple_ret. intros b. apply holding_conseq.
      intros d (Hphi & Hpos & x & Hx & ->). split; [done|]. right.
      split; [lia|]. split; [lia|]. split.
      * rewrite (slot_live_read _ _ _ Hx). by rewrite Hbit.
      * intros s' ?. lia.
    + eapply triple_post; [apply IH|]. intros r b. apply holding_conseq.
      intros d ((Hphi & Hpos & x & Hx & ->) & Hr). split; [done|].
      destruct Hr as [->|(Hi & Hlt & Hlive & Hlow)]; [by left|]. right.
      split; [lia|]. split; [lia|]. split; [done|].
      intros s' Hs'. destruct (decide (s' = i)) as [->|Hne]; [|apply Hlow; lia].
      rewrite (slot_live_read _ _ _ Hx). f_equal.
      destruct (bool_decide _), bit; done.
Qed.

Lemma holding_first_bit bit pid f phi max_n (E : BufferPoolManager -> Prop) :
  triple (holding pid f phi) (Bitmap_first_bit bit f sizeof_RmPageHdr max_n)
         (fun r => holding pid f
            (fun d => phi d /\
               (r = INT_MAX \/
                (0 <= r < max_n /\ slot_live d r = Some bit /\
                 forall s', 0 <= s' < r -> slot_live d s' = Some (negb bit))))) E.
Proof.
  unfold Bitmap_first_bit. eapply triple_post; [apply holding_scan_bits|].
  intros r b. apply holding_conseq. intros d (Hphi & Hr). split; [done|].
  destruct Hr as [->|(Hi & Hlt & Hlive & Hlow)]; [by left|]. right.
  split; [lia|]. by split.
Qed.

Lemma at_file_unpin pid f phi fd0 hdr d (E : RmFileHandle -> Prop) :
  (forall fh, E fh) ->
  triple (at_file (holding pid f phi) fd0 hdr) (on_pool (unpin_page pid d))
         (fun _ => at_file (cached_with pid phi) fd0 hdr) E.
Proof. intros HE. apply at_file_on_pool; [apply holding_unpin | done]. Qed.

Lemma slot_filled_write_hdr hdr s bytes d0 d d' off bs :
  s < 8 * bitmap_size hdr -> 0 <= record_size hdr ->
  slot_filled hdr s bytes d0 d ->
  mem_write d off bs = Some d' ->
  off + Z.of_nat (length bs) <= sizeof_RmPageHdr ->
  slot_filled hdr s bytes d0 d'.
Proof.
  intros Hlt Hrs (Hs & Hfree & Hlow & Hfit & Hlive & Hbytes & Hk) Hw Hoff.
  destruct (write_hdr_kept hdr s ltac:(lia) Hrs d0 d d' off bs Hk Hw Hoff)
    as (Hk' & Hl' & Hb').
  split; [done|]. split; [done|]. split; [done|]. split; [done|].
  split; [by rewrite Hl'|]. split; [by rewrite Hb'|]. done.
Qed.

(** What insert_record leaves when it took a page of the free list and
    returned. *)
Lemma insert_record_spec fh0 buf :
  table_inv (pool fh0) -> pool_inv (pool fh0) ->
  first_free_page_no (file_hdr_ fh0) <> RM_NO_FREE_PAGE ->
  num_records_per_page (file_hdr_ fh0) <= 8 * bitmap_size (file_hdr_ fh0) ->
  triple (eq fh0) (insert_record buf)
    (fun rid fh => exists pg0 bytes x,
       page_of fh0 (first_free_page_no (file_hdr_ fh0)) = Some pg0 /\
       rid_page_no rid = first_free_page_no (file_hdr_ fh0) /\
       mem_read buf 0 (record_size (file_hdr_ fh0)) = Some bytes /\
       at_file (cached_with (mkPageId (fd_ fh0) (first_free_page_no (file_hdr_ fh0)))
                  (slot_filled (file_hdr_ fh0) (slot_no rid) bytes (data_ pg0)))
               (fd_ fh0) (with_first_free_page_no x (file_hdr_ fh0)) fh)
    (fun _ => True).
Proof.
  intros Ht Hp Hfree Hlayout. unfold insert_record.
  set (hdr := file_hdr_ fh0). set (p := first_free_page_no hdr).
  assert (Hlayout' : num_records_per_page hdr <= 8 * bitmap_size hdr) by exact Hlayout.
  eapply triple_bind.
  { unfold create_page_handle.
    eapply triple_bind; [apply (triple_get _ (fun a fh => a = fh0 /\ fh0 = fh)); by intros ? <-|].
    intros fh. apply triple_pure. intros ->.
    rewrite bool_decide_eq_true_2 by done.
    by apply (at_file_fetch_page_handle fh0 p (fun _ => True)). }
  intros h. apply triple_pure. intros Hh. destruct h as [f ph bm sl]. simpl in Hh.
  injection Hh as -> -> ->. simpl.
  apply triple_exists. intros pg0. apply triple_pure. intros Hpg0.
  eapply triple_bind; [apply at_file_get|]. intros fh1.
  apply triple_pure. intros [Hfd Hhdr]. rewrite Hhdr. fold hdr.
  eapply triple_bind; [apply at_file_on_pool; [apply holding_first_bit | done]|].
  intros s. case_bool_decide as Hmax.
  { apply at_file_release; [done|]. by apply triple_throw. }
  (* the bit of the slot *)
  set (phi2 := fun d : list Z =>
         length d = length (data_ pg0) /\
         (0 <= s < num_records_per_page hdr /\
          slot_live (data_ pg0) s = Some false /\
          (forall s', 0 <= s' < s -> slot_live (data_ pg0) s' = Some true)) /\
         slot_live d s = Some true /\
         (0 <= record_size hdr ->
          others_kept hdr s (data_ pg0) d /\
          slot_bytes hdr d s = slot_bytes hdr (data_ pg0) s)).
  eapply triple_bind;
    [apply at_file_on_pool; [apply (holding_set _ _ _ phi2) | done]|].
  { intros d x d' (<- & [?|(Hs & Hlive & Hlow)]) Hpos Hx Hw; [done|].
    split; [by apply mem_write_length in Hw|]. split; [done|].
    split; [by destruct (slot_live_set _ _ _ _ Hpos Hx Hw)|].
    intros Hrs.
    destruct (write_bit_kept hdr s ltac:(lia) Hrs (data_ pg0) (data_ pg0) d' x _
                (others_kept_refl hdr s _) Hx Hw) as (Hk & _ & Hb); [|done].
    intros m' Hm. by apply land_lor_other. }
  intros ?.
  eapply triple_bind; [apply at_file_defined|]. intros bytes.
  apply triple_pure. intros Hbytes.
  pose proof Hbytes as Hbytes'. apply mem_read_Some in Hbytes' as (_ & Hrs & _ & _ & Hlen).
  (* the bytes of the slot *)
  set (phi3 := slot_filled hdr s bytes (data_ pg0)).
  assert (Hphi3 : forall d d' off bs, phi3 d -> mem_write d off bs = Some d' ->
                    off + Z.of_nat (length bs) <= sizeof_RmPageHdr -> phi3 d').
  { intros d d' off bs Hd Hw Hoff.
    apply (slot_filled_write_hdr hdr s bytes _ d d' off bs); try done.
    destruct Hd as (Hs & _). lia. }
  eapply triple_bind;
    [apply at_file_on_pool; [apply (holding_store _ _ _ phi3) | done]|].
  { intros d d' (Hlen0 & (Hs & Hf0 & Hlow) & Hlive & Hk) Hw.
    destruct (Hk Hrs) as [Hk1 Hb1]. unfold get_slot in Hw. simpl in Hw.
    destruct (write_slot_kept hdr s ltac:(lia) Hrs (data_ pg0) d d' bytes Hk1
                ltac:(lia) Hw) as (Hk' & Hl' & Hb').
    split; [done|]. split; [done|]. split; [done|]. split.
    { apply mem_write_Some in Hw as (_ & Hfit & _). lia. }
    split; [by rewrite Hl'|]. by split. }
  intros ?.
  eapply triple_bind; [apply at_file_on_pool; [apply holding_load_int_keep | done]|].
  intros n.
  eapply triple_bind; [apply at_file_keep_int_add|]. intros n'.
  eapply triple_bind;
    [apply at_file_on_pool; [apply (holding_store_int _ _ phi3 phi3) | done]|].
  { intros d d' Hd Hw. apply (Hphi3 _ _ _ _ Hd Hw). done. }
  intros ?.
  eapply triple_bind; [apply at_file_get_page_id|]. intros pid'.
  apply triple_pure. intros ->. simpl.
  eapply triple_bind; [apply at_file_on_pool; [apply holding_load_int_keep | done]|].
  intros n2.
  eapply triple_bind; [apply at_file_get|]. intros fh2.
  apply triple_pure. intros [Hfd2 Hhdr2].
  eapply (triple_bind _ _ _
            (fun _ fh => exists x, at_file (holding (mkPageId (fd_ fh0) p) f phi3) (fd_ fh0)
                                     (with_first_free_page_no x hdr) fh)).
  { assert (Hsame : triple (at_file (holding (mkPageId (fd_ fh0) p) f phi3) (fd_ fh0) hdr)
                      (ret tt)
                      (fun _ fh => exists x,
                         at_file (holding (mkPageId (fd_ fh0) p) f phi3) (fd_ fh0)
                           (with_first_free_page_no x hdr) fh) (fun _ => True)).
    { apply triple_ret. intros fh Hfh. exists (first_free_page_no hdr).
      by rewrite with_first_free_page_no_same. }
    case_bool_decide; [|exact Hsame]. case_bool_decide; [|exact Hsame].
    eapply triple_bind; [apply at_file_on_pool; [apply holding_load_int_keep | done]|].
    intros next. apply (at_file_set_first_free _ _ _ (fun _ => next)). }
  intros ?. apply triple_exists. intros x.
  eapply triple_bind; [by apply at_file_unpin|]. intros ?.
  apply triple_ret. intros fh Hfh. exists pg0, bytes, x. simpl.
  split; [done|]. split; [done|]. split; [done|]. exact Hfh.
Qed.

End InsertRecord.

(** ** insert_record, as get_record sees it *)

Section InsertSeen.
Context {cfg : Config}.

Local Abbreviation pool := buffer_pool_manager_.

(** get_record, from the page that fetch_page_handle finds. *)
Lemma get_record_of_page fh p s pg0 :
  table_inv (pool fh) -> pool_inv (pool fh) ->
  page_of fh p = Some pg0 -> 0 <= s ->
  match slot_live (data_ pg0) s with
  | Some false => exists fh2, get_record (mkRid p s) fh = (Throw RuntimeError, fh2)
  | Some true =>
      forall r, slot_bytes (file_hdr_ fh) (data_ pg0) s = Some r ->
                exists fh2, get_record (mkRid p s) fh = (Ret r, fh2)
  | None => True
  end.
Proof.
  intros Ht Hp Hpage Hs.
  pose proof (at_file_fetch_page_handle fh p (fun _ => True) Ht Hp (fun _ => I) fh eq_refl)
    as H.
  unfold page_of in Hpage.
  destruct (fetch_page_handle p fh) as [[h|e] fha] eqn:Hf; [|done].
  destruct H as (Hh & pg0' & Hpg0' & (Hta & Hpa & Htab & pg & Hpg & Hpin & Hdata) & Hfd & Hhdr).
  unfold page_of in Hpg0'. rewrite Hf, Hpage in Hpg0'. injection Hpg0' as <-.
  rewrite Hpage in Hpg. injection Hpg as <-. clear Hdata.
  destruct h as [f ph bm sl]. simpl in *. injection Hh as -> -> ->.
  destruct (slot_live (data_ pg0) s) as [live|] eqn:Hlive; [|done].
  apply slot_live_Some in Hlive as (x & Hx & ->).
  assert (His : on_pool (Bitmap_is_set f sizeof_RmPageHdr s) fha
                = (Ret (bool_decide (Z.land x (get_bit s) <> 0)), fha)).
  { unfold on_pool.
    rewrite (zoom_run _ _ _ _ _ _ (Bitmap_is_set_run _ _ _ _ pg0 [x] Hs Hpage Hx)).
    by rewrite with_pool_id. }
  assert (Hmax : 0 <= pin_count_ pg0 <= INT_MAX).
  { destruct Hpa as (_ & _ & Hpins & _). apply (Hpins f). by rewrite pins_lookup, Hpage. }
  destruct (table_inv_frame _ _ _ Hta Htab) as (pg' & Hpg' & Hid).
  rewrite Hpage in Hpg'. injection Hpg' as <-.
  assert (Htab' : page_table_ (pool fha) !! id_ pg0 = Some f) by (by rewrite Hid).
  destruct (unpin_page_held (id_ pg0) false (pool fha) f pg0 Htab' Hpage Hmax)
    as (u & pg'' & Hun & _).
  unfold get_record. rewrite (bind_run _ _ _ _ _ Hf). simpl.
  rewrite (bind_run _ _ _ _ _ His).
  destruct (bool_decide (Z.land x (get_bit s) <> 0)); simpl.
  - intros r Hr. unfold bind at 1, get at 1.
    assert (Hld : on_pool (load f (get_slot (file_hdr_ fha)
                                     {| page := f; page_hdr := 0; bitmap := sizeof_RmPageHdr;
                                        slots := sizeof_RmPageHdr + bitmap_size (file_hdr_ fh) |}
                                     s) (record_size (file_hdr_ fha))) fha
                  = (Ret r, fha)).
    { assert (Hr' : mem_read (data_ pg0)
                      (get_slot (file_hdr_ fha)
                         {| page := f; page_hdr := 0; bitmap := sizeof_RmPageHdr;
                            slots := sizeof_RmPageHdr + bitmap_size (file_hdr_ fh) |} s)
                      (record_size (file_hdr_ fha)) = Some r).
      { unfold get_slot. simpl. rewrite Hhdr. exact Hr. }
      unfold on_pool. rewrite (zoom_run _ _ _ _ _ _ (load_run _ _ _ _ pg0 r Hpage Hr')).
      by rewrite with_pool_id. }
    rewrite (bind_run _ _ _ _ _ Hld).
    rewrite (bind_run _ _ _ _ _ (get_page_id_run _ _ _ Hpage)).
    unfold bind, on_pool, zoom. rewrite Hun. eauto.
  - rewrite (bind_run _ _ _ _ _ (get_page_id_run _ _ _ Hpage)).
    unfold bind, on_pool, zoom. rewrite Hun. eauto.
Qed.

Lemma insert_record_Ret buf fh rid fh1 :
  table_inv (pool fh) -> pool_inv (pool fh) ->
  first_free_page_no (file_hdr_ fh) <> RM_NO_FREE_PAGE ->
  num_records_per_page (file_hdr_ fh) <= 8 * bitmap_size (file_hdr_ fh) ->
  insert_record buf fh = (Ret rid, fh1) ->
  exists pg0 bytes x,
    page_of fh (first_free_page_no (file_hdr_ fh)) = Some pg0 /\
    rid_page_no rid = first_free_page_no (file_hdr_ fh) /\
    0 <= record_size (file_hdr_ fh) /\
    at_file (cached_with (mkPageId (fd_ fh) (first_free_page_no (file_hdr_ fh)))
               (slot_filled (file_hdr_ fh) (slot_no rid) bytes (data_ pg0)))
            (fd_ fh) (with_first_free_page_no x (file_hdr_ fh)) fh1.
Proof.
  intros Ht Hp Hfree Hlayout Hrun.
  pose proof (insert_record_spec fh buf Ht Hp Hfree Hlayout fh eq_refl) as H.
  rewrite Hrun in H. destruct H as (pg0 & bytes & x & Hpg0 & Hpage & Hbytes & Hfh).
  exists pg0, bytes, x. apply mem_read_Some in Hbytes as (_ & Hrs & _). done.
Qed.

(** insert_record into a page of the free list takes the lowest free
    slot of that page: the slot it returns held no record before, and every
    lower slot of the page held one. *)
Theorem insert_record_takes_lowest_free_slot buf fh rid fh1 :
  reachable (pool fh) ->
  first_free_page_no (file_hdr_ fh) <> RM_NO_FREE_PAGE ->
  num_records_per_page (file_hdr_ fh) <= 8 * bitmap_size (file_hdr_ fh) ->
  insert_record buf fh = (Ret rid, fh1) ->
  rid_page_no rid = first_free_page_no (file_hdr_ fh) /\
  0 <= slot_no rid < num_records_per_page (file_hdr_ fh) /\
  (exists fh2, get_record rid fh = (Throw RuntimeError, fh2)) /\
  (forall s, 0 <= s < slot_no rid ->
     exists r fh2, get_record (mkRid (rid_page_no rid) s) fh = (Ret r, fh2)).
Proof.
  intros Hreach Hfree Hlayout Hrun.
  pose proof (reachable_table_inv _ Hreach) as Ht.
  pose proof (reachable_pool_inv _ Hreach) as Hp.
  destruct (insert_record_Ret _ _ _ _ Ht Hp Hfree Hlayout Hrun)
    as (pg0 & bytes & x & Hpg0 & Hpage & Hrs & Hfh).
  destruct (cached_with_frame _ _ _ _ _ Hfh)
    as (f & pg & _ & _ & _ & _ & (Hs & Hfree0 & Hlow & Hfit & _) & _).
  destruct rid as [p s]. simpl in *. subst p.
  split; [done|]. split; [done|]. split.
  - pose proof (get_record_of_page fh _ s pg0 Ht Hp Hpg0 ltac:(lia)) as H.
    by rewrite Hfree0 in H.
  - intros s' Hs'.
    pose proof (get_record_of_page fh _ s' pg0 Ht Hp Hpg0 ltac:(lia)) as H.
    rewrite (Hlow s' Hs') in H.
    assert (Hsz : sizeof_RmPageHdr = 8) by reflexivity.
    assert (Hr : is_Some (slot_bytes (file_hdr_ fh) (data_ pg0) s')).
    { unfold slot_bytes, mem_read. rewrite bool_decide_eq_true_2; [done|]. nia. }
    destruct Hr as [r Hr]. destruct (H r Hr) as [fh2 Hget]. by exists r, fh2.
Qed.

(** insert_record into a page of the free list changes no other record
    of the page: a record of that page that get_record returned before the
    insert is returned unchanged after it. *)
Theorem insert_record_keeps_other_records buf fh rid fh1 rid' r fh' :
  reachable (pool fh) ->
  first_free_page_no (file_hdr_ fh) <> RM_NO_FREE_PAGE ->
  num_records_per_page (file_hdr_ fh) <= 8 * bitmap_size (file_hdr_ fh) ->
  slot_no rid' < 8 * bitmap_size (file_hdr_ fh) ->
  rid_page_no rid' = rid_page_no rid ->
  insert_record buf fh = (Ret rid, fh1) ->
  get_record rid' fh = (Ret r, fh') ->
  exists fh2, get_record rid' fh1 = (Ret r, fh2).
Proof.
  intros Hreach Hfree Hlayout Hlt' Hsame Hrun Hget.
  pose proof (reachable_table_inv _ Hreach) as Ht.
  pose proof (reachable_pool_inv _ Hreach) as Hp.
  destruct (insert_record_Ret _ _ _ _ Ht Hp Hfree Hlayout Hrun)
    as (pg0 & bytes & x & Hpg0 & Hpage & Hrs & Hfh).
  destruct (get_record_Ret _ _ _ _ Ht Hp Hget) as (pg0' & Hpg0' & Hpos' & Hlive & Hbytes).
  rewrite Hsame, Hpage, Hpg0 in Hpg0'. injection Hpg0' as <-.
  destruct rid as [p s], rid' as [p' s']. simpl in *. subst p' p.
  apply (get_record_cached_live _ s' _ _ _ _ _ Hfh); [|done].
  intros d (Hs & Hfree0 & _ & _ & _ & _ & Hl & Hb).
  assert (Hne : s' <> s) by (intros ->; congruence).
  rewrite Hl by (done || lia). split; [done|].
  change (slot_bytes (with_first_free_page_no x (file_hdr_ fh)) d s')
    with (slot_bytes (file_hdr_ fh) d s').
  by rewrite Hb.
Qed.

End InsertSeen.

(** ** Where a scan stops *)

Section ScanStops.
Context {cfg : Config}.

Local Abbreviation pool := buffer_pool_manager_.

Lemma triple_on_file {A} (P : RmFileHandle -> Prop) (m : M RmFileHandle A) Q r :
  triple P m Q (fun _ => True) ->
  triple (fun s => P (file_handle_ s) /\ rid_ s = r) (on_file m)
         (fun a s => Q a (file_handle_ s) /\ rid_ s = r) (fun _ => True).
Proof.
  intros Hm s [HP Hr]. unfold on_file, zoom. specialize (Hm _ HP).
  destruct (m (file_handle_ s)) as [[a|e] fh]; simpl; [done|]. by destruct e.
Qed.

Lemma triple_set_rid (P : RmFileHandle -> Prop) r :
  triple (fun s => P (file_handle_ s)) (set_rid r)
         (fun _ s => P (file_handle_ s) /\ rid_ s = r) (fun _ => True).
Proof. unfold set_rid. apply triple_modify. by intros s Hs. Qed.

(** fetch_page_handle from any state of the pool. *)
Lemma fetch_page_handle_holding fd0 hdr p :
  triple (at_file (fun b => table_inv b /\ pool_inv b) fd0 hdr) (fetch_page_handle p)
         (fun h fh =>
            (bitmap h = sizeof_RmPageHdr) /\
            at_file (holding (mkPageId fd0 p) (page h) (fun _ => True)) fd0 hdr fh)
         (fun _ => True).
Proof.
  intros fh ([Ht Hp] & <- & <-).
  pose proof (at_file_fetch_page_handle fh p (fun _ => True) Ht Hp (fun _ => I) fh eq_refl)
    as H.
  destruct (fetch_page_handle p fh) as [[h|e] fha]; [|done].
  destruct H as (Hh & pg0 & _ & Hfha). split; [by rewrite Hh|].
  revert Hfha. apply at_file_conseq. intros b. by apply holding_conseq.
Qed.

Lemma holding_inv pid f phi fd0 hdr fh :
  at_file (holding pid f phi) fd0 hdr fh ->
  at_file (fun b => table_inv b /\ pool_inv b) fd0 hdr fh.
Proof. apply at_file_conseq. by intros b (? & ? & _). Qed.

(** The inner loop of next. *)
Lemma scan_slots_spec pid fd0 hdr h turns : forall p s0,
  bitmap h = sizeof_RmPageHdr ->
  triple (fun s => at_file (holding pid (page h) (fun _ => True)) fd0 hdr (file_handle_ s) /\
                   rid_ s = mkRid p s0)
         (scan_slots turns h)
         (fun found s =>
            if found then
              exists s1, (s0 <= s1 < s0 + Z.of_nat turns /\ 0 <= s1) /\
                         rid_ s = mkRid p s1 /\
                         at_file (holding pid (page h) (fun d => slot_live d s1 = Some true))
                                 fd0 hdr (file_handle_ s)
            else at_file (holding pid (page h) (fun _ => True)) fd0 hdr (file_handle_ s) /\
                 rid_page_no (rid_ s) = p)
         (fun _ => True).
Proof.
  induction turns as [|turns IH]; intros p s0 Hbm.
  - apply triple_ret. intros s [Hfh Hrid]. split; [done|]. by rewrite Hrid.
  - change (scan_slots (S turns) h)
      with (let* s := get in
            let* b := on_file (on_pool (Bitmap_is_set (page h) (bitmap h) (slot_no (rid_ s)))) in
            if b then ret true
            else set_rid (mkRid (rid_page_no (rid_ s)) (slot_no (rid_ s) + 1));;
                 scan_slots turns h).
    eapply (triple_bind _ _ _
              (fun a s => rid_ a = mkRid p s0 /\
                          (at_file (holding pid (page h) (fun _ => True)) fd0 hdr
                             (file_handle_ s) /\ rid_ s = mkRid p s0))).
    { apply triple_get. by intros s [? ?]. }
    intros a. apply triple_pure. intros Ha. rewrite Ha, Hbm. simpl.
    eapply triple_bind;
      [apply triple_on_file, at_file_on_pool; [apply holding_is_set | done]|].
    intros b. destruct b.
    + apply triple_ret. intros s [Hfh Hrid]. exists s0.
      assert (Hpos : 0 <= s0).
      { destruct Hfh as ((_ & _ & _ & pg & _ & _ & _ & ? & _) & _). done. }
      split; [lia|]. split; [done|]. revert Hfh. apply at_file_conseq.
      intros b0. apply holding_conseq. intros d (_ & _ & x & Hx & Hset).
      rewrite (slot_live_read _ _ _ Hx). by rewrite <- Hset.
    + eapply (triple_bind _ _ _
                (fun _ s => at_file (holding pid (page h) (fun _ => True)) fd0 hdr
                              (file_handle_ s) /\ rid_ s = mkRid p (s0 + 1))).
      { eapply triple_conseq;
          [apply (triple_set_rid
                    (at_file (holding pid (page h) (fun _ => True)) fd0 hdr)) | | |]; simpl.
        - intros s [Hfh _]. revert Hfh. apply at_file_conseq.
          intros b0. by apply holding_conseq.
        - done.
        - done. }
      intros ?. eapply triple_post; [by apply IH|].
      intros found s. destruct found; [|done].
      intros (s1 & Hs1 & Hrest). exists s1. split; [lia|]. done.
Qed.

(** The outer loop of next. *)
Lemma scan_pages_spec fd0 hdr turns : forall p0,
  triple (fun s => at_file (fun b => table_inv b /\ pool_inv b) fd0 hdr (file_handle_ s) /\
                   rid_page_no (rid_ s) = p0)
         (scan_pages turns)
         (fun found s =>
            if found then
              exists p s1 f,
                (p0 <= p < p0 + Z.of_nat turns /\ 0 <= s1 < num_records_per_page hdr) /\
                rid_ s = mkRid p s1 /\
                at_file (holding (mkPageId fd0 p) f (fun d => slot_live d s1 = Some true))
                        fd0 hdr (file_handle_ s)
            else True)
         (fun _ => True).
Proof.
  induction turns as [|turns IH]; intros p0.
  - by apply triple_ret.
  - change (scan_pages (S turns))
      with (let* s := get in
            let* page_handle := on_file (fetch_page_handle (rid_page_no (rid_ s))) in
            let records_per_page := num_records_per_page (file_hdr_ (file_handle_ s)) in
            let* found := scan_slots (Z.to_nat (records_per_page - slot_no (rid_ s)))
                            page_handle in
            if found then ret true
            else
              let* s := get in
              set_rid (mkRid (rid_page_no (rid_ s) + 1) 0);;
              scan_pages turns).
    eapply (triple_bind _ _ _
              (fun a s => (rid_page_no (rid_ a) = p0 /\ file_hdr_ (file_handle_ a) = hdr) /\
                          (at_file (fun b => table_inv b /\ pool_inv b) fd0 hdr
                             (file_handle_ s) /\ rid_ s = rid_ a))).
    { apply triple_get. intros s [Hfh Hrid]. split; [|done]. split; [done|].
      by destruct Hfh as (_ & _ & ?). }
    intros a. apply triple_pure. intros [Hp0 Hhdr]. rewrite Hp0, Hhdr. cbv zeta.
    eapply triple_bind; [apply triple_on_file, fetch_page_handle_holding|].
    intros h. cbv beta.
    eapply (triple_bind _ _ _
              (fun (found : bool) (s : RmScan) =>
                 if found then
                   exists s1,
                     (slot_no (rid_ a) <= s1
                      < slot_no (rid_ a)
                        + Z.of_nat (Z.to_nat (num_records_per_page hdr - slot_no (rid_ a))) /\
                      0 <= s1) /\
                     rid_ s = mkRid p0 s1 /\
                     at_file (holding (mkPageId fd0 p0) (page h)
                                (fun d => slot_live d s1 = Some true))
                             fd0 hdr (file_handle_ s)
                 else at_file (holding (mkPageId fd0 p0) (page h) (fun _ => True)) fd0 hdr
                        (file_handle_ s) /\ rid_page_no (rid_ s) = p0)).
    { intros s [[Hbm Hfh] Hrid].
      apply (scan_slots_spec (mkPageId fd0 p0) fd0 hdr h _ p0 (slot_no (rid_ a)) Hbm).
      split; [done|]. rewrite Hrid. destruct (rid_ a) as [pa sa]. simpl in *. by subst. }
    intros found. destruct found.
    + apply triple_ret. intros s (s1 & Hs1 & Hrid & Hfh). exists p0, s1, (page h).
      split; [|done]. split; lia.
    + eapply (triple_bind _ _ _
                (fun a' s => rid_page_no (rid_ a') = p0 /\
                             at_file (fun b => table_inv b /\ pool_inv b) fd0 hdr
                               (file_handle_ s))).
      { apply triple_get. intros s [Hfh Hrid]. split; [done|]. by apply holding_inv in Hfh. }
      intros a'. apply triple_pure. intros ->.
      eapply (triple_bind _ _ _
                (fun _ s => at_file (fun b => table_inv b /\ pool_inv b) fd0 hdr
                              (file_handle_ s) /\
                            rid_page_no (rid_ s) = p0 + 1)).
      { eapply triple_post;
          [apply (triple_set_rid (at_file (fun b => table_inv b /\ pool_inv b) fd0 hdr))|].
        intros ? s [Hfh Hrid]. split; [done|]. by rewrite Hrid. }
      intros ?. eapply triple_post; [apply IH|].
      intros found s. destruct found; [|done].
      intros (p & s1 & f & Hb & Hrest). exists p, s1, f. split; [lia|]. done.
Qed.

(** RmScan::next: when it returned and the scan is not at its end, the scan
    is at a slot of a page that is cached and pinned, and the bit of the
    slot is set. *)
Lemma next_spec fd0 hdr :
  triple (fun s => at_file (fun b => table_inv b /\ pool_inv b) fd0 hdr (file_handle_ s))
         next
         (fun _ s =>
            is_end s = false ->
            exists f,
              (rid_page_no (rid_ s) < num_pages hdr /\
               0 <= slot_no (rid_ s) < num_records_per_page hdr) /\
              at_file (holding (mkPageId fd0 (rid_page_no (rid_ s))) f
                         (fun d => slot_live d (slot_no (rid_ s)) = Some true))
                      fd0 hdr (file_handle_ s))
         (fun _ => True).
Proof.
  unfold next.
  set (J := at_file (fun b => table_inv b /\ pool_inv b) fd0 hdr).
  eapply (triple_bind _ _ _
            (fun a s => file_hdr_ (file_handle_ a) = hdr /\ J (file_handle_ s))).
  { apply triple_get. intros s Hfh. split; [|done]. by destruct Hfh as (_ & _ & ?). }
  intros a. apply triple_pure. intros Hhdr. rewrite Hhdr.
  case_bool_decide as Hempty.
  { eapply triple_post; [apply (triple_set_rid J)|].
    intros ? s [_ Hrid]. unfold is_end. rewrite Hrid. by simpl. }
  eapply (triple_bind _ _ _ (fun _ s => J (file_handle_ s))).
  { case_bool_decide.
    - eapply triple_post; [apply (triple_set_rid J)|]. by intros ? s [? _].
    - by apply triple_ret. }
  intros ?.
  eapply (triple_bind _ _ _ (fun _ s => J (file_handle_ s))).
  { by apply triple_get. }
  intros a1.
  eapply (triple_bind _ _ _ (fun _ s => J (file_handle_ s))).
  { by apply triple_int_add. }
  intros n.
  eapply (triple_bind _ _ _ (fun _ s => J (file_handle_ s))).
  { eapply triple_post; [apply (triple_set_rid J)|]. by intros ? s [? _]. }
  intros ?.
  eapply (triple_bind _ _ _
            (fun a2 s => file_hdr_ (file_handle_ a2) = hdr /\
                         (J (file_handle_ s) /\ rid_page_no (rid_ s) = rid_page_no (rid_ a2)))).
  { apply triple_get. intros s Hfh. split; [|done]. by destruct Hfh as (_ & _ & ?). }
  intros sc2. apply triple_pure. intros Hhdr2. rewrite Hhdr2.
  eapply triple_bind; [apply scan_pages_spec|].
  intros found. destruct found.
  - apply triple_ret. intros s (p & s1 & f & [Hp Hs1] & Hrid & Hfh) _.
    exists f. rewrite Hrid. simpl. split; [|done]. split; lia.
  - eapply triple_post; [apply (triple_set_rid (fun _ => True))|].
    intros ? s [_ Hrid]. unfold is_end. rewrite Hrid. by simpl.
Qed.

(** When RmScan::next returned and the scan is not at its end, rid()
    names a live record: its page number is below the number of pages, its
    slot is one of the slots of a page, the page is cached and pinned, and
    the bit of the slot is set in the page; so get_record on it returns the
    bytes of the slot, provided they lie inside the page and the pin count of
    the page can still grow. *)
Theorem next_stops_at_a_record s s' :
  reachable (pool (file_handle_ s)) ->
  next s = (Ret tt, s') -> is_end s' = false ->
  rid s' = (Ret (rid_ s'), s') /\
  rid_page_no (rid_ s') < num_pages (file_hdr_ (file_handle_ s)) /\
  0 <= slot_no (rid_ s') < num_records_per_page (file_hdr_ (file_handle_ s)) /\
  exists f pg,
    page_table_ (pool (file_handle_ s'))
      !! mkPageId (fd_ (file_handle_ s)) (rid_page_no (rid_ s')) = Some f /\
    pages_ (pool (file_handle_ s')) !! f = Some pg /\
    0 < pin_count_ pg /\
    slot_live (data_ pg) (slot_no (rid_ s')) = Some true /\
    forall r,
      slot_bytes (file_hdr_ (file_handle_ s)) (data_ pg) (slot_no (rid_ s')) = Some r ->
      pin_count_ pg < INT_MAX ->
      exists fh2, get_record (rid_ s') (file_handle_ s') = (Ret r, fh2).
Proof.
  intros Hreach Hrun Hend.
  pose proof (reachable_table_inv _ Hreach) as Ht.
  pose proof (reachable_pool_inv _ Hreach) as Hp.
  pose proof (next_spec (fd_ (file_handle_ s)) (file_hdr_ (file_handle_ s)) s) as H.
  rewrite Hrun in H. destruct H as (f & [Hpage Hslot] & Hfh); [done | done |].
  split; [unfold rid, bind, get; by rewrite Hend|].
  split; [done|]. split; [done|].
  destruct Hfh as ((Ht' & Hp' & Htab & pg & Hpg & Hpin & Hlive) & Hfd & Hhdr).
  exists f, pg. split; [done|]. split; [done|]. split; [done|]. split; [done|].
  intros r Hr Hmax.
  destruct (table_inv_frame _ _ _ Ht' Htab) as (pg' & Hpg' & Hid).
  rewrite Hpg in Hpg'. injection Hpg' as <-.
  apply slot_live_Some in Hlive as (x & Hx & Hset).
  destruct (rid_ s') as [p' sl] eqn:Hrid. simpl in *.
  apply (get_record_run (mkRid p' sl) (file_handle_ s') f pg x r); simpl;
    rewrite ?Hfd, ?Hhdr; try done; try lia.
  symmetry in Hset. by apply bool_decide_eq_true_1 in Hset.
Qed.

End ScanStops.

(** ** A record that was deleted *)

Section DeletedRecord.
Context {cfg : Config}.

Local Abbreviation pool := buffer_pool_manager_.

(** The path that get_record, update_record and delete_record share when the
    bit of the slot is not set, on a cached page. *)
Lemma absent_path_run {A} rid fh f pg byte (k : RmPageHandle -> M RmFileHandle A) :
  page_table_ (pool fh) !! mkPageId (fd_ fh) (rid_page_no rid) = Some f ->
  pages_ (pool fh) !! f = Some pg ->
  id_ pg = mkPageId (fd_ fh) (rid_page_no rid) ->
  0 <= pin_count_ pg < INT_MAX ->
  0 <= slot_no rid ->
  mem_read (data_ pg) (sizeof_RmPageHdr + get_bucket (slot_no rid)) 1 = Some [byte] ->
  Z.land byte (get_bit (slot_no rid)) = 0 ->
  exists fh',
    (let* page_handle := fetch_page_handle (rid_page_no rid) in
     let* present := on_pool (Bitmap_is_set (page page_handle) (bitmap page_handle)
                                (slot_no rid)) in
     if negb present then
       let* pid := get_page_id (page page_handle) in
       on_pool (unpin_page pid false);;
       throw RuntimeError
     else k page_handle) fh = (Throw RuntimeError, fh') /\
    file_hdr_ fh' = file_hdr_ fh /\
    data_ <$> pages_ (pool fh') = data_ <$> pages_ (pool fh).
Proof.
  intros Htab Hpg Hid Hpin Hslot Hbit Hset.
  rewrite (bind_run _ _ _ _ _ (fetch_page_handle_hit _ _ _ _ Htab Hpg Hpin)).
  set (pg' := mkPage (id_ pg) (data_ pg) (is_dirty_ pg) (pin_count_ pg + 1)).
  set (fh1 := with_pool (pinned f pg (pool fh)) fh).
  assert (Hpg' : pages_ (pool fh1) !! f = Some pg').
  { simpl. by apply (list_insert_lookup_Some _ _ _ pg). }
  simpl.
  assert (His : on_pool (Bitmap_is_set f sizeof_RmPageHdr (slot_no rid)) fh1 = (Ret false, fh1)).
  { unfold on_pool.
    rewrite (zoom_run _ _ _ _ _ _ (Bitmap_is_set_run _ _ _ _ pg' [byte] Hslot Hpg' Hbit)).
    rewrite with_pool_id. simpl. rewrite bool_decide_eq_false_2; [done|]. by intros []. }
  rewrite (bind_run _ _ _ _ _ His). simpl.
  rewrite (bind_run _ _ _ _ _ (get_page_id_run _ _ _ Hpg')). simpl.
  assert (Htab' : page_table_ (pool fh1) !! id_ pg = Some f) by (by rewrite Hid).
  destruct (unpin_page_held (id_ pg) false (pool fh1) f pg' Htab' Hpg')
    as (r & pg'' & Hun & _ & Hdata & _); [simpl; lia|].
  unfold bind, on_pool, zoom. rewrite Hun. eexists. split; [reflexivity|].
  split; [done|]. simpl. rewrite list_insert_insert_eq.
  rewrite list_fmap_insert, Hdata. simpl.
  apply list_insert_id. by rewrite list_lookup_fmap, Hpg.
Qed.

Lemma cached_dead_path {A} p s phi fd0 hdr0 fh (k : RmPageHandle -> M RmFileHandle A) :
  at_file (cached_with (mkPageId fd0 p) phi) fd0 hdr0 fh ->
  (forall d, phi d -> slot_live d s = Some false) ->
  0 <= s ->
  exists fh',
    (let* page_handle := fetch_page_handle p in
     let* present := on_pool (Bitmap_is_set (page page_handle) (bitmap page_handle) s) in
     if negb present then
       let* pid := get_page_id (page page_handle) in
       on_pool (unpin_page pid false);;
       throw RuntimeError
     else k page_handle) fh = (Throw RuntimeError, fh') /\
    file_hdr_ fh' = file_hdr_ fh /\
    data_ <$> pages_ (pool fh') = data_ <$> pages_ (pool fh).
Proof.
  intros Hfh Hphi Hs.
  destruct (cached_with_frame _ _ _ _ _ Hfh)
    as (f & pg & Htab & Hpg & Hid & Hpin & Hd & <- & <- & _).
  pose proof (Hphi _ Hd) as Hlive.
  apply slot_live_Some in Hlive as (x & Hx & Hset).
  apply (absent_path_run (mkRid p s) fh f pg x k); try done.
  symmetry in Hset. apply bool_decide_eq_false_1 in Hset.
  destruct (decide (Z.land x (get_bit s) = 0)); [done|]. by destruct Hset.
Qed.

(** A record can be deleted once.  After delete_record returned, a
    second delete_record and an update_record on the same Rid throw the
    error of a record that does not exist, and leave the file header and the
    memory of every frame as they were. *)
Theorem delete_record_twice rid buf fh fh1 :
  reachable (pool fh) ->
  delete_record rid fh = (Ret tt, fh1) ->
  (exists fh2, delete_record rid fh1 = (Throw RuntimeError, fh2) /\
               file_hdr_ fh2 = file_hdr_ fh1 /\
               data_ <$> pages_ (pool fh2) = data_ <$> pages_ (pool fh1)) /\
  (exists fh2, update_record rid buf fh1 = (Throw RuntimeError, fh2) /\
               file_hdr_ fh2 = file_hdr_ fh1 /\
               data_ <$> pages_ (pool fh2) = data_ <$> pages_ (pool fh1)).
Proof.
  intros Hreach Hrun.
  pose proof (reachable_table_inv _ Hreach) as Ht.
  pose proof (reachable_pool_inv _ Hreach) as Hp.
  destruct (delete_record_Ret _ _ _ Ht Hp Hrun) as (pg0 & x & _ & Hpos & Hfh).
  destruct rid as [p s]. simpl in *.
  split; eapply (cached_dead_path p s _ _ _ _ _ Hfh); try done; by intros d [? _].
Qed.

End DeletedRecord.

(** ** The log file *)

Section LogProofs.
Context {log : LogConfig}.

(** The first statement of read_log and write_log: the log file is opened
    when it was not yet. *)
Lemma log_open_run l :
  log_ready l ->
  exists l1 o,
    (if bool_decide (log_fd_ l = -1) then
       let* fd := on_manager (open_file LOG_FILE_NAME) in
       modify (fun l => mkDiskManagerLog (disk_manager l) fd)
     else ret tt) l = (Ret tt, l1) /\
    log_fd_ l1 <> -1 /\
    fdtab (kernel (disk_manager l1)) !! log_fd_ l1 = Some (LOG_FILE_NAME, o) /\
    files (kernel (disk_manager l1)) = files (kernel (disk_manager l)).
Proof.
  intros [[c Hc] Hready]. case_bool_decide as Hfd.
  - destruct Hready as [Hinv Hfree].
    unfold bind, on_manager, zoom. rewrite open_file_eq, Hc. cbv zeta.
    pose proof (lowest_free_nonneg (fdtab (kernel (disk_manager l)))) as Hnn.
    pose proof (lowest_free_None (fdtab (kernel (disk_manager l)))) as Hnone.
    set (fd0 := lowest_free (fdtab (kernel (disk_manager l)))) in *.
    rewrite bool_decide_eq_false_2.
    + eexists _, 0. split; [reflexivity|]. simpl.
      split; [lia|]. split; [by rewrite lookup_insert_eq | done].
    + intros [?|Hocc]; [lia|].
      apply (Hinv fd0) in Hocc as [p Hp].
      destruct (Hinv fd0) as [_ Hopen]. destruct (Hopen p Hp) as (_ & o & Ho). congruence.
  - destruct Hready as [o Ho]. by exists l, o.
Qed.

Lemma splice_end (c bs : list Z) : splice c (length c) bs = c ++ bs.
Proof.
  unfold splice. rewrite Nat.sub_diag. simpl. rewrite app_nil_r, firstn_all.
  rewrite drop_ge by lia. by rewrite app_nil_r.
Qed.

(** write_log on a log that can be used. *)
Lemma write_log_run log_data size l c bs :
  log_ready l ->
  files (kernel (disk_manager l)) !! LOG_FILE_NAME = Some c ->
  mem_read log_data 0 size = Some bs ->
  exists l',
    write_log log_data size l = (Ret tt, l') /\
    files (kernel (disk_manager l'))
    = <[LOG_FILE_NAME := c ++ bs]> (files (kernel (disk_manager l))) /\
    log_fd_ l' <> -1 /\
    (exists o, fdtab (kernel (disk_manager l')) !! log_fd_ l' = Some (LOG_FILE_NAME, o)).
Proof.
  intros Hready Hc Hbs.
  destruct (log_open_run l Hready) as (l1 & o & Hopen & Hfd & Ho & Hfiles).
  unfold write_log. unfold bind at 1, get at 1.
  rewrite (bind_run _ _ _ _ _ Hopen). unfold bind at 1, get at 1.
  rewrite <- Hfiles in Hc.
  destruct l1 as [dm1 fd1]. destruct dm1 as [k1 pn oc f2p p2f]. simpl in *.
  unfold bind, on_manager, sys, zoom, sys_lseek_end, sys_write, defined. simpl.
  rewrite Ho, Hc. simpl. rewrite Hbs. simpl. rewrite lookup_insert_eq, Hc.
  apply mem_read_Some in Hbs as (_ & Hsize & _ & _ & Hlen).
  rewrite bool_decide_eq_false_2 by lia.
  eexists. split; [reflexivity|]. simpl.
  split.
  - clear Hopen. rewrite Hfiles. f_equal.
    case_bool_decide as Hnil; [rewrite Hnil; by rewrite app_nil_r|].
    rewrite Nat2Z.id. apply splice_end.
  - split; [done|]. eexists. by rewrite lookup_insert_eq.
Qed.

(** read_log on a log that can be used, at an offset beyond its end. *)
Lemma read_log_beyond log_data size offset l c :
  log_ready l ->
  files (kernel (disk_manager l)) !! LOG_FILE_NAME = Some c ->
  Z.of_nat (length c) <= INT_MAX ->
  Z.of_nat (length c) < offset ->
  exists l',
    read_log log_data size offset l = (Ret (-1, log_data), l') /\
    files (kernel (disk_manager l')) = files (kernel (disk_manager l)) /\
    log_fd_ l' <> -1 /\
    (exists o, fdtab (kernel (disk_manager l')) !! log_fd_ l' = Some (LOG_FILE_NAME, o)).
Proof.
  intros Hready Hc Hmax Hoff.
  destruct (log_open_run l Hready) as (l1 & o & Hopen & Hfd & Ho & Hfiles).
  unfold read_log. unfold bind at 1, get at 1.
  rewrite (bind_run _ _ _ _ _ Hopen). unfold bind at 1, get at 1.
  rewrite <- Hfiles in Hc. cbv zeta.
  unfold get_file_size, sys_stat. rewrite Hc. simpl.
  assert (Hwrap : wrap32 (Z.of_nat (length c)) = Z.of_nat (length c)).
  { unfold wrap32, INT_MAX in *. rewrite Z.mod_small; lia. }
  rewrite Hwrap, bool_decide_eq_true_2 by lia.
  exists l1. split; [done|]. split; [done|]. split; [done|]. by exists o.
Qed.

(** read_log on a log that can be used, at an offset inside it or at its
    end. *)
Lemma read_log_run log_data size offset l c :
  log_ready l ->
  files (kernel (disk_manager l)) !! LOG_FILE_NAME = Some c ->
  Z.of_nat (length c) <= INT_MAX ->
  0 <= offset <= Z.of_nat (length c) ->
  0 <= size ->
  Z.min size (Z.of_nat (length c) - offset) <= Z.of_nat (length log_data) ->
  let n := Z.min size (Z.of_nat (length c) - offset) in
  exists l',
    read_log log_data size offset l
    = (Ret (n, take (Z.to_nat n) (drop (Z.to_nat offset) c) ++ drop (Z.to_nat n) log_data), l') /\
    files (kernel (disk_manager l')) = files (kernel (disk_manager l)) /\
    log_fd_ l' <> -1 /\
    (exists o, fdtab (kernel (disk_manager l')) !! log_fd_ l' = Some (LOG_FILE_NAME, o)).
Proof.
  intros Hready Hc Hmax Hoff Hsize Hbuf n.
  destruct (log_open_run l Hready) as (l1 & o & Hopen & Hfd & Ho & Hfiles).
  unfold read_log. unfold bind at 1, get at 1.
  rewrite (bind_run _ _ _ _ _ Hopen). unfold bind at 1, get at 1.
  rewrite <- Hfiles in Hc. cbv zeta.
  unfold get_file_size, sys_stat. rewrite Hc. simpl.
  assert (Hwrap : wrap32 (Z.of_nat (length c)) = Z.of_nat (length c)).
  { unfold wrap32, INT_MAX in *. rewrite Z.mod_small; lia. }
  rewrite Hwrap, bool_decide_eq_false_2 by lia.
  unfold bind at 1, int_add.
  rewrite bool_decide_eq_true_2 by (unfold INT_MIN, INT_MAX in *; lia).
  unfold ret at 1. cbv beta iota.
  replace (Z.of_nat (length c) + - offset) with (Z.of_nat (length c) - offset) by lia.
  fold n. clear Hopen. case_bool_decide as Hn0.
  { exists l1. rewrite Hn0. simpl. rewrite drop_0.
    split; [done|]. split; [done|]. split; [done|]. by exists o. }
  destruct l1 as [dm1 fd1]. destruct dm1 as [k1 pn oc f2p p2f]. simpl in *.
  unfold bind, on_manager, sys, zoom, sys_lseek, sys_read. simpl.
  rewrite Ho. rewrite bool_decide_eq_true_2 by lia. simpl.
  rewrite bool_decide_eq_false_2 by lia. simpl.
  rewrite lookup_insert_eq, Hc. simpl.
  set (bs := take (Z.to_nat n) (drop (Z.to_nat offset) c)).
  assert (Hlen : Z.of_nat (length bs) = n).
  { unfold bs. rewrite length_take, length_drop. lia. }
  unfold defined, mem_write. rewrite bool_decide_eq_true_2 by lia. simpl.
  rewrite bool_decide_eq_false_2 by lia.
  eexists. split.
  - unfold ret. rewrite Hlen. replace (length bs) with (Z.to_nat n) by lia. reflexivity.
  - simpl. split; [done|]. split; [done|]. eexists. by rewrite lookup_insert_eq.
Qed.

Lemma log_ready_open l c o :
  files (kernel (disk_manager l)) !! LOG_FILE_NAME = Some c ->
  log_fd_ l <> -1 ->
  fdtab (kernel (disk_manager l)) !! log_fd_ l = Some (LOG_FILE_NAME, o) ->
  log_ready l.
Proof.
  intros Hc Hfd Ho. split; [by exists c|]. rewrite bool_decide_eq_false_2 by done. by exists o.
Qed.

(** write_log appends.  On a log that can be used, write_log of [size]
    bytes returns, the log file then holds its old content followed by these
    bytes, no other file changes, and the log file is open on [log_fd_], so
    that the log can be used again. *)
Theorem write_log_appends log_data size l c bs :
  log_ready l ->
  files (kernel (disk_manager l)) !! LOG_FILE_NAME = Some c ->
  mem_read log_data 0 size = Some bs ->
  exists l',
    write_log log_data size l = (Ret tt, l') /\
    files (kernel (disk_manager l'))
    = <[LOG_FILE_NAME := c ++ bs]> (files (kernel (disk_manager l))) /\
    log_ready l' /\
    log_fd_ l' <> -1 /\
    exists o, fdtab (kernel (disk_manager l')) !! log_fd_ l' = Some (LOG_FILE_NAME, o).
Proof.
  intros Hready Hc Hbs.
  destruct (write_log_run _ _ _ _ _ Hready Hc Hbs) as (l' & Hrun & Hfiles & Hfd & o & Ho).
  exists l'. split; [done|]. split; [done|]. split.
  - apply (log_ready_open l' (c ++ bs) o); [|done|done].
    by rewrite Hfiles, lookup_insert_eq.
  - split; [done|]. by exists o.
Qed.

(** read_log reads at an offset.  On a log of at most INT_MAX bytes that
    can be used: at an offset beyond the end of the log it returns -1 and
    stores nothing; at an offset inside the log or at its end, asked for
    [size] bytes, it returns the smaller of [size] and the number of bytes
    from the offset to the end, and stores that many bytes of the log,
    starting at the offset, at the front of the buffer.  No file changes. *)
Theorem read_log_reads_at_offset log_data size offset l c :
  log_ready l ->
  files (kernel (disk_manager l)) !! LOG_FILE_NAME = Some c ->
  Z.of_nat (length c) <= INT_MAX ->
  (Z.of_nat (length c) < offset ->
   exists l',
     read_log log_data size offset l = (Ret (-1, log_data), l') /\
     files (kernel (disk_manager l')) = files (kernel (disk_manager l)) /\
     log_ready l') /\
  (0 <= offset <= Z.of_nat (length c) -> 0 <= size ->
   Z.min size (Z.of_nat (length c) - offset) <= Z.of_nat (length log_data) ->
   exists l',
     read_log log_data size offset l
     = (Ret (Z.min size (Z.of_nat (length c) - offset),
             take (Z.to_nat (Z.min size (Z.of_nat (length c) - offset)))
               (drop (Z.to_nat offset) c)
             ++ drop (Z.to_nat (Z.min size (Z.of_nat (length c) - offset))) log_data), l') /\
     files (kernel (disk_manager l')) = files (kernel (disk_manager l)) /\
     log_ready l').
Proof.
  intros Hready Hc Hmax. split.
  - intros Hoff.
    destruct (read_log_beyond log_data size offset l c Hready Hc Hmax Hoff)
      as (l' & Hrun & Hfiles & Hfd & o & Ho).
    exists l'. split; [done|]. split; [done|].
    apply (log_ready_open l' c o); [by rewrite Hfiles | done | done].
  - intros Hoff Hsize Hbuf.
    destruct (read_log_run log_data size offset l c Hready Hc Hmax Hoff Hsize Hbuf)
      as (l' & Hrun & Hfiles & Hfd & o & Ho).
    exists l'. split; [done|]. split; [done|].
    apply (log_ready_open l' c o); [by rewrite Hfiles | done | done].
Qed.

(** What write_log wrote, read_log reads back.  After write_log of
    [size] bytes on a log that can be used, read_log of [size] bytes at the
    old end of the log returns [size] and stores the bytes that were written
    at the front of the buffer. *)
Theorem write_log_then_read_log log_data size buf l c bs l1 :
  log_ready l ->
  files (kernel (disk_manager l)) !! LOG_FILE_NAME = Some c ->
  mem_read log_data 0 size = Some bs ->
  Z.of_nat (length c) + size <= INT_MAX ->
  size <= Z.of_nat (length buf) ->
  write_log log_data size l = (Ret tt, l1) ->
  exists l2,
    read_log buf size (Z.of_nat (length c)) l1
    = (Ret (size, bs ++ drop (Z.to_nat size) buf), l2).
Proof.
  intros Hready Hc Hbs Hmax Hbuf Hrun.
  destruct (write_log_run _ _ _ _ _ Hready Hc Hbs) as (l' & Hrun' & Hfiles & Hfd & o & Ho).
  rewrite Hrun in Hrun'. injection Hrun' as <-.
  assert (Hc1 : files (kernel (disk_manager l1)) !! LOG_FILE_NAME = Some (c ++ bs))
    by (by rewrite Hfiles, lookup_insert_eq).
  pose proof (log_ready_open l1 _ o Hc1 Hfd Ho) as Hready1.
  apply mem_read_Some in Hbs as (_ & Hsize & _ & _ & Hlen).
  assert (Hmin : Z.min size (Z.of_nat (length (c ++ bs)) - Z.of_nat (length c)) = size).
  { rewrite length_app. lia. }
  destruct (read_log_run buf size (Z.of_nat (length c)) l1 (c ++ bs) Hready1 Hc1)
    as (l2 & Hread & _); try (rewrite ?length_app; lia).
  exists l2. rewrite Hread. cbv zeta. rewrite Hmin. repeat f_equal.
  rewrite Nat2Z.id, drop_app_length. apply take_ge. lia.
Qed.

End LogProofs.

(** ** Computations that return *)

Lemma total_bind {S A B} (P : S -> Prop) (m : M S A) (k : A -> M S B) Q R :
  total P m Q -> (forall a, total (Q a) (k a) R) -> total P (bind m k) R.
Proof.
  intros Hm Hk s Hs. destruct (Hm s Hs) as (a & s1 & Hrun & Hq).
  destruct (Hk a s1 Hq) as (c & s2 & Hrun2 & Hr).
  exists c, s2. split; [|done]. by rewrite (bind_run _ _ _ _ _ Hrun).
Qed.

Lemma total_ret {S A} (P : S -> Prop) (a : A) (Q : A -> S -> Prop) :
  (forall s, P s -> Q a s) -> total P (ret a) Q.
Proof. intros H s Hs. exists a, s. split; [done|]. by apply H. Qed.

Lemma total_get {S} (P : S -> Prop) (Q : S -> S -> Prop) :
  (forall s, P s -> Q s s) -> total P get Q.
Proof. intros H s Hs. exists s, s. split; [done|]. by apply H. Qed.

Lemma total_modify {S} (P : S -> Prop) f (Q : unit -> S -> Prop) :
  (forall s, P s -> Q tt (f s)) -> total P (modify f) Q.
Proof. intros H s Hs. exists tt, (f s). split; [done|]. by apply H. Qed.

Lemma total_defined {S A} (P : S -> Prop) (o : option A) a (Q : A -> S -> Prop) :
  o = Some a -> (forall s, P s -> Q a s) -> total P (defined o) Q.
Proof. intros -> H s Hs. exists a, s. split; [done|]. by apply H. Qed.

Lemma total_int_add {S} (P : S -> Prop) x y (Q : Z -> S -> Prop) :
  INT_MIN <= x + y <= INT_MAX -> (forall s, P s -> Q (x + y) s) -> total P (int_add x y) Q.
Proof.
  intros Hr H s Hs. exists (x + y), s. split; [|by apply H].
  unfold int_add. by rewrite bool_decide_eq_true_2.
Qed.

Lemma total_pure {S A} (phi : Prop) (P : S -> Prop) (m : M S A) Q :
  (phi -> total P m Q) -> total (fun s => phi /\ P s) m Q.
Proof. intros H s [Hphi Hs]. by apply H. Qed.

Lemma total_conseq {S A} (P P' : S -> Prop) (m : M S A) (Q Q' : A -> S -> Prop) :
  (forall s, P s -> P' s) -> total P' m Q' -> (forall a s, Q' a s -> Q a s) ->
  total P m Q.
Proof.
  intros HP Hm HQ s Hs. destruct (Hm s (HP s Hs)) as (a & s' & Hrun & Hq).
  exists a, s'. split; [done|]. by apply HQ.
Qed.

(** Steps whose value is known. *)
Lemma total_bind_val {S A B} (P P' : S -> Prop) (m : M S A) v (k : A -> M S B) R :
  total P m (fun r s => r = v /\ P' s) -> total P' (k v) R -> total P (bind m k) R.
Proof.
  intros Hm Hk. eapply total_bind; [exact Hm|].
  intros a. apply total_pure. by intros ->.
Qed.

Lemma total_ret_val {S A} (P : S -> Prop) (a : A) :
  total P (ret a) (fun r s => r = a /\ P s).
Proof. by apply total_ret. Qed.

Lemma total_defined_val {S A} (P : S -> Prop) (o : option A) a :
  o = Some a -> total P (defined o) (fun r s => r = a /\ P s).
Proof. intros Ho. by apply (total_defined _ _ a). Qed.

Lemma total_int_add_val {S} (P : S -> Prop) x y :
  INT_MIN <= x + y <= INT_MAX -> total P (int_add x y) (fun r s => r = x + y /\ P s).
Proof. intros Hr. by apply total_int_add. Qed.

Lemma total_at_file_val {A} (J J' : BufferPoolManager -> Prop) (m : M BufferPoolManager A)
    v fd0 hdr :
  total J m (fun r b => r = v /\ J' b) ->
  total (at_file J fd0 hdr) (on_pool m) (fun r fh => r = v /\ at_file J' fd0 hdr fh).
Proof.
  intros Hm fh (HJ & Hfd & Hhdr). destruct (Hm _ HJ) as (a & b1 & Hrun & -> & Hq).
  exists v, (with_pool b1 fh). split; [|by split].
  unfold on_pool. by rewrite (zoom_run _ _ _ _ _ _ Hrun).
Qed.

Lemma total_at_file {A} (J : BufferPoolManager -> Prop) (m : M BufferPoolManager A) Q
    fd0 hdr :
  total J m Q ->
  total (at_file J fd0 hdr) (on_pool m) (fun a => at_file (Q a) fd0 hdr).
Proof.
  intros Hm fh (HJ & Hfd & Hhdr). destruct (Hm _ HJ) as (a & b1 & Hrun & Hq).
  exists a, (with_pool b1 fh). split; [|by split].
  unfold on_pool. by rewrite (zoom_run _ _ _ _ _ _ Hrun).
Qed.

(** ** The memory of the frames *)

Section FrameMemory.
Context {cfg : Config}.

Lemma sized_pages b b' : pages_ b' = pages_ b -> sized b -> sized b'.
Proof. intros Heq H f pg. rewrite Heq. apply H. Qed.

Lemma sized_insert b b' f pg pg' :
  pages_ b !! f = Some pg ->
  pages_ b' = <[f := pg']> (pages_ b) ->
  length (data_ pg') = length (data_ pg) ->
  sized b -> sized b'.
Proof.
  intros Hpg Heq Hlen H g pg1. rewrite Heq.
  destruct (decide (g = f)) as [->|Hne].
  - rewrite list_lookup_insert_eq by (by apply lookup_lt_Some in Hpg).
    intros [= <-]. rewrite Hlen. by apply (H f).
  - rewrite list_lookup_insert_ne by done. apply H.
Qed.

Lemma sized_new pool_size dm : sized (BufferPoolManager_new pool_size dm).
Proof.
  intros f pg Hpg. simpl in Hpg. apply lookup_replicate in Hpg as [-> _].
  simpl. unfold zeros. apply length_replicate.
Qed.

Lemma read_page_mem_length fd0 page_no0 buf n dm r dm' :
  read_page_mem fd0 page_no0 buf n dm = (Ret r, dm') -> length r.1 = length buf.
Proof.
  unfold read_page_mem. unfold bind at 1, get at 1.
  destruct (sys_fstat fd0 (kernel dm)) as [st_size|]; [|by intros [= <- _]].
  case_bool_decide as Hbeyond.
  { intros H. apply bind_Ret in H as (d & dm1 & Hd & [= <- _]).
    apply defined_Ret in Hd as [Hd _]. unfold mem_zero in Hd.
    case_bool_decide; [|discriminate]. by apply mem_write_length in Hd. }
  intros H. apply bind_Ret in H as (x & dm1 & _ & H).
  case_bool_decide as Hseek; [by injection H as <- _|].
  apply bind_Ret in H as (got & dm2 & _ & H).
  destruct got as [bs|]; [|by injection H as <- _].
  apply bind_Ret in H as (d & dm3 & Hd & H).
  apply defined_Ret in Hd as [Hd _]. apply mem_write_length in Hd.
  case_bool_decide as Hshort; by injection H as <- _.
Qed.

Lemma read_page_memory_length fd0 page_no0 buf n dm :
  length (read_page_memory fd0 page_no0 buf n dm) = length buf.
Proof.
  unfold read_page_memory.
  destruct (read_page_mem fd0 page_no0 buf n dm) as [[r|e] dm'] eqn:H; [|done].
  by apply read_page_mem_length in H.
Qed.

Lemma read_page_length fd0 page_no0 buf n dm r dm' :
  read_page fd0 page_no0 buf n dm = (Ret r, dm') -> length r = length buf.
Proof.
  unfold read_page. intros H. apply bind_Ret in H as (x & dm1 & Hx & H).
  apply read_page_mem_length in Hx. destruct (x.2); [discriminate|].
  by injection H as <- _.
Qed.

Lemma find_victim_page_sized b : sized b -> sized (find_victim_page b).2.
Proof.
  intros H f pg Hpg.
  destruct (find_victim_page b) as [r b'] eqn:Hf. simpl in Hpg.
  pose proof (find_victim_page_data _ _ _ Hf) as Hd.
  assert (Hl : (data_ <$> pages_ b') !! f = Some (data_ pg))
    by (by rewrite list_lookup_fmap, Hpg).
  rewrite Hd, list_lookup_fmap in Hl.
  destruct (pages_ b !! f) as [pg0|] eqn:Hpg0; [|discriminate].
  injection Hl as <-. by apply (H f).
Qed.

Lemma fetch_page_sized pid b : sized b -> sized (fetch_page pid b).2.
Proof.
  intros H. rewrite fetch_page_eq.
  destruct (page_table_ b !! pid) as [f|].
  - destruct (pages_ b !! f) as [pg|] eqn:Hpg; [|done].
    case_bool_decide; [|done]. simpl.
    by eapply (sized_insert b); [exact Hpg | reflexivity | | ].
  - pose proof (find_victim_page_sized b H) as H1.
    destruct (find_victim_page b) as [[[f|]|e] b1]; [|done..]. simpl in H1.
    destruct (pages_ b1 !! f) as [pg|] eqn:Hpg; [|done].
    destruct (read_page _ _ _ _ _) as [[bytes|e] dm] eqn:Hr; simpl.
    + eapply (sized_insert b1); [exact Hpg | reflexivity | | done]. simpl.
      by apply read_page_length in Hr.
    + eapply (sized_insert b1); [exact Hpg | reflexivity | | done]. simpl.
      apply read_page_memory_length.
Qed.

Lemma new_page_sized pid b : sized b -> sized (new_page pid b).2.
Proof.
  intros H. rewrite new_page_eq.
  pose proof (find_victim_page_sized b H) as H1.
  destruct (find_victim_page b) as [[[f|]|e] b1]; [|done..]. simpl in H1.
  destruct (allocate_page _ _) as [[n|e] dm]; [|done].
  destruct (pages_ b1 !! f) as [pg|] eqn:Hpg; [|done]. simpl.
  by eapply (sized_insert b1); [exact Hpg | reflexivity | | ].
Qed.

Lemma unpin_page_sized pid is_dirty b : sized b -> sized (unpin_page pid is_dirty b).2.
Proof.
  intros H. rewrite unpin_page_eq.
  destruct (page_table_ b !! pid) as [f|]; [|done].
  destruct (pages_ b !! f) as [pg|] eqn:Hpg; [|done].
  case_bool_decide; [done|]. case_bool_decide; [|done]. simpl.
  by eapply (sized_insert b); [exact Hpg | reflexivity | | ].
Qed.

Lemma delete_page_sized pid b : sized b -> sized (delete_page pid b).2.
Proof.
  intros H. rewrite delete_page_eq.
  destruct (page_table_ b !! pid) as [f|]; [|done].
  destruct (pages_ b !! f) as [pg|] eqn:Hpg; [|done].
  case_bool_decide; [done|]. simpl.
  by eapply (sized_insert b); [exact Hpg | reflexivity | | ].
Qed.

Lemma flush_page_sized pid b : sized b -> sized (flush_page pid b).2.
Proof.
  intros H. rewrite flush_page_eq.
  destruct (page_table_ b !! pid) as [f|]; [|done].
  destruct (pages_ b !! f) as [pg|] eqn:Hpg; [|done].
  destruct (write_page _ _ _ _ _) as [[[]|e] dm]; simpl; [|done].
  by eapply (sized_insert b); [exact Hpg | reflexivity | | ].
Qed.

Lemma flush_all_pages_sized fd0 b : sized b -> sized (flush_all_pages fd0 b).2.
Proof.
  intros H. unfold flush_all_pages. unfold bind at 1, get at 1.
  apply for_each_keeps; [|done]. clear b H. intros i b H.
  unfold bind at 1. rewrite frame_eq.
  destruct (pages_ b !! i) as [pg|] eqn:Hpg; [|done].
  case_bool_decide; [|done].
  unfold bind, on_disk, zoom, set_frame, modify.
  destruct (write_page _ _ _ _ (disk_manager_ b)) as [[[]|e] dm]; simpl; [|done].
  by eapply (sized_insert b); [exact Hpg | reflexivity | | ].
Qed.

Lemma store_sized page0 off bs b : sized b -> sized (store page0 off bs b).2.
Proof.
  intros H. unfold store. unfold bind at 1. rewrite frame_eq.
  destruct (pages_ b !! page0) as [pg|] eqn:Hpg; [|done].
  unfold bind, defined. destruct (mem_write _ _ _) as [d|] eqn:Hw; [|done]. simpl.
  eapply (sized_insert b); [exact Hpg | reflexivity | | done]. simpl.
  by apply mem_write_length in Hw.
Qed.

Lemma reachable_sized b : reachable b -> sized b.
Proof.
  induction 1 as [ | b pid Hb IH | b pid Hb IH | b pid d Hb IH | b pid Hb IH
                   | b pid Hb IH | b fd0 Hb IH | b f off bs Hb IH | b dm Hb IH ].
  - apply sized_new.
  - by apply fetch_page_sized.
  - by apply new_page_sized.
  - by apply unpin_page_sized.
  - by apply delete_page_sized.
  - by apply flush_page_sized.
  - by apply flush_all_pages_sized.
  - by apply store_sized.
  - by apply (sized_pages b).
Qed.

End FrameMemory.

(** ** A record operation that returns: the insert into a new page *)

Section HeldPageReturns.
Context {cfg : Config}.
Variables (pid : PageId) (f : nat) (fl : list nat).

Local Abbreviation pool := buffer_pool_manager_.

(** Page [pid] is held in frame [f] with memory that satisfies [phi], and
    the free list is [fl]. *)
Local Abbreviation own phi := (fun b => holding pid f phi b /\ free_list_ b = fl).

Lemma total_load (phi : list Z -> Prop) off len bs :
  (forall d, phi d -> mem_read d off len = Some bs) ->
  total (own phi) (load f off len) (fun r b => r = bs /\ own phi b).
Proof.
  intros Hr b [Hb Hfl]. pose proof Hb as (_ & _ & _ & pg & Hpg & _ & Hphi).
  exists bs, b. split; [|done]. apply (load_run _ _ _ _ pg); [done | by apply Hr].
Qed.

Lemma total_store (phi psi : list Z -> Prop) off bs :
  (forall d, phi d -> exists d', mem_write d off bs = Some d' /\ psi d') ->
  total (own phi) (store f off bs) (fun _ => own psi).
Proof.
  intros Hw b [(Ht & Hp & Htab & pg & Hpg & Hpin & Hphi) Hfl].
  destruct (Hw _ Hphi) as (d' & Hd' & Hpsi).
  exists tt, (put_data f d' pg b). split.
  - unfold store. unfold bind at 1. rewrite frame_eq, Hpg.
    unfold bind, defined. rewrite Hd'. reflexivity.
  - split; [|done].
    split; [by apply put_data_table_inv|]. split; [by apply put_data_pool_inv|].
    split; [done|]. exists (with_data d' pg).
    split; [by apply put_data_lookup|]. by split.
Qed.

Lemma total_load_int (phi : list Z -> Prop) off v :
  INT_MIN <= v <= INT_MAX ->
  (forall d, phi d -> mem_read d off 4 = Some (encode_i32 v)) ->
  total (own phi) (load_int f off) (fun n b => n = v /\ own phi b).
Proof.
  intros Hv Hr. unfold load_int.
  eapply total_bind_val; [by apply total_load|].
  rewrite (decode_encode_i32 v Hv). apply total_ret_val.
Qed.

Lemma total_get_page_id_val (phi : list Z -> Prop) fd0 hdr :
  total (at_file (own phi) fd0 hdr) (get_page_id f)
        (fun pid' fh => pid' = pid /\ at_file (own phi) fd0 hdr fh).
Proof.
  intros fh Hfh. pose proof Hfh as (((Ht & _ & Htab & _) & _) & _).
  destruct (table_inv_frame _ pid f Ht Htab) as (pg & Hpg & Hid).
  exists pid, fh. split; [|done]. by rewrite (get_page_id_run f fh pg Hpg), Hid.
Qed.

Lemma total_unpin_page (phi : list Z -> Prop) is_dirty :
  total (own phi) (unpin_page pid is_dirty) (fun _ b => free_list_ b = fl).
Proof.
  intros b [(Ht & Hp & Htab & pg & Hpg & Hpin & Hphi) Hfl].
  assert (Hmax : pin_count_ pg <= INT_MAX).
  { destruct Hp as (_ & _ & Hpins & _). apply (Hpins f). by rewrite pins_lookup, Hpg. }
  destruct (unpin_page_held pid is_dirty b f pg Htab Hpg) as (r & pg' & Hun & _); [lia|].
  eexists r, _. split; [exact Hun|]. done.
Qed.

Lemma total_file_get (J : BufferPoolManager -> Prop) fd0 hdr :
  total (at_file J fd0 hdr) get
        (fun fh0 fh => (fd_ fh0 = fd0 /\ file_hdr_ fh0 = hdr) /\ at_file J fd0 hdr fh).
Proof. apply total_get. intros fh Hfh. split; [|done]. by destruct Hfh as (_ & ? & ?). Qed.

End HeldPageReturns.

Section NewPageReturns.
Context {cfg : Config}.

Local Abbreviation pool := buffer_pool_manager_.

(** The memory of a page that was just made: a page of memory whose record
    count is 0 and whose first bitmap byte is clear. *)
Local Abbreviation made := (fun d : list Z =>
  Z.of_nat (length d) = PAGE_SIZE /\
  mem_read d 4 4 = Some (encode_i32 0) /\
  mem_read d 8 1 = Some [0]).

Lemma mem_read_byte d (j : nat) x :
  d !! j = Some x -> mem_read d (Z.of_nat j) 1 = Some [x].
Proof.
  intros Hj. pose proof (lookup_lt_Some _ _ _ Hj) as Hlt.
  unfold mem_read. rewrite bool_decide_eq_true_2 by lia.
  rewrite Nat2Z.id. by rewrite (drop_S _ _ _ Hj).
Qed.

Lemma find_victim_page_frame b f b1 :
  frames_inv b ->
  find_victim_page b = (Ret (Some f), b1) ->
  (f < length (pages_ b1))%nat.
Proof.
  intros (_ & Hfree & _). rewrite find_victim_page_eq.
  destruct (free_list_ b) as [|f0 rest] eqn:Hfl.
  - destruct (last (LRUlist_ (replacer_ b))) as [f1|]; [|discriminate].
    simpl. destruct (pages_ b !! f1) as [pg|] eqn:Hpg; [|discriminate].
    apply lookup_lt_Some in Hpg.
    destruct (is_dirty_ pg).
    + destruct (write_page _ _ _ _ _) as [[[]|e] dm]; [|discriminate].
      intros [= <- <-]. simpl. by rewrite length_insert.
    + by intros [= <- <-].
  - intros [= <- <-]. simpl. apply Hfree. set_solver.
Qed.

(** new_page after find_victim_page gave frame [f]. *)
Lemma new_page_returns b f b1 fd0 p :
  table_inv b -> pool_inv b -> sized b -> frames_inv b ->
  find_victim_page b = (Ret (Some f), b1) ->
  0 <= fd0 < MAX_FD ->
  0 <= default 0 (fd2pageno_ (disk_manager_ b) !! fd0) < INT_MAX ->
  exists b2,
    new_page (mkPageId fd0 p) b
    = (Ret (Some (f, mkPageId fd0 (default 0 (fd2pageno_ (disk_manager_ b) !! fd0)))), b2) /\
    holding (mkPageId fd0 (default 0 (fd2pageno_ (disk_manager_ b) !! fd0))) f
      (fun d => length d = Z.to_nat PAGE_SIZE) b2 /\
    free_list_ b2 = free_list_ b1.
Proof.
  intros Ht Hp Hs Hf Hfind Hfd Hcnt.
  pose proof (new_page_table_inv (mkPageId fd0 p) b Ht) as Ht2.
  pose proof (new_page_pool_inv (mkPageId fd0 p) b Hp) as Hp2.
  pose proof (find_victim_page_sized b Hs) as Hs1.
  pose proof (find_victim_page_frames_inv b (proj1 Hp) Hf) as Hf1.
  pose proof (find_victim_page_fd2pageno _ _ _ Hfind) as Hno.
  rewrite new_page_eq, Hfind in Ht2, Hp2 |- *. rewrite Hfind in Hs1, Hf1. simpl in Hs1, Hf1.
  simpl fd in *.
  unfold allocate_page in *. rewrite bool_decide_eq_true_2 in * by done.
  unfold bind, get, int_add, put in *. rewrite Hno in *.
  rewrite bool_decide_eq_true_2 in * by (unfold INT_MIN; lia). simpl in *.
  assert (Hlt : (f < length (pages_ b1))%nat).
  { by apply (find_victim_page_frame b). }
  destruct (lookup_lt_is_Some_2 _ _ Hlt) as [pg Hpg].
  rewrite Hpg in *. simpl in *.
  eexists. split; [reflexivity|]. split; [|done].
  split; [done|]. split; [done|]. simpl.
  split; [by rewrite lookup_insert_eq|].
  eexists. split; [by apply list_lookup_insert_eq|]. simpl. split; [lia|].
  by apply (Hs1 f).
Qed.

(** create_new_page_handle returns when the pool can give a frame. *)
Lemma create_new_page_handle_returns fh0 f b1 :
  table_inv (pool fh0) -> pool_inv (pool fh0) -> sized (pool fh0) -> frames_inv (pool fh0) ->
  find_victim_page (pool fh0) = (Ret (Some f), b1) ->
  0 <= fd_ fh0 < MAX_FD ->
  0 <= default 0 (fd2pageno_ (disk_manager_ (pool fh0)) !! fd_ fh0) < INT_MAX ->
  0 <= num_pages (file_hdr_ fh0) < INT_MAX ->
  1 <= bitmap_size (file_hdr_ fh0) ->
  sizeof_RmPageHdr + bitmap_size (file_hdr_ fh0) <= PAGE_SIZE ->
  total (eq fh0) create_new_page_handle
    (fun h fh =>
       h = mkRmPageHandle f 0 sizeof_RmPageHdr
             (sizeof_RmPageHdr + bitmap_size (file_hdr_ fh0)) /\
       at_file (fun b =>
                  holding (mkPageId (fd_ fh0)
                             (default 0 (fd2pageno_ (disk_manager_ (pool fh0)) !! fd_ fh0)))
                    f made b /\
                  free_list_ b = free_list_ b1)
               (fd_ fh0) (with_num_pages (num_pages (file_hdr_ fh0) + 1) (file_hdr_ fh0)) fh).
Proof.
  intros Ht Hp Hs Hf Hfind Hfd Hcnt Hnum Hbm Hfit.
  assert (Hsz : sizeof_RmPageHdr = 8) by reflexivity.
  set (pid := mkPageId (fd_ fh0)
                (default 0 (fd2pageno_ (disk_manager_ (pool fh0)) !! fd_ fh0))).
  unfold create_new_page_handle.
  eapply total_bind; [apply (total_get _ (fun a fh => a = fh0 /\ fh0 = fh)); by intros ? <-|].
  intros fh. apply total_pure. intros ->.
  eapply (total_bind _ _ _
            (fun r fh => r = Some (f, pid) /\
               at_file (fun b => holding pid f (fun d => Z.of_nat (length d) = PAGE_SIZE) b /\
                                 free_list_ b = free_list_ b1)
                       (fd_ fh0) (file_hdr_ fh0) fh)).
  { intros fh <-.
    destruct (new_page_returns _ f b1 (fd_ fh0) INVALID_PAGE_ID Ht Hp Hs Hf Hfind Hfd Hcnt)
      as (b2 & Hnew & Hhold & Hfl).
    exists (Some (f, pid)), (with_pool b2 fh0). split.
    - unfold on_pool. by rewrite (zoom_run _ _ _ _ _ _ Hnew).
    - split; [done|]. split; [|done]. split; [|done].
      eapply holding_conseq; [|exact Hhold]. simpl. intros d Hd. lia. }
  intros r. apply total_pure. intros ->.
  eapply total_bind.
  { apply total_at_file. unfold store_int.
    apply (total_store _ _ _ _ (fun d => Z.of_nat (length d) = PAGE_SIZE)).
    intros d Hd.
    destruct (mem_write d (0 + OFFSET_next_free_page_no) (encode_i32 RM_NO_FREE_PAGE))
      as [d'|] eqn:Hw.
    - exists d'. split; [done|]. by rewrite (mem_write_length _ _ _ _ Hw).
    - exfalso. unfold mem_write in Hw.
      rewrite bool_decide_eq_true_2 in Hw
        by (rewrite length_encode_i32; unfold OFFSET_next_free_page_no; lia).
      discriminate. }
  intros ?.
  eapply total_bind.
  { apply total_at_file. unfold store_int.
    apply (total_store _ _ _ _
             (fun d => Z.of_nat (length d) = PAGE_SIZE /\
                       mem_read d 4 4 = Some (encode_i32 0))).
    intros d Hd.
    destruct (mem_write d (0 + OFFSET_num_records) (encode_i32 0)) as [d'|] eqn:Hw.
    - exists d'. split; [done|].
      split; [by rewrite (mem_write_length _ _ _ _ Hw)|].
      exact (mem_read_write_same _ _ _ _ Hw).
    - exfalso. unfold mem_write in Hw.
      rewrite bool_decide_eq_true_2 in Hw
        by (rewrite length_encode_i32; unfold OFFSET_num_records; lia).
      discriminate. }
  intros ?.
  eapply total_bind.
  { apply total_at_file. unfold Bitmap_init.
    rewrite bool_decide_eq_true_2 by lia.
    apply (total_store _ _ _ _ made).
    intros d [Hd Hcount].
    assert (Hlen : length (zeros (bitmap_size (file_hdr_ fh0)))
                   = Z.to_nat (bitmap_size (file_hdr_ fh0))) by apply length_replicate.
    destruct (mem_write d (0 + sizeof_RmPageHdr) (zeros (bitmap_size (file_hdr_ fh0))))
      as [d'|] eqn:Hw.
    - exists d'. split; [done|].
      split; [by rewrite (mem_write_length _ _ _ _ Hw)|]. split.
      + rewrite (mem_read_write_other _ _ _ _ 4 4 Hw); [done | lia | lia |]. left. lia.
      + apply (mem_read_byte _ 8).
        rewrite (mem_write_lookup _ _ _ _ 8 Hw).
        rewrite decide_True by lia.
        apply lookup_replicate_2. lia.
    - exfalso. unfold mem_write in Hw.
      rewrite bool_decide_eq_true_2 in Hw by lia. discriminate. }
  intros ?.
  set (J := fun b => holding pid f made b /\ free_list_ b = free_list_ b1).
  eapply (total_bind _ _ _
            (fun n fh => n = num_pages (file_hdr_ fh0) + 1 /\
                         at_file J (fd_ fh0) (file_hdr_ fh0) fh)).
  { apply total_int_add; [unfold INT_MIN; lia|]. intros fh Hfh. by split. }
  intros n. apply total_pure. intros ->.
  eapply (total_bind _ _ _
            (fun _ => at_file J (fd_ fh0)
                        (with_num_pages (num_pages (file_hdr_ fh0) + 1) (file_hdr_ fh0)))).
  { apply total_modify.
    intros fh (HJ & Hfd' & Hhdr). split; [exact HJ|]. split; [done|]. simpl. by rewrite Hhdr. }
  intros ?. apply total_ret. intros fh Hfh. split; [reflexivity | exact Hfh].
Qed.

(** The first-fit scan of a page that was just made stops at slot 0. *)
Lemma total_first_bit_made pid f fl max_n :
  1 <= max_n ->
  total (fun b => holding pid f made b /\ free_list_ b = fl)
        (Bitmap_first_bit false f (0 + sizeof_RmPageHdr) max_n)
        (fun r b => r = 0 /\ holding pid f made b /\ free_list_ b = fl).
Proof.
  intros Hmax. unfold Bitmap_first_bit.
  destruct (Z.to_nat max_n) as [|n] eqn:Hn; [lia|]. simpl.
  eapply (total_bind_val _ _ _ false).
  { unfold Bitmap_is_set. rewrite bool_decide_eq_false_2 by lia.
    eapply total_bind_val; [apply (total_load _ _ _ _ _ _ [0]); by intros d (_ & _ & ?)|].
    apply total_ret_val. }
  rewrite bool_decide_eq_true_2 by done. apply total_ret_val.
Qed.

(** insert_record into a file without a free page returns when the pool can
    give a frame: the record goes to slot 0 of the page that is made. *)
Lemma insert_record_returns fh0 buf f b1 :
  table_inv (pool fh0) -> pool_inv (pool fh0) -> sized (pool fh0) -> frames_inv (pool fh0) ->
  find_victim_page (pool fh0) = (Ret (Some f), b1) ->
  first_free_page_no (file_hdr_ fh0) = RM_NO_FREE_PAGE ->
  0 <= fd_ fh0 < MAX_FD ->
  0 <= default 0 (fd2pageno_ (disk_manager_ (pool fh0)) !! fd_ fh0) < INT_MAX ->
  0 <= num_pages (file_hdr_ fh0) < INT_MAX ->
  1 <= num_records_per_page (file_hdr_ fh0) <= 8 * bitmap_size (file_hdr_ fh0) ->
  0 <= record_size (file_hdr_ fh0) ->
  sizeof_RmPageHdr + bitmap_size (file_hdr_ fh0) + record_size (file_hdr_ fh0) <= PAGE_SIZE ->
  record_size (file_hdr_ fh0) <= Z.of_nat (length buf) ->
  total (eq fh0) (insert_record buf)
    (fun rid fh =>
       rid = mkRid (default 0 (fd2pageno_ (disk_manager_ (pool fh0)) !! fd_ fh0)) 0 /\
       free_list_ (pool fh) = free_list_ b1).
Proof.
  intros Ht Hp Hs Hf Hfind Hfree Hfd Hcnt Hnum Hnrpp Hrs Hfit Hbuf.
  assert (Hsz : sizeof_RmPageHdr = 8) by reflexivity.
  set (pid := mkPageId (fd_ fh0)
                (default 0 (fd2pageno_ (disk_manager_ (pool fh0)) !! fd_ fh0))).
  set (hdr := with_num_pages (num_pages (file_hdr_ fh0) + 1) (file_hdr_ fh0)).
  set (fl := free_list_ b1).
  set (counted := fun (n : Z) (d : list Z) =>
         Z.of_nat (length d) = PAGE_SIZE /\ mem_read d 4 4 = Some (encode_i32 n)).
  set (own := fun (phi : list Z -> Prop) =>
         at_file (fun b => holding pid f phi b /\ free_list_ b = fl) (fd_ fh0) hdr).
  unfold insert_record.
  eapply (total_bind_val _ (own made)).
  { unfold create_page_handle.
    eapply total_bind; [apply (total_get _ (fun a fh => a = fh0 /\ fh0 = fh)); by intros ? <-|].
    intros fh. apply total_pure. intros ->.
    rewrite bool_decide_eq_false_2 by (by intros []).
    apply (create_new_page_handle_returns fh0 f b1); try done; lia. }
  simpl page. simpl bitmap. simpl page_hdr.
  eapply total_bind; [apply total_file_get|].
  intros fh. apply total_pure. intros [_ ->].
  eapply (total_bind_val _ (own made) _ 0).
  { apply total_at_file_val, total_first_bit_made. simpl. lia. }
  rewrite bool_decide_eq_false_2 by done.
  eapply (total_bind _ _ _ (fun _ => own (counted 0))).
  { apply total_at_file. unfold Bitmap_set. rewrite bool_decide_eq_false_2 by lia.
    eapply total_bind_val; [apply (total_load _ _ _ _ _ _ [0]); by intros d (_ & _ & ?)|].
    apply (total_store _ _ _ _ (counted 0)).
    intros d (Hlen & Hcount & Hbit).
    destruct (mem_write d (0 + sizeof_RmPageHdr + get_bucket 0) [Z.lor (hd 0 [0]) (get_bit 0)])
      as [d'|] eqn:Hw.
    - exists d'. split; [done|].
      split; [by rewrite (mem_write_length _ _ _ _ Hw)|].
      rewrite (mem_read_write_other _ _ _ _ 4 4 Hw); [done | lia | lia |].
      left. change (get_bucket 0) with 0. lia.
    - exfalso. unfold mem_write in Hw. change (get_bucket 0) with 0 in Hw.
      rewrite bool_decide_eq_true_2 in Hw by (simpl; lia).
      discriminate. }
  intros ?.
  destruct (mem_read buf 0 (record_size hdr)) as [bytes|] eqn:Hbytes.
  2:{ exfalso. unfold mem_read in Hbytes.
      rewrite bool_decide_eq_true_2 in Hbytes by (simpl; lia). discriminate. }
  pose proof (mem_read_Some _ _ _ _ Hbytes) as (_ & _ & _ & _ & Hblen).
  eapply total_bind_val; [by apply (total_defined_val _ _ bytes)|].
  eapply (total_bind _ _ _ (fun _ => own (counted 0))).
  { apply total_at_file. apply (total_store _ _ _ _ (counted 0)).
    intros d (Hlen & Hcount).
    destruct (mem_write d (get_slot hdr
                             (mkRmPageHandle f 0 (0 + sizeof_RmPageHdr)
                                (sizeof_RmPageHdr + bitmap_size (file_hdr_ fh0))) 0) bytes)
      as [d'|] eqn:Hw.
    - exists d'. split; [done|].
      split; [by rewrite (mem_write_length _ _ _ _ Hw)|].
      rewrite (mem_read_write_other _ _ _ _ 4 4 Hw); [done | lia | lia |].
      left. unfold get_slot. simpl. lia.
    - exfalso. unfold mem_write, get_slot in Hw. simpl in Hw, Hblen.
      rewrite bool_decide_eq_true_2 in Hw by lia. discriminate. }
  intros ?.
  eapply (total_bind_val _ (own (counted 0)) _ 0).
  { apply total_at_file_val.
    apply (total_load_int _ _ _ (counted 0)); [done|]. by intros d [_ ?]. }
  eapply total_bind_val; [by apply total_int_add_val|].
  eapply (total_bind _ _ _ (fun _ => own (counted 1))).
  { apply total_at_file. unfold store_int. apply (total_store _ _ _ _ (counted 1)).
    intros d (Hlen & Hcount).
    destruct (mem_write d (0 + OFFSET_num_records) (encode_i32 (0 + 1))) as [d'|] eqn:Hw.
    - exists d'. split; [done|].
      split; [by rewrite (mem_write_length _ _ _ _ Hw)|].
      exact (mem_read_write_same _ _ _ _ Hw).
    - exfalso. unfold mem_write in Hw.
      rewrite bool_decide_eq_true_2 in Hw
        by (rewrite length_encode_i32; unfold OFFSET_num_records; lia).
      discriminate. }
  intros ?.
  eapply total_bind_val; [apply total_get_page_id_val|].
  eapply (total_bind_val _ (own (counted 1)) _ 1).
  { apply total_at_file_val.
    apply (total_load_int _ _ _ (counted 1)); [done|]. by intros d [_ ?]. }
  eapply total_bind; [apply total_file_get|].
  intros fh1. apply total_pure. intros [_ ->].
  eapply (total_bind _ _ _ (fun _ => own (counted 1))).
  { case_bool_decide; [|by apply total_ret].
    rewrite bool_decide_eq_false_2; [by apply total_ret|].
    simpl. rewrite Hfree. unfold RM_NO_FREE_PAGE. lia. }
  intros ?.
  eapply (total_bind _ _ _ (fun _ fh => free_list_ (pool fh) = fl)).
  { intros fh2 (HJ & _ & _).
    destruct (total_unpin_page pid f fl (counted 1) true _ HJ) as (r & b2 & Hrun & Hfl).
    exists r, (with_pool b2 fh2). split; [|done].
    unfold on_pool. by rewrite (zoom_run _ _ _ _ _ _ Hrun). }
  intros ?. by apply total_ret.
Qed.

(** A run of inserts into a file without a free page, on a pool with a free
    frame for every insert: each insert returns, with slot 0 of the page it
    made. *)
Lemma inserts_return bufs : forall fh,
  reachable (pool fh) ->
  first_free_page_no (file_hdr_ fh) = RM_NO_FREE_PAGE ->
  0 <= fd_ fh < MAX_FD ->
  0 <= default 0 (fd2pageno_ (disk_manager_ (pool fh)) !! fd_ fh) ->
  default 0 (fd2pageno_ (disk_manager_ (pool fh)) !! fd_ fh) + Z.of_nat (length bufs)
    <= INT_MAX ->
  0 <= num_pages (file_hdr_ fh) ->
  num_pages (file_hdr_ fh) + Z.of_nat (length bufs) <= INT_MAX ->
  1 <= num_records_per_page (file_hdr_ fh) <= 8 * bitmap_size (file_hdr_ fh) ->
  0 <= record_size (file_hdr_ fh) ->
  sizeof_RmPageHdr + bitmap_size (file_hdr_ fh) + record_size (file_hdr_ fh) <= PAGE_SIZE ->
  Forall (fun buf => record_size (file_hdr_ fh) <= Z.of_nat (length buf)) bufs ->
  (length bufs <= length (free_list_ (pool fh)))%nat ->
  exists fh',
    for_all insert_record bufs fh
    = (Ret ((fun p => mkRid p 0)
              <$> seqZ (default 0 (fd2pageno_ (disk_manager_ (pool fh)) !! fd_ fh))
                       (Z.of_nat (length bufs))), fh').
Proof.
  induction bufs as [|buf bufs IH];
    intros fh Hreach Hfree Hfd Hc0 Hc1 Hn0 Hn1 Hnrpp Hrs Hfit Hbufs Hframes.
  { exists fh. reflexivity. }
  apply Forall_cons in Hbufs as [Hbuf Hbufs].
  pose proof (reachable_table_inv _ Hreach) as Ht.
  pose proof (reachable_pool_inv _ Hreach) as Hp.
  destruct (free_list_ (pool fh)) as [|f rest] eqn:Hfl; [simpl in Hframes; lia|].
  assert (Hfind : find_victim_page (pool fh) = (Ret (Some f), with_free_list rest (pool fh)))
    by (by rewrite find_victim_page_eq, Hfl).
  simpl length in *.
  assert (Htotal : total (eq fh) (insert_record buf)
            (fun rid fh1 =>
               rid = mkRid (default 0 (fd2pageno_ (disk_manager_ (pool fh)) !! fd_ fh)) 0 /\
               free_list_ (pool fh1) = free_list_ (with_free_list rest (pool fh)))).
  { apply (insert_record_returns fh buf f); try done; try lia.
    - by apply reachable_sized.
    - by apply reachable_frames_inv. }
  destruct (Htotal fh eq_refl) as (rid & fh1 & Hins & -> & Hfl1).
  destruct (insert_record_leaves _ _ _ _ Ht Hp (proj2 Hnrpp) Hins)
    as (f' & pg & bytes & n & Hfd1 & Hrs1 & Hnpp1 & Hbms1 & _ & _ & _ & _ & _ & _ & _ & _ & _
        & _ & _ & [(Hhead & _)|(_ & Hff & Hnum & _ & Hcnt)]); [done|].
  assert (Hc : default 0 (fd2pageno_ (disk_manager_ (pool fh1)) !! fd_ fh1)
               = default 0 (fd2pageno_ (disk_manager_ (pool fh)) !! fd_ fh) + 1).
  { rewrite Hcnt, Hfd1, lookup_insert_eq. reflexivity. }
  destruct (IH fh1) as (fh2 & Hrun).
  - pose proof (insert_record_reachable buf fh Hreach) as Hr. by rewrite Hins in Hr.
  - done.
  - by rewrite Hfd1.
  - lia.
  - lia.
  - lia.
  - lia.
  - by rewrite Hnpp1, Hbms1.
  - by rewrite Hrs1.
  - by rewrite Hbms1, Hrs1.
  - by rewrite Hrs1.
  - simpl in Hfl1. rewrite Hfl1. simpl in Hframes. lia.
  - exists fh2. simpl for_all.
    rewrite (bind_run _ _ _ _ _ Hins), (bind_run _ _ _ _ _ Hrun). unfold ret.
    rewrite Hc.
    rewrite (seqZ_cons _ (Z.of_nat (S (length bufs)))) by lia.
    rewrite fmap_cons.
    replace (Z.pred (Z.of_nat (S (length bufs)))) with (Z.of_nat (length bufs)) by lia.
    reflexivity.
Qed.

(** C10. create_new_page_handle leaves the free-list head of the file
    header as it was, whether it returns or throws; so with an empty free
    list every insert_record of a run of inserts creates a page: the free
    list stays empty, the page count grows by one per insert, and the
    records go to consecutive new page numbers, whatever the capacity of a
    page.  And these inserts do return.  On a file without a free page, whose
    page has room for the page header, the bitmap and a record, with at
    least one slot to a page and a bitmap bit for every slot, with a
    descriptor below MAX_FD, page counters that stay within an int and a
    buffer of at least record_size bytes: insert_record returns whenever
    the pool gives a frame (a free one, or a victim that was written back if
    dirty), with slot 0 of the page it made; and a run of inserts returns,
    each with slot 0 of a page of its own, on a pool that has a free frame
    for each of them. *)
Theorem new_pages_never_enter_free_list :
  (forall fh r fh1,
     create_new_page_handle fh = (r, fh1) ->
     first_free_page_no (file_hdr_ fh1) = first_free_page_no (file_hdr_ fh)) /\
  (forall fh bufs rids fh',
     reachable (pool fh) ->
     num_records_per_page (file_hdr_ fh) <= 8 * bitmap_size (file_hdr_ fh) ->
     first_free_page_no (file_hdr_ fh) = RM_NO_FREE_PAGE ->
     for_all insert_record bufs fh = (Ret rids, fh') ->
     first_free_page_no (file_hdr_ fh') = RM_NO_FREE_PAGE /\
     num_pages (file_hdr_ fh') = num_pages (file_hdr_ fh) + Z.of_nat (length bufs) /\
     rid_page_no <$> rids
     = seqZ (default 0 (fd2pageno_ (disk_manager_ (pool fh)) !! fd_ fh))
            (Z.of_nat (length bufs))) /\
  (forall fh buf f b1,
     reachable (pool fh) ->
     first_free_page_no (file_hdr_ fh) = RM_NO_FREE_PAGE ->
     0 <= fd_ fh < MAX_FD ->
     0 <= default 0 (fd2pageno_ (disk_manager_ (pool fh)) !! fd_ fh) < INT_MAX ->
     0 <= num_pages (file_hdr_ fh) < INT_MAX ->
     1 <= num_records_per_page (file_hdr_ fh) <= 8 * bitmap_size (file_hdr_ fh) ->
     0 <= record_size (file_hdr_ fh) ->
     sizeof_RmPageHdr + bitmap_size (file_hdr_ fh) + record_size (file_hdr_ fh)
       <= PAGE_SIZE ->
     record_size (file_hdr_ fh) <= Z.of_nat (length buf) ->
     find_victim_page (pool fh) = (Ret (Some f), b1) ->
     exists fh',
       insert_record buf fh
       = (Ret (mkRid (default 0 (fd2pageno_ (disk_manager_ (pool fh)) !! fd_ fh)) 0), fh') /\
       first_free_page_no (file_hdr_ fh') = RM_NO_FREE_PAGE /\
       num_pages (file_hdr_ fh') = num_pages (file_hdr_ fh) + 1) /\
  (forall fh bufs,
     reachable (pool fh) ->
     first_free_page_no (file_hdr_ fh) = RM_NO_FREE_PAGE ->
     0 <= fd_ fh < MAX_FD ->
     0 <= default 0 (fd2pageno_ (disk_manager_ (pool fh)) !! fd_ fh) ->
     default 0 (fd2pageno_ (disk_manager_ (pool fh)) !! fd_ fh) + Z.of_nat (length bufs)
       <= INT_MAX ->
     0 <= num_pages (file_hdr_ fh) ->
     num_pages (file_hdr_ fh) + Z.of_nat (length bufs) <= INT_MAX ->
     1 <= num_records_per_page (file_hdr_ fh) <= 8 * bitmap_size (file_hdr_ fh) ->
     0 <= record_size (file_hdr_ fh) ->
     sizeof_RmPageHdr + bitmap_size (file_hdr_ fh) + record_size (file_hdr_ fh)
       <= PAGE_SIZE ->
     Forall (fun buf => record_size (file_hdr_ fh) <= Z.of_nat (length buf)) bufs ->
     (length bufs <= length (free_list_ (pool fh)))%nat ->
     exists fh',
       for_all insert_record bufs fh
       = (Ret ((fun p => mkRid p 0)
                 <$> seqZ (default 0 (fd2pageno_ (disk_manager_ (pool fh)) !! fd_ fh))
                          (Z.of_nat (length bufs))), fh') /\
       first_free_page_no (file_hdr_ fh') = RM_NO_FREE_PAGE /\
       num_pages (file_hdr_ fh') = num_pages (file_hdr_ fh) + Z.of_nat (length bufs)).
Proof.
  split; [apply create_new_page_handle_first_free|].
  split.
  { intros fh bufs rids fh' Hreach. apply inserts_take_new_pages.
    - by apply reachable_table_inv.
    - by apply reachable_pool_inv. }
  split.
  - intros fh buf f b1 Hreach Hfree Hfd Hcnt Hnum Hnrpp Hrs Hfit Hbuf Hfind.
    pose proof (reachable_table_inv _ Hreach) as Ht.
    pose proof (reachable_pool_inv _ Hreach) as Hp.
    destruct (insert_record_returns fh buf f b1 Ht Hp (reachable_sized _ Hreach)
                (reachable_frames_inv _ Hreach) Hfind Hfree Hfd Hcnt Hnum Hnrpp Hrs Hfit
                Hbuf fh eq_refl) as (rid & fh' & Hins & -> & _).
    exists fh'. split; [done|].
    destruct (inserts_take_new_pages [buf] fh
                [mkRid (default 0 (fd2pageno_ (disk_manager_ (pool fh)) !! fd_ fh)) 0] fh'
                Ht Hp (proj2 Hnrpp) Hfree) as (Hff & Hnp & _); [|done].
    simpl. by rewrite (bind_run _ _ _ _ _ Hins).
  - intros fh bufs Hreach Hfree Hfd Hc0 Hc1 Hn0 Hn1 Hnrpp Hrs Hfit Hbufs Hframes.
    destruct (inserts_return bufs fh Hreach Hfree Hfd Hc0 Hc1 Hn0 Hn1 Hnrpp Hrs Hfit
                Hbufs Hframes) as (fh' & Hrun).
    exists fh'. split; [done|].
    destruct (inserts_take_new_pages bufs fh _ fh' (reachable_table_inv _ Hreach)
                (reachable_pool_inv _ Hreach) (proj2 Hnrpp) Hfree Hrun) as (Hff & Hnp & _).
    done.
Qed.

End NewPageReturns.

(** ** A read that comes short *)

Section ShortRead.
Context {cfg : Config}.

Lemma read_page_mem_short dm fd0 q buf n path o content :
  fdtab (kernel dm) !! fd0 = Some (path, o) ->
  files (kernel dm) !! path = Some content ->
  0 <= q * PAGE_SIZE < Z.of_nat (length content) ->
  Z.of_nat (length content) < q * PAGE_SIZE + n ->
  Z.of_nat (length content) - q * PAGE_SIZE <= Z.of_nat (length buf) ->
  exists dm',
    read_page_mem fd0 q buf n dm
    = (Ret (drop (Z.to_nat (q * PAGE_SIZE)) content
            ++ drop (length (drop (Z.to_nat (q * PAGE_SIZE)) content)) buf,
            Some InternalError), dm').
Proof.
  intros Hfd Hp Hq Hn Hbuf.
  set (bs := drop (Z.to_nat (q * PAGE_SIZE)) content).
  assert (Hlen : Z.of_nat (length bs) = Z.of_nat (length content) - q * PAGE_SIZE).
  { unfold bs. rewrite length_drop. lia. }
  unfold read_page_mem, bind, get, sys_fstat, sys_stat. rewrite Hfd, Hp. simpl.
  rewrite bool_decide_eq_false_2 by lia.
  unfold sys, zoom, sys_lseek. rewrite Hfd.
  rewrite bool_decide_eq_true_2 by lia. simpl.
  rewrite bool_decide_eq_false_2 by lia.
  unfold sys_read. simpl. rewrite lookup_insert_eq, Hp. simpl.
  rewrite take_ge by (fold bs; lia). fold bs.
  rewrite mem_write_0 by lia. simpl.
  rewrite bool_decide_eq_true_2 by lia.
  unfold ret. eauto.
Qed.

(** A short read leaves the bytes read in the buffer.  When the file ends
    inside the page that is asked for, read_page stores the bytes from the
    page offset to the end of the file at the front of the buffer, leaves
    the rest of the buffer as it was, and throws InternalError.  fetch_page
    reads into the frame it took: when it throws for a short read, the
    frame holds these bytes under the id of the page that was asked for. *)
Theorem short_read_fills_the_buffer :
  (forall dm fd0 q buf n path o content,
     fdtab (kernel dm) !! fd0 = Some (path, o) ->
     files (kernel dm) !! path = Some content ->
     0 <= q * PAGE_SIZE < Z.of_nat (length content) ->
     Z.of_nat (length content) < q * PAGE_SIZE + n ->
     Z.of_nat (length content) - q * PAGE_SIZE <= Z.of_nat (length buf) ->
     exists dm',
       read_page_mem fd0 q buf n dm
       = (Ret (drop (Z.to_nat (q * PAGE_SIZE)) content
               ++ drop (length (drop (Z.to_nat (q * PAGE_SIZE)) content)) buf,
               Some InternalError), dm') /\
       read_page fd0 q buf n dm = (Throw InternalError, dm')) /\
  (forall b pid f rest pg path o content,
     page_table_ b !! pid = None ->
     free_list_ b = f :: rest ->
     pages_ b !! f = Some pg ->
     fdtab (kernel (disk_manager_ b)) !! fd pid = Some (path, o) ->
     files (kernel (disk_manager_ b)) !! path = Some content ->
     0 <= page_no pid * PAGE_SIZE < Z.of_nat (length content) ->
     Z.of_nat (length content) < page_no pid * PAGE_SIZE + PAGE_SIZE ->
     Z.of_nat (length content) - page_no pid * PAGE_SIZE <= Z.of_nat (length (data_ pg)) ->
     exists b',
       fetch_page pid b = (Throw InternalError, b') /\
       pages_ b' !! f
       = Some (mkPage pid
                 (drop (Z.to_nat (page_no pid * PAGE_SIZE)) content
                  ++ drop (length (drop (Z.to_nat (page_no pid * PAGE_SIZE)) content))
                       (data_ pg))
                 (is_dirty_ pg) (pin_count_ pg))).
Proof.
  split.
  - intros dm fd0 q buf n path o content Hfd Hp Hq Hn Hbuf.
    destruct (read_page_mem_short dm fd0 q buf n path o content Hfd Hp Hq Hn Hbuf)
      as (dm' & Hrun).
    exists dm'. split; [done|]. unfold read_page. by rewrite (bind_run _ _ _ _ _ Hrun).
  - intros b pid f rest pg path o content Htab Hfree Hpg Hfd Hp Hq Hn Hbuf.
    destruct (read_page_mem_short (disk_manager_ b) (fd pid) (page_no pid) (data_ pg)
                PAGE_SIZE path o content Hfd Hp Hq Hn Hbuf) as (dm' & Hrun).
    rewrite fetch_page_eq, Htab, find_victim_page_eq, Hfree. simpl. rewrite Hpg.
    unfold read_page, read_page_memory. rewrite (bind_run _ _ _ _ _ Hrun), Hrun. simpl.
    eexists. split; [reflexivity|]. simpl.
    apply list_lookup_insert_eq. by apply lookup_lt_Some in Hpg.
Qed.

End ShortRead.

(** ** More runs on the example database *)

Lemma victims_come_in_unpin_order_witness :
  exists r1 r2,
    for_all unpin [2; 0; 1]%nat (LRUReplacer_new 3) = (Ret (replicate 3 tt), r1) /\
    Size r1 = 3%nat /\
    for_all (fun _ => victim) [2; 0; 1]%nat r1 = (Ret (Some <$> [2; 0; 1]%nat), r2) /\
    victim r2 = (Ret None, r2).
Proof.
  apply (victims_come_in_unpin_order [2; 0; 1]%nat 3). compute_done.
Defined.

Lemma pinned_frame_is_no_victim_witness :
  (pin 1%nat;; for_all (fun _ => victim) [tt; tt; tt]) (mkLRU [2; 1; 0]%nat {[0; 1; 2]}%nat 3)
  = (Ret [Some 0%nat; Some 2%nat; None], mkLRU [] ∅ 3) /\
  Some 1%nat ∉ [Some 0%nat; Some 2%nat; None].
Proof.
  split; [vm_compute; reflexivity|].
  apply (pinned_frame_is_no_victim (mkLRU [2; 1; 0]%nat {[0; 1; 2]}%nat 3) 1%nat [tt; tt; tt]
           [Some 0%nat; Some 2%nat; None] (mkLRU [] ∅ 3)).
  - split; [compute_done|]. intros x. set_solver.
  - vm_compute. reflexivity.
Defined.

Lemma pin_unpin_makes_most_recent_witness :
  exists r',
    (pin 0%nat;; unpin 0%nat;; for_all (fun _ => victim) [2; 1; 0]%nat)
      (mkLRU [2; 1; 0]%nat {[0; 1; 2]}%nat 3)
    = (Ret (Some <$> (reverse (erase_node 0%nat [2; 1; 0]%nat) ++ [0%nat])), r') /\
    Size r' = 0%nat.
Proof.
  apply (pin_unpin_makes_most_recent (mkLRU [2; 1; 0]%nat {[0; 1; 2]}%nat 3) 0%nat).
  - split; [compute_done|]. intros x. set_solver.
  - compute_done.
Defined.

Lemma open_file_then_close_file_witness :
  exists dm2,
    close_file 3 (open_file "t.db" (DiskManager_new example_kernel)).2 = (Ret tt, dm2) /\
    fd2pageno_ dm2 = ∅ /\
    fd_occupied_ dm2 = ∅ /\
    fd2path_ dm2 = ∅ /\
    path2fd_ dm2 = ∅ /\
    files (kernel dm2) = files example_kernel /\
    fdtab (kernel dm2) = fdtab example_kernel /\
    trace (kernel dm2) = trace example_kernel ++ [EvOpen "t.db" 3; EvClose 3].
Proof.
  apply (open_file_then_close_file "t.db" (DiskManager_new example_kernel) 3).
  - apply dm_inv_new.
  - vm_compute. reflexivity.
Defined.

Lemma close_file_twice_witness :
  close_file 3 (close_file 3 example_disk).2
  = (Throw InternalError, (close_file 3 example_disk).2).
Proof.
  apply (close_file_twice 3 example_disk). vm_compute. reflexivity.
Defined.

Lemma get_file_name_after_open_and_close_witness :
  get_file_name 3 (open_file "t.db" (DiskManager_new example_kernel)).2
  = (Ret "t.db"%string, (open_file "t.db" (DiskManager_new example_kernel)).2) /\
  exists dm2,
    close_file 3 (open_file "t.db" (DiskManager_new example_kernel)).2 = (Ret tt, dm2) /\
    get_file_name 3 dm2 = (Throw FileNotOpenError, dm2).
Proof.
  apply (get_file_name_after_open_and_close "t.db" (DiskManager_new example_kernel) 3).
  - apply dm_inv_new.
  - vm_compute. reflexivity.
Defined.


Lemma destroy_file_needs_closed_file_witness :
  let dm1 := (open_file "t.db" (DiskManager_new example_kernel)).2 in
  destroy_file "t.db" dm1 = (Throw InternalError, dm1) /\
  exists dm2 dm3,
    close_file 3 dm1 = (Ret tt, dm2) /\
    destroy_file "t.db" dm2 = (Ret tt, dm3) /\
    is_file "t.db" dm3 = false /\
    open_file "t.db" dm3 = (Throw FileNotFoundError, dm3).
Proof.
  apply (destroy_file_needs_closed_file "t.db" (DiskManager_new example_kernel) 3).
  - apply dm_inv_new.
  - intros fd1. simpl. rewrite lookup_empty. discriminate.
  - vm_compute. reflexivity.
Defined.

Lemma write_page_keeps_other_pages_witness :
  exists dm2,
    read_page (cfg := example_config) 3 2 (replicate 4096 9) 4096
      (write_page (cfg := example_config) 3 1 (replicate 4096 5) 4096 example_disk).2
    = (Ret (zeros 4096), dm2).
Proof.
  apply (write_page_keeps_other_pages (cfg := example_config) example_disk 3 1 2
           (replicate 4096 5) 4096 (replicate 4096 9) 4096 (zeros 4096) example_disk).
  - lia.
  - simpl. lia.
  - simpl. lia.
  - vm_compute. reflexivity.
  - vm_compute. reflexivity.
Defined.

Lemma frames_are_accounted_for_witness :
  length (pages_ example_dirty_pool) = pool_size_ example_dirty_pool /\
  (forall p q f, page_table_ example_dirty_pool !! p = Some f ->
                 page_table_ example_dirty_pool !! q = Some f -> p = q) /\
  (forall p f, page_table_ example_dirty_pool !! p = Some f ->
     (f ∉ free_list_ example_dirty_pool) /\
     exists pg, pages_ example_dirty_pool !! f = Some pg /\ id_ pg = p) /\
  (forall f, f ∈ LRUlist_ (replacer_ example_dirty_pool) ->
     (f ∉ free_list_ example_dirty_pool) /\
     exists pg, pages_ example_dirty_pool !! f = Some pg /\ pin_count_ pg = 0) /\
  (Size (replacer_ example_dirty_pool) + length (free_list_ example_dirty_pool)
   <= pool_size_ example_dirty_pool)%nat.
Proof.
  apply (frames_are_accounted_for (cfg := example_config) example_dirty_pool).
  apply reach_unpin_page, reach_fetch_page, reach_new.
Defined.

Lemma delete_page_frees_the_frame_witness :
  exists r b',
    delete_page (cfg := example_config) example_page1 example_dirty_pool = (Ret r, b') /\
    (r = false <->
       exists f pg, page_table_ example_dirty_pool !! example_page1 = Some f /\
                    pages_ example_dirty_pool !! f = Some pg /\ 0 < pin_count_ pg) /\
    (r = false -> b' = example_dirty_pool) /\
    (r = true ->
       page_table_ b' !! example_page1 = None /\
       disk_manager_ b' = disk_manager_ example_dirty_pool /\
       forall f, page_table_ example_dirty_pool !! example_page1 = Some f ->
         free_list_ b' = free_list_ example_dirty_pool ++ [f] /\
         (f ∉ LRUlist_ (replacer_ b')) /\
         exists pg,
           pages_ example_dirty_pool !! f = Some pg /\
           pages_ b' !! f
           = Some (mkPage (mkPageId (INVALID_PAGE_ID (Config := example_config))
                             (INVALID_PAGE_ID (Config := example_config)))
                     (data_ pg) false 0)).
Proof.
  apply (delete_page_frees_the_frame (cfg := example_config) example_dirty_pool example_page1).
  apply reach_unpin_page, reach_fetch_page, reach_new.
Defined.

Lemma flush_page_writes_the_frame_witness :
  exists f pg,
    page_table_ example_dirty_pool !! example_page1 = Some f /\
    pages_ example_dirty_pool !! f = Some pg /\
    trace (kernel (disk_manager_
                     (flush_page (cfg := example_config) example_page1 example_dirty_pool).2))
    = trace (kernel (disk_manager_ example_dirty_pool))
      ++ [EvWrite 3 4096 (take 4096 (data_ pg))].
Proof.
  destruct (flush_page_writes_the_frame (cfg := example_config) example_dirty_pool
              example_page1
              (flush_page (cfg := example_config) example_page1 example_dirty_pool).2)
    as [_ Hflush].
  destruct Hflush as (f & pg & Htab & Hpg & _ & _ & _ & _ & Htrace & _).
  { vm_compute. reflexivity. }
  exists f, pg. split; [exact Htab|]. split; [exact Hpg | exact Htrace].
Defined.

Lemma fetch_page_failed_read_loses_frame_witness :
  let b' := (fetch_page (cfg := example_config) (mkPageId 3 0) example_short_pool).2 in
  (fetch_page (cfg := example_config) (mkPageId 3 0) example_short_pool).1
  = Throw InternalError /\
  (0%nat ∉ free_list_ b') /\
  (0%nat ∉ LRUlist_ (replacer_ b')) /\
  (forall q, page_table_ b' !! q <> Some 0%nat) /\
  free_list_ b' = [].
Proof.
  split; [vm_compute; reflexivity|].
  apply (fetch_page_failed_read_loses_frame (cfg := example_config) example_short_pool
           (mkPageId 3 0) 0%nat [] InternalError).
  - apply reach_new.
  - reflexivity.
  - reflexivity.
  - vm_compute. reflexivity.
Defined.

Lemma flush_all_pages_cleans_the_file_witness :
  let b' := (flush_all_pages (cfg := example_config) 3 example_dirty_pool).2 in
  pages_ b'
  = (fun pg => if bool_decide (fd (id_ pg) = 3) then clean pg else pg)
      <$> pages_ example_dirty_pool /\
  page_table_ b' = page_table_ example_dirty_pool /\
  free_list_ b' = free_list_ example_dirty_pool /\
  replacer_ b' = replacer_ example_dirty_pool /\
  trace (kernel (disk_manager_ b'))
  = trace (kernel (disk_manager_ example_dirty_pool))
    ++ ((fun pg => EvWrite 3 (page_no (id_ pg) * 4096) (take 4096 (data_ pg)))
          <$> filter (fun pg => fd (id_ pg) = 3) (pages_ example_dirty_pool)).
Proof.
  apply (flush_all_pages_cleans_the_file (cfg := example_config) example_dirty_pool 3).
  - reflexivity.
  - vm_compute. reflexivity.
Defined.

Lemma fetch_page_then_unpin_page_witness :
  exists b2,
    unpin_page example_page1 false
      (fetch_page (cfg := example_config) example_page1 example_pool).2 = (Ret true, b2) /\
    (forall q, pin_of b2 q = pin_of example_pool q) /\
    (0 < pin_of example_pool example_page1 -> false = false -> b2 = example_pool).
Proof.
  apply (fetch_page_then_unpin_page (cfg := example_config) example_pool example_page1 false
           0%nat).
  - apply reach_new.
  - intros f Hf. by apply elem_of_nil in Hf.
  - vm_compute. reflexivity.
Defined.

(** ** Runs of the record operations on the example database *)

Lemma reachable_with_header fh b fd0 hdr :
  reachable (cfg := example_config) (buffer_pool_manager_ fh) ->
  b = buffer_pool_manager_ fh ->
  reachable (cfg := example_config) (buffer_pool_manager_ (mkRmFileHandle b fd0 hdr)).
Proof. intros H ->. exact H. Qed.

Lemma example_inserted_reachable :
  reachable (cfg := example_config) (buffer_pool_manager_ example_inserted).
Proof.
  exact (insert_record_reachable (cfg := example_config) example_record example_file
           (reach_new (cfg := example_config) 2 example_disk)).
Qed.

Lemma example_linked_reachable :
  reachable (cfg := example_config) (buffer_pool_manager_ example_linked).
Proof.
  exact (reachable_with_header example_inserted _ _ _ example_inserted_reachable eq_refl).
Qed.

Lemma example_two_reachable :
  reachable (cfg := example_config) (buffer_pool_manager_ example_two).
Proof.
  exact (insert_record_reachable (cfg := example_config) example_record2 example_linked
           example_linked_reachable).
Qed.

Lemma example_inserted_evictable :
  evictable_inv (buffer_pool_manager_ example_inserted).
Proof.
  assert (HL : LRUlist_ (replacer_ (buffer_pool_manager_ example_inserted)) = [0%nat])
    by (vm_compute; reflexivity).
  intros f Hf. rewrite HL in Hf. apply list_elem_of_singleton in Hf as ->.
  exists example_page1. vm_compute. reflexivity.
Qed.

Lemma record_operations_release_their_pin_witness :
  (get_record (cfg := example_config) (mkRid 1 0) example_inserted).1 = Ret example_record /\
  (get_record (cfg := example_config) (mkRid 1 1) example_inserted).1 = Throw RuntimeError /\
  pin_of (buffer_pool_manager_
            (get_record (cfg := example_config) (mkRid 1 0) example_inserted).2) example_page1
  = pin_of (buffer_pool_manager_ example_inserted) example_page1 /\
  pin_of (buffer_pool_manager_
            (get_record (cfg := example_config) (mkRid 1 1) example_inserted).2) example_page1
  = pin_of (buffer_pool_manager_ example_inserted) example_page1.
Proof.
  split; [vm_compute; reflexivity|]. split; [vm_compute; reflexivity|].
  destruct (record_operations_release_their_pin (cfg := example_config) example_inserted
              example_inserted_reachable example_inserted_evictable) as (Hget & _).
  split.
  - apply (Hget (mkRid 1 0)
             (get_record (cfg := example_config) (mkRid 1 0) example_inserted).1).
    + by destruct (get_record (cfg := example_config) (mkRid 1 0) example_inserted).
    + vm_compute. discriminate.
  - apply (Hget (mkRid 1 1)
             (get_record (cfg := example_config) (mkRid 1 1) example_inserted).1).
    + by destruct (get_record (cfg := example_config) (mkRid 1 1) example_inserted).
    + vm_compute. discriminate.
Defined.

Lemma update_record_then_get_record_witness :
  exists fh2,
    get_record (cfg := example_config) (mkRid 1 0)
      (update_record (cfg := example_config) (mkRid 1 0) example_record2 example_linked).2
    = (Ret (take (Z.to_nat 1500) example_record2), fh2).
Proof.
  apply (update_record_then_get_record (cfg := example_config) (mkRid 1 0) example_record2
           example_linked).
  - apply example_linked_reachable.
  - by vm_compute.
  - vm_compute. reflexivity.
Defined.

Lemma update_record_keeps_other_records_witness :
  exists fh2,
    get_record (cfg := example_config) (mkRid 1 1)
      (update_record (cfg := example_config) (mkRid 1 0) (replicate 1500 5) example_two).2
    = (Ret example_record2, fh2).
Proof.
  apply (update_record_keeps_other_records (cfg := example_config) (mkRid 1 0)
           (replicate 1500 5) example_two _ (mkRid 1 1) example_record2
           (get_record (cfg := example_config) (mkRid 1 1) example_two).2).
  - apply example_two_reachable.
  - by vm_compute.
  - by vm_compute.
  - reflexivity.
  - by vm_compute.
  - vm_compute. reflexivity.
  - vm_compute. reflexivity.
Defined.

Lemma delete_record_then_get_record_witness :
  exists fh2,
    get_record (cfg := example_config) (mkRid 1 0)
      (delete_record (cfg := example_config) (mkRid 1 0) example_two).2
    = (Throw RuntimeError, fh2).
Proof.
  apply (delete_record_then_get_record (cfg := example_config) (mkRid 1 0) example_two).
  - apply example_two_reachable.
  - vm_compute. reflexivity.
Defined.

Lemma delete_record_keeps_other_records_witness :
  exists fh2,
    get_record (cfg := example_config) (mkRid 1 1)
      (delete_record (cfg := example_config) (mkRid 1 0) example_two).2
    = (Ret example_record2, fh2).
Proof.
  apply (delete_record_keeps_other_records (cfg := example_config) (mkRid 1 0)
           example_two _ (mkRid 1 1) example_record2
           (get_record (cfg := example_config) (mkRid 1 1) example_two).2).
  - apply example_two_reachable.
  - by vm_compute.
  - by vm_compute.
  - reflexivity.
  - by vm_compute.
  - vm_compute. reflexivity.
  - vm_compute. reflexivity.
Defined.

Lemma insert_record_takes_lowest_free_slot_witness :
  (insert_record (cfg := example_config) example_record2 example_linked).1 = Ret (mkRid 1 1) /\
  (exists fh2,
     get_record (cfg := example_config) (mkRid 1 1) example_linked = (Throw RuntimeError, fh2)) /\
  (exists r fh2,
     get_record (cfg := example_config) (mkRid 1 0) example_linked = (Ret r, fh2)).
Proof.
  split; [vm_compute; reflexivity|].
  destruct (insert_record_takes_lowest_free_slot (cfg := example_config) example_record2
              example_linked (mkRid 1 1) example_two) as (_ & _ & Hfree & Hlow).
  - apply example_linked_reachable.
  - by vm_compute.
  - by vm_compute.
  - vm_compute. reflexivity.
  - split; [exact Hfree|]. apply (Hlow 0). by vm_compute.
Defined.

Lemma insert_record_keeps_other_records_witness :
  exists fh2,
    get_record (cfg := example_config) (mkRid 1 0) example_two = (Ret example_record, fh2).
Proof.
  apply (insert_record_keeps_other_records (cfg := example_config) example_record2
           example_linked (mkRid 1 1) example_two (mkRid 1 0) example_record
           (get_record (cfg := example_config) (mkRid 1 0) example_linked).2).
  - apply example_linked_reachable.
  - by vm_compute.
  - by vm_compute.
  - by vm_compute.
  - reflexivity.
  - vm_compute. reflexivity.
  - vm_compute. reflexivity.
Defined.

Lemma next_stops_at_a_record_witness :
  rid_ (next (cfg := example_config) (mkRmScan example_linked (mkRid 0 (-1)))).2 = mkRid 1 0 /\
  exists fh2,
    get_record (cfg := example_config) (mkRid 1 0)
      (file_handle_ (next (cfg := example_config) (mkRmScan example_linked (mkRid 0 (-1)))).2)
    = (Ret example_record, fh2).
Proof.
  split; [vm_compute; reflexivity|].
  destruct (next_stops_at_a_record (cfg := example_config)
              (mkRmScan example_linked (mkRid 0 (-1)))
              (next (cfg := example_config) (mkRmScan example_linked (mkRid 0 (-1)))).2)
    as (_ & _ & _ & f & pg & Htab & Hpg & _ & _ & Hget).
  - apply example_linked_reachable.
  - vm_compute. reflexivity.
  - vm_compute. reflexivity.
  - vm_compute in Htab. injection Htab as <-.
    vm_compute in Hpg. injection Hpg as <-.
    apply Hget; vm_compute; reflexivity.
Defined.

Lemma delete_record_twice_witness :
  (exists fh2,
     delete_record (cfg := example_config) (mkRid 1 0)
       (delete_record (cfg := example_config) (mkRid 1 0) example_two).2
     = (Throw RuntimeError, fh2) /\
     file_hdr_ fh2
     = file_hdr_ (delete_record (cfg := example_config) (mkRid 1 0) example_two).2 /\
     data_ <$> pages_ (buffer_pool_manager_ fh2)
     = data_ <$> pages_ (buffer_pool_manager_
                           (delete_record (cfg := example_config) (mkRid 1 0) example_two).2)) /\
  (exists fh2,
     update_record (cfg := example_config) (mkRid 1 0) example_record
       (delete_record (cfg := example_config) (mkRid 1 0) example_two).2
     = (Throw RuntimeError, fh2) /\
     file_hdr_ fh2
     = file_hdr_ (delete_record (cfg := example_config) (mkRid 1 0) example_two).2 /\
     data_ <$> pages_ (buffer_pool_manager_ fh2)
     = data_ <$> pages_ (buffer_pool_manager_
                           (delete_record (cfg := example_config) (mkRid 1 0) example_two).2)).
Proof.
  apply (delete_record_twice (cfg := example_config) (mkRid 1 0) example_record example_two).
  - apply example_two_reachable.
  - vm_compute. reflexivity.
Defined.

Lemma example_log_ready : log_ready (log := example_log_config) example_log.
Proof.
  split; [by eexists|]. simpl. split; [apply dm_inv_new | by vm_compute].
Qed.

Lemma write_log_appends_witness :
  exists l',
    write_log (log := example_log_config) [7; 8; 9] 2 example_log = (Ret tt, l') /\
    files (kernel (disk_manager l'))
    = <[ "db.log"%string := [1; 2; 3] ++ [7; 8] ]> (files (kernel (disk_manager example_log))) /\
    log_ready (log := example_log_config) l' /\
    log_fd_ l' <> -1 /\
    exists o, fdtab (kernel (disk_manager l')) !! log_fd_ l' = Some ("db.log"%string, o).
Proof.
  apply (write_log_appends (log := example_log_config) [7; 8; 9] 2 example_log [1; 2; 3]
           [7; 8]).
  - apply example_log_ready.
  - reflexivity.
  - reflexivity.
Defined.

Lemma read_log_reads_at_offset_witness :
  (exists l',
     read_log (log := example_log_config) [0; 0; 0; 0] 4 4 example_log
     = (Ret (-1, [0; 0; 0; 0]), l') /\
     files (kernel (disk_manager l')) = files (kernel (disk_manager example_log)) /\
     log_ready (log := example_log_config) l') /\
  (exists l',
     read_log (log := example_log_config) [0; 0; 0; 0] 4 1 example_log
     = (Ret (2, [2; 3; 0; 0]), l') /\
     files (kernel (disk_manager l')) = files (kernel (disk_manager example_log)) /\
     log_ready (log := example_log_config) l').
Proof.
  split.
  - destruct (read_log_reads_at_offset (log := example_log_config) [0; 0; 0; 0] 4 4
                example_log [1; 2; 3]) as [Hbeyond _].
    + apply example_log_ready.
    + reflexivity.
    + by vm_compute.
    + apply Hbeyond. by vm_compute.
  - destruct (read_log_reads_at_offset (log := example_log_config) [0; 0; 0; 0] 4 1
                example_log [1; 2; 3]) as [_ Hinside].
    + apply example_log_ready.
    + reflexivity.
    + by vm_compute.
    + apply Hinside; by vm_compute.
Defined.

Lemma write_log_then_read_log_witness :
  exists l2,
    read_log (log := example_log_config) [0; 0; 0; 0] 2 3
      (write_log (log := example_log_config) [7; 8; 9] 2 example_log).2
    = (Ret (2, [7; 8; 0; 0]), l2).
Proof.
  apply (write_log_then_read_log (log := example_log_config) [7; 8; 9] 2 [0; 0; 0; 0]
           example_log [1; 2; 3] [7; 8]).
  - apply example_log_ready.
  - reflexivity.
  - reflexivity.
  - by vm_compute.
  - by vm_compute.
  - vm_compute. reflexivity.
Defined.

Lemma example_filled_reachable :
  reachable (cfg := example_config) (buffer_pool_manager_ example_filled).
Proof.
  exact (preserves_for_all (fun fh => reachable (cfg := example_config) (buffer_pool_manager_ fh))
           (insert_record (cfg := example_config))
           [example_record; example_record2]
           (insert_record_reachable (cfg := example_config))
           example_file (reach_new (cfg := example_config) 2 example_disk)).
Qed.

Lemma new_pages_never_enter_free_list_witness :
  first_free_page_no
    (file_hdr_ (create_new_page_handle (cfg := example_config) example_file).2)
  = first_free_page_no (file_hdr_ example_file) /\
  (first_free_page_no (file_hdr_ example_filled) = RM_NO_FREE_PAGE /\
   num_pages (file_hdr_ example_filled) = num_pages (file_hdr_ example_file) + 2) /\
  (exists fh',
     insert_record (cfg := example_config) example_record example_filled
     = (Ret (mkRid 3 0), fh') /\
     first_free_page_no (file_hdr_ fh') = RM_NO_FREE_PAGE /\
     num_pages (file_hdr_ fh') = num_pages (file_hdr_ example_filled) + 1) /\
  (exists fh',
     for_all (insert_record (cfg := example_config)) [example_record; example_record2]
       example_file
     = (Ret [mkRid 1 0; mkRid 2 0], fh') /\
     first_free_page_no (file_hdr_ fh') = RM_NO_FREE_PAGE /\
     num_pages (file_hdr_ fh') = num_pages (file_hdr_ example_file) + 2).
Proof.
  destruct (new_pages_never_enter_free_list (cfg := example_config))
    as (Hnew & Hrun & Hone & Hall).
  split; [|split; [|split]].
  - apply (Hnew example_file
             (create_new_page_handle (cfg := example_config) example_file).1).
    by destruct (create_new_page_handle (cfg := example_config) example_file).
  - destruct (Hrun example_file [example_record; example_record2]
                [mkRid 1 0; mkRid 2 0] example_filled) as (Hff & Hnp & _).
    + exact (reach_new (cfg := example_config) 2 example_disk).
    + by vm_compute.
    + reflexivity.
    + vm_compute. reflexivity.
    + split; [exact Hff | exact Hnp].
  - apply (Hone example_filled example_record 0%nat
             (find_victim_page (cfg := example_config) (buffer_pool_manager_ example_filled)).2).
    + exact example_filled_reachable.
    + by vm_compute.
    + by vm_compute.
    + by vm_compute.
    + by vm_compute.
    + by vm_compute.
    + by vm_compute.
    + by vm_compute.
    + by vm_compute.
    + vm_compute. reflexivity.
  - apply (Hall example_file [example_record; example_record2]).
    + exact (reach_new (cfg := example_config) 2 example_disk).
    + reflexivity.
    + by vm_compute.
    + by vm_compute.
    + by vm_compute.
    + by vm_compute.
    + by vm_compute.
    + by vm_compute.
    + by vm_compute.
    + by vm_compute.
    + repeat constructor; by vm_compute.
    + by vm_compute.
Defined.

Lemma short_read_fills_the_buffer_witness :
  (exists dm',
     read_page_mem (cfg := example_config) 3 0 (replicate 4096 9) 4096
       (DiskManager_new example_short_kernel)
     = (Ret (replicate 100 1 ++ replicate 3996 9, Some InternalError), dm') /\
     read_page (cfg := example_config) 3 0 (replicate 4096 9) 4096
       (DiskManager_new example_short_kernel)
     = (Throw InternalError, dm')) /\
  (exists b',
     fetch_page (cfg := example_config) (mkPageId 3 0) example_short_pool
     = (Throw InternalError, b') /\
     pages_ b' !! 0%nat
     = Some (mkPage (mkPageId 3 0) (replicate 100 1 ++ replicate 3996 0) false 0)).
Proof.
  destruct (short_read_fills_the_buffer (cfg := example_config)) as [Hread Hfetch].
  split.
  - destruct (Hread (DiskManager_new example_short_kernel) 3 0 (replicate 4096 9) 4096
                "s.db"%string 0 (replicate 100 1)) as (dm' & Hmem & Hthrow).
    + reflexivity.
    + reflexivity.
    + by vm_compute.
    + by vm_compute.
    + by vm_compute.
    + exists dm'. split; [|exact Hthrow]. rewrite Hmem. vm_compute. reflexivity.
  - destruct (Hfetch example_short_pool (mkPageId 3 0) 0%nat []
                (mkPage (mkPageId (-1) (-1)) (replicate 4096 0) false 0)
                "s.db"%string 0 (replicate 100 1)) as (b' & Hrun & Hframe).
    + reflexivity.
    + reflexivity.
    + reflexivity.
    + reflexivity.
    + reflexivity.
    + by vm_compute.
    + by vm_compute.
    + by vm_compute.
    + exists b'. split; [exact Hrun|]. rewrite Hframe. vm_compute. reflexivity.
Defined.

